(** * The conversation engine of the WhatsApp sales chatbot

    A shallow embedding of the conversation service
    (ConversationService.ts, the first half of src/unnamed/part_001) and of
    the two revisions of the AI service that drive it
    (src/src/services/ai/AIService.ts, the state-machine revision, and the
    second half of src/unnamed/part_001, the auto-advance revision),
    followed by the properties of the specification that concern them.

    Conventions of the embedding:
    - a JS string is a [string]; case mapping acts on the ASCII letters,
      which is all the keyword tables and patterns of the source contain;
    - a [Date] is its time value, the number of milliseconds since the
      epoch, a [Z]; a JS number that counts something is a [Z];
    - string-literal union types are inductive types, interfaces are
      records, an optional property is an [option];
    - a property that the source declares of a union type but fills from
      the answer of the hosted model without checking it (the device, the
      content preference, the plan, the payment method and the sentiment
      of a context and of a classifier answer) is the string it holds at
      run time, whatever it is; the members of the union stand for their
      names;
    - the context objects live in a heap and are passed by location, so
      that a caller that hands the store its own object back is told apart
      from one that hands it a copy;
    - an error is the text that tells it: the message of an [Error] that
      the source throws, and for an error of the platform its name, with
      its message when a property below tells which read or call failed;
    - what the outside world decides (the clock, the answers of the hosted
      model, the history of the channel provider) is an explicit input. *)

From Stdlib Require Import ZArith Lia List Bool Ascii String QArith Sorted.
From stdpp Require Import base option list gmap strings.

Open Scope bool_scope.
Open Scope string_scope.
Open Scope Z_scope.

(** ** JavaScript strings *)

Module Js.

Definition is_upper (a : ascii) : bool :=
    let n := nat_of_ascii a in (65 <=? n)%nat && (n <=? 90)%nat.

Definition is_lower (a : ascii) : bool :=
    let n := nat_of_ascii a in (97 <=? n)%nat && (n <=? 122)%nat.

Definition lower_char (a : ascii) : ascii :=
    if is_upper a then ascii_of_nat (nat_of_ascii a + 32) else a.

Definition upper_char (a : ascii) : ascii :=
    if is_lower a then ascii_of_nat (nat_of_ascii a - 32) else a.

Fixpoint map_chars (f : ascii -> ascii) (s : string) : string :=
    match s with
    | EmptyString => EmptyString
    | String a r => String (f a) (map_chars f r)
    end.

  (** [s.toLowerCase()] and [s.toUpperCase()]. *)
Definition toLowerCase : string -> string := map_chars lower_char.
Definition toUpperCase : string -> string := map_chars upper_char.

  (** [hay.startsWith(needle)]. *)
Fixpoint startsWith (needle hay : string) : bool :=
    match needle, hay with
    | EmptyString, _ => true
    | String a n, String b h => Ascii.eqb a b && startsWith n h
    | String _ _, EmptyString => false
    end.

  (** [hay.includes(needle)]. *)
Fixpoint includes (hay needle : string) : bool :=
    startsWith needle hay ||
    match hay with
    | EmptyString => false
    | String _ h => includes h needle
    end.

  (** [keywords.some(kw => hay.includes(kw))]. *)
Definition includes_any (hay : string) (keywords : list string) : bool :=
    existsb (includes hay) keywords.

  (** [s.substring(0, n)]. *)
Fixpoint take (n : nat) (s : string) : string :=
    match n, s with
    | S k, String a r => String a (take k r)
    | _, _ => EmptyString
    end.

  (** The double quote, which the source writes inside its templates. *)
Definition dquote : string := String (ascii_of_nat 34) EmptyString.

  (** The line feed of the template literals. *)
Definition nl : string := String (ascii_of_nat 10) EmptyString.

  (** Truthiness of an optional string property: absent and empty are
      falsy. *)
Definition truthy (o : option string) : bool :=
    match o with
    | Some s => negb (String.eqb s "")
    | None => false
    end.

  (** Truthiness of an optional property whose values are objects or
      non-empty string literals. *)
Definition present {A} (o : option A) : bool :=
    match o with Some _ => true | None => false end.

End Js.

(** ** The regular expressions of the source

    Both patterns of [extractMacAddress] are sequences of character
    classes of a fixed length, with no alternation between sequences and
    no repetition of unknown length: [(HH[:-]){5}HH] unfolds to seventeen
    classes and [H{12}] to twelve. [String.prototype.match] without the
    global flag returns the leftmost match. *)

Module Regex.

Definition charclass := ascii -> bool.

  (** [[0-9A-Fa-f]] *)
Definition hex : charclass := fun a =>
    let n := nat_of_ascii a in
    ((48 <=? n)%nat && (n <=? 57)%nat)
    || ((65 <=? n)%nat && (n <=? 70)%nat)
    || ((97 <=? n)%nat && (n <=? 102)%nat).

  (** [[:-]] *)
Definition sep : charclass := fun a =>
    Ascii.eqb a ":"%char || Ascii.eqb a "-"%char.

  (** The match of a class sequence at the start of [s], if any. *)
Fixpoint match_here (pat : list charclass) (s : string) : option string :=
    match pat with
    | [] => Some EmptyString
    | cls :: pat' =>
        match s with
        | EmptyString => None
        | String a r =>
            if cls a
            then match match_here pat' r with
                 | Some m => Some (String a m)
                 | None => None
                 end
            else None
        end
    end.

  (** [s.match(pattern)]: the leftmost match, [match[0]]. *)
Fixpoint search (pat : list charclass) (s : string) : option string :=
    match match_here pat s with
    | Some m => Some m
    | None =>
        match s with
        | EmptyString => None
        | String _ r => search pat r
        end
    end.

  (** What it means for a string to match a class sequence. *)
Inductive Matches : list charclass -> string -> Prop :=
  | Matches_nil : Matches [] EmptyString
  | Matches_cons cls pat a m :
      cls a = true -> Matches pat m -> Matches (cls :: pat) (String a m).

  (** [m] occurs in [s] after the prefix [pre]. *)
Definition occurs_at (pre m s : string) : Prop :=
    exists post, s = pre ++ m ++ post.

  (** [m] is the leftmost match of [pat] in [s]. *)
Definition leftmost (pat : list charclass) (s m : string) : Prop :=
    exists pre,
      occurs_at pre m s /\ Matches pat m /\
      forall pre' m', occurs_at pre' m' s -> Matches pat m' ->
                      (String.length pre <= String.length pre')%nat.

  (** [pat] matches nowhere in [s]. *)
Definition no_match (pat : list charclass) (s : string) : Prop :=
    forall pre m, occurs_at pre m s -> ~ Matches pat m.

End Regex.

(** ** ConversationService: the extraction utilities *)

(** [/([0-9A-Fa-f]{2}[:-]){5}([0-9A-Fa-f]{2})/] *)
Definition mac_separated : list Regex.charclass :=
  concat (repeat [Regex.hex; Regex.hex; Regex.sep] 5) ++ [Regex.hex; Regex.hex].

(** [/([0-9A-Fa-f]{12})/] *)
Definition mac_bare : list Regex.charclass := repeat Regex.hex 12.

Definition macPatterns : list (list Regex.charclass) := [mac_separated; mac_bare].

(** [extractMacAddress]: the patterns are tried in order over the whole
    message, the first one that matches anywhere gives the result. *)
Fixpoint first_pattern_match (patterns : list (list Regex.charclass)) (message : string)
  : option string :=
  match patterns with
  | [] => None
  | pattern :: rest =>
      match Regex.search pattern message with
      | Some m => Some (Js.toUpperCase m)
      | None => first_pattern_match rest message
      end
  end.

Definition extractMacAddress (message : string) : option string :=
  first_pattern_match macPatterns message.

(** ** ConversationService: the data model *)

Inductive ConversationState :=
| new                    (* First contact *)
| awaiting_device        (* Asked what device they use *)
| awaiting_mac           (* Sent setup instructions, waiting for MAC *)
| awaiting_content_pref  (* Got MAC, asking content preference *)
| trial_pending          (* Waiting for admin to activate trial *)
| trial_active           (* Trial is running *)
| trial_expired          (* Trial ended *)
| awaiting_payment       (* Presented pricing, waiting for payment *)
| payment_pending        (* Customer says they paid, waiting verification *)
| active_subscriber      (* Paid customer *)
| churned                (* Customer left *)
| needs_human.           (* Escalated to human *)

Inductive DeviceType :=
| firestick | android_phone | smart_tv | android_box | tivimate | other_device.

Inductive ContentPreference := english | europe | worldwide.

Inductive PlanType := monthly | yearly | plan_2years | plan_3years | lifetime.

Inductive Language := en | fr | ar.

Inductive PaymentMethod := revolut | paypal | card.

Inductive Sentiment :=
| sentiment_positive | neutral | sentiment_negative | frustrated.

#[global] Instance ConversationState_eq_dec : EqDecision ConversationState.
Proof. solve_decision. Defined.
#[global] Instance DeviceType_eq_dec : EqDecision DeviceType.
Proof. solve_decision. Defined.
#[global] Instance ContentPreference_eq_dec : EqDecision ContentPreference.
Proof. solve_decision. Defined.
#[global] Instance PlanType_eq_dec : EqDecision PlanType.
Proof. solve_decision. Defined.
#[global] Instance Sentiment_eq_dec : EqDecision Sentiment.
Proof. solve_decision. Defined.

(** The string each literal stands for, as a template interpolates it. *)
Definition state_name (s : ConversationState) : string :=
  match s with
  | new => "new" | awaiting_device => "awaiting_device"
  | awaiting_mac => "awaiting_mac"
  | awaiting_content_pref => "awaiting_content_pref"
  | trial_pending => "trial_pending" | trial_active => "trial_active"
  | trial_expired => "trial_expired" | awaiting_payment => "awaiting_payment"
  | payment_pending => "payment_pending"
  | active_subscriber => "active_subscriber"
  | churned => "churned" | needs_human => "needs_human"
  end.

Definition device_name (d : DeviceType) : string :=
  match d with
  | firestick => "firestick" | android_phone => "android_phone"
  | smart_tv => "smart_tv" | android_box => "android_box"
  | tivimate => "tivimate" | other_device => "other"
  end.

Definition preference_name (p : ContentPreference) : string :=
  match p with
  | english => "english" | europe => "europe" | worldwide => "worldwide"
  end.

Definition plan_name (p : PlanType) : string :=
  match p with
  | monthly => "monthly" | yearly => "yearly" | plan_2years => "2years"
  | plan_3years => "3years" | lifetime => "lifetime"
  end.

Definition payment_method_name (m : PaymentMethod) : string :=
  match m with revolut => "revolut" | paypal => "paypal" | card => "card" end.

Definition sentiment_name (s : Sentiment) : string :=
  match s with
  | sentiment_positive => "positive" | neutral => "neutral"
  | sentiment_negative => "negative" | frustrated => "frustrated"
  end.

(** Where a string is wanted, a member of a union is its name. *)
Coercion device_name : DeviceType >-> string.
Coercion preference_name : ContentPreference >-> string.
Coercion plan_name : PlanType >-> string.
Coercion payment_method_name : PaymentMethod >-> string.
Coercion sentiment_name : Sentiment >-> string.

(** A [Date], by its time value in milliseconds. *)
Definition Date := Z.

Record Credentials := mkCredentials {
  username : string;
  password : string;
  url : string;
  m3uUrl : option string
}.

Record CustomerContext := mkContext {
  id_ : option string;
  phone : string;
  name : option string;
  state : ConversationState;
  previousState : option ConversationState;
  device : option string;
  macAddress : option string;
  deviceKey : option string;
  contentPreference : option string;
  wantsAdultContent : option bool;
  language : option Language;
  trialStartedAt : option Date;
  trialExpiresAt : option Date;
  plan : option string;
  subscribedAt : option Date;
  expiresAt : option Date;
  paymentMethod : option string;
  paymentPending : option bool;
  credentials : option Credentials;
  lastMessageAt : option Date;
  followUpsSent : Z;
  lastFollowUpType : option string;
  needsHuman : bool;
  escalationReason : option string;
  sentiment : option string;
  createdAt : Date;
  updatedAt : Date
}.

(** [Partial<CustomerContext>]: every property may be missing. *)
Record PartialContext := mkPartial {
  p_id_ : option string;
  p_phone : option string;
  p_name : option string;
  p_state : option ConversationState;
  p_previousState : option ConversationState;
  p_device : option string;
  p_macAddress : option string;
  p_deviceKey : option string;
  p_contentPreference : option string;
  p_wantsAdultContent : option bool;
  p_language : option Language;
  p_trialStartedAt : option Date;
  p_trialExpiresAt : option Date;
  p_plan : option string;
  p_subscribedAt : option Date;
  p_expiresAt : option Date;
  p_paymentMethod : option string;
  p_paymentPending : option bool;
  p_credentials : option Credentials;
  p_lastMessageAt : option Date;
  p_followUpsSent : option Z;
  p_lastFollowUpType : option string;
  p_needsHuman : option bool;
  p_escalationReason : option string;
  p_sentiment : option string;
  p_createdAt : option Date;
  p_updatedAt : option Date
}.

(** Property assignment, [context.f = v], one function per property the
    source assigns. *)
Definition set_state (v : ConversationState) (c : CustomerContext) : CustomerContext :=
  {| id_ := id_ c; phone := phone c; name := name c; state := v;
     previousState := previousState c; device := device c;
     macAddress := macAddress c; deviceKey := deviceKey c;
     contentPreference := contentPreference c;
     wantsAdultContent := wantsAdultContent c; language := language c;
     trialStartedAt := trialStartedAt c; trialExpiresAt := trialExpiresAt c;
     plan := plan c; subscribedAt := subscribedAt c; expiresAt := expiresAt c;
     paymentMethod := paymentMethod c; paymentPending := paymentPending c;
     credentials := credentials c; lastMessageAt := lastMessageAt c;
     followUpsSent := followUpsSent c; lastFollowUpType := lastFollowUpType c;
     needsHuman := needsHuman c; escalationReason := escalationReason c;
     sentiment := sentiment c; createdAt := createdAt c;
     updatedAt := updatedAt c |}.

Definition set_previousState (v : ConversationState) (c : CustomerContext) : CustomerContext :=
  {| id_ := id_ c; phone := phone c; name := name c; state := state c;
     previousState := Some v; device := device c; macAddress := macAddress c;
     deviceKey := deviceKey c; contentPreference := contentPreference c;
     wantsAdultContent := wantsAdultContent c; language := language c;
     trialStartedAt := trialStartedAt c; trialExpiresAt := trialExpiresAt c;
     plan := plan c; subscribedAt := subscribedAt c; expiresAt := expiresAt c;
     paymentMethod := paymentMethod c; paymentPending := paymentPending c;
     credentials := credentials c; lastMessageAt := lastMessageAt c;
     followUpsSent := followUpsSent c; lastFollowUpType := lastFollowUpType c;
     needsHuman := needsHuman c; escalationReason := escalationReason c;
     sentiment := sentiment c; createdAt := createdAt c;
     updatedAt := updatedAt c |}.

Definition set_device (v : string) (c : CustomerContext) : CustomerContext :=
  {| id_ := id_ c; phone := phone c; name := name c; state := state c;
     previousState := previousState c; device := Some v;
     macAddress := macAddress c; deviceKey := deviceKey c;
     contentPreference := contentPreference c;
     wantsAdultContent := wantsAdultContent c; language := language c;
     trialStartedAt := trialStartedAt c; trialExpiresAt := trialExpiresAt c;
     plan := plan c; subscribedAt := subscribedAt c; expiresAt := expiresAt c;
     paymentMethod := paymentMethod c; paymentPending := paymentPending c;
     credentials := credentials c; lastMessageAt := lastMessageAt c;
     followUpsSent := followUpsSent c; lastFollowUpType := lastFollowUpType c;
     needsHuman := needsHuman c; escalationReason := escalationReason c;
     sentiment := sentiment c; createdAt := createdAt c;
     updatedAt := updatedAt c |}.

Definition set_macAddress (v : string) (c : CustomerContext) : CustomerContext :=
  {| id_ := id_ c; phone := phone c; name := name c; state := state c;
     previousState := previousState c; device := device c;
     macAddress := Some v; deviceKey := deviceKey c;
     contentPreference := contentPreference c;
     wantsAdultContent := wantsAdultContent c; language := language c;
     trialStartedAt := trialStartedAt c; trialExpiresAt := trialExpiresAt c;
     plan := plan c; subscribedAt := subscribedAt c; expiresAt := expiresAt c;
     paymentMethod := paymentMethod c; paymentPending := paymentPending c;
     credentials := credentials c; lastMessageAt := lastMessageAt c;
     followUpsSent := followUpsSent c; lastFollowUpType := lastFollowUpType c;
     needsHuman := needsHuman c; escalationReason := escalationReason c;
     sentiment := sentiment c; createdAt := createdAt c;
     updatedAt := updatedAt c |}.

Definition set_deviceKey (v : string) (c : CustomerContext) : CustomerContext :=
  {| id_ := id_ c; phone := phone c; name := name c; state := state c;
     previousState := previousState c; device := device c;
     macAddress := macAddress c; deviceKey := Some v;
     contentPreference := contentPreference c;
     wantsAdultContent := wantsAdultContent c; language := language c;
     trialStartedAt := trialStartedAt c; trialExpiresAt := trialExpiresAt c;
     plan := plan c; subscribedAt := subscribedAt c; expiresAt := expiresAt c;
     paymentMethod := paymentMethod c; paymentPending := paymentPending c;
     credentials := credentials c; lastMessageAt := lastMessageAt c;
     followUpsSent := followUpsSent c; lastFollowUpType := lastFollowUpType c;
     needsHuman := needsHuman c; escalationReason := escalationReason c;
     sentiment := sentiment c; createdAt := createdAt c;
     updatedAt := updatedAt c |}.

Definition set_contentPreference (v : string) (c : CustomerContext) : CustomerContext :=
  {| id_ := id_ c; phone := phone c; name := name c; state := state c;
     previousState := previousState c; device := device c;
     macAddress := macAddress c; deviceKey := deviceKey c;
     contentPreference := Some v; wantsAdultContent := wantsAdultContent c;
     language := language c; trialStartedAt := trialStartedAt c;
     trialExpiresAt := trialExpiresAt c; plan := plan c;
     subscribedAt := subscribedAt c; expiresAt := expiresAt c;
     paymentMethod := paymentMethod c; paymentPending := paymentPending c;
     credentials := credentials c; lastMessageAt := lastMessageAt c;
     followUpsSent := followUpsSent c; lastFollowUpType := lastFollowUpType c;
     needsHuman := needsHuman c; escalationReason := escalationReason c;
     sentiment := sentiment c; createdAt := createdAt c;
     updatedAt := updatedAt c |}.

Definition set_wantsAdultContent (v : bool) (c : CustomerContext) : CustomerContext :=
  {| id_ := id_ c; phone := phone c; name := name c; state := state c;
     previousState := previousState c; device := device c;
     macAddress := macAddress c; deviceKey := deviceKey c;
     contentPreference := contentPreference c; wantsAdultContent := Some v;
     language := language c; trialStartedAt := trialStartedAt c;
     trialExpiresAt := trialExpiresAt c; plan := plan c;
     subscribedAt := subscribedAt c; expiresAt := expiresAt c;
     paymentMethod := paymentMethod c; paymentPending := paymentPending c;
     credentials := credentials c; lastMessageAt := lastMessageAt c;
     followUpsSent := followUpsSent c; lastFollowUpType := lastFollowUpType c;
     needsHuman := needsHuman c; escalationReason := escalationReason c;
     sentiment := sentiment c; createdAt := createdAt c;
     updatedAt := updatedAt c |}.

Definition set_language (v : Language) (c : CustomerContext) : CustomerContext :=
  {| id_ := id_ c; phone := phone c; name := name c; state := state c;
     previousState := previousState c; device := device c;
     macAddress := macAddress c; deviceKey := deviceKey c;
     contentPreference := contentPreference c;
     wantsAdultContent := wantsAdultContent c; language := Some v;
     trialStartedAt := trialStartedAt c; trialExpiresAt := trialExpiresAt c;
     plan := plan c; subscribedAt := subscribedAt c; expiresAt := expiresAt c;
     paymentMethod := paymentMethod c; paymentPending := paymentPending c;
     credentials := credentials c; lastMessageAt := lastMessageAt c;
     followUpsSent := followUpsSent c; lastFollowUpType := lastFollowUpType c;
     needsHuman := needsHuman c; escalationReason := escalationReason c;
     sentiment := sentiment c; createdAt := createdAt c;
     updatedAt := updatedAt c |}.

Definition set_trialStartedAt (v : Date) (c : CustomerContext) : CustomerContext :=
  {| id_ := id_ c; phone := phone c; name := name c; state := state c;
     previousState := previousState c; device := device c;
     macAddress := macAddress c; deviceKey := deviceKey c;
     contentPreference := contentPreference c;
     wantsAdultContent := wantsAdultContent c; language := language c;
     trialStartedAt := Some v; trialExpiresAt := trialExpiresAt c;
     plan := plan c; subscribedAt := subscribedAt c; expiresAt := expiresAt c;
     paymentMethod := paymentMethod c; paymentPending := paymentPending c;
     credentials := credentials c; lastMessageAt := lastMessageAt c;
     followUpsSent := followUpsSent c; lastFollowUpType := lastFollowUpType c;
     needsHuman := needsHuman c; escalationReason := escalationReason c;
     sentiment := sentiment c; createdAt := createdAt c;
     updatedAt := updatedAt c |}.

Definition set_trialExpiresAt (v : Date) (c : CustomerContext) : CustomerContext :=
  {| id_ := id_ c; phone := phone c; name := name c; state := state c;
     previousState := previousState c; device := device c;
     macAddress := macAddress c; deviceKey := deviceKey c;
     contentPreference := contentPreference c;
     wantsAdultContent := wantsAdultContent c; language := language c;
     trialStartedAt := trialStartedAt c; trialExpiresAt := Some v;
     plan := plan c; subscribedAt := subscribedAt c; expiresAt := expiresAt c;
     paymentMethod := paymentMethod c; paymentPending := paymentPending c;
     credentials := credentials c; lastMessageAt := lastMessageAt c;
     followUpsSent := followUpsSent c; lastFollowUpType := lastFollowUpType c;
     needsHuman := needsHuman c; escalationReason := escalationReason c;
     sentiment := sentiment c; createdAt := createdAt c;
     updatedAt := updatedAt c |}.

Definition set_plan (v : string) (c : CustomerContext) : CustomerContext :=
  {| id_ := id_ c; phone := phone c; name := name c; state := state c;
     previousState := previousState c; device := device c;
     macAddress := macAddress c; deviceKey := deviceKey c;
     contentPreference := contentPreference c;
     wantsAdultContent := wantsAdultContent c; language := language c;
     trialStartedAt := trialStartedAt c; trialExpiresAt := trialExpiresAt c;
     plan := Some v; subscribedAt := subscribedAt c; expiresAt := expiresAt c;
     paymentMethod := paymentMethod c; paymentPending := paymentPending c;
     credentials := credentials c; lastMessageAt := lastMessageAt c;
     followUpsSent := followUpsSent c; lastFollowUpType := lastFollowUpType c;
     needsHuman := needsHuman c; escalationReason := escalationReason c;
     sentiment := sentiment c; createdAt := createdAt c;
     updatedAt := updatedAt c |}.

Definition set_subscribedAt (v : Date) (c : CustomerContext) : CustomerContext :=
  {| id_ := id_ c; phone := phone c; name := name c; state := state c;
     previousState := previousState c; device := device c;
     macAddress := macAddress c; deviceKey := deviceKey c;
     contentPreference := contentPreference c;
     wantsAdultContent := wantsAdultContent c; language := language c;
     trialStartedAt := trialStartedAt c; trialExpiresAt := trialExpiresAt c;
     plan := plan c; subscribedAt := Some v; expiresAt := expiresAt c;
     paymentMethod := paymentMethod c; paymentPending := paymentPending c;
     credentials := credentials c; lastMessageAt := lastMessageAt c;
     followUpsSent := followUpsSent c; lastFollowUpType := lastFollowUpType c;
     needsHuman := needsHuman c; escalationReason := escalationReason c;
     sentiment := sentiment c; createdAt := createdAt c;
     updatedAt := updatedAt c |}.

Definition set_expiresAt (v : Date) (c : CustomerContext) : CustomerContext :=
  {| id_ := id_ c; phone := phone c; name := name c; state := state c;
     previousState := previousState c; device := device c;
     macAddress := macAddress c; deviceKey := deviceKey c;
     contentPreference := contentPreference c;
     wantsAdultContent := wantsAdultContent c; language := language c;
     trialStartedAt := trialStartedAt c; trialExpiresAt := trialExpiresAt c;
     plan := plan c; subscribedAt := subscribedAt c; expiresAt := Some v;
     paymentMethod := paymentMethod c; paymentPending := paymentPending c;
     credentials := credentials c; lastMessageAt := lastMessageAt c;
     followUpsSent := followUpsSent c; lastFollowUpType := lastFollowUpType c;
     needsHuman := needsHuman c; escalationReason := escalationReason c;
     sentiment := sentiment c; createdAt := createdAt c;
     updatedAt := updatedAt c |}.

Definition set_paymentMethod (v : string) (c : CustomerContext) : CustomerContext :=
  {| id_ := id_ c; phone := phone c; name := name c; state := state c;
     previousState := previousState c; device := device c;
     macAddress := macAddress c; deviceKey := deviceKey c;
     contentPreference := contentPreference c;
     wantsAdultContent := wantsAdultContent c; language := language c;
     trialStartedAt := trialStartedAt c; trialExpiresAt := trialExpiresAt c;
     plan := plan c; subscribedAt := subscribedAt c; expiresAt := expiresAt c;
     paymentMethod := Some v; paymentPending := paymentPending c;
     credentials := credentials c; lastMessageAt := lastMessageAt c;
     followUpsSent := followUpsSent c; lastFollowUpType := lastFollowUpType c;
     needsHuman := needsHuman c; escalationReason := escalationReason c;
     sentiment := sentiment c; createdAt := createdAt c;
     updatedAt := updatedAt c |}.

Definition set_paymentPending (v : bool) (c : CustomerContext) : CustomerContext :=
  {| id_ := id_ c; phone := phone c; name := name c; state := state c;
     previousState := previousState c; device := device c;
     macAddress := macAddress c; deviceKey := deviceKey c;
     contentPreference := contentPreference c;
     wantsAdultContent := wantsAdultContent c; language := language c;
     trialStartedAt := trialStartedAt c; trialExpiresAt := trialExpiresAt c;
     plan := plan c; subscribedAt := subscribedAt c; expiresAt := expiresAt c;
     paymentMethod := paymentMethod c; paymentPending := Some v;
     credentials := credentials c; lastMessageAt := lastMessageAt c;
     followUpsSent := followUpsSent c; lastFollowUpType := lastFollowUpType c;
     needsHuman := needsHuman c; escalationReason := escalationReason c;
     sentiment := sentiment c; createdAt := createdAt c;
     updatedAt := updatedAt c |}.

Definition set_credentials (v : Credentials) (c : CustomerContext) : CustomerContext :=
  {| id_ := id_ c; phone := phone c; name := name c; state := state c;
     previousState := previousState c; device := device c;
     macAddress := macAddress c; deviceKey := deviceKey c;
     contentPreference := contentPreference c;
     wantsAdultContent := wantsAdultContent c; language := language c;
     trialStartedAt := trialStartedAt c; trialExpiresAt := trialExpiresAt c;
     plan := plan c; subscribedAt := subscribedAt c; expiresAt := expiresAt c;
     paymentMethod := paymentMethod c; paymentPending := paymentPending c;
     credentials := Some v; lastMessageAt := lastMessageAt c;
     followUpsSent := followUpsSent c; lastFollowUpType := lastFollowUpType c;
     needsHuman := needsHuman c; escalationReason := escalationReason c;
     sentiment := sentiment c; createdAt := createdAt c;
     updatedAt := updatedAt c |}.

Definition set_lastMessageAt (v : Date) (c : CustomerContext) : CustomerContext :=
  {| id_ := id_ c; phone := phone c; name := name c; state := state c;
     previousState := previousState c; device := device c;
     macAddress := macAddress c; deviceKey := deviceKey c;
     contentPreference := contentPreference c;
     wantsAdultContent := wantsAdultContent c; language := language c;
     trialStartedAt := trialStartedAt c; trialExpiresAt := trialExpiresAt c;
     plan := plan c; subscribedAt := subscribedAt c; expiresAt := expiresAt c;
     paymentMethod := paymentMethod c; paymentPending := paymentPending c;
     credentials := credentials c; lastMessageAt := Some v;
     followUpsSent := followUpsSent c; lastFollowUpType := lastFollowUpType c;
     needsHuman := needsHuman c; escalationReason := escalationReason c;
     sentiment := sentiment c; createdAt := createdAt c;
     updatedAt := updatedAt c |}.

Definition set_followUpsSent (v : Z) (c : CustomerContext) : CustomerContext :=
  {| id_ := id_ c; phone := phone c; name := name c; state := state c;
     previousState := previousState c; device := device c;
     macAddress := macAddress c; deviceKey := deviceKey c;
     contentPreference := contentPreference c;
     wantsAdultContent := wantsAdultContent c; language := language c;
     trialStartedAt := trialStartedAt c; trialExpiresAt := trialExpiresAt c;
     plan := plan c; subscribedAt := subscribedAt c; expiresAt := expiresAt c;
     paymentMethod := paymentMethod c; paymentPending := paymentPending c;
     credentials := credentials c; lastMessageAt := lastMessageAt c;
     followUpsSent := v; lastFollowUpType := lastFollowUpType c;
     needsHuman := needsHuman c; escalationReason := escalationReason c;
     sentiment := sentiment c; createdAt := createdAt c;
     updatedAt := updatedAt c |}.

Definition set_lastFollowUpType (v : string) (c : CustomerContext) : CustomerContext :=
  {| id_ := id_ c; phone := phone c; name := name c; state := state c;
     previousState := previousState c; device := device c;
     macAddress := macAddress c; deviceKey := deviceKey c;
     contentPreference := contentPreference c;
     wantsAdultContent := wantsAdultContent c; language := language c;
     trialStartedAt := trialStartedAt c; trialExpiresAt := trialExpiresAt c;
     plan := plan c; subscribedAt := subscribedAt c; expiresAt := expiresAt c;
     paymentMethod := paymentMethod c; paymentPending := paymentPending c;
     credentials := credentials c; lastMessageAt := lastMessageAt c;
     followUpsSent := followUpsSent c; lastFollowUpType := Some v;
     needsHuman := needsHuman c; escalationReason := escalationReason c;
     sentiment := sentiment c; createdAt := createdAt c;
     updatedAt := updatedAt c |}.

Definition set_needsHuman (v : bool) (c : CustomerContext) : CustomerContext :=
  {| id_ := id_ c; phone := phone c; name := name c; state := state c;
     previousState := previousState c; device := device c;
     macAddress := macAddress c; deviceKey := deviceKey c;
     contentPreference := contentPreference c;
     wantsAdultContent := wantsAdultContent c; language := language c;
     trialStartedAt := trialStartedAt c; trialExpiresAt := trialExpiresAt c;
     plan := plan c; subscribedAt := subscribedAt c; expiresAt := expiresAt c;
     paymentMethod := paymentMethod c; paymentPending := paymentPending c;
     credentials := credentials c; lastMessageAt := lastMessageAt c;
     followUpsSent := followUpsSent c; lastFollowUpType := lastFollowUpType c;
     needsHuman := v; escalationReason := escalationReason c;
     sentiment := sentiment c; createdAt := createdAt c;
     updatedAt := updatedAt c |}.

(** [context.sentiment = intent.sentiment], which the answer may lack. *)
Definition set_sentiment (v : option string) (c : CustomerContext) : CustomerContext :=
  {| id_ := id_ c; phone := phone c; name := name c; state := state c;
     previousState := previousState c; device := device c;
     macAddress := macAddress c; deviceKey := deviceKey c;
     contentPreference := contentPreference c;
     wantsAdultContent := wantsAdultContent c; language := language c;
     trialStartedAt := trialStartedAt c; trialExpiresAt := trialExpiresAt c;
     plan := plan c; subscribedAt := subscribedAt c; expiresAt := expiresAt c;
     paymentMethod := paymentMethod c; paymentPending := paymentPending c;
     credentials := credentials c; lastMessageAt := lastMessageAt c;
     followUpsSent := followUpsSent c; lastFollowUpType := lastFollowUpType c;
     needsHuman := needsHuman c; escalationReason := escalationReason c;
     sentiment := v; createdAt := createdAt c; updatedAt := updatedAt c |}.

Definition set_updatedAt (v : Date) (c : CustomerContext) : CustomerContext :=
  {| id_ := id_ c; phone := phone c; name := name c; state := state c;
     previousState := previousState c; device := device c;
     macAddress := macAddress c; deviceKey := deviceKey c;
     contentPreference := contentPreference c;
     wantsAdultContent := wantsAdultContent c; language := language c;
     trialStartedAt := trialStartedAt c; trialExpiresAt := trialExpiresAt c;
     plan := plan c; subscribedAt := subscribedAt c; expiresAt := expiresAt c;
     paymentMethod := paymentMethod c; paymentPending := paymentPending c;
     credentials := credentials c; lastMessageAt := lastMessageAt c;
     followUpsSent := followUpsSent c; lastFollowUpType := lastFollowUpType c;
     needsHuman := needsHuman c; escalationReason := escalationReason c;
     sentiment := sentiment c; createdAt := createdAt c; updatedAt := v |}.

(** The own properties of a context object, as a source of [Object.assign]
    or of an object spread sees them. *)
Definition own_properties (c : CustomerContext) : PartialContext :=
  {| p_id_ := id_ c; p_phone := Some (phone c); p_name := name c;
     p_state := Some (state c); p_previousState := previousState c;
     p_device := device c; p_macAddress := macAddress c;
     p_deviceKey := deviceKey c; p_contentPreference := contentPreference c;
     p_wantsAdultContent := wantsAdultContent c; p_language := language c;
     p_trialStartedAt := trialStartedAt c;
     p_trialExpiresAt := trialExpiresAt c; p_plan := plan c;
     p_subscribedAt := subscribedAt c; p_expiresAt := expiresAt c;
     p_paymentMethod := paymentMethod c; p_paymentPending := paymentPending c;
     p_credentials := credentials c; p_lastMessageAt := lastMessageAt c;
     p_followUpsSent := Some (followUpsSent c);
     p_lastFollowUpType := lastFollowUpType c;
     p_needsHuman := Some (needsHuman c);
     p_escalationReason := escalationReason c; p_sentiment := sentiment c;
     p_createdAt := Some (createdAt c); p_updatedAt := Some (updatedAt c) |}.

(** No property at all: [{}]. *)
Definition empty_partial : PartialContext :=
  {| p_id_ := None; p_phone := None; p_name := None; p_state := None;
     p_previousState := None; p_device := None; p_macAddress := None;
     p_deviceKey := None; p_contentPreference := None;
     p_wantsAdultContent := None; p_language := None;
     p_trialStartedAt := None; p_trialExpiresAt := None; p_plan := None;
     p_subscribedAt := None; p_expiresAt := None; p_paymentMethod := None;
     p_paymentPending := None; p_credentials := None; p_lastMessageAt := None;
     p_followUpsSent := None; p_lastFollowUpType := None;
     p_needsHuman := None; p_escalationReason := None; p_sentiment := None;
     p_createdAt := None; p_updatedAt := None |}.

(** [Object.assign(target, source)]: every own property of the source
    overwrites the property of the target, the others stay. *)
Definition over {A} (new : option A) (old : A) : A :=
  match new with Some v => v | None => old end.

Definition over_opt {A} (new old : option A) : option A :=
  match new with Some v => Some v | None => old end.

Definition assign (target : CustomerContext) (source : PartialContext) : CustomerContext :=
  {| id_ := over_opt (p_id_ source) (id_ target);
     phone := over (p_phone source) (phone target);
     name := over_opt (p_name source) (name target);
     state := over (p_state source) (state target);
     previousState := over_opt (p_previousState source) (previousState target);
     device := over_opt (p_device source) (device target);
     macAddress := over_opt (p_macAddress source) (macAddress target);
     deviceKey := over_opt (p_deviceKey source) (deviceKey target);
     contentPreference := over_opt (p_contentPreference source) (contentPreference target);
     wantsAdultContent := over_opt (p_wantsAdultContent source) (wantsAdultContent target);
     language := over_opt (p_language source) (language target);
     trialStartedAt := over_opt (p_trialStartedAt source) (trialStartedAt target);
     trialExpiresAt := over_opt (p_trialExpiresAt source) (trialExpiresAt target);
     plan := over_opt (p_plan source) (plan target);
     subscribedAt := over_opt (p_subscribedAt source) (subscribedAt target);
     expiresAt := over_opt (p_expiresAt source) (expiresAt target);
     paymentMethod := over_opt (p_paymentMethod source) (paymentMethod target);
     paymentPending := over_opt (p_paymentPending source) (paymentPending target);
     credentials := over_opt (p_credentials source) (credentials target);
     lastMessageAt := over_opt (p_lastMessageAt source) (lastMessageAt target);
     followUpsSent := over (p_followUpsSent source) (followUpsSent target);
     lastFollowUpType := over_opt (p_lastFollowUpType source) (lastFollowUpType target);
     needsHuman := over (p_needsHuman source) (needsHuman target);
     escalationReason := over_opt (p_escalationReason source) (escalationReason target);
     sentiment := over_opt (p_sentiment source) (sentiment target);
     createdAt := over (p_createdAt source) (createdAt target);
     updatedAt := over (p_updatedAt source) (updatedAt target) |}.

(** ** ConversationService: messages, replies and notifications *)

Inductive Role := user | assistant | system.

#[global] Instance Role_eq_dec : EqDecision Role.
Proof. solve_decision. Defined.

Record MessageMetadata := mkMetadata {
  meta_intent : option string;
  meta_confidence : option Q;
  triggeredAction : option string
}.

Record ConversationMessage := mkMessage {
  role : Role;
  content : string;
  timestamp : Date;
  metadata : option MessageMetadata
}.

Inductive NotificationType :=
| trial_request | payment_received | technical_issue | escalation.

#[global] Instance NotificationType_eq_dec : EqDecision NotificationType.
Proof. solve_decision. Defined.

Record AdminNotification := mkNotification {
  notif_type : NotificationType;
  notif_message : string
}.

(** The constants of config/prompts.ts that the service interpolates. They
    are fixed texts; the service only hands them on. *)
Record Prompts := mkPrompts {
  DEVICE_SETUP_INSTRUCTIONS : DeviceType -> string;
  PAYMENT_TEMPLATES_revolut : string;
  PAYMENT_TEMPLATES_paypal : string;
  PAYMENT_TEMPLATES_both : string;
  FOLLOW_UP_TEMPLATES : string -> option string
}.

(** ** ConversationService: extraction and classification of raw text *)

Definition extractDeviceType (message : string) : option DeviceType :=
  let lower := Js.toLowerCase message in
  if Js.includes lower "fire" || Js.includes lower "firestick"
     || Js.includes lower "amazon" then Some firestick
  else if Js.includes lower "android phone" || Js.includes lower "phone"
          || Js.includes lower "mobile" || Js.includes lower "tablet"
       then Some android_phone
  else if Js.includes lower "smart tv" || Js.includes lower "samsung"
          || Js.includes lower "lg" || Js.includes lower "sony"
          || Js.includes lower "philips" then Some smart_tv
  else if Js.includes lower "android box" || Js.includes lower "box"
          || Js.includes lower "xiaomi" then Some android_box
  else if Js.includes lower "tivimate" || Js.includes lower "tivi mate"
       then Some tivimate
  else None.

Definition extractContentPreference (message : string) : option ContentPreference :=
  let lower := Js.toLowerCase message in
  if Js.includes lower "english" || Js.includes lower "uk"
     || Js.includes lower "irish" || Js.includes lower "ireland"
  then Some english
  else if Js.includes lower "europe" || Js.includes lower "european"
       then Some europe
  else if Js.includes lower "worldwide" || Js.includes lower "world"
          || Js.includes lower "everything" || Js.includes lower "all"
       then Some worldwide
  else None.

Definition paymentKeywords : list string :=
  ["paid"; "sent"; "payment"; "transferred"; "receipt"; "done";
   "money sent"; "just paid"].

Definition isPaymentConfirmation (message : string) : bool :=
  let lower := Js.toLowerCase message in
  Js.includes_any lower paymentKeywords.

Definition escalationKeywords : list string :=
  ["speak to someone"; "real person"; "human"; "manager"; "supervisor";
   "complaint"; "refund"; "scam"; "fraud"; "not working for days";
   "still not fixed"].

(** [shouldEscalateToHuman(context, message, intent)]. The statements are
    those of the source, in its order: the test on the follow-up count
    comes after the keyword test has returned. *)
Definition shouldEscalateToHuman (context : CustomerContext) (message : string)
    (intent : option string) : bool :=
  (* Explicit request for human *)
  if bool_decide (intent = Some "human_request") then true
  (* Frustrated sentiment *)
  else if bool_decide (sentiment context = Some "frustrated") then true
  else
    let lowerMessage := Js.toLowerCase message in
    (* Keywords indicating need for human *)
    if Js.includes_any lowerMessage escalationKeywords then true
    (* Too many follow-ups without response *)
    else if (3 <=? followUpsSent context)
            && bool_decide (state context = trial_expired)
         then false
    else false.

(** The names of the properties that every object inherits. *)
Definition inheritedNames : list string :=
  ["constructor"; "toString"; "toLocaleString"; "valueOf"; "hasOwnProperty";
   "isPrototypeOf"; "propertyIsEnumerable"; "__proto__"; "__defineGetter__";
   "__defineSetter__"; "__lookupGetter__"; "__lookupSetter__"].

(** [formatPlanName(plan)], that is [names[plan] || plan]: the plan itself
    when the table has no name for it. For a plan that bears one of the
    inherited names the lookup finds the inherited property in the table,
    which is no string; such a plan is not represented here, and the
    properties below that tell the display name of an arbitrary plan
    assume a plan that is [plain]. *)
Definition formatPlanName (plan : string) : string :=
  if String.eqb plan "monthly" then "Monthly Plan"
  else if String.eqb plan "yearly" then "Yearly Plan"
  else if String.eqb plan "2years" then "2-Year Plan"
  else if String.eqb plan "3years" then "3-Year Plan"
  else if String.eqb plan "lifetime" then "Lifetime Plan"
  else plan.

(** A plan that is none of the inherited names. *)
Definition plain (plan : option string) : Prop :=
  forall s, plan = Some s -> ~ In s inheritedNames.

(** [x || fallback] inside a template, for an optional string. *)
Definition str_or (o : option string) (fallback : string) : string :=
  if Js.truthy o then default fallback o else fallback.

(** [`${x}`] for an optional string: a missing one reads [undefined]. *)
Definition str_of (o : option string) : string := default "undefined" o.

Definition createTrialNotification (context : CustomerContext) : string :=
  "🆕 NEW TRIAL REQUEST

📱 Device: " ++ str_or (device context) "Unknown" ++ "
📍 MAC Address: " ++ str_or (macAddress context) "N/A" ++ "
🔑 Device Key: " ++ str_or (deviceKey context) "N/A" ++ "
🌍 Content: " ++ str_or (contentPreference context) "Not specified" ++ "
" ++ (if default false (wantsAdultContent context)
      then "🔞 Adult content: YES" else "") ++ "

📞 Customer WhatsApp: " ++ phone context ++ "

Reply with credentials to activate:
Username:
Password:
URL:".

Definition createPaymentNotification (context : CustomerContext) : string :=
  "💰 PAYMENT NOTIFICATION

📞 Customer: " ++ phone context ++ "
📦 Plan: " ++ (if Js.truthy (plan context)
              then formatPlanName (default "" (plan context)) else "Unknown") ++ "
💳 Method: " ++ str_or (paymentMethod context) "Unknown" ++ "

⚠️ Please verify payment and confirm activation.

Reply with " ++ Js.dquote ++ "CONFIRMED" ++ Js.dquote ++ " to activate subscription.".

Definition pricingBase : string :=
  "🔥 BUY 2, GET 1 FREE deal active!

**Lifetime: €250** (Best seller!)
- 6 years GUARANTEED
- Pay €150 now + €100 next month
- One payment, stream forever

**2 Years: €139** + 4 FREE months
**Yearly: €80** + 2 FREE months
**Monthly: €35** - No commitment

✅ 4.8⭐ on Trustpilot
✅ 90-day money-back guarantee
✅ 20,000+ happy customers".

Definition getPricingMessage (currentInterest : option string) : string :=
  if bool_decide (currentInterest = Some "yearly") then
    pricingBase ++ "

I'd recommend Lifetime though - it's our best seller. €250 for 6+ years vs €80/year... you'd save hundreds!

And you can split the payment: €150 now, €100 next month.

Which one works for you?"
  else
    pricingBase ++ "

Which plan interests you?".

Definition getSetupInstructions (prompts : Prompts) (device : string) : string :=
  if String.eqb device "firestick" then DEVICE_SETUP_INSTRUCTIONS prompts firestick
  else if String.eqb device "android_phone"
  then DEVICE_SETUP_INSTRUCTIONS prompts android_phone
  else if String.eqb device "smart_tv" then DEVICE_SETUP_INSTRUCTIONS prompts smart_tv
  else if String.eqb device "android_box"
  then DEVICE_SETUP_INSTRUCTIONS prompts android_box
  else if String.eqb device "tivimate" then
      "No problem! TiviMate works great.

I'll send you the login details once we get your trial set up:
- Username
- Password
- Server URL

First, which content do you want?
🇮🇪 English only (IE/UK/USA/CA/AU)
🌍 Europe
🌎 Worldwide (everything)"
  else
      "What device are you using exactly?

I support:
📱 Android Phone/Tablet
📺 Smart TV (Samsung, LG, Android TV)
🔥 Fire Stick
📦 Android Box

Let me know and I'll send the right instructions!".

Definition getPaymentInstructions (prompts : Prompts) (method : option PaymentMethod) : string :=
  match method with
  | Some revolut => PAYMENT_TEMPLATES_revolut prompts
  | Some paypal => PAYMENT_TEMPLATES_paypal prompts
  | _ => PAYMENT_TEMPLATES_both prompts
  end.

(** ** ConversationService: the follow-up computation *)

Definition msPerHour : Z := 1000 * 60 * 60.
Definition msPerDay : Z := 1000 * 60 * 60 * 24.

Record FollowUp := mkFollowUp {
  followup_type : string;
  sendAt : Date
}.

(** The three groups of rules of [calculateFollowUpTime]. The source
    divides the elapsed milliseconds by the length of an hour or of a day
    and compares the quotient with a whole number; on whole milliseconds
    that is the comparison of the elapsed time with that many hours or
    days. A group that applies without any of its rules firing falls
    through to the groups below it, none of which can apply since the
    state differs. *)
Definition trialFollowUp (now : Date) (context : CustomerContext) : option FollowUp :=
  match trialStartedAt context with
  | Some trialStart =>
      if bool_decide (state context = trial_active) then
        let elapsed := now - trialStart in
        if (elapsed <? 18 * msPerHour) && (followUpsSent context =? 0)
        then Some (mkFollowUp "trial_18h" (trialStart + 18 * 60 * 60 * 1000))
        else if (elapsed <? 23 * msPerHour) && (followUpsSent context <=? 1)
        then Some (mkFollowUp "trial_23h" (trialStart + 23 * 60 * 60 * 1000))
        else None
      else None
  | None => None
  end.

Definition ghosterFollowUp (now : Date) (context : CustomerContext) : option FollowUp :=
  match lastMessageAt context with
  | Some lastMsg =>
      if bool_decide (state context = awaiting_mac) then
        let idle := now - lastMsg in
        if (4 * msPerHour <=? idle) && (followUpsSent context =? 0)
        then Some (mkFollowUp "ghoster_4h" now)
        else if (24 * msPerHour <=? idle) && (followUpsSent context =? 1)
        then Some (mkFollowUp "ghoster_nextday" now)
        else None
      else None
  | None => None
  end.

Definition postTrialFollowUp (now : Date) (context : CustomerContext) : option FollowUp :=
  match trialExpiresAt context with
  | Some expiry =>
      if bool_decide (state context = trial_expired) then
        let since := now - expiry in
        if (1 * msPerDay <=? since) && (followUpsSent context <=? 2)
        then Some (mkFollowUp "day1_followup" now)
        else if (3 * msPerDay <=? since) && (followUpsSent context <=? 3)
        then Some (mkFollowUp "day3_followup" now)
        else if (7 * msPerDay <=? since) && (followUpsSent context <=? 4)
        then Some (mkFollowUp "day7_final" now)
        else None
      else None
  | None => None
  end.

(** [calculateFollowUpTime(context)], with the reading of the clock that
    its first statement takes as the argument [now]. *)
Definition calculateFollowUpTime (now : Date) (context : CustomerContext) : option FollowUp :=
  match trialFollowUp now context with
  | Some f => Some f
  | None =>
      match ghosterFollowUp now context with
      | Some f => Some f
      | None => postTrialFollowUp now context
      end
  end.

(** ** The store: a heap of context objects behind a map of phones

    [conversations] maps a phone to the location of its context object;
    the object itself is in [heap]. The service hands out the location, so
    whoever holds it reads and writes the stored object. [ticks] is what
    the clock answers to the successive [new Date()] of the process, and
    [reads] counts the readings taken so far. *)

Definition loc := nat.

Record World := mkWorld {
  heap : gmap loc CustomerContext;
  conversations : gmap string loc;
  messageHistory : gmap string (list ConversationMessage);
  ticks : nat -> Date;
  reads : nat
}.

Definition with_heap (h : gmap loc CustomerContext) (w : World) : World :=
  {| heap := h; conversations := conversations w;
     messageHistory := messageHistory w; ticks := ticks w; reads := reads w |}.

Definition with_conversations (m : gmap string loc) (w : World) : World :=
  {| heap := heap w; conversations := m;
     messageHistory := messageHistory w; ticks := ticks w; reads := reads w |}.

Definition with_messageHistory (m : gmap string (list ConversationMessage)) (w : World)
  : World :=
  {| heap := heap w; conversations := conversations w;
     messageHistory := m; ticks := ticks w; reads := reads w |}.

Definition with_reads (n : nat) (w : World) : World :=
  {| heap := heap w; conversations := conversations w;
     messageHistory := messageHistory w; ticks := ticks w; reads := n |}.

(** A call either returns or throws. *)
Inductive Outcome (A : Type) :=
| Return (a : A)
| Throw (e : string).

Arguments Return {A} a.
Arguments Throw {A} e.

(** A method of the services: it runs in a world, leaves a world, and
    returns or throws. *)
Definition M (A : Type) : Type := World -> Outcome A * World.

Definition ret {A} (a : A) : M A := fun w => (Return a, w).

Definition throw {A} (e : string) : M A := fun w => (Throw e, w).

Definition bind {A B} (c : M A) (k : A -> M B) : M B := fun w =>
  match c w with
  | (Return a, w') => k a w'
  | (Throw e, w') => (Throw e, w')
  end.

Declare Scope js_scope.
Delimit Scope js_scope with js.
Notation "x <- c ;; k" := (bind c (fun x => k))
  (at level 100, c at level 99, right associativity) : js_scope.
Notation "c ;; k" := (bind c (fun _ => k))
  (at level 100, right associativity) : js_scope.
Open Scope js_scope.

(** [new Date()]: the next reading of the clock. *)
Definition newDate : M Date := fun w =>
  (Return (ticks w (reads w)), with_reads (S (reads w)) w).

(** Reading the object at a location. A location that holds nothing is
    the dereference of [undefined]. *)
Definition get (l : loc) : M CustomerContext := fun w =>
  match heap w !! l with
  | Some c => (Return c, w)
  | None => (Throw "TypeError", w)
  end.

(** Assignments to properties of the object at a location. *)
Definition modify (l : loc) (f : CustomerContext -> CustomerContext) : M unit := fun w =>
  match heap w !! l with
  | Some c => (Return tt, with_heap (<[l := f c]> (heap w)) w)
  | None => (Throw "TypeError", w)
  end.

(** A new object. *)
Definition alloc (c : CustomerContext) : M loc := fun w =>
  let l := fresh (dom (heap w)) in
  (Return l, with_heap (<[l := c]> (heap w)) w).

(** [{ phone, state: 'new', followUpsSent: 0, needsHuman: false,
      createdAt: new Date(), updatedAt: new Date() }] *)
Definition newContext (ph : string) (created updated : Date) : CustomerContext :=
  {| id_ := None; phone := ph; name := None; state := new;
     previousState := None; device := None; macAddress := None;
     deviceKey := None; contentPreference := None;
     wantsAdultContent := None; language := None; trialStartedAt := None;
     trialExpiresAt := None; plan := None; subscribedAt := None;
     expiresAt := None; paymentMethod := None; paymentPending := None;
     credentials := None; lastMessageAt := None; followUpsSent := 0;
     lastFollowUpType := None; needsHuman := false;
     escalationReason := None; sentiment := None; createdAt := created;
     updatedAt := updated |}.

Module ConversationService.

Definition hasContext (ph : string) : M bool := fun w =>
    (Return (bool_decide (is_Some (conversations w !! ph))), w).

Definition getOrCreateContext (ph : string) : M loc := fun w =>
    match conversations w !! ph with
    | Some context => (Return context, w)
    | None =>
        (created <- newDate ;;
         updated <- newDate ;;
         context <- alloc (newContext ph created updated) ;;
         (fun w' => (Return context,
                     with_conversations (<[ph := context]> (conversations w')) w'))) w
    end.

  (** The second argument of [updateContext]: the callers pass either an
      object they hold, by reference, or an object literal. *)
Inductive Updates :=
  | Object (l : loc)
  | Literal (p : PartialContext).

  (** The own properties of the argument, at the moment they are read. *)
Definition properties (updates : Updates) : M PartialContext :=
    match updates with
    | Object l => c <- get l ;; ret (own_properties c)
    | Literal p => ret p
    end.

Definition updateContext (ph : string) (updates : Updates) : M loc :=
    context <- getOrCreateContext ph ;;
    (* Track state changes *)
    u <- properties updates ;;
    c <- get context ;;
    (match p_state u with
     | Some s =>
         if bool_decide (s <> state c)
         then modify context (set_previousState (state c))
         else ret tt
     | None => ret tt
     end) ;;
    (* Object.assign(context, updates, { updatedAt: new Date() }) *)
    now <- newDate ;;
    u <- properties updates ;;
    modify context (fun c => set_updatedAt now (assign c u)) ;;
    (fun w => (Return tt, with_conversations (<[ph := context]> (conversations w)) w)) ;;
    ret context.

  (** [addMessage]: the history keeps the last fifty messages. *)
Definition addMessage (ph : string) (message : ConversationMessage) : M unit := fun w =>
    let history := default [] (messageHistory w !! ph) in
    let history := (history ++ [message])%list in
    let history := if (50 <? Z.of_nat (length history)) then tail history else history in
    (Return tt, with_messageHistory (<[ph := history]> (messageHistory w)) w).

  (** [getHistory(phone, limit)]: [history.slice(-limit)], the last
      [limit] messages; [slice(-0)] is [slice(0)], the whole history. *)
Definition getHistory (ph : string) (limit : nat) : M (list ConversationMessage) := fun w =>
    let history := default [] (messageHistory w !! ph) in
    (Return (match limit with
             | O => history
             | _ => drop (length history - limit)%nat history
             end), w).

Definition getAllContexts : M (list loc) := fun w =>
    (Return (map snd (map_to_list (conversations w))), w).

End ConversationService.

(** ** AIService: intents and responses *)

(** What [detectIntent] returns is either its own default or whatever
    [JSON.parse] makes of the answer of the hosted model: the source does
    not check it. The embedding reads such an object as follows. An
    entity is the string the answer gives for it, [None] when it is
    missing or [null]. The entities as a whole, the confidence, the
    sentiment and the flag are [None] when the answer lacks them; reading
    an entity of an answer without entities throws. The intent is the
    label of the answer, the empty string when it has none: the source
    only compares it with its own literals. Values of other kinds (a
    number where a string is expected, [null] in the place of the
    entities) are not represented. *)
Record Entities := mkEntities {
  ent_device : option string;
  plan_interest : option string;
  content_preference : option string;
  mac_address : option string;
  device_key : option string;
  payment_method : option string
}.

Record IntentResult := mkIntent {
  ir_intent : string;
  ir_confidence : option Q;
  ir_entities : option Entities;
  ir_sentiment : option string;
  ir_needs_human : option bool
}.

Record ChatbotResponse := mkResponse {
  resp_message : string;
  resp_context : loc;
  shouldNotifyAdmin : bool;
  adminNotification : option AdminNotification;
  resp_intent : option IntentResult
}.

(** [response.shouldNotifyAdmin = true; response.adminNotification = n] *)
Definition notifying (n : AdminNotification) (r : ChatbotResponse) : ChatbotResponse :=
  {| resp_message := resp_message r; resp_context := resp_context r;
     shouldNotifyAdmin := true; adminNotification := Some n;
     resp_intent := resp_intent r |}.

(** [entities: {}] *)
Definition no_entities : Entities :=
  {| ent_device := None; plan_interest := None; content_preference := None;
     mac_address := None; device_key := None; payment_method := None |}.

(** The safe default of [detectIntent]. *)
Definition default_intent (conf : Q) : IntentResult :=
  {| ir_intent := "other"; ir_confidence := Some conf;
     ir_entities := Some no_entities;
     ir_sentiment := Some "neutral"; ir_needs_human := Some false |}.

(** [try { body } catch (error) { handler }] *)
Definition try_catch {A} (body : Outcome A) (handler : string -> Outcome A) : Outcome A :=
  match body with
  | Return a => Return a
  | Throw e => handler e
  end.

Definition and_then {A B} (c : Outcome A) (k : A -> Outcome B) : Outcome B :=
  match c with
  | Return a => k a
  | Throw e => Throw e
  end.

(** A pure computation inside a method. *)
Definition lift {A} (c : Outcome A) : M A := fun w => (c, w).

(** The [TypeError] of reading a property of [undefined], as the engine
    of the platform words it. *)
Definition TypeError_reading (property : string) : string :=
  "TypeError: Cannot read properties of undefined (reading '" ++ property ++ "')".

(** [intent.entities.<property>], the first time a method reads it: on an
    answer without entities the read throws a [TypeError]. *)
Definition entities_of (intent : IntentResult) (property : string) : M Entities :=
  match ir_entities intent with
  | Some e => ret e
  | None => throw (TypeError_reading property)
  end.

(** [a || b] on optional strings. *)
Definition str_else (a b : option string) : option string :=
  if Js.truthy a then a else b.

(** [content.match(/\{[\s\S]*\}/)]: from the first opening brace to the
    last closing brace after it. *)
Fixpoint upto_last_closing (s : string) : option string :=
  match s with
  | EmptyString => None
  | String a r =>
      match upto_last_closing r with
      | Some m => Some (String a m)
      | None => if Ascii.eqb a "}"%char then Some (String a EmptyString) else None
      end
  end.

Fixpoint jsonMatch (s : string) : option string :=
  match s with
  | EmptyString => None
  | String a r =>
      if Ascii.eqb a "{"%char then
        match upto_last_closing r with
        | Some m => Some (String a m)
        | None => jsonMatch r
        end
      else jsonMatch r
  end.

Section IntentClassifier.

  (** [JSON.parse], its result read as described above; it throws a
      [SyntaxError] on a text that is not JSON. *)
Variable JSON_parse : string -> Outcome IntentResult.

  (** Whether the client of the hosted model was built, that is whether
      an API key was configured. *)
Variable anthropic : bool.

  (** [detectIntent(message)]. The request embeds the message in a fixed
      prompt; what comes back is for the hosted model to decide, so the
      outcome of [anthropic.messages.create], the joined text blocks of the
      response or the error thrown, is the argument [call]. *)
Definition detectIntent (call : Outcome string) : Outcome IntentResult :=
    if negb anthropic then Return (default_intent 0)
    else
      and_then
        (try_catch
           (and_then call (fun content =>
              match jsonMatch content with
              | Some jsonText =>
                  and_then (JSON_parse jsonText) (fun r => Return (Some r))
              | None => Return None
              end))
           (fun _error => (* logger.error *) Return None))
        (fun returned =>
           match returned with
           | Some r => Return r
           | None => Return (default_intent (1 # 2))
           end).

End IntentClassifier.

(** ** AIService, the state-machine revision
    (src/src/services/ai/AIService.ts)

    Every inbound message is dispatched on the state of the context to a
    handler that writes the reply from a template. The texts are those of
    the file, byte for byte. *)

Module AIService.

Import ConversationService.

Definition escalation_reply : string :=
    "I'm getting one of our team members to help you right away. They'll message you shortly! üëç".

Definition greeting : string :=
    "Hey! üëã Thanks for reaching out to BingeBear.

I can get you set up with a free 24-hour trial right now - full access to everything, no payment needed.

Quick question: What device will you be using?

üì± Android Phone/Tablet
üì∫ Smart TV (Samsung, LG, etc.)
üî• Fire Stick
üì¶ Android Box

Just let me know and I'll send the setup instructions!".

Definition device_question : string :=
    "No problem! What device are you using exactly?

üì± Android Phone/Tablet
üì∫ Smart TV (Samsung, LG, Sony, etc.)
üî• Fire Stick
üì¶ Android Box
üíª Other

Just let me know!".

Definition tivimate_reply : string :=
    "Ah, you've got TiviMate! Great choice üëç

I'll send you the login details (Username, Password, URL) instead.

Which content do you want?
üáÆüá™ English only (IE/UK/USA/CA/AU)
üåç Europe
üåé Worldwide (everything)
üîû Adult content? (just let me know)".

Definition device_details_reply : string :=
    "Perfect! Got your device details ‚úÖ

One last thing before I activate your trial:

What content are you most interested in?
üáÆüá™ English channels (Ireland, UK, USA, CA, etc.)
üåç Europe
üåé Worldwide (everything)
üîû Adult content? (just let me know)

This helps me set up exactly what you want to test!".

Definition mac_help : string :=
    "No worries! Having trouble finding the MAC address?

Open IBO Pro Player - you should see a screen with:
- MAC Address
- Device Key

Just send me a screenshot of that screen, or type the numbers you see.

Need help with any step? I'm here! üëç".

Definition trial_setup_reply : string :=
    "Perfect! I'm setting up your trial now...

You'll be watching in about 2 minutes! I'll message you as soon as it's ready üëç".

Definition payment_check_reply : string :=
    "Got it! Let me verify the payment...

Can you send me a screenshot of the payment receipt please? ‚úÖ".

Definition payment_hold_reply : string :=
    "Thanks! I'm just verifying the payment now - will confirm in a moment üëç".

Definition technical_reply : string :=
    "On it! Let me check what's happening.

Quick questions:
1. Which channel/content is having issues?
2. What device are you using?
3. Is your internet working okay for other things?

I'll get this sorted for you right away üëç".

Definition ai_error_reply : string :=
    "Sorry, I'm having a technical issue right now. Let me get someone to help you! üëç".

Definition escalation_message (ph : string) (intent : IntentResult) (message : string)
    : string :=
    "üö® ESCALATION NEEDED

Customer: " ++ ph ++ "
Reason: " ++ (if String.eqb (ir_intent intent) "human_request"
              then "Requested human" else "Detected frustration") ++ "
Last message: " ++ Js.dquote ++ message ++ Js.dquote.

Definition payment_options_reply (c : CustomerContext) : string :=
    "Great choice" ++ (if Js.truthy (plan c)
                       then " on the " ++ formatPlanName (default "" (plan c))
                       else "") ++ "! üéâ

Which payment method works best for you?

üí≥ Revolut/Bank Transfer
üì± PayPal

Let me know and I'll send the details!".

Definition receipt_message (c : CustomerContext) (message : string) : string :=
    "üì∏ Customer sent what looks like a receipt:

" ++ Js.dquote ++ Js.take 100 message ++ "..." ++ Js.dquote ++ "

Phone: " ++ phone c ++ "
Plan: " ++ str_of (plan c) ++ "

Please verify and activate.".

Definition technical_message (c : CustomerContext) (message : string) : string :=
    "‚ö†Ô∏è TECHNICAL ISSUE

Customer: " ++ phone c ++ "
Plan: " ++ str_or (plan c) "Trial" ++ "
Device: " ++ str_or (device c) "Unknown" ++ "

Issue: " ++ Js.dquote ++ message ++ Js.dquote.

Definition ai_error_message (c : CustomerContext) (error message : string) : string :=
    "üö® AI ERROR

Customer: " ++ phone c ++ "
Error: " ++ error ++ "
Last message: " ++ Js.dquote ++ message ++ Js.dquote.

  (** A response that notifies nobody. *)
Definition reply (text : string) (context : loc) : ChatbotResponse :=
    {| resp_message := text; resp_context := context; shouldNotifyAdmin := false;
       adminNotification := None; resp_intent := None |}.

  (** A response with a notification for the admin. *)
Definition reply_notify (text : string) (context : loc) (t : NotificationType)
      (m : string) : ChatbotResponse :=
    {| resp_message := text; resp_context := context; shouldNotifyAdmin := true;
       adminNotification := Some (mkNotification t m); resp_intent := None |}.

  (** The adult-content keywords. *)
Definition mentions_adult (message : string) : bool :=
    Js.includes (Js.toLowerCase message) "adult"
    || Js.includes (Js.toLowerCase message) "xxx"
    || Js.includes (Js.toLowerCase message) "porn".

Section Service.

Variable prompts : Prompts.
Variable JSON_parse : string -> Outcome IntentResult.
Variable anthropic : bool.

    (** [generateAIResponse]: the reply of the hosted model to the recent
        history under the contextual prompt; [call] is the outcome of that
        request. On an error the response carries a copy of the context,
        [{ ...context, needsHuman: true }], not the context. *)
Definition generateAIResponse (context : loc) (message : string)
        (call : Outcome string) : M ChatbotResponse :=
      if negb anthropic then throw "AI service not configured"
      else
        match call with
        | Return text => ret (reply text context)
        | Throw error =>
            c <- get context ;;
            copy <- alloc (set_needsHuman true c) ;;
            ret (reply_notify ai_error_reply copy escalation
                   (ai_error_message c error message))
        end.

Definition handleNewConversation (context : loc) (message : string)
        (_intent : IntentResult) : M ChatbotResponse :=
      (* Check if they mentioned a device *)
      match extractDeviceType message with
      | Some d =>
          modify context (set_device d) ;;
          modify context (set_state awaiting_mac) ;;
          ret (reply (getSetupInstructions prompts d) context)
      | None =>
          (* Standard greeting *)
          modify context (set_state awaiting_device) ;;
          ret (reply greeting context)
      end.

Definition handleDeviceSelection (context : loc) (message : string)
        (intent : IntentResult) : M ChatbotResponse :=
      e <- entities_of intent "device" ;;
      let device := str_else (ent_device e) (device_name <$> extractDeviceType message) in
      if Js.truthy device then
        modify context (set_device (default "" device)) ;;
        modify context (set_state awaiting_mac) ;;
        ret (reply (getSetupInstructions prompts (default "" device)) context)
      else
        (* Couldn't identify device *)
        ret (reply device_question context).

Definition handleMacCollection (context : loc) (message : string)
        (intent : IntentResult) : M ChatbotResponse :=
      (* Check for MAC address in message *)
      e <- entities_of intent "mac_address" ;;
      let mac := str_else (mac_address e) (extractMacAddress message) in
      (* Check if they're asking about TiviMate *)
      if Js.includes (Js.toLowerCase message) "tivimate"
         || Js.includes (Js.toLowerCase message) "tivi mate" then
        modify context (set_device tivimate) ;;
        modify context (set_state awaiting_content_pref) ;;
        ret (reply tivimate_reply context)
      (* Check if message looks like it contains MAC/device info *)
      else if Js.truthy mac || (10 <? Z.of_nat (String.length message))
              || Js.includes message ":"
              || Js.present (Regex.search (repeat Regex.hex 6) message) then
        modify context (set_macAddress (if Js.truthy mac then default message mac
                                        else message)) ;;
        modify context (set_state awaiting_content_pref) ;;
        ret (reply device_details_reply context)
      else
        (* They might be stuck *)
        ret (reply mac_help context).

Definition handleContentPreference (context : loc) (message : string)
        (intent : IntentResult) : M ChatbotResponse :=
      e <- entities_of intent "content_preference" ;;
      let pref := str_else (content_preference e)
                           (preference_name <$> extractContentPreference message) in
      (* Check for adult content request *)
      (if mentions_adult message
       then modify context (set_wantsAdultContent true) else ret tt) ;;
      (if Js.truthy pref
       then modify context (set_contentPreference (default "" pref))
       else modify context (set_contentPreference english) (* Default *)) ;;
      modify context (set_state trial_pending) ;;
      (* Notify admin to activate trial *)
      c <- get context ;;
      ret (reply_notify trial_setup_reply context trial_request
             (createTrialNotification c)).

Definition handlePricingRequest (context : loc) : M ChatbotResponse :=
      c <- get context ;;
      let pricing := getPricingMessage (plan c) in
      modify context (set_state awaiting_payment) ;;
      ret (reply pricing context).

Definition handlePaymentFlow (context : loc) (message : string)
        (_intent : IntentResult) : M ChatbotResponse :=
      let lower := Js.toLowerCase message in
      (* Detect payment method preference *)
      if Js.includes lower "revolut" || Js.includes lower "bank"
         || Js.includes lower "iban" then
        modify context (set_paymentMethod revolut) ;;
        ret (reply (getPaymentInstructions prompts (Some revolut)) context)
      else if Js.includes lower "paypal" then
        modify context (set_paymentMethod paypal) ;;
        ret (reply (getPaymentInstructions prompts (Some paypal)) context)
      else
        (* Detect plan selection *)
        (if Js.includes lower "lifetime" then modify context (set_plan lifetime)
         else if Js.includes lower "2 year" || Js.includes lower "two year"
         then modify context (set_plan plan_2years)
         else if Js.includes lower "3 year" || Js.includes lower "three year"
         then modify context (set_plan plan_3years)
         else if Js.includes lower "year" then modify context (set_plan yearly)
         else if Js.includes lower "month" then modify context (set_plan monthly)
         else ret tt) ;;
        (* Check if confirming payment sent *)
        if isPaymentConfirmation message then
          modify context (set_state payment_pending) ;;
          modify context (set_paymentPending true) ;;
          c <- get context ;;
          ret (reply_notify payment_check_reply context payment_received
                 (createPaymentNotification c))
        else
          (* Show payment options *)
          c <- get context ;;
          ret (reply (payment_options_reply c) context).

Definition handleTrialActive (context : loc) (message : string)
        (intent : IntentResult) (call : Outcome string) : M ChatbotResponse :=
      (* Check if asking about pricing/plans *)
      if String.eqb (ir_intent intent) "pricing"
         || Js.includes (Js.toLowerCase message) "price"
         || Js.includes (Js.toLowerCase message) "plan" then
        handlePricingRequest context
      (* Check if ready to subscribe *)
      else if String.eqb (ir_intent intent) "payment"
              || Js.includes (Js.toLowerCase message) "yes"
              || Js.includes (Js.toLowerCase message) "subscribe"
              || Js.includes (Js.toLowerCase message) "buy" then
        modify context (set_state awaiting_payment) ;;
        handlePaymentFlow context message intent
      else
        (* General question during trial *)
        generateAIResponse context message call.

Definition handlePaymentPending (context : loc) (message : string)
        (_intent : IntentResult) : M ChatbotResponse :=
      (* Waiting for admin to verify *)
      c <- get context ;;
      ret (reply_notify payment_hold_reply context payment_received
             (receipt_message c message)).

Definition handleTechnicalIssue (context : loc) (message : string)
      : M ChatbotResponse :=
      c <- get context ;;
      ret (reply_notify technical_reply context technical_issue
             (technical_message c message)).

Definition handleActiveSubscriber (context : loc) (message : string)
        (intent : IntentResult) (call : Outcome string) : M ChatbotResponse :=
      if String.eqb (ir_intent intent) "technical_issue"
      then handleTechnicalIssue context message
      else generateAIResponse context message call.

    (** [processMessage]: the two intents that are handled regardless of
        the state, then the state machine. *)
Definition processMessage (context : loc) (message : string)
        (intent : IntentResult) (call : Outcome string) : M ChatbotResponse :=
      c <- get context ;;
      let st := state c in
      (* Handle specific intents regardless of state *)
      if String.eqb (ir_intent intent) "pricing" then handlePricingRequest context
      else if String.eqb (ir_intent intent) "technical_issue"
      then handleTechnicalIssue context message
      else
        (* State machine *)
        match st with
        | new => handleNewConversation context message intent
        | awaiting_device => handleDeviceSelection context message intent
        | awaiting_mac => handleMacCollection context message intent
        | awaiting_content_pref => handleContentPreference context message intent
        | trial_active => handleTrialActive context message intent call
        | trial_expired | awaiting_payment => handlePaymentFlow context message intent
        | payment_pending => handlePaymentPending context message intent
        | active_subscriber => handleActiveSubscriber context message intent call
        | _ => generateAIResponse context message call
        end.

    (** [updateContextFromIntent]: whatever the classifier extracted
        overwrites what the context holds, unchecked. The sentiment is
        assigned before the entities are read. *)
Definition updateContextFromIntent (context : loc) (intent : IntentResult)
        (_message : string) : M unit :=
      modify context (set_sentiment (ir_sentiment intent)) ;;
      e <- entities_of intent "device" ;;
      (if Js.truthy (ent_device e)
       then modify context (set_device (default "" (ent_device e)))
       else ret tt) ;;
      (if Js.truthy (plan_interest e)
       then modify context (set_plan (default "" (plan_interest e)))
       else ret tt) ;;
      (if Js.truthy (content_preference e)
       then modify context (set_contentPreference (default "" (content_preference e)))
       else ret tt) ;;
      (if Js.truthy (mac_address e)
       then modify context (set_macAddress (default "" (mac_address e)))
       else ret tt) ;;
      (if Js.truthy (device_key e)
       then modify context (set_deviceKey (default "" (device_key e)))
       else ret tt) ;;
      (if Js.truthy (payment_method e)
       then modify context (set_paymentMethod (default "" (payment_method e)))
       else ret tt).

    (** [handleIncomingMessage(phone, message)]. [intent_call] is the
        outcome of the request of [detectIntent] to the hosted model and
        [reply_call] that of the request of [generateAIResponse], should
        the message get that far. *)
Definition handleIncomingMessage (ph message : string)
        (intent_call reply_call : Outcome string) : M ChatbotResponse :=
      if negb anthropic then throw "AI service not configured"
      else
        (* Get or create customer context *)
        context <- getOrCreateContext ph ;;
        now <- newDate ;;
        modify context (set_lastMessageAt now) ;;
        (* Add user message to history *)
        ts <- newDate ;;
        addMessage ph (mkMessage user message ts None) ;;
        (* Detect intent *)
        intent <- lift (detectIntent JSON_parse anthropic intent_call) ;;
        (* Update context based on intent entities *)
        updateContextFromIntent context intent message ;;
        (* Check if needs human escalation *)
        c <- get context ;;
        if shouldEscalateToHuman c message (Some (ir_intent intent)) then
          modify context (set_needsHuman true) ;;
          modify context (set_state needs_human) ;;
          updateContext ph (Object context) ;;
          ret {| resp_message := escalation_reply; resp_context := context;
                 shouldNotifyAdmin := true;
                 adminNotification :=
                   Some (mkNotification escalation
                           (escalation_message ph intent message));
                 resp_intent := Some intent |}
        else
          (* Process based on current state and intent *)
          response <- processMessage context message intent reply_call ;;
          (* Add assistant response to history *)
          ts <- newDate ;;
          addMessage ph (mkMessage assistant (resp_message response) ts None) ;;
          (* Update context *)
          updateContext ph (Object (resp_context response)) ;;
          ret response.

End Service.

End AIService.

(** ** Dates

    The time arithmetic of ECMA-262 (Day, YearFromTime, MakeDay, ...)
    behind [getMonth], [setMonth], [getFullYear] and [setFullYear]. The
    setters work on the local time; [LocalTZA] is the offset of the local
    time zone in milliseconds, taken to be the same at every instant. The
    time values stay within the range of a [Date], so that [TimeClip]
    leaves them alone. *)

Module JsDate.

Definition Day (t : Z) : Z := t / msPerDay.

Definition TimeWithinDay (t : Z) : Z := t mod msPerDay.

Definition isLeapYear (y : Z) : bool :=
  ((y mod 4 =? 0) && negb (y mod 100 =? 0)) || (y mod 400 =? 0).

Definition DaysInYear (y : Z) : Z := if isLeapYear y then 366 else 365.

Definition DayFromYear (y : Z) : Z :=
  365 * (y - 1970) + (y - 1969) / 4 - (y - 1901) / 100 + (y - 1601) / 400.

(** The largest year whose first day is not after the day of [t]: the
    mean year has 146097 / 400 days, which locates the year up to one. *)
Definition YearFromDay (d : Z) : Z :=
  let y := 1970 + (400 * d) / 146097 in
  if d <? DayFromYear y then y - 1
  else if DayFromYear (y + 1) <=? d then y + 1
  else y.

Definition YearFromTime (t : Z) : Z := YearFromDay (Day t).

Definition InLeapYear (t : Z) : bool := isLeapYear (YearFromTime t).

Definition DayWithinYear (t : Z) : Z := Day t - DayFromYear (YearFromTime t).

(** The number of days of the year before the month [m] (0 to 11) starts,
    and before the year ends for [m = 12]. *)
Definition daysBeforeMonth (leap : bool) (m : Z) : Z :=
  let l := if leap then 1 else 0 in
  match m with
  | 0 => 0 | 1 => 31 | 2 => 59 + l | 3 => 90 + l | 4 => 120 + l
  | 5 => 151 + l | 6 => 181 + l | 7 => 212 + l | 8 => 243 + l
  | 9 => 273 + l | 10 => 304 + l | 11 => 334 + l | _ => 365 + l
  end.

Definition monthOfDay (leap : bool) (d : Z) : Z :=
  if d <? daysBeforeMonth leap 1 then 0
  else if d <? daysBeforeMonth leap 2 then 1
  else if d <? daysBeforeMonth leap 3 then 2
  else if d <? daysBeforeMonth leap 4 then 3
  else if d <? daysBeforeMonth leap 5 then 4
  else if d <? daysBeforeMonth leap 6 then 5
  else if d <? daysBeforeMonth leap 7 then 6
  else if d <? daysBeforeMonth leap 8 then 7
  else if d <? daysBeforeMonth leap 9 then 8
  else if d <? daysBeforeMonth leap 10 then 9
  else if d <? daysBeforeMonth leap 11 then 10
  else 11.

Definition MonthFromTime (t : Z) : Z :=
  monthOfDay (InLeapYear t) (DayWithinYear t).

Definition DateFromTime (t : Z) : Z :=
  DayWithinYear t - daysBeforeMonth (InLeapYear t) (MonthFromTime t) + 1.

Definition DaysInMonth (y m : Z) : Z :=
  daysBeforeMonth (isLeapYear y) (m + 1) - daysBeforeMonth (isLeapYear y) m.

(** [MakeDay(year, month, date)]: the day number of the first of the
    month that [month] normalises to, plus [date - 1]; a date past the
    end of the month runs on into the months that follow. *)
Definition MakeDay (year month date : Z) : Z :=
  let ym := year + month / 12 in
  let mn := month mod 12 in
  DayFromYear ym + daysBeforeMonth (isLeapYear ym) mn + date - 1.

Definition MakeDate (day time : Z) : Z := day * msPerDay + time.

Section LocalTime.

Variable LocalTZA : Z.

Definition LocalTime (t : Z) : Z := t + LocalTZA.
Definition UTC (t : Z) : Z := t - LocalTZA.

Definition getFullYear (d : Date) : Z := YearFromTime (LocalTime d).
Definition getMonth (d : Date) : Z := MonthFromTime (LocalTime d).
Definition getDate (d : Date) : Z := DateFromTime (LocalTime d).

(** [d.setMonth(month)]: the new time value, which the method returns
    and the source wraps in a [new Date]. *)
Definition setMonth (d : Date) (month : Z) : Date :=
  let t := LocalTime d in
  UTC (MakeDate (MakeDay (YearFromTime t) month (DateFromTime t)) (TimeWithinDay t)).

(** [d.setFullYear(year)]. *)
Definition setFullYear (d : Date) (year : Z) : Date :=
  let t := LocalTime d in
  UTC (MakeDate (MakeDay year (MonthFromTime t) (DateFromTime t)) (TimeWithinDay t)).

End LocalTime.

End JsDate.

(** ** AIService, the auto-advance revision
    (the second half of src/unnamed/part_001)

    The reply always comes from the hosted model; the state is computed
    from the fields collected so far. The two admin operations at the end
    are the same, word for word, in the state-machine revision. *)

Module AutoAdvance.

Import ConversationService.

Definition escalation_reply : string :=
  "I'm getting one of our team members to help you right away. They'll message you shortly! 👍".

Definition escalation_message (ph : string) (intent : IntentResult) (message : string)
  : string :=
  "🚨 ESCALATION NEEDED

Customer: " ++ ph ++ "
Reason: " ++ (if String.eqb (ir_intent intent) "human_request"
              then "Requested human" else "Detected frustration") ++ "
Last message: " ++ Js.dquote ++ message ++ Js.dquote.

Definition technical_message (c : CustomerContext) (message : string) : string :=
  "⚠️ TECHNICAL ISSUE

Customer: " ++ phone c ++ "
Device: " ++ str_or (device c) "Unknown" ++ "

Issue: " ++ Js.dquote ++ message ++ Js.dquote.

Definition ai_error_reply : string :=
  "Sorry, I'm having a technical issue right now. Let me get someone to help you! 👍".

Definition ai_error_message (c : CustomerContext) (error message : string) : string :=
  "🚨 AI ERROR

Customer: " ++ phone c ++ "
Error: " ++ error ++ "
Last message: " ++ Js.dquote ++ message ++ Js.dquote.

(** What the admin supplies on activation. *)
Record LoginDetails := mkLogin {
  login_username : string;
  login_password : string;
  login_url : string
}.

(** [{ ...credentials, m3uUrl: `${url}/get.php?username=...` }] *)
Definition with_m3uUrl (creds : LoginDetails) : Credentials :=
  {| username := login_username creds;
     password := login_password creds;
     url := login_url creds;
     m3uUrl := Some (login_url creds ++ "/get.php?username=" ++ login_username creds
                     ++ "&password=" ++ login_password creds
                     ++ "&type=m3u_plus&output=ts") |}.

Definition tivimate_activation (creds : LoginDetails) : string :=
  "🎉 Your trial is live!

Here are your login details for TiviMate:

Username: " ++ login_username creds ++ "
Password: " ++ login_password creds ++ "
URL: " ++ login_url creds ++ "

Open TiviMate, go to Settings → Add Playlist → Xtream Codes Login, and enter these details.

Give it a moment to load all the channels. Enjoy! 🍿📺

Your 24-hour trial started now - let me know if you need anything!".

Definition app_activation : string :=
  "🎉 Your trial is live!

Here's what to do:
1️⃣ Exit the IBO Pro Player app completely
2️⃣ Reopen the app
3️⃣ Click " ++ Js.dquote ++ "Continue" ++ Js.dquote ++ " when it loads
4️⃣ Give it 10-15 seconds to load all the channels

Everything should be working now!

Try a few channels and let me know if you see any issues. I'm here if you need anything! 🍿📺

Your 24-hour trial started now.".

Definition welcome_message (pl : PlanType) (c : CustomerContext) (creds : LoginDetails)
  : string :=
  "🎉 Welcome to BingeBear!

Your " ++ formatPlanName pl ++ " is now active ✅

Save these details:
M3u: " ++ default "undefined" (credentials c ≫= m3uUrl) ++ "
Username: " ++ login_username creds ++ "
Password: " ++ login_password creds ++ "
URL: " ++ login_url creds ++ "

Everything should keep working exactly as it did during your trial. If anything changes or stops working, message me immediately!

We truly appreciate you subscribing! 🙏

Quick favor: Would you mind leaving us a quick review on Trustpilot?
trustpilot.com/review/bingebear.tv

Thanks mate! Enjoy unlimited streaming 🍿📺".

Definition reply (text : string) (context : loc) : ChatbotResponse :=
  {| resp_message := text; resp_context := context; shouldNotifyAdmin := false;
     adminNotification := None; resp_intent := None |}.

(** *** The device key in the raw message:
    [/device\s*key[:\s]*([A-Za-z0-9]+)/i] *)

Definition is_space (a : ascii) : bool :=
  let n := nat_of_ascii a in ((9 <=? n)%nat && (n <=? 13)%nat) || (n =? 32)%nat.

Definition is_alnum (a : ascii) : bool :=
  let n := nat_of_ascii a in
  ((48 <=? n)%nat && (n <=? 57)%nat) || Js.is_upper a || Js.is_lower a.

Fixpoint skip_while (cls : ascii -> bool) (s : string) : string :=
  match s with
  | EmptyString => EmptyString
  | String a r => if cls a then skip_while cls r else s
  end.

Fixpoint take_while (cls : ascii -> bool) (s : string) : string :=
  match s with
  | EmptyString => EmptyString
  | String a r => if cls a then String a (take_while cls r) else EmptyString
  end.

(** The rest of [s] after the word, matched without regard to case. *)
Fixpoint after_word (word s : string) : option string :=
  match word, s with
  | EmptyString, _ => Some s
  | String a w, String b r =>
      if Ascii.eqb a (Js.lower_char b) then after_word w r else None
  | String _ _, EmptyString => None
  end.

Definition device_key_here (s : string) : option string :=
  match after_word "device" s with
  | Some r =>
      match after_word "key" (skip_while is_space r) with
      | Some r' =>
          let key := take_while is_alnum
                       (skip_while (fun a => Ascii.eqb a ":"%char || is_space a) r') in
          if String.eqb key "" then None else Some key
      | None => None
      end
  | None => None
  end.

(** [message.match(...)], its first capture group. *)
Fixpoint device_key_match (s : string) : option string :=
  match device_key_here s with
  | Some key => Some key
  | None =>
      match s with
      | EmptyString => None
      | String _ r => device_key_match r
      end
  end.

(** [isValid]: a string that is a real value, not a placeholder. *)
Definition isValid (val : option string) : bool :=
  match val with
  | Some s =>
      negb (String.eqb s "null") && negb (String.eqb s "none")
      && negb (String.eqb s "N/A") && (0 <? Z.of_nat (String.length s))
  | None => false
  end.

(** *** The messages sent to the hosted model *)

Inductive ChatRole := User | Assistant.

#[global] Instance ChatRole_eq_dec : EqDecision ChatRole.
Proof. solve_decision. Defined.

Record ChatMessage := mkChat {
  chat_role : ChatRole;
  chat_content : string
}.

(** One turn of the loop of [ensureAlternatingRoles]: [merged] is the
    array built so far, [last] its last element. *)
Definition merge_step (merged : list ChatMessage) (msg : ChatMessage) : list ChatMessage :=
  match last merged with
  | Some l =>
      if bool_decide (chat_role l = chat_role msg) then
        (* last.content += '\n' + msg.content *)
        removelast merged
          ++ [mkChat (chat_role l) (chat_content l ++ Js.nl ++ chat_content msg)]
      else
        (* merged.push({ ...msg }) *)
        merged ++ [msg]
  | None => merged ++ [msg]
  end.

Definition ensureAlternatingRoles (msgs : list ChatMessage) : list ChatMessage :=
  match msgs with
  | [] => msgs
  | _ =>
      (* Merge consecutive same-role messages *)
      let merged := fold_left merge_step msgs [] in
      (* Ensure starts with 'user' *)
      match merged with
      | first :: rest =>
          if bool_decide (chat_role first <> User) then rest else merged
      | [] => merged
      end
  end.

Section Service.

Variable JSON_parse : string -> Outcome IntentResult.
Variable anthropic : bool.

(** [detectLanguage], a test of the message against two patterns (Arabic
    letters, French words); its verdict is kept in [language] and nothing
    else reads the patterns. *)
Variable detectLanguage : string -> Language.

(** The offset of the local time zone. *)
Variable LocalTZA : Z.

Definition updateContextFromIntent (context : loc) (intent : IntentResult)
    (message : string) : M unit :=
  modify context (set_sentiment (ir_sentiment intent)) ;;
  (* Detect adult content request from raw message *)
  let lower := Js.toLowerCase message in
  (if Js.includes lower "adult" || Js.includes lower "xxx" || Js.includes lower "porn"
   then modify context (set_wantsAdultContent true) else ret tt) ;;
  (* Also try to extract MAC from raw message if intent didn't catch it *)
  c <- get context ;;
  (if negb (Js.truthy (macAddress c)) then
     match extractMacAddress message with
     | Some extractedMac => modify context (set_macAddress extractedMac)
     | None => ret tt
     end
   else ret tt) ;;
  (* Also try to extract device key from raw message *)
  c <- get context ;;
  (if negb (Js.truthy (deviceKey c)) then
     match device_key_match message with
     | Some key => modify context (set_deviceKey key)
     | None => ret tt
     end
   else ret tt) ;;
  (* Also try to extract content preference from raw message *)
  c <- get context ;;
  (if negb (Js.truthy (contentPreference c)) then
     match extractContentPreference message with
     | Some extractedPref => modify context (set_contentPreference extractedPref)
     | None => ret tt
     end
   else ret tt) ;;
  (* Also try to extract device from raw message *)
  c <- get context ;;
  (if negb (Js.truthy (device c)) then
     match extractDeviceType message with
     | Some extractedDevice => modify context (set_device extractedDevice)
     | None => ret tt
     end
   else ret tt) ;;
  e <- entities_of intent "device" ;;
  c <- get context ;;
  (if isValid (ent_device e) && negb (Js.truthy (device c))
   then modify context (set_device (default "" (ent_device e))) else ret tt) ;;
  c <- get context ;;
  (if isValid (plan_interest e) && negb (Js.truthy (plan c))
   then modify context (set_plan (default "" (plan_interest e))) else ret tt) ;;
  c <- get context ;;
  (if isValid (content_preference e) && negb (Js.truthy (contentPreference c))
   then modify context (set_contentPreference (default "" (content_preference e)))
   else ret tt) ;;
  c <- get context ;;
  (if isValid (mac_address e) && negb (Js.truthy (macAddress c))
   then modify context (set_macAddress (default "" (mac_address e))) else ret tt) ;;
  c <- get context ;;
  (if isValid (device_key e) && negb (Js.truthy (deviceKey c))
   then modify context (set_deviceKey (default "" (device_key e))) else ret tt) ;;
  c <- get context ;;
  (if isValid (payment_method e) && negb (Js.truthy (paymentMethod c))
   then modify context (set_paymentMethod (default "" (payment_method e)))
   else ret tt).

(** The states that [updateStateFromContext] leaves alone. *)
Definition managedExternally : list ConversationState :=
  [trial_active; trial_expired; awaiting_payment; payment_pending;
   active_subscriber; needs_human].

(** [updateStateFromContext]: the state that the collected fields
    amount to. *)
Definition updateStateFromContext (context : loc) : M unit :=
  c <- get context ;;
  (* Don't change state for post-trial states (managed externally) *)
  if bool_decide (state c ∈ managedExternally) then ret tt
  else if Js.truthy (device c)
          && (Js.truthy (macAddress c) || Js.truthy (deviceKey c))
          && Js.truthy (contentPreference c)
  then modify context (set_state trial_pending)
  else if Js.truthy (device c)
          && (Js.truthy (macAddress c) || Js.truthy (deviceKey c))
  then modify context (set_state awaiting_content_pref)
  else if Js.truthy (device c) then modify context (set_state awaiting_mac)
  else if bool_decide (state c = new) then modify context (set_state awaiting_device)
  else ret tt.

(** [checkForAdminNotification]: the notification that the turn calls
    for, if any. The payment branch also assigns the state. *)
Definition checkForAdminNotification (context : loc) (prevState : ConversationState)
    (intent : IntentResult) (message : string) : M (option AdminNotification) :=
  c <- get context ;;
  (* Trial request: just transitioned to trial_pending *)
  if bool_decide (state c = trial_pending) && bool_decide (prevState <> trial_pending)
  then ret (Some (mkNotification trial_request (createTrialNotification c)))
  (* Payment confirmation *)
  else if String.eqb (ir_intent intent) "payment" && isPaymentConfirmation message
  then
    modify context (set_state payment_pending) ;;
    modify context (set_paymentPending true) ;;
    c <- get context ;;
    ret (Some (mkNotification payment_received (createPaymentNotification c)))
  (* Technical issue *)
  else if String.eqb (ir_intent intent) "technical_issue"
  then ret (Some (mkNotification technical_issue (technical_message c message)))
  else ret None.

(** [generateAIResponse]: the request carries the recent history, made to
    alternate by [ensureAlternatingRoles], under the contextual prompt;
    [call] is its outcome. On an error the response carries a copy of the
    context, [{ ...context, needsHuman: true }], not the context. *)
Definition generateAIResponse (context : loc) (message : string)
    (call : Outcome string) : M ChatbotResponse :=
  if negb anthropic then throw "AI service not configured"
  else
    match call with
    | Return text => ret (reply text context)
    | Throw error =>
        c <- get context ;;
        copy <- alloc (set_needsHuman true c) ;;
        ret {| resp_message := ai_error_reply; resp_context := copy;
               shouldNotifyAdmin := true;
               adminNotification :=
                 Some (mkNotification escalation (ai_error_message c error message));
               resp_intent := None |}
    end.

Definition processMessage (context : loc) (message : string)
    (intent : IntentResult) (call : Outcome string) : M ChatbotResponse :=
  (* Auto-update state based on collected data *)
  c <- get context ;;
  let prevState := state c in
  updateStateFromContext context ;;
  (* Generate natural AI response *)
  response <- generateAIResponse context message call ;;
  (* Determine if admin notification is needed based on what just changed *)
  notification <- checkForAdminNotification context prevState intent message ;;
  match notification with
  | Some n => ret (notifying n response)
  | None => ret response
  end.

Definition handleIncomingMessage (ph message : string)
    (intent_call reply_call : Outcome string) : M ChatbotResponse :=
  if negb anthropic then throw "AI service not configured"
  else
    (* Get or create customer context *)
    context <- getOrCreateContext ph ;;
    now <- newDate ;;
    modify context (set_lastMessageAt now) ;;
    (* Detect language on first messages if not set yet *)
    c <- get context ;;
    (if negb (Js.present (language c)) then
       match detectLanguage message with
       | en => ret tt
       | detectedLang => modify context (set_language detectedLang)
       end
     else ret tt) ;;
    (* Add user message to history *)
    ts <- newDate ;;
    addMessage ph (mkMessage user message ts None) ;;
    (* Detect intent *)
    intent <- lift (detectIntent JSON_parse anthropic intent_call) ;;
    (* Update context based on intent entities *)
    updateContextFromIntent context intent message ;;
    (* Check if needs human escalation *)
    c <- get context ;;
    if shouldEscalateToHuman c message (Some (ir_intent intent)) then
      modify context (set_needsHuman true) ;;
      modify context (set_state needs_human) ;;
      updateContext ph (Object context) ;;
      ret {| resp_message := escalation_reply; resp_context := context;
             shouldNotifyAdmin := true;
             adminNotification :=
               Some (mkNotification escalation (escalation_message ph intent message));
             resp_intent := Some intent |}
    else
      (* Process based on current state and intent *)
      response <- processMessage context message intent reply_call ;;
      (* Add assistant response to history *)
      ts <- newDate ;;
      addMessage ph (mkMessage assistant (resp_message response) ts None) ;;
      (* Update context *)
      updateContext ph (Object (resp_context response)) ;;
      ret response.

(** [activateTrial(phone, credentials)], called by the admin. *)
Definition activateTrial (ph : string) (creds : LoginDetails) : M ChatbotResponse :=
  context <- getOrCreateContext ph ;;
  modify context (set_state trial_active) ;;
  started <- newDate ;;
  modify context (set_trialStartedAt started) ;;
  now <- newDate ;;
  modify context (set_trialExpiresAt (now + 24 * 60 * 60 * 1000)) ;;
  modify context (set_credentials (with_m3uUrl creds)) ;;
  updateContext ph (Object context) ;;
  c <- get context ;;
  let activationMessage :=
    if bool_decide (device c = Some "tivimate")
    then tivimate_activation creds else app_activation in
  ret (reply activationMessage context).

(** [activateSubscription(phone, plan, credentials)], called by the
    admin. *)
Definition activateSubscription (ph : string) (pl : PlanType) (creds : LoginDetails)
  : M ChatbotResponse :=
  context <- getOrCreateContext ph ;;
  modify context (set_state active_subscriber) ;;
  modify context (set_plan pl) ;;
  subscribed <- newDate ;;
  modify context (set_subscribedAt subscribed) ;;
  modify context (set_paymentPending false) ;;
  modify context (set_credentials (with_m3uUrl creds)) ;;
  (* Calculate expiry based on plan *)
  now <- newDate ;;
  modify context
    (set_expiresAt
       match pl with
       | monthly =>
           JsDate.setMonth LocalTZA now (JsDate.getMonth LocalTZA now + 1)
       | yearly =>
           JsDate.setMonth LocalTZA now (JsDate.getMonth LocalTZA now + 14)
       | plan_2years =>
           JsDate.setMonth LocalTZA now (JsDate.getMonth LocalTZA now + 28)
       | plan_3years =>
           JsDate.setMonth LocalTZA now (JsDate.getMonth LocalTZA now + 36)
       | lifetime =>
           JsDate.setFullYear LocalTZA now (JsDate.getFullYear LocalTZA now + 6)
       end) ;;
  updateContext ph (Object context) ;;
  c <- get context ;;
  ret (reply (welcome_message pl c creds) context).

End Service.

End AutoAdvance.

(** ** Sample inputs

    Concrete worlds, contexts and model answers, on which the operations
    above are run in the properties below. *)

(** A clock that starts on 2023-11-14T22:13:20Z and advances by a second
    between two readings. *)
Definition sample_clock (n : nat) : Date := 1700000000000 + 1000 * Z.of_nat n.

(** The process right after it started: no conversation yet. *)
Definition fresh_world : World :=
  {| heap := ∅; conversations := ∅; messageHistory := ∅;
     ticks := sample_clock; reads := 0 |}.

(** The context stored for a phone, if any. *)
Definition stored (ph : string) (w : World) : option CustomerContext :=
  conversations w !! ph ≫= fun l => heap w !! l.

(** The world a method leaves behind, and what it returns. *)
Definition world_after {A} (m : M A) (w : World) : World := snd (m w).
Definition result_of {A} (m : M A) (w : World) : Outcome A := fst (m w).

(** A JSON string and a member of a JSON object. *)
Definition json_string (s : string) : string := Js.dquote ++ s ++ Js.dquote.

Definition json_member (key value : string) : string :=
  json_string key ++ ":" ++ value.

(** A complete answer of the hosted model, in the format its prompt asks
    for, with the given label and content preference and no other entity:
    [{"intent":"<label>","confidence":1,"entities":{...},
      "sentiment":"neutral","needs_human":false}]. *)
Definition answer_json (label : string) (preference : option string) : string :=
  "{" ++ json_member "intent" (json_string label) ++ ","
      ++ json_member "confidence" "1" ++ ","
      ++ json_member "entities"
           ("{" ++ match preference with
                   | Some p => json_member "content_preference" (json_string p)
                   | None => ""
                   end ++ "}") ++ ","
      ++ json_member "sentiment" (json_string "neutral") ++ ","
      ++ json_member "needs_human" "false" ++ "}".

(** The complete answer with that label and no entity. *)
Definition intent_json (label : string) : string := answer_json label None.

(** The answer [{"intent":"<label>"}], which has no entities. *)
Definition bare_json (label : string) : string :=
  "{" ++ json_member "intent" (json_string label) ++ "}".

(** The intent with that label, neutral and with no entity. *)
Definition labelled (label : string) : IntentResult :=
  {| ir_intent := label; ir_confidence := Some 1%Q; ir_entities := Some no_entities;
     ir_sentiment := Some "neutral"; ir_needs_human := Some false |}.

(** The same with a content preference. *)
Definition preferring (label preference : string) : IntentResult :=
  {| ir_intent := label; ir_confidence := Some 1%Q;
     ir_entities :=
       Some {| ent_device := None; plan_interest := None;
               content_preference := Some preference;
               mac_address := None; device_key := None; payment_method := None |};
     ir_sentiment := Some "neutral"; ir_needs_human := Some false |}.

(** The object that the answer without entities parses to. *)
Definition bare (label : string) : IntentResult :=
  {| ir_intent := label; ir_confidence := None; ir_entities := None;
     ir_sentiment := None; ir_needs_human := None |}.

(** [JSON.parse] on the answers that the examples below use: it is only
    ever applied to these. *)
Definition sample_parse (s : string) : Outcome IntentResult :=
  if String.eqb s (intent_json "payment") then Return (labelled "payment")
  else if String.eqb s (intent_json "pricing") then Return (labelled "pricing")
  else if String.eqb s (intent_json "other") then Return (labelled "other")
  else if String.eqb s (answer_json "other" (Some "null"))
  then Return (preferring "other" "null")
  else if String.eqb s (bare_json "other") then Return (bare "other")
  else Throw "SyntaxError".

Definition sample_prompts : Prompts :=
  {| DEVICE_SETUP_INSTRUCTIONS := fun d => "Setup instructions for " ++ device_name d;
     PAYMENT_TEMPLATES_revolut := "For Revolut Bank transfer";
     PAYMENT_TEMPLATES_paypal := "For PayPal";
     PAYMENT_TEMPLATES_both := "Which payment method works best for you?";
     FOLLOW_UP_TEMPLATES := fun _ => None |}.

Definition sample_language (message : string) : Language := en.

(** A lead whose trial expired and who did not answer three follow-ups. *)
Definition ghosted_lead : CustomerContext :=
  set_sentiment (Some "neutral")
    (set_followUpsSent 3
       (set_state trial_expired (newContext "353870000000" 0 0))).

(** A trial that started at the instant [start], no follow-up sent. *)
Definition trial_started (start : Date) : CustomerContext :=
  set_trialStartedAt start
    (set_state trial_active (newContext "353870000000" start start)).

(** The body [{ state: 'trial_expired', followUpsSent: 3 }] of a request
    to the route that updates a context. *)
Definition ghosted_update : PartialContext :=
  {| p_id_ := None; p_phone := None; p_name := None;
     p_state := Some trial_expired; p_previousState := None; p_device := None;
     p_macAddress := None; p_deviceKey := None; p_contentPreference := None;
     p_wantsAdultContent := None; p_language := None;
     p_trialStartedAt := None; p_trialExpiresAt := None; p_plan := None;
     p_subscribedAt := None; p_expiresAt := None; p_paymentMethod := None;
     p_paymentPending := None; p_credentials := None; p_lastMessageAt := None;
     p_followUpsSent := Some 3; p_lastFollowUpType := None;
     p_needsHuman := None; p_escalationReason := None; p_sentiment := None;
     p_createdAt := None; p_updatedAt := None |}.

(** The world in which that request was served for a new phone. *)
Definition ghosted_world : World :=
  world_after
    (ConversationService.updateContext "353870000000"
       (ConversationService.Literal ghosted_update))
    fresh_world.

(** ** Notions used to state the properties *)

(** A text holds a parsable object when [JSON.parse] accepts one of its
    parts. *)
Definition holds_parsable (JSON_parse : string -> Outcome IntentResult)
    (text : string) : Prop :=
  exists pre part post r, text = pre ++ part ++ post /\ JSON_parse part = Return r.

(** The maximal runs of consecutive messages of one role, each with its
    role and its contents in order. *)
Fixpoint runs (msgs : list AutoAdvance.ChatMessage)
  : list (AutoAdvance.ChatRole * list string) :=
  match msgs with
  | [] => []
  | m :: rest =>
      match runs rest with
      | (r, cs) :: others =>
          if bool_decide (AutoAdvance.chat_role m = r)
          then (r, AutoAdvance.chat_content m :: cs) :: others
          else (AutoAdvance.chat_role m, [AutoAdvance.chat_content m]) :: (r, cs) :: others
      | [] => [(AutoAdvance.chat_role m, [AutoAdvance.chat_content m])]
      end
  end.

(** The messages a run stands for. *)
Definition expand (run : AutoAdvance.ChatRole * list string)
  : list AutoAdvance.ChatMessage :=
  map (AutoAdvance.mkChat (fst run)) (snd run).

(** A run merged into one message: its contents concatenated in order,
    a line feed between two of them. *)
Definition merged_run (run : AutoAdvance.ChatRole * list string)
  : AutoAdvance.ChatMessage :=
  AutoAdvance.mkChat (fst run) (String.concat Js.nl (snd run)).

(** No two neighbours have the same role. *)
Definition alternating (l : list AutoAdvance.ChatMessage) : Prop :=
  forall i a b, l !! i = Some a -> l !! S i = Some b ->
                AutoAdvance.chat_role a <> AutoAdvance.chat_role b.

(** What the loop of [ensureAlternatingRoles] makes of the last element
    [l] of its array and of the runs of the messages still to come. *)
Definition absorb (l : AutoAdvance.ChatMessage)
    (rs : list (AutoAdvance.ChatRole * list string)) : list AutoAdvance.ChatMessage :=
  match rs with
  | (r, cs) :: others =>
      if bool_decide (AutoAdvance.chat_role l = r)
      then AutoAdvance.mkChat r (String.concat Js.nl (AutoAdvance.chat_content l :: cs))
           :: map merged_run others
      else l :: map merged_run rs
  | [] => [l]
  end.

(** Every conversation of the map has its object in the heap. *)
Definition well_formed (w : World) : Prop :=
  forall ph l, conversations w !! ph = Some l -> is_Some (heap w !! l).

(** The clock never runs backwards. *)
Definition monotone_clock (w : World) : Prop :=
  forall i j : nat, (i <= j)%nat -> ticks w i <= ticks w j.

(** What [updateContext] does before it merges: when the update brings a
    state other than the current one, the current one is kept as the
    previous state. *)
Definition tracked (p : PartialContext) (c : CustomerContext) : CustomerContext :=
  match p_state p with
  | Some s => if bool_decide (s <> state c) then set_previousState (state c) c else c
  | None => c
  end.

(** A property after an update was merged in: the value the update gives
    for it, the old value when the update does not have the property. The
    second form is for the properties that a context may lack. *)
Definition merged {A} (given : option A) (old new : A) : Prop :=
  match given with
  | Some v => new = v
  | None => new = old
  end.

Definition merged_optional {A} (given old new : option A) : Prop :=
  match given with
  | Some v => new = Some v
  | None => new = old
  end.

(** The values of [updatedAt] that the store holds for a phone after each
    of a sequence of updates. *)
Fixpoint updatedAt_after (ph : string) (updates : list PartialContext) (w : World)
  : list Date :=
  match updates with
  | [] => []
  | p :: rest =>
      let w' := world_after (ConversationService.updateContext ph
                               (ConversationService.Literal p)) w in
      default 0 (updatedAt <$> stored ph w') :: updatedAt_after ph rest w'
  end.

(** ** A program logic for the methods

    [triple P m Q]: run in a world that satisfies [P], the method [m]
    returns, with a value and in a world that satisfy [Q]. *)
Definition triple {A} (P : World -> Prop) (m : M A) (Q : A -> World -> Prop) : Prop :=
  forall w, P w -> exists a w', m w = (Return a, w') /\ Q a w'.

(** [raises P m Q]: run in a world that satisfies [P], the method [m]
    throws, with an error and in a world that satisfy [Q]. *)
Definition raises {A} (P : World -> Prop) (m : M A) (Q : string -> World -> Prop)
  : Prop :=
  forall w, P w -> exists e w', m w = (Throw e, w') /\ Q e w'.

(** The object at [l] satisfies [Pc]. *)
Definition object_at (l : loc) (Pc : CustomerContext -> Prop) (w : World) : Prop :=
  exists c, heap w !! l = Some c /\ Pc c.

(** [F] does not look at the object at [l], nor at the histories or the
    clock. *)
Definition framed (l : loc) (F : World -> Prop) : Prop :=
  forall w w', F w ->
               conversations w' = conversations w ->
               (forall l', l' <> l -> heap w' !! l' = heap w !! l') ->
               F w'.

(** The assertion the proofs carry along: the object at [l] satisfies
    [Pc], and the rest of the world satisfies [F]. *)
Definition at_ (l : loc) (Pc : CustomerContext -> Prop) (F : World -> Prop)
    (w : World) : Prop :=
  object_at l Pc w /\ F w.

(** The store holds the object at [l] for the phone. *)
Definition Conv (ph : string) (l : loc) (w : World) : Prop :=
  conversations w !! ph = Some l.

(** The same, next to a second object at [l2]. *)
Definition WithCopy (ph : string) (l l2 : loc) (Pc2 : CustomerContext -> Prop)
    (w : World) : Prop :=
  Conv ph l w /\ l2 <> l /\ object_at l2 Pc2 w.

(** The state, the previous state and the phone of a context. *)
Definition core (S : ConversationState) (P0 : option ConversationState)
    (p : string) (c : CustomerContext) : Prop :=
  state c = S /\ previousState c = P0 /\ phone c = p.

(** A property of a context that does not depend on what a message tells
    about the customer: the sentiment, the time of the last message and
    the six properties that the classifier fills. *)
Definition message_blind (Pc : CustomerContext -> Prop) : Prop :=
  forall c, Pc c ->
    (forall v, Pc (set_sentiment v c)) /\ (forall v, Pc (set_lastMessageAt v c))
    /\ (forall v, Pc (set_device v c)) /\ (forall v, Pc (set_plan v c))
    /\ (forall v, Pc (set_contentPreference v c))
    /\ (forall v, Pc (set_macAddress v c)) /\ (forall v, Pc (set_deviceKey v c))
    /\ (forall v, Pc (set_paymentMethod v c)).

(** [part] occurs in [text]. *)
Definition carries (text part : string) : Prop :=
  exists pre post, text = pre ++ part ++ post.

(** Whether a message, classified as [intent], is escalated: the three
    triggers of [shouldEscalateToHuman]. *)
Definition escalated (intent : IntentResult) (message : string) : bool :=
  bool_decide (ir_intent intent = "human_request")
  || bool_decide (ir_sentiment intent = Some "frustrated")
  || Js.includes_any (Js.toLowerCase message) escalationKeywords.

(** One of the keywords occurs in the text. *)
Definition mentions (text : string) (keywords : list string) : Prop :=
  exists keyword, In keyword keywords /\ carries text keyword.

(** The content preference that the words of a message stand for, the
    message being in lower case: English before Europe before worldwide. *)
Definition englishWords : list string := ["english"; "uk"; "irish"; "ireland"].
Definition europeWords : list string := ["europe"; "european"].
Definition worldwideWords : list string := ["worldwide"; "world"; "everything"; "all"].

Definition recognised_preference (lower : string) (p : ContentPreference) : Prop :=
  match p with
  | english => mentions lower englishWords
  | europe => ~ mentions lower englishWords /\ mentions lower europeWords
  | worldwide =>
      ~ mentions lower englishWords /\ ~ mentions lower europeWords
      /\ mentions lower worldwideWords
  end.

(** The words that ask for adult content. *)
Definition adultWords : list string := ["adult"; "xxx"; "porn"].

(** What a property holds after the value of the classifier was stored
    over it: that value when it is a string that is not empty, and what
    the property held otherwise. *)
Definition overwritten (given old new : option string) : Prop :=
  (forall s, given = Some s -> s <> "" -> new = Some s)
  /\ (given = None \/ given = Some "" -> new = old).

(** What [updateContextFromIntent] of the state-machine revision makes of
    a context, from the sentiment and the entities of an answer. *)
Definition classified (s : option string) (e : Entities) (c : CustomerContext)
  : CustomerContext :=
  let c := set_sentiment s c in
  let c := if Js.truthy (ent_device e)
           then set_device (default "" (ent_device e)) c else c in
  let c := if Js.truthy (plan_interest e)
           then set_plan (default "" (plan_interest e)) c else c in
  let c := if Js.truthy (content_preference e)
           then set_contentPreference (default "" (content_preference e)) c else c in
  let c := if Js.truthy (mac_address e)
           then set_macAddress (default "" (mac_address e)) c else c in
  let c := if Js.truthy (device_key e)
           then set_deviceKey (default "" (device_key e)) c else c in
  if Js.truthy (payment_method e)
  then set_paymentMethod (default "" (payment_method e)) c else c.

(** What [handleContentPreference] makes of a context. *)
Definition trial_requested (e : Entities) (message : string) (c : CustomerContext)
  : CustomerContext :=
  let pref := str_else (content_preference e)
                       (preference_name <$> extractContentPreference message) in
  set_state trial_pending
    (set_contentPreference (if Js.truthy pref then default "" pref else english)
       (if AIService.mentions_adult message then set_wantsAdultContent true c else c)).

(** The world in which a customer said hello, named the device and sent
    its MAC address, and the bot now waits for the content preference. *)
Definition content_pref_world : World :=
  let turn message :=
    world_after
      (AIService.handleIncomingMessage sample_prompts sample_parse true
         "353870000000" message (Return (intent_json "other")) (Return "ok")) in
  turn "AA:BB:CC:DD:EE:FF" (turn "I have a Fire Stick" (turn "hi" fresh_world)).

(** The context that world holds for the customer. *)
Definition content_pref_context : CustomerContext :=
  default (newContext "" 0 0) (stored "353870000000" content_pref_world).

(** Whether a request returned. *)
Definition returned {A} (call : Outcome A) : bool :=
  match call with
  | Return _ => true
  | Throw _ => false
  end.

(** Whether a turn of the auto-advance revision takes the payment branch
    of [checkForAdminNotification], should it get there. *)
Definition confirms_payment (intent : IntentResult) (message : string) : bool :=
  String.eqb (ir_intent intent) "payment" && isPaymentConfirmation message.

(** Whether [checkForAdminNotification] takes its payment branch, [prev]
    being the state at the start of [processMessage] and [S1] the state
    after the auto-advance: the message confirms a payment, and the turn
    has not just moved the context into [trial_pending]. *)
Definition payment_recorded (intent : IntentResult) (message : string)
    (prev S1 : ConversationState) : bool :=
  confirms_payment intent message
  && negb (bool_decide (S1 = trial_pending) && bool_decide (prev <> trial_pending)).

(** What a turn that is not escalated leaves in the store, by the outcome
    of the request for the reply. [S1] is the state after the auto-advance
    and [S2] the state after the payment branch. *)
Definition after_reply (reply_call : Outcome string)
    (S1 S2 : ConversationState) (P0 : option ConversationState)
    (c : CustomerContext) : Prop :=
  match reply_call with
  | Return _ => state c = S2 /\ previousState c = P0
  | Throw _ =>
      state c = S1
      /\ previousState c
         = over_opt P0 (if bool_decide (S1 = S2) then P0 else Some S2)
  end.

(** The intent that [detectIntent] returns for an outcome of its request
    (it always returns one). *)
Definition detected (JSON_parse : string -> Outcome IntentResult)
    (anthropic : bool) (intent_call : Outcome string) : IntentResult :=
  match detectIntent JSON_parse anthropic intent_call with
  | Return r => r
  | Throw _ => default_intent 0
  end.

(** What a turn of the auto-advance revision leaves in the store for a
    context that was in state [S] with previous state [P0]. *)
Definition after_turn (intent : IntentResult) (message : string)
    (reply_call : Outcome string) (S : ConversationState)
    (P0 : option ConversationState) (c : CustomerContext) : Prop :=
  if escalated intent message
  then state c = needs_human /\ previousState c = P0
  else exists S1,
      (S ∈ AutoAdvance.managedExternally -> S1 = S)
      /\ after_reply reply_call S1
           (if payment_recorded intent message S S1 then payment_pending else S1)
           P0 c.

(** The number of months a plan runs for. *)
Definition plan_months (pl : PlanType) : Z :=
  match pl with
  | monthly => 1
  | yearly => 14
  | plan_2years => 28
  | plan_3years => 36
  | lifetime => 72
  end.

(** A date [k] months after [t]: the same day of the month and time of
    the day, [k] months on in the local calendar, as [setMonth] counts. *)
Definition plus_months (LocalTZA : Z) (t : Date) (k : Z) : Date :=
  JsDate.setMonth LocalTZA t (JsDate.getMonth LocalTZA t + k).

(** What [activateSubscription] makes of the context [c0], given the
    three readings of the clock it takes. *)
Definition subscribed_context (LocalTZA : Z) (pl : PlanType)
    (creds : AutoAdvance.LoginDetails) (subscribed now updated : Date)
    (c0 : CustomerContext) : CustomerContext :=
  set_updatedAt updated
    (set_expiresAt (plus_months LocalTZA now (plan_months pl))
       (set_credentials (AutoAdvance.with_m3uUrl creds)
          (set_paymentPending false
             (set_subscribedAt subscribed
                (set_plan pl (set_state active_subscriber c0)))))).

(** What [activateTrial] makes of the context [c0]. *)
Definition trial_context (creds : AutoAdvance.LoginDetails)
    (started now updated : Date) (c0 : CustomerContext) : CustomerContext :=
  set_updatedAt updated
    (set_credentials (AutoAdvance.with_m3uUrl creds)
       (set_trialExpiresAt (now + 24 * 60 * 60 * 1000)
          (set_trialStartedAt started (set_state trial_active c0)))).

(** The world in which a customer asked for a manager and was escalated,
    in the state-machine revision and in the auto-advance revision. *)
Definition escalated_world : World :=
  world_after
    (AIService.handleIncomingMessage sample_prompts sample_parse true
       "353870000000" "I need a manager" (Return (intent_json "other")) (Return "ok"))
    fresh_world.

Definition escalated_world_rev : World :=
  world_after
    (AutoAdvance.handleIncomingMessage sample_parse true sample_language
       "353870000000" "I need a manager" (Return (intent_json "other")) (Return "ok"))
    fresh_world.

(** The context that the escalated world holds for the customer. *)
Definition escalated_context : CustomerContext :=
  default (newContext "" 0 0) (stored "353870000000" escalated_world).


(** ** ConversationService: the follow-up scan

    [getTrialsNeedingFollowUp] visits every stored context, computes its
    follow-up and keeps the context when the follow-up is due. Each visit
    reads the clock once in [calculateFollowUpTime] and, when there is a
    follow-up, once more for the comparison. *)

(** The body of the [forEach] callback: whether the context is kept. *)
Definition needsFollowUp (context : loc) : M bool :=
  now <- newDate ;;
  c <- get context ;;
  match calculateFollowUpTime now c with
  | Some followUp =>
      checked <- newDate ;;
      ret (sendAt followUp <=? checked)
  | None => ret false
  end.

(** The loop over the contexts in the order of the iteration, [results]
    being the array built so far. *)
Fixpoint collectFollowUps (contexts : list loc) (results : list loc) : M (list loc) :=
  match contexts with
  | [] => ret results
  | context :: rest =>
      due <- needsFollowUp context ;;
      collectFollowUps rest (if due then results ++ [context] else results)%list
  end.

(** [getTrialsNeedingFollowUp()]. The map iterates in the order of
    insertion, which the store of the model does not record; the
    properties proved of the scan hold for every order. *)
Definition getTrialsNeedingFollowUp : M (list loc) := fun w =>
  collectFollowUps (map snd (map_to_list (conversations w))) [] w.

(** ** Further notions used to state the properties *)

(** The history that the store holds for a phone, empty for a phone it
    does not know. *)
Definition history_of (ph : string) (w : World) : list ConversationMessage :=
  default [] (messageHistory w !! ph).

(** No history is longer than fifty messages. *)
Definition history_bounded (w : World) : Prop :=
  forall ph h, messageHistory w !! ph = Some h -> (length h <= 50)%nat.

(** Whether the follow-up of a context, computed at [now], is due at
    [checked]. *)
Definition follow_up_due (now checked : Date) (c : CustomerContext) : bool :=
  match calculateFollowUpTime now c with
  | Some followUp => sendAt followUp <=? checked
  | None => false
  end.

(** The clock stands still at [t] from the reading [n] on. *)
Definition clock_stands (t : Date) (w : World) : Prop :=
  forall n, (reads w <= n)%nat -> ticks w n = t.

(** A store that holds one running trial, started at the instant 0, under
    a clock that stands still two hours later. *)
Definition frozen_trial_world : World :=
  {| heap := {[ 0%nat := trial_started 0 ]};
     conversations := {[ "353870000000" := 0%nat ]};
     messageHistory := ∅;
     ticks := fun _ => 2 * msPerHour;
     reads := 0 |}.

(** The properties that the extraction from a message never assigns. *)
Definition untouched (c c' : CustomerContext) : Prop :=
  (id_ c', phone c', name c', state c', previousState c', language c',
   trialStartedAt c', trialExpiresAt c', subscribedAt c', expiresAt c',
   paymentPending c', credentials c', lastMessageAt c', followUpsSent c',
   lastFollowUpType c', needsHuman c', escalationReason c', createdAt c',
   updatedAt c')
  = (id_ c, phone c, name c, state c, previousState c, language c,
     trialStartedAt c, trialExpiresAt c, subscribedAt c, expiresAt c,
     paymentPending c, credentials c, lastMessageAt c, followUpsSent c,
     lastFollowUpType c, needsHuman c, escalationReason c, createdAt c,
     updatedAt c).

(** [c'] keeps what [c] has collected: a device, a MAC address, a device
    key, a content preference, a plan or a payment method that [c] holds
    is still the one [c'] holds, and the adult flag is not taken back. *)
Definition keeps_collected (c c' : CustomerContext) : Prop :=
  (Js.truthy (device c) = true -> device c' = device c)
  /\ (Js.truthy (macAddress c) = true -> macAddress c' = macAddress c)
  /\ (Js.truthy (deviceKey c) = true -> deviceKey c' = deviceKey c)
  /\ (Js.truthy (contentPreference c) = true ->
      contentPreference c' = contentPreference c)
  /\ (Js.truthy (plan c) = true -> plan c' = plan c)
  /\ (Js.truthy (paymentMethod c) = true -> paymentMethod c' = paymentMethod c)
  /\ (wantsAdultContent c = Some true -> wantsAdultContent c' = Some true)
  /\ untouched c c'.

(** The rest of the store is as in [w]. *)
Definition elsewhere_as (l : loc) (w w' : World) : Prop :=
  conversations w' = conversations w
  /\ forall l', l' <> l -> heap w' !! l' = heap w !! l'.

(** A history after one more message: the message comes last, and the
    oldest one goes once there are more than fifty. *)
Definition pushed (h : list ConversationMessage) (m : ConversationMessage)
  : list ConversationMessage :=
  let h' := (h ++ [m])%list in
  if 50 <? Z.of_nat (length h') then tail h' else h'.

(** A method that never writes to the histories. *)
Definition quiet {A} (m : M A) : Prop :=
  forall w r w', m w = (r, w') -> messageHistory w' = messageHistory w.


(** ** WatiService: the recent messages of a conversation *)

(** An item of the message list of the provider. *)
Record WatiItem := mkWatiItem {
  item_text : option string;
  item_owner : option bool;   (* true = bot/agent, false = customer *)
  item_type : option string
}.

(** What the request for the messages comes back with: a response that is
    not [ok], or the items of its body, [data?.messages?.items || []]. *)
Inductive WatiReply :=
| NotOk
| Items (items : list WatiItem).

(** [getRecentMessages(whatsappNumber, limit)]. The provider lists the
    newest message first; [call] is the outcome of the request, which
    throws when the transport or the decoding of the body fails. *)
Definition getRecentMessages (configured : bool) (call : Outcome WatiReply)
  : list AutoAdvance.ChatMessage :=
  if negb configured then []
  else
    match call with
    | Return (Items items) =>
        map (fun m => AutoAdvance.mkChat
                        (if default false (item_owner m)
                         then AutoAdvance.Assistant else AutoAdvance.User)
                        (default "" (item_text m)))
            (rev (List.filter
                    (fun m => Js.truthy (item_text m)
                              && bool_decide (item_type m = Some "text"))
                    items))
    | Return NotOk => []
    | Throw _error => []
    end.

(** ** AIService, the auto-advance revision: the request for the reply *)

Section Request.

(** [sanitizeString] replaces the unpaired surrogates of a string; all
    the request needs of it is that it is a function of the string. *)
Variable sanitizeString : string -> string.

(** [history.filter(m => m.role !== 'system').map(...)], one message. *)
Definition chatMessage_of (m : ConversationMessage) : option AutoAdvance.ChatMessage :=
  match role m with
  | user => Some (AutoAdvance.mkChat AutoAdvance.User (sanitizeString (content m)))
  | assistant =>
      Some (AutoAdvance.mkChat AutoAdvance.Assistant (sanitizeString (content m)))
  | system => None
  end.

(** The messages of the request that [generateAIResponse] sends:
    [history] is what [getHistory(context.phone, 10)] returns. *)
Definition requestMessages (watiConfigured : bool) (watiCall : Outcome WatiReply)
    (history : list ConversationMessage) (message : string)
  : list AutoAdvance.ChatMessage :=
  (* Try to fetch real conversation history from WATI *)
  let messages :=
    if watiConfigured then
      let watiHistory := getRecentMessages watiConfigured watiCall in
      if (0 <? Z.of_nat (length watiHistory))
      then map (fun m => AutoAdvance.mkChat (AutoAdvance.chat_role m)
                           (sanitizeString (AutoAdvance.chat_content m)))
               watiHistory
      else []
    else [] in
  (* Fallback to in-memory history if WATI fetch failed *)
  let messages :=
    if (Z.of_nat (length messages) =? 0) then omap chatMessage_of history
    else messages in
  (* Add current message (only if not already the last message) *)
  let messages :=
    match last messages with
    | Some lastMsg =>
        if bool_decide (AutoAdvance.chat_role lastMsg <> AutoAdvance.User)
           || negb (String.eqb (AutoAdvance.chat_content lastMsg)
                               (sanitizeString message))
        then (messages ++ [AutoAdvance.mkChat AutoAdvance.User (sanitizeString message)])%list
        else messages
    | None =>
        (messages ++ [AutoAdvance.mkChat AutoAdvance.User (sanitizeString message)])%list
    end in
  (* Ensure messages alternate correctly (Claude API requirement) *)
  AutoAdvance.ensureAlternatingRoles messages.

End Request.

(** ** NotificationService (the first half of src/unnamed/part_002)

    The admin is told of an event by a WhatsApp message sent through the
    channel provider. The texts are those of the file, byte for byte. *)

Module NotificationService.

(** What the request of [watiService.sendMessage] comes back with: a
    response that is not [ok], or the [result] of its body. *)
Inductive SendReply :=
| SendNotOk
| SendOk (result : bool).

Record WatiMessageResponse := mkWatiResponse {
  wati_result : bool;
  phone_number : string
}.

Section Service.

(** The admin phone of the configuration, '' when there is none, and
    whether the channel provider is configured. *)
Variable adminPhone : string.
Variable watiConfigured : bool.

(** [whatsappNumber.replace(/[+\s]/g, '')]: the number as the provider
    wants it. The notifications do not look at it. *)
Variable cleanNumber : string -> string.

(** [watiService.sendMessage(whatsappNumber, message)]: every failure of
    the request is caught and answered by [null]. [call] is the outcome
    of the request. *)
Definition sendMessage (whatsappNumber _message : string) (call : Outcome SendReply)
  : option WatiMessageResponse :=
  if negb watiConfigured then None
  else
    match call with
    | Return (SendOk result) => Some (mkWatiResponse result (cleanNumber whatsappNumber))
    | Return SendNotOk => None
    | Throw _error => None
    end.

Definition isConfigured : bool := Js.truthy (Some adminPhone) && watiConfigured.

(** [context?.phone || 'N/A'] *)
Definition phone_or_NA (context : option CustomerContext) : string :=
  str_or (phone <$> context) "N/A".

(** A line that is pushed when the property is there. *)
Definition line_if {A} (label : string) (render : A -> string) (o : option A)
  : list string :=
  match o with Some v => [(label ++ render v)%string] | None => [] end.

Definition text_line (label : string) (o : option string) : list string :=
  if Js.truthy o then [(label ++ default "" o)%string] else [].

Definition formatTrialRequest (_notification : AdminNotification)
    (context : option CustomerContext) : string :=
  String.concat Js.nl
    (["ðŸ”” *NOUVEAU TRIAL DEMANDE*"; ""; ("ðŸ“± *Client:* " ++ phone_or_NA context)%string]
     ++ text_line "ðŸ“º *Device:* " (context ≫= device)
     ++ text_line "ðŸ”‘ *MAC:* " (context ≫= macAddress)
     ++ text_line "ðŸ”‘ *Device Key:* " (context ≫= deviceKey)
     ++ text_line "ðŸŽ¬ *Contenu:* " (context ≫= contentPreference)
     ++ (if default false (context ≫= wantsAdultContent) then ["ðŸ”ž *Adult:* Oui"] else [])
     ++ [""; "---"; "*Action requise:*";
         "1. Creer le compte trial sur ton panel";
         "2. Envoyer les credentials via:";
         "   POST /api/chatbot/admin/activate-trial";
         ("   phone: " ++ default "undefined" (phone <$> context))%string])%list.

Definition formatPaymentReceived (notification : AdminNotification)
    (context : option CustomerContext) : string :=
  String.concat Js.nl
    (["ðŸ’° *PAIEMENT RECU*"; ""; ("ðŸ“± *Client:* " ++ phone_or_NA context)%string]
     ++ text_line "ðŸ“‹ *Plan:* " (context ≫= plan)
     ++ text_line "ðŸ“º *Device:* " (context ≫= device)
     ++ [""; notif_message notification; ""; "---"; "*Action requise:*";
         "1. Verifier le paiement";
         "2. Activer l'abonnement via:";
         "   POST /api/chatbot/admin/activate-subscription"])%list.

Definition formatTechnicalIssue (notification : AdminNotification)
    (context : option CustomerContext) : string :=
  String.concat Js.nl
    ["ðŸ”§ *PROBLEME TECHNIQUE*"; ""; "ðŸ“± *Client:* " ++ phone_or_NA context; "";
     notif_message notification; ""; "---";
     "Le client a besoin d'aide technique."].

Definition formatEscalation (notification : AdminNotification)
    (context : option CustomerContext) : string :=
  String.concat Js.nl
    (["ðŸš¨ *ESCALATION - HUMAIN REQUIS*"; ""; ("ðŸ“± *Client:* " ++ phone_or_NA context)%string]
     ++ line_if "ðŸ“Š *Etat:* " state_name (state <$> context)
     ++ [""; ("*Raison:* " ++ notif_message notification)%string; ""; "---";
         "Le chatbot a besoin d'aide humaine pour ce client."])%list.

(** The text of the [switch] of [sendAdminNotification]. *)
Definition adminMessage (notification : AdminNotification)
    (context : option CustomerContext) : string :=
  match notif_type notification with
  | trial_request => formatTrialRequest notification context
  | payment_received => formatPaymentReceived notification context
  | technical_issue => formatTechnicalIssue notification context
  | escalation => formatEscalation notification context
  end.

(** [sendAdminNotification(notification, context)]: whether the
    notification counts as sent. Nothing in its [try] block throws, since
    [sendMessage] catches its own failures; what [sendMessage] returns is
    not looked at. *)
Definition sendAdminNotification (notification : AdminNotification)
    (context : option CustomerContext) (call : Outcome SendReply) : bool :=
  if negb isConfigured then
    (* logger.warn *) false
  else
    let message := adminMessage notification context in
    let _response := sendMessage adminPhone message call in
    true.

(** [sendDirectMessage(message)] *)
Definition sendDirectMessage (message : string) (call : Outcome SendReply) : bool :=
  if negb isConfigured then false
  else
    let _response := sendMessage adminPhone message call in
    true.

End Service.

End NotificationService.

(** ** ConversationService: the text of a follow-up *)

(** [s.substring(n)] *)
Fixpoint string_drop (n : nat) (s : string) : string :=
  match n, s with
  | O, _ => s
  | S k, String _ r => string_drop k r
  | S _, EmptyString => EmptyString
  end.

(** [s.replace(pattern, replacement)] for a string pattern and a
    replacement without [$]: the first occurrence of the pattern is
    replaced. *)
Fixpoint replace_first (pattern replacement s : string) : string :=
  if Js.startsWith pattern s
  then replacement ++ string_drop (String.length pattern) s
  else
    match s with
    | EmptyString => EmptyString
    | String a r => String a (replace_first pattern replacement r)
    end.

(** What [FOLLOW_UP_TEMPLATES[type]] finds: a template of the table, a
    value that the table inherits as every object does ([toString],
    [constructor] and the like, none of them a string), or nothing. *)
Inductive TemplateLookup :=
| OwnTemplate (template : string)
| Inherited
| NoTemplate.

(** What [getFollowUpMessage] returns: a text, or the inherited value it
    found in the place of a template. *)
Inductive FollowUpMessage :=
| MessageText (text : string)
| NotAText.

Section FollowUpMessages.

Variable prompts : Prompts.

(** Whether a name is one that every object inherits. *)
Variable inherited : string -> bool.

Definition lookupTemplate (type : string) : TemplateLookup :=
  match FOLLOW_UP_TEMPLATES prompts type with
  | Some template => OwnTemplate template
  | None => if inherited type then Inherited else NoTemplate
  end.

(** [getFollowUpMessage(type, context)]. An inherited value is truthy and
    has no [replace] method. The replacement is the display name of the
    plan as it is, which is what [replace] does with a name that has no
    [$] in it; the property below tells the text for the plans of the
    union only. *)
Definition getFollowUpMessage (type : string) (context : CustomerContext)
  : Outcome FollowUpMessage :=
  match lookupTemplate type with
  | NoTemplate => Return (MessageText "")
  | OwnTemplate template =>
      if String.eqb template "" then Return (MessageText "")
      else
        (* Replace placeholders *)
        if Js.truthy (plan context)
        then Return (MessageText (replace_first "{plan}"
                                    (formatPlanName (default "" (plan context)))
                                    template))
        else Return (MessageText template)
  | Inherited =>
      if Js.truthy (plan context)
      then Throw "TypeError: message.replace is not a function"
      else Return NotAText
  end.

End FollowUpMessages.

(** The types of follow-up that [calculateFollowUpTime] names. *)
Definition followUpTypes : list string :=
  ["trial_18h"; "trial_23h"; "ghoster_4h"; "ghoster_nextday";
   "day1_followup"; "day3_followup"; "day7_final"].

(** A store that holds the one customer [c], and no history. *)
Definition one_customer (c : CustomerContext) : World :=
  {| heap := {[ 0%nat := c ]};
     conversations := {[ phone c := 0%nat ]};
     messageHistory := ∅;
     ticks := sample_clock;
     reads := 0 |}.


(** A subscriber on the monthly plan. *)
Definition subscriber : CustomerContext :=
  set_plan monthly (set_state active_subscriber (newContext "353870000000" 0 0)).

(** A customer who was shown the price list. *)
Definition payer : CustomerContext :=
  set_state awaiting_payment (newContext "353870000000" 0 0).

(** A lead who was sent the setup instructions. *)
Definition mac_asked : CustomerContext :=
  set_state awaiting_mac
    (set_device firestick (newContext "353870000000" 0 0)).

(** * Properties *)

(** ** Strings and patterns *)

Lemma append_nil_l (s : string) : "" ++ s = s.
Proof. reflexivity. Qed.

Lemma append_cons (a : ascii) (s t : string) : String a s ++ t = String a (s ++ t).
Proof. reflexivity. Qed.

Ltac unfold_append := rewrite ?append_nil_l, ?append_cons in *.

Lemma append_nil_r (s : string) : s ++ "" = s.
Proof. induction s as [|a s IH]; unfold_append; [reflexivity | now rewrite IH]. Qed.

Lemma append_assoc (a b c : string) : (a ++ b) ++ c = a ++ (b ++ c).
Proof. induction a as [|x a IH]; unfold_append; [reflexivity | now rewrite IH]. Qed.

Lemma Matches_length pat m :
  Regex.Matches pat m -> String.length m = length pat.
Proof. induction 1; simpl; congruence. Qed.

Lemma match_here_sound pat : forall s m,
  Regex.match_here pat s = Some m ->
  Regex.Matches pat m /\ exists post, s = m ++ post.
Proof.
  induction pat as [|cls pat IH]; simpl; intros s m H.
  - injection H as <-. split; [constructor | now exists s].
  - destruct s as [|a r]; [discriminate|].
    destruct (cls a) eqn:Ha; [|discriminate].
    destruct (Regex.match_here pat r) as [m'|] eqn:Hr; [|discriminate].
    injection H as <-. destruct (IH _ _ Hr) as [Hm [post ->]].
    split; [now constructor | exists post; now unfold_append].
Qed.

Lemma match_here_complete pat : forall m post,
  Regex.Matches pat m -> Regex.match_here pat (m ++ post) = Some m.
Proof.
  induction pat as [|cls pat IH]; intros m post H; inversion H; subst;
    unfold_append; simpl.
  - reflexivity.
  - rewrite H2, (IH _ _ H4). reflexivity.
Qed.

Lemma search_sound pat : forall s m,
  Regex.search pat s = Some m -> Regex.leftmost pat s m.
Proof.
  induction s as [|a r IH]; intros m H.
  - simpl in H. destruct (Regex.match_here pat "") as [m'|] eqn:Hm; [|discriminate].
    injection H as <-. destruct (match_here_sound _ _ _ Hm) as [HM [post Hpost]].
    exists "". split; [now exists post|]. split; [assumption|]. simpl; lia.
  - simpl in H. destruct (Regex.match_here pat (String a r)) as [m'|] eqn:Hm.
    + injection H as <-. destruct (match_here_sound _ _ _ Hm) as [HM [post Hpost]].
      exists "". split; [now exists post|]. split; [assumption|]. simpl; lia.
    + destruct (IH _ H) as [pre [[post Hocc] [HM Hmin]]].
      exists (String a pre). split; [exists post; unfold_append; now rewrite Hocc|].
      split; [assumption|].
      intros pre' m' [post' Hocc'] HM'.
      destruct pre' as [|b pre'].
      * unfold_append. rewrite Hocc' in Hm.
        rewrite (match_here_complete _ _ _ HM') in Hm. discriminate.
      * unfold_append. injection Hocc' as -> Hr.
        assert (String.length pre <= String.length pre')%nat
          by (apply (Hmin pre' m'); [now exists post' | assumption]).
        simpl; lia.
Qed.

Lemma search_none pat : forall s,
  Regex.search pat s = None -> Regex.no_match pat s.
Proof.
  induction s as [|a r IH]; intros H pre m [post Hocc] HM.
  - simpl in H. destruct (Regex.match_here pat "") eqn:Hm; [discriminate|].
    destruct pre; [|discriminate]. unfold_append. rewrite Hocc in Hm.
    rewrite (match_here_complete _ _ _ HM) in Hm. discriminate.
  - simpl in H. destruct (Regex.match_here pat (String a r)) eqn:Hm; [discriminate|].
    destruct pre as [|b pre].
    + unfold_append. rewrite Hocc in Hm.
      rewrite (match_here_complete _ _ _ HM) in Hm. discriminate.
    + unfold_append. injection Hocc as -> Hr.
      apply (IH H pre m); [now exists post | assumption].
Qed.

Lemma prefix_unique : forall pre pre' rest rest',
  pre ++ rest = pre' ++ rest' -> String.length pre = String.length pre' ->
  pre = pre' /\ rest = rest'.
Proof.
  induction pre as [|a pre IH]; intros [|b pre'] rest rest' H L;
    unfold_append; simpl in L; try discriminate.
  - now split.
  - injection H as -> H. injection L as L.
    destruct (IH _ _ _ H L) as [-> ->]. now split.
Qed.

Lemma leftmost_unique pat s m m' :
  Regex.leftmost pat s m -> Regex.leftmost pat s m' -> m = m'.
Proof.
  intros [pre [[post Ho] [HM Hmin]]] [pre' [[post' Ho'] [HM' Hmin']]].
  assert (String.length pre = String.length pre') as L.
  { apply Nat.le_antisymm.
    - apply (Hmin pre' m'); [now exists post' | assumption].
    - apply (Hmin' pre m); [now exists post | assumption]. }
  rewrite Ho in Ho'. destruct (prefix_unique _ _ _ _ Ho' L) as [_ Hrest].
  apply Matches_length in HM, HM'.
  apply (prefix_unique m m' post post') in Hrest; [tauto | congruence].
Qed.

Lemma search_leftmost pat s m :
  Regex.search pat s = Some m <-> Regex.leftmost pat s m.
Proof.
  split; [apply search_sound|].
  intros H. destruct (Regex.search pat s) as [m'|] eqn:Hs.
  - f_equal. apply search_sound in Hs. eapply leftmost_unique; eassumption.
  - apply search_none in Hs. destruct H as [pre [Ho [HM _]]].
    exfalso. exact (Hs _ _ Ho HM).
Qed.

Lemma search_no_match pat s :
  Regex.search pat s = None <-> Regex.no_match pat s.
Proof.
  split; [apply search_none|].
  intros H. destruct (Regex.search pat s) as [m|] eqn:Hs; [|reflexivity].
  apply search_sound in Hs. destruct Hs as [pre [Ho [HM _]]].
  exfalso. exact (H _ _ Ho HM).
Qed.

(** ** C8: [extractMacAddress] *)

(** C8. [extractMacAddress] returns the leftmost match of the
    colon-or-dash separated pattern, in upper case; failing that, the
    leftmost run of twelve hexadecimal digits, in upper case; and nothing
    exactly when neither pattern matches anywhere in the message. In
    particular it maps "AA:BB:CC:DD:EE:FF" to itself, "aabbccddeeff" to
    "AABBCCDDEEFF" and "no mac here" to nothing. *)
Theorem extractMacAddress_first_match :
  (forall message m,
      extractMacAddress message = Some m <->
      (exists raw, Regex.leftmost mac_separated message raw /\ m = Js.toUpperCase raw)
      \/ (Regex.no_match mac_separated message
          /\ exists raw, Regex.leftmost mac_bare message raw /\ m = Js.toUpperCase raw))
  /\ (forall message,
         extractMacAddress message = None <->
         Regex.no_match mac_separated message /\ Regex.no_match mac_bare message)
  /\ extractMacAddress "AA:BB:CC:DD:EE:FF" = Some "AA:BB:CC:DD:EE:FF"
  /\ extractMacAddress "aabbccddeeff" = Some "AABBCCDDEEFF"
  /\ extractMacAddress "no mac here" = None.
Proof.
  split; [|split; [|repeat split; reflexivity]].
  - intros message m. unfold extractMacAddress, macPatterns. simpl.
    destruct (Regex.search mac_separated message) as [r1|] eqn:H1.
    + split.
      * intros [= <-]. left. exists r1. split; [now apply search_leftmost | reflexivity].
      * intros [[raw [Hl ->]] | [Hn _]].
        -- apply search_leftmost in Hl. congruence.
        -- apply search_no_match in Hn. congruence.
    + destruct (Regex.search mac_bare message) as [r2|] eqn:H2.
      * split.
        -- intros [= <-]. right. split; [now apply search_no_match|].
           exists r2. split; [now apply search_leftmost | reflexivity].
        -- intros [[raw [Hl ->]] | [_ [raw [Hl ->]]]].
           ++ apply search_leftmost in Hl. congruence.
           ++ apply search_leftmost in Hl. congruence.
      * split; [discriminate|].
        intros [[raw [Hl ->]] | [_ [raw [Hl ->]]]];
          apply search_leftmost in Hl; congruence.
  - intros message. unfold extractMacAddress, macPatterns. simpl.
    destruct (Regex.search mac_separated message) as [r1|] eqn:H1.
    + split; [discriminate|]. intros [Hn _]. apply search_no_match in Hn. congruence.
    + destruct (Regex.search mac_bare message) as [r2|] eqn:H2.
      * split; [discriminate|]. intros [_ Hn]. apply search_no_match in Hn. congruence.
      * split; [|reflexivity]. intros _. split; now apply search_no_match.
Qed.

(** ** C2: escalation of a ghosted lead *)

(** C2. The specification exempts a lead in [trial_expired] with three
    follow-ups or more from escalation on a keyword alone. The code does
    not: [shouldEscalateToHuman] is the disjunction of its three triggers
    whatever the state and the count of follow-ups, because the keyword
    test returns before the test on the follow-ups is reached. So the
    message "I want a refund, this is a scam" of such a lead, classified
    [other] and [neutral] by a complete answer of the classifier,
    escalates. The other two triggers do escalate it, as the
    specification says. *)
Theorem shouldEscalateToHuman_ignores_followups :
  (forall c message intent,
      shouldEscalateToHuman c message intent
      = bool_decide (intent = Some "human_request")
        || bool_decide (sentiment c = Some "frustrated")
        || Js.includes_any (Js.toLowerCase message) escalationKeywords)
  /\ state ghosted_lead = trial_expired
  /\ followUpsSent ghosted_lead = 3
  /\ sentiment ghosted_lead = Some "neutral"
  /\ shouldEscalateToHuman ghosted_lead "I want a refund, this is a scam" (Some "other")
     = true
  /\ shouldEscalateToHuman ghosted_lead "ok" (Some "human_request") = true
  /\ shouldEscalateToHuman (set_sentiment (Some "frustrated") ghosted_lead) "ok"
       (Some "other")
     = true
  /\ (state <$> stored "353870000000" ghosted_world = Some trial_expired
      /\ followUpsSent <$> stored "353870000000" ghosted_world = Some 3)
  /\ detectIntent sample_parse true (Return (intent_json "other"))
     = Return (labelled "other")
  /\ (let turn :=
        AutoAdvance.handleIncomingMessage sample_parse true sample_language
          "353870000000" "I want a refund, this is a scam"
          (Return (intent_json "other")) (Return "Sorry to hear that.") in
      state <$> stored "353870000000" (world_after turn ghosted_world)
      = Some needs_human
      /\ exists r, result_of turn ghosted_world = Return r
                   /\ notif_type <$> adminNotification r = Some escalation).
Proof.
  split; [|repeat split; try reflexivity;
            eexists; split; vm_compute; reflexivity].
  intros c message intent. unfold shouldEscalateToHuman.
  destruct (bool_decide (intent = Some "human_request")); [reflexivity|].
  destruct (bool_decide (sentiment c = Some "frustrated")); [reflexivity|].
  destruct (Js.includes_any _ _); [reflexivity|].
  simpl. now destruct (_ && _).
Qed.

(** ** C3: the follow-up of a running trial *)

(** C3, as the specification states it, fails: nineteen hours into a
    trial with no follow-up sent, the computation does not return
    [trial_18h]. *)
Lemma followup_after_19h_is_not_trial_18h :
  ~ (forall (now start : Date) (c : CustomerContext),
        state c = trial_active ->
        trialStartedAt c = Some start ->
        now - start = 19 * msPerHour ->
        followUpsSent c = 0 ->
        exists f, calculateFollowUpTime now c = Some f
                  /\ followup_type f = "trial_18h"
                  /\ sendAt f = start + 18 * msPerHour
                  /\ sendAt f <= now).
Proof.
  intros H.
  destruct (H (19 * msPerHour) 0 (trial_started 0)) as [f [Hf [Ht _]]];
    try reflexivity.
  vm_compute in Hf. injection Hf as <-. discriminate Ht.
Qed.

(** C3, amended. Nineteen hours into a trial with no follow-up sent, the
    computation returns [trial_23h], to be sent at the twenty-third hour,
    which is still to come. [trial_18h] is what it returns during the
    first eighteen hours, to be sent at the eighteenth hour, which is
    still to come as well. *)
Theorem followup_of_running_trial (now start : Date) (c : CustomerContext) :
  state c = trial_active ->
  trialStartedAt c = Some start ->
  followUpsSent c = 0 ->
  (now - start = 19 * msPerHour ->
   calculateFollowUpTime now c = Some (mkFollowUp "trial_23h" (start + 23 * msPerHour))
   /\ now < start + 23 * msPerHour)
  /\ (now - start < 18 * msPerHour ->
      calculateFollowUpTime now c = Some (mkFollowUp "trial_18h" (start + 18 * msPerHour))
      /\ now < start + 18 * msPerHour).
Proof.
  intros Hs Ht Hf. unfold calculateFollowUpTime, trialFollowUp.
  rewrite Ht, Hs, Hf. simpl bool_decide. cbv iota.
  unfold msPerHour. split; intros He.
  - replace (now - start <? 18 * (1000 * 60 * 60)) with false
      by (symmetry; apply Z.ltb_ge; lia).
    replace (now - start <? 23 * (1000 * 60 * 60)) with true
      by (symmetry; apply Z.ltb_lt; lia).
    simpl. split; [do 2 f_equal; lia | lia].
  - replace (now - start <? 18 * (1000 * 60 * 60)) with true
      by (symmetry; apply Z.ltb_lt; lia).
    simpl. split; [do 2 f_equal; lia | lia].
Qed.

Lemma followup_of_running_trial_witness :
  calculateFollowUpTime (19 * msPerHour) (trial_started 0)
  = Some (mkFollowUp "trial_23h" (0 + 23 * msPerHour))
  /\ 19 * msPerHour < 0 + 23 * msPerHour.
Proof.
  apply (followup_of_running_trial (19 * msPerHour) 0 (trial_started 0));
    reflexivity.
Defined.

(** ** C7: the intent classifier *)

(** The match of [/\{[\s\S]*\}/] is a part of the text. *)
Lemma upto_last_closing_prefix : forall s m,
  upto_last_closing s = Some m -> exists post, s = m ++ post.
Proof.
  induction s as [|a r IH]; simpl; intros m H; [discriminate|].
  destruct (upto_last_closing r) as [m'|] eqn:Hr.
  - injection H as <-. destruct (IH _ eq_refl) as [post ->].
    exists post. now unfold_append.
  - destruct (Ascii.eqb a "}"); [|discriminate].
    injection H as <-. exists r. now unfold_append.
Qed.

Lemma jsonMatch_occurs : forall s m,
  jsonMatch s = Some m -> exists pre post, s = pre ++ m ++ post.
Proof.
  induction s as [|a r IH]; simpl; intros m H; [discriminate|].
  destruct (Ascii.eqb a "{").
  - destruct (upto_last_closing r) as [m'|] eqn:Hr.
    + injection H as <-. destruct (upto_last_closing_prefix _ _ Hr) as [post ->].
      exists "", post. now unfold_append.
    + destruct (IH _ H) as [pre [post ->]].
      exists (String a pre), post. now unfold_append.
  - destruct (IH _ H) as [pre [post ->]].
    exists (String a pre), post. now unfold_append.
Qed.

(** C7. [detectIntent] returns, whatever the message, the model and
    [JSON.parse] do. Without a configured client it returns the default
    with confidence 0. With one, it returns the default with confidence
    0.5 when the request fails and when the answer holds no object that
    parses. *)
Theorem detectIntent_never_throws
    (JSON_parse : string -> Outcome IntentResult) (anthropic : bool)
    (call : Outcome string) :
  (exists r, detectIntent JSON_parse anthropic call = Return r)
  /\ (anthropic = false ->
      detectIntent JSON_parse anthropic call = Return (default_intent 0))
  /\ (anthropic = true ->
      (forall text, call = Return text -> ~ holds_parsable JSON_parse text) ->
      detectIntent JSON_parse anthropic call = Return (default_intent (1 # 2))).
Proof.
  unfold detectIntent. destruct anthropic; simpl.
  - split; [|split; [discriminate|]].
    + destruct call as [text|e]; simpl; [|eauto].
      destruct (jsonMatch text) as [j|]; simpl; [|eauto].
      destruct (JSON_parse j); simpl; eauto.
    + intros _ H. destruct call as [text|e]; simpl; [|reflexivity].
      destruct (jsonMatch text) as [j|] eqn:Hj; simpl; [|reflexivity].
      destruct (JSON_parse j) as [r|e] eqn:Hp; simpl; [|reflexivity].
      exfalso. apply (H text eq_refl).
      destruct (jsonMatch_occurs _ _ Hj) as [pre [post ->]].
      now exists pre, j, post, r.
  - split; [eauto | split; [reflexivity | discriminate]].
Qed.

Lemma detectIntent_never_throws_witness :
  detectIntent sample_parse false (Return (intent_json "payment"))
  = Return (default_intent 0)
  /\ detectIntent sample_parse true (Throw "overloaded")
     = Return (default_intent (1 # 2)).
Proof.
  split.
  - apply (detectIntent_never_throws sample_parse false
             (Return (intent_json "payment"))). reflexivity.
  - apply (detectIntent_never_throws sample_parse true (Throw "overloaded")).
    + reflexivity.
    + intros text H. discriminate H.
Defined.

(** ** C9: the alternation of roles *)

Section Alternation.

Import AutoAdvance.

Lemma runs_nonempty msgs : Forall (fun run => snd run <> []) (runs msgs).
Proof.
  induction msgs as [|m rest IH]; simpl; [constructor|].
  destruct (runs rest) as [|[r cs] others].
  - constructor; [discriminate | constructor].
  - inversion IH; subst. case_bool_decide; constructor; try discriminate; auto.
Qed.

Lemma concat_absorbed (a b : string) (cs : list string) :
  String.concat Js.nl ((a ++ Js.nl ++ b) :: cs) = String.concat Js.nl (a :: b :: cs).
Proof.
  destruct cs as [|c cs]; [reflexivity|].
  change (String.concat Js.nl ((a ++ Js.nl ++ b) :: c :: cs))
    with ((a ++ Js.nl ++ b) ++ Js.nl ++ String.concat Js.nl (c :: cs)).
  change (String.concat Js.nl (a :: b :: c :: cs))
    with (a ++ Js.nl ++ (b ++ Js.nl ++ String.concat Js.nl (c :: cs))).
  now rewrite !append_assoc.
Qed.

#[local] Arguments String.concat : simpl never.

Lemma absorb_head m rest : absorb m (runs rest) = map merged_run (runs (m :: rest)).
Proof.
  simpl. destruct (runs rest) as [|[r cs] others]; simpl.
  - now destruct m.
  - case_bool_decide as Hr; simpl; [reflexivity|]. now destruct m.
Qed.

Lemma fold_merge_step : forall msgs init l,
  fold_left merge_step msgs (init ++ [l])%list = (init ++ absorb l (runs msgs))%list.
Proof.
  induction msgs as [|m rest IH]; intros init l; [reflexivity|].
  cbn [fold_left]. unfold merge_step at 2.
  rewrite last_snoc, removelast_last.
  case_bool_decide as Hr.
  - rewrite IH. f_equal. cbn [runs].
    destruct (runs rest) as [|[r cs] others]; unfold absorb; cbn [chat_role chat_content].
    + now rewrite bool_decide_eq_true_2, Hr by assumption.
    + destruct (bool_decide (chat_role m = r)) eqn:Hm.
      * apply bool_decide_eq_true_1 in Hm.
        rewrite !bool_decide_eq_true_2 by congruence.
        now rewrite concat_absorbed.
      * apply bool_decide_eq_false_1 in Hm.
        rewrite bool_decide_eq_false_2 by congruence.
        rewrite bool_decide_eq_true_2 by assumption.
        now rewrite Hr.
  - rewrite IH, absorb_head, <- app_assoc. f_equal. cbn [runs].
    destruct (runs rest) as [|[r cs] others]; unfold absorb.
    + now rewrite bool_decide_eq_false_2 by assumption.
    + case_bool_decide as Hm; now rewrite bool_decide_eq_false_2 by congruence.
Qed.

Lemma fold_merge_runs msgs :
  fold_left merge_step msgs [] = map merged_run (runs msgs).
Proof.
  destruct msgs as [|m rest]; [reflexivity|].
  cbn [fold_left]. change (merge_step [] m) with ([] ++ [m])%list.
  now rewrite fold_merge_step, absorb_head.
Qed.

Lemma runs_expand msgs : concat (map expand (runs msgs)) = msgs.
Proof.
  induction msgs as [|m rest IH]; simpl; [reflexivity|].
  destruct (runs rest) as [|[r cs] others]; simpl in *.
  - rewrite <- IH. now destruct m.
  - case_bool_decide as Hr; simpl; rewrite <- IH; destruct m; simpl in *;
      now subst.
Qed.

Lemma runs_alternate msgs : forall i r1 r2,
  runs msgs !! i = Some r1 -> runs msgs !! S i = Some r2 -> fst r1 <> fst r2.
Proof.
  induction msgs as [|m rest IH]; simpl; intros i r1 r2 H1 H2; [discriminate|].
  destruct (runs rest) as [|[r cs] others].
  - destruct i; discriminate.
  - case_bool_decide as Hr.
    + destruct i as [|i].
      * injection H1 as <-. simpl in *. apply (IH 0%nat (r, cs) r2); auto.
      * apply (IH (S i) r1 r2); auto.
    + destruct i as [|i].
      * injection H1 as <-. injection H2 as <-. assumption.
      * apply (IH i r1 r2); auto.
Qed.

Lemma merged_alternating msgs : alternating (map merged_run (runs msgs)).
Proof.
  intros i a b Ha Hb. rewrite list_lookup_fmap in Ha, Hb.
  destruct (runs msgs !! i) as [r1|] eqn:H1; [|discriminate].
  destruct (runs msgs !! S i) as [r2|] eqn:H2; [|discriminate].
  injection Ha as <-. injection Hb as <-. simpl.
  eapply runs_alternate; eassumption.
Qed.

Lemma alternating_tail m l : alternating (m :: l) -> alternating l.
Proof. intros H i a b Ha Hb. exact (H (S i) a b Ha Hb). Qed.

(** C9. [ensureAlternatingRoles] merges every maximal run of consecutive
    messages of one role into one message of that role, whose content is
    the contents of the run concatenated in order (the source puts a line
    feed between two of them), and drops the first merged message when it
    is an assistant turn. The runs partition the input. In the result no
    two neighbours have the same role, and the result is empty or begins
    with a user turn. *)
Theorem ensureAlternatingRoles_merges_runs (msgs : list ChatMessage) :
  (concat (map expand (runs msgs)) = msgs
   /\ Forall (fun run => snd run <> []) (runs msgs)
   /\ forall i r1 r2, runs msgs !! i = Some r1 -> runs msgs !! S i = Some r2 ->
                      fst r1 <> fst r2)
  /\ ensureAlternatingRoles msgs
     = match map merged_run (runs msgs) with
       | first :: rest =>
           if bool_decide (chat_role first = Assistant) then rest else first :: rest
       | [] => []
       end
  /\ alternating (ensureAlternatingRoles msgs)
  /\ match ensureAlternatingRoles msgs with
     | first :: _ => chat_role first = User
     | [] => True
     end.
Proof.
  split; [split; [apply runs_expand | split; [apply runs_nonempty | apply runs_alternate]]|].
  assert (ensureAlternatingRoles msgs
          = match map merged_run (runs msgs) with
            | first :: rest =>
                if bool_decide (chat_role first = Assistant) then rest else first :: rest
            | [] => []
            end) as E.
  { unfold ensureAlternatingRoles. destruct msgs as [|m rest]; [reflexivity|].
    rewrite fold_merge_runs.
    destruct (map merged_run (runs (m :: rest))) as [|first others]; [reflexivity|].
    destruct (chat_role first); reflexivity. }
  split; [exact E|]. rewrite E.
  pose proof (merged_alternating msgs) as Halt.
  destruct (map merged_run (runs msgs)) as [|first others]; [split; [|exact I]|].
  - intros i a b Ha. destruct i; discriminate.
  - case_bool_decide as Hf.
    + split; [eapply alternating_tail; eassumption|].
      destruct others as [|second others]; [exact I|].
      specialize (Halt 0%nat first second eq_refl eq_refl).
      destruct (chat_role second); congruence.
    + split; [assumption|]. now destruct (chat_role first).
Qed.

End Alternation.

(** ** Running the primitives of the store *)

Lemma get_run l c w : heap w !! l = Some c -> get l w = (Return c, w).
Proof. intros H. unfold get. now rewrite H. Qed.

Lemma modify_run l f c w :
  heap w !! l = Some c ->
  modify l f w = (Return tt, with_heap (<[l := f c]> (heap w)) w).
Proof. intros H. unfold modify. now rewrite H. Qed.

Lemma fresh_unused (w : World) : heap w !! fresh (dom (heap w)) = None.
Proof. apply not_elem_of_dom, is_fresh. Qed.

(** [getOrCreateContext] on a phone the store knows, and on one it does
    not. *)
Lemma getOrCreateContext_known ph l w :
  conversations w !! ph = Some l ->
  ConversationService.getOrCreateContext ph w = (Return l, w).
Proof. intros H. unfold ConversationService.getOrCreateContext. now rewrite H. Qed.

Lemma getOrCreateContext_new ph w :
  conversations w !! ph = None ->
  let l := fresh (dom (heap w)) in
  let c := newContext ph (ticks w (reads w)) (ticks w (S (reads w))) in
  ConversationService.getOrCreateContext ph w
  = (Return l,
     {| heap := <[l := c]> (heap w);
        conversations := <[ph := l]> (conversations w);
        messageHistory := messageHistory w;
        ticks := ticks w;
        reads := S (S (reads w)) |}).
Proof. intros H. unfold ConversationService.getOrCreateContext. now rewrite H. Qed.

(** [getOrCreateContext] returns the location of an object, keeps the
    world well formed, and only moves the clock forward. *)
Lemma getOrCreateContext_spec ph w :
  well_formed w ->
  exists l c w0,
    ConversationService.getOrCreateContext ph w = (Return l, w0)
    /\ conversations w0 !! ph = Some l /\ heap w0 !! l = Some c
    /\ well_formed w0 /\ ticks w0 = ticks w /\ (reads w <= reads w0)%nat
    /\ stored ph w ≫= previousState = previousState c
    /\ (forall c', stored ph w = Some c' -> c = c' /\ w0 = w).
Proof.
  intros Hwf. destruct (conversations w !! ph) as [l|] eqn:Hc.
  - destruct (Hwf _ _ Hc) as [c Hl]. exists l, c, w.
    rewrite (getOrCreateContext_known _ _ _ Hc).
    assert (stored ph w = Some c) as Hs
      by (unfold stored; rewrite Hc; cbn; exact Hl).
    split; [reflexivity|]. split; [assumption|]. split; [assumption|].
    split; [assumption|]. split; [reflexivity|]. split; [lia|].
    rewrite Hs. split; [reflexivity|]. intros c' [= <-]. auto.
  - eexists _, _, _. rewrite (getOrCreateContext_new _ _ Hc).
    split; [reflexivity|]. cbn. rewrite !lookup_insert_eq.
    assert (stored ph w = None) as Hs by (unfold stored; now rewrite Hc).
    rewrite Hs.
    split; [reflexivity|]. split; [reflexivity|]. split; [|repeat split; auto; discriminate].
    intros ph' l' H'. simpl in *.
    destruct (decide (ph = ph')) as [<-|Hne].
    + rewrite lookup_insert_eq in H'. injection H' as <-.
      rewrite lookup_insert_eq. eauto.
    + rewrite lookup_insert_ne in H' by assumption.
      destruct (Hwf _ _ H') as [c' Hc'].
      rewrite lookup_insert_ne; [eauto|].
      intros <-. rewrite fresh_unused in Hc'. discriminate.
Qed.

(** [updateContext] with an object literal, step by step. *)
Lemma updateContext_literal_run ph p w l c0 w0 :
  ConversationService.getOrCreateContext ph w = (Return l, w0) ->
  heap w0 !! l = Some c0 ->
  ConversationService.updateContext ph (ConversationService.Literal p) w
  = (Return l,
     {| heap := <[l := set_updatedAt (ticks w0 (reads w0)) (assign (tracked p c0) p)]>
                  (heap w0);
        conversations := <[ph := l]> (conversations w0);
        messageHistory := messageHistory w0;
        ticks := ticks w0;
        reads := S (reads w0) |}).
Proof.
  intros Hg Hl. unfold ConversationService.updateContext, bind at 1. rewrite Hg.
  unfold bind at 1. simpl. unfold bind at 1. rewrite (get_run _ _ _ Hl).
  unfold tracked. destruct (p_state p) as [s|].
  - case_bool_decide.
    + unfold bind at 1. rewrite (modify_run _ _ _ _ Hl). simpl.
      unfold bind, newDate, modify, ret. simpl. rewrite lookup_insert_eq. simpl.
      now rewrite insert_insert_eq.
    + unfold bind, newDate, modify, ret. simpl. rewrite Hl. reflexivity.
  - unfold bind, newDate, modify, ret. simpl. rewrite Hl. reflexivity.
Qed.

Lemma well_formed_update ph l c (w : World) m t r :
  well_formed w -> is_Some (heap w !! l) ->
  well_formed {| heap := <[l := c]> (heap w);
                 conversations := <[ph := l]> (conversations w);
                 messageHistory := m; ticks := t; reads := r |}.
Proof.
  intros Hwf Hl ph' l' H'. cbn in *.
  destruct (decide (l = l')) as [<-|Hne]; [rewrite lookup_insert_eq; eauto|].
  rewrite lookup_insert_ne by assumption.
  destruct (decide (ph = ph')) as [<-|Hp].
  - rewrite lookup_insert_eq in H'. congruence.
  - rewrite lookup_insert_ne in H' by assumption. eauto.
Qed.

(** What one update leaves behind. *)
Lemma updateContext_literal_after ph p w :
  well_formed w ->
  let w' := world_after (ConversationService.updateContext ph
                           (ConversationService.Literal p)) w in
  well_formed w' /\ ticks w' = ticks w
  /\ exists n, (reads w <= n < reads w')%nat
               /\ updatedAt <$> stored ph w' = Some (ticks w n).
Proof.
  intros Hwf w'. subst w'.
  destruct (getOrCreateContext_spec ph w Hwf)
    as (l & c0 & w0 & Hg & Hc & Hl & Hwf0 & Ht & Hr & _ & _).
  unfold world_after. rewrite (updateContext_literal_run _ _ _ _ _ _ Hg Hl). cbn.
  split; [apply well_formed_update; eauto|]. split; [assumption|].
  exists (reads w0). split; [lia|].
  unfold stored. cbn. rewrite lookup_insert_eq. cbn. rewrite lookup_insert_eq.
  cbn. now rewrite Ht.
Qed.

Lemma updatedAt_after_sorted ph updates : forall w,
  well_formed w -> monotone_clock w ->
  Forall (fun t => exists n, (reads w <= n)%nat /\ t = ticks w n)
         (updatedAt_after ph updates w)
  /\ StronglySorted Z.le (updatedAt_after ph updates w).
Proof.
  induction updates as [|p rest IH]; intros w Hwf Hmono; cbn [updatedAt_after].
  - split; constructor.
  - destruct (updateContext_literal_after ph p w Hwf) as (Hwf' & Ht & n & Hn & Hu).
    set (w' := world_after _ w) in *.
    assert (monotone_clock w') as Hmono'
      by (intros i j Hij; rewrite Ht; now apply Hmono).
    destruct (IH w' Hwf' Hmono') as [Hall Hsorted].
    rewrite Hu. cbn [default].
    assert (Forall (fun t => exists k, (reads w' <= k)%nat /\ t = ticks w k)
                   (updatedAt_after ph rest w')) as Hall'
      by (eapply Forall_impl; [exact Hall|]; intros t [k [Hk ->]];
          exists k; now rewrite Ht).
    split.
    + constructor; [exists n; split; [lia | reflexivity]|].
      eapply Forall_impl; [exact Hall'|]. intros t [k [Hk ->]].
      exists k. split; [lia | reflexivity].
    + constructor; [assumption|].
      eapply Forall_impl; [exact Hall'|]. intros t [k [Hk ->]].
      apply Hmono. lia.
Qed.

(** ** C6: the update operation of the store *)

(** C6. [updateContext] with a partial update returns the record of the
    phone: the one the store had, or the one it creates for a phone it does
    not know. After the call the store holds that record for the phone,
    and each of its properties has the value the update gives for it, or
    the value it had when the update does not have the property, with two
    exceptions. [updatedAt] is the reading of the clock, whatever the
    update says. [previousState] is the one the update gives; when it
    gives none and brings a state other than the current one, it is the
    state the record had before the call; and otherwise it is what it
    was. Over any sequence of updates of a phone, under a clock that does
    not run backwards, the successive values of [updatedAt] never
    decrease. *)
Theorem updateContext_merges_and_refreshes
    (ph : string) (p : PartialContext) (w : World) :
  well_formed w ->
  (exists l c0 w0 c',
      ConversationService.getOrCreateContext ph w = (Return l, w0)
      /\ heap w0 !! l = Some c0
      /\ (forall c, stored ph w = Some c -> c0 = c)
      /\ (conversations w !! ph = None ->
          c0 = newContext ph (ticks w (reads w)) (ticks w (S (reads w))))
      /\ let call := ConversationService.updateContext ph
                       (ConversationService.Literal p) in
         result_of call w = Return l
         /\ conversations (world_after call w) !! ph = Some l
         /\ heap (world_after call w) !! l = Some c'
         /\ updatedAt c' = ticks w (reads w0)
         /\ previousState c'
            = match p_previousState p, p_state p with
              | Some given, _ => Some given
              | None, Some s =>
                  if bool_decide (s = state c0) then previousState c0
                  else Some (state c0)
              | None, None => previousState c0
              end
         /\ merged_optional (p_id_ p) (id_ c0) (id_ c')
         /\ merged (p_phone p) (phone c0) (phone c')
         /\ merged_optional (p_name p) (name c0) (name c')
         /\ merged (p_state p) (state c0) (state c')
         /\ merged_optional (p_device p) (device c0) (device c')
         /\ merged_optional (p_macAddress p) (macAddress c0) (macAddress c')
         /\ merged_optional (p_deviceKey p) (deviceKey c0) (deviceKey c')
         /\ merged_optional (p_contentPreference p) (contentPreference c0)
              (contentPreference c')
         /\ merged_optional (p_wantsAdultContent p) (wantsAdultContent c0)
              (wantsAdultContent c')
         /\ merged_optional (p_language p) (language c0) (language c')
         /\ merged_optional (p_trialStartedAt p) (trialStartedAt c0)
              (trialStartedAt c')
         /\ merged_optional (p_trialExpiresAt p) (trialExpiresAt c0)
              (trialExpiresAt c')
         /\ merged_optional (p_plan p) (plan c0) (plan c')
         /\ merged_optional (p_subscribedAt p) (subscribedAt c0) (subscribedAt c')
         /\ merged_optional (p_expiresAt p) (expiresAt c0) (expiresAt c')
         /\ merged_optional (p_paymentMethod p) (paymentMethod c0) (paymentMethod c')
         /\ merged_optional (p_paymentPending p) (paymentPending c0)
              (paymentPending c')
         /\ merged_optional (p_credentials p) (credentials c0) (credentials c')
         /\ merged_optional (p_lastMessageAt p) (lastMessageAt c0) (lastMessageAt c')
         /\ merged (p_followUpsSent p) (followUpsSent c0) (followUpsSent c')
         /\ merged_optional (p_lastFollowUpType p) (lastFollowUpType c0)
              (lastFollowUpType c')
         /\ merged (p_needsHuman p) (needsHuman c0) (needsHuman c')
         /\ merged_optional (p_escalationReason p) (escalationReason c0)
              (escalationReason c')
         /\ merged_optional (p_sentiment p) (sentiment c0) (sentiment c')
         /\ merged (p_createdAt p) (createdAt c0) (createdAt c'))
  /\ (monotone_clock w ->
      forall updates, StronglySorted Z.le (updatedAt_after ph updates w)).
Proof.
  intros Hwf. split.
  - destruct (getOrCreateContext_spec ph w Hwf)
      as (l & c0 & w0 & Hg & Hc & Hl & Hwf0 & Ht & Hr & _ & Hold).
    exists l, c0, w0. eexists.
    split; [exact Hg|]. split; [exact Hl|].
    split; [intros c Hs; now destruct (Hold c Hs)|].
    split.
    { intros Hnone. rewrite (getOrCreateContext_new _ _ Hnone) in Hg.
      injection Hg as <- <-. cbn in Hl. rewrite lookup_insert_eq in Hl.
      now injection Hl as <-. }
    unfold result_of, world_after.
    rewrite (updateContext_literal_run _ _ _ _ _ _ Hg Hl). cbn [fst snd heap conversations].
    rewrite !lookup_insert_eq, Ht.
    split; [reflexivity|]. split; [reflexivity|]. split; [reflexivity|].
    split; [reflexivity|].
    split.
    { cbn [previousState set_updatedAt assign]. unfold tracked.
      destruct (p_previousState p); [reflexivity|].
      destruct (p_state p) as [s|]; [|reflexivity].
      destruct (decide (s = state c0)) as [E|E].
      - rewrite bool_decide_eq_false_2 by auto.
        now rewrite bool_decide_eq_true_2.
      - rewrite bool_decide_eq_true_2 by auto.
        now rewrite bool_decide_eq_false_2. }
    unfold merged, merged_optional, tracked.
    cbn [set_updatedAt assign id_ phone name state device macAddress deviceKey
         contentPreference wantsAdultContent language trialStartedAt trialExpiresAt
         plan subscribedAt expiresAt paymentMethod paymentPending credentials
         lastMessageAt followUpsSent lastFollowUpType needsHuman escalationReason
         sentiment createdAt].
    destruct (p_state p) as [s|]; [case_bool_decide|];
      cbn [set_previousState id_ phone name state device macAddress deviceKey
           contentPreference wantsAdultContent language trialStartedAt
           trialExpiresAt plan subscribedAt expiresAt paymentMethod paymentPending
           credentials lastMessageAt followUpsSent lastFollowUpType needsHuman
           escalationReason sentiment createdAt over over_opt];
      repeat (split; [match goal with
                      | |- match ?x with _ => _ end => now destruct x
                      | |- _ => reflexivity
                      end|]);
      match goal with
      | |- match ?x with _ => _ end => now destruct x
      | |- _ => reflexivity
      end.
  - intros Hmono updates. now apply updatedAt_after_sorted.
Qed.

Lemma updateContext_merges_and_refreshes_witness :
  exists c',
    stored "353870000000" ghosted_world = Some c'
    /\ phone c' = "353870000000" /\ state c' = trial_expired
    /\ followUpsSent c' = 3 /\ previousState c' = Some new
    /\ device c' = None /\ needsHuman c' = false
    /\ StronglySorted Z.le
         (updatedAt_after "353870000000" [ghosted_update; empty_partial] fresh_world).
Proof.
  assert (well_formed fresh_world) as Hwf
    by (intros ph l H; vm_compute in H; discriminate H).
  assert (monotone_clock fresh_world) as Hmono
    by (intros i j H; unfold fresh_world, sample_clock; simpl; lia).
  destruct (updateContext_merges_and_refreshes "353870000000" ghosted_update
              fresh_world Hwf)
    as [(l & c0 & w0 & c' & _ & _ & _ & Hnew & _ & Hconv & Hheap & _ & Hprev
         & _ & Hphone & _ & Hstate & Hdevice & _ & _ & _ & _ & _ & _ & _ & _ & _
         & _ & _ & _ & _ & _ & Hsent & _ & Hhuman & _) Hsorted].
  specialize (Hnew eq_refl). subst c0.
  exists c'. split.
  { unfold stored, ghosted_world. rewrite Hconv. exact Hheap. }
  split; [exact Hphone|]. split; [exact Hstate|]. split; [exact Hsent|].
  split; [exact Hprev|]. split; [exact Hdevice|]. split; [exact Hhuman|].
  exact (Hsorted Hmono _).
Defined.

(** ** The rules of the program logic *)

Lemma triple_ret {A} (a : A) (P : World -> Prop) (Q : A -> World -> Prop) :
  (forall w, P w -> Q a w) -> triple P (ret a) Q.
Proof. intros H w Hw. exists a, w. split; [reflexivity | auto]. Qed.

Lemma triple_bind {A B} (P : World -> Prop) (m : M A) (Q : A -> World -> Prop)
    (k : A -> M B) (R : B -> World -> Prop) :
  triple P m Q -> (forall a, triple (Q a) (k a) R) -> triple P (bind m k) R.
Proof.
  intros Hm Hk w Hw. destruct (Hm w Hw) as (a & w1 & E1 & H1).
  destruct (Hk a w1 H1) as (b & w2 & E2 & H2).
  exists b, w2. unfold bind. rewrite E1. auto.
Qed.

Lemma triple_weaken {A} (P P' : World -> Prop) (m : M A) (Q Q' : A -> World -> Prop) :
  triple P m Q -> (forall w, P' w -> P w) -> (forall a w, Q a w -> Q' a w) ->
  triple P' m Q'.
Proof.
  intros H HP HQ w Hw. destruct (H w (HP w Hw)) as (a & w' & E & H').
  exists a, w'. auto.
Qed.

Lemma triple_pure {A} (phi : Prop) (P : World -> Prop) (m : M A) Q :
  (phi -> triple P m Q) -> triple (fun w => phi /\ P w) m Q.
Proof. intros H w [Hphi Hw]. exact (H Hphi w Hw). Qed.

Lemma triple_exists {A X} (P : X -> World -> Prop) (m : M A) Q :
  (forall x, triple (P x) m Q) -> triple (fun w => exists x, P x w) m Q.
Proof. intros H w [x Hw]. exact (H x w Hw). Qed.

Lemma triple_lift {A} (c : Outcome A) (a : A) (P : World -> Prop) Q :
  c = Return a -> (forall w, P w -> Q a w) -> triple P (lift c) Q.
Proof. intros -> H w Hw. exists a, w. split; [reflexivity | auto]. Qed.

(** Reading the object: the value read satisfies what the object
    satisfies. *)
Lemma triple_get_bind {B} l Pc F (k : CustomerContext -> M B) R :
  (forall c, Pc c -> triple (at_ l Pc F) (k c) R) ->
  triple (at_ l Pc F) (bind (get l) k) R.
Proof.
  intros H w Hw. pose proof Hw as [[c [Hl Hc]] HF].
  destruct (H c Hc w Hw) as (b & w' & E & H').
  exists b, w'. unfold bind. rewrite (get_run _ _ _ Hl). auto.
Qed.

(** Reading the object when it is known exactly. *)
Lemma triple_get_exact {B} l c0 F (k : CustomerContext -> M B) R :
  triple (at_ l (eq c0) F) (k c0) R ->
  triple (at_ l (eq c0) F) (bind (get l) k) R.
Proof. intros H. apply triple_get_bind. now intros c <-. Qed.

(** Assigning properties of the object. *)
Lemma triple_modify l f Pc Pc' F :
  framed l F -> (forall c, Pc c -> Pc' (f c)) ->
  triple (at_ l Pc F) (modify l f) (fun _ => at_ l Pc' F).
Proof.
  intros HF Hf w [[c [Hl Hc]] Hw]. eexists tt, _.
  split; [apply (modify_run _ _ _ _ Hl)|]. split.
  - exists (f c). cbn. rewrite lookup_insert_eq. auto.
  - apply (HF w); auto. intros l' Hne. cbn. now rewrite lookup_insert_ne.
Qed.

Lemma triple_newDate l Pc F :
  framed l F -> triple (at_ l Pc F) newDate (fun _ => at_ l Pc F).
Proof.
  intros HF w [[c [Hl Hc]] Hw]. eexists _, _. split; [reflexivity|]. split.
  - now exists c.
  - apply (HF w); auto.
Qed.

Lemma triple_addMessage l Pc F ph message :
  framed l F ->
  triple (at_ l Pc F) (ConversationService.addMessage ph message) (fun _ => at_ l Pc F).
Proof.
  intros HF w [[c [Hl Hc]] Hw]. eexists _, _. split; [reflexivity|]. split.
  - now exists c.
  - apply (HF w); auto.
Qed.

Lemma framed_Conv ph l : framed l (Conv ph l).
Proof. intros w w' H Hc _. unfold Conv in *. now rewrite Hc. Qed.

Lemma framed_WithCopy ph l l2 Pc2 : framed l (WithCopy ph l l2 Pc2).
Proof.
  intros w w' (Hc & Hne & c2 & Hl2 & H2) Hconv Hheap. unfold WithCopy, Conv in *.
  rewrite Hconv. repeat split; auto. exists c2. now rewrite Hheap.
Qed.

(** A copy of the object goes to a location of its own. *)
Lemma triple_alloc ph l Pc c2 :
  triple (at_ l Pc (Conv ph l)) (alloc c2)
         (fun l2 => at_ l Pc (WithCopy ph l l2 (eq c2))).
Proof.
  intros w [[c [Hl Hc]] Hw]. eexists _, _. split; [reflexivity|].
  assert (fresh (dom (heap w)) <> l) as Hne
    by (intros E; pose proof (fresh_unused w) as Hf; rewrite E in Hf; congruence).
  split.
  - exists c. cbn. now rewrite lookup_insert_ne.
  - split; [exact Hw|]. split; [exact Hne|].
    exists c2. cbn. now rewrite lookup_insert_eq.
Qed.

(** [getOrCreateContext] for a phone that has its object. *)
Lemma triple_getOrCreateContext ph l Pc F :
  (forall w, F w -> Conv ph l w) ->
  triple (at_ l Pc F) (ConversationService.getOrCreateContext ph)
         (fun r w => r = l /\ at_ l Pc F w).
Proof.
  intros HF w Hw. exists l, w. destruct Hw as [Ho Hw].
  rewrite (getOrCreateContext_known _ _ _ (HF _ Hw)). repeat split; auto.
Qed.

(** [updateContext] handed the stored object itself: nothing but
    [updatedAt] changes. *)
Lemma over_opt_same {A} (o : option A) : over_opt o o = o.
Proof. now destruct o. Qed.

Lemma assign_own_properties c : assign c (own_properties c) = c.
Proof.
  destruct c. unfold assign, own_properties. cbn.
  now rewrite !over_opt_same.
Qed.

Lemma bind_run {A B} (m : M A) (k : A -> M B) w a w' :
  m w = (Return a, w') -> bind m k w = k a w'.
Proof. intros E. unfold bind. now rewrite E. Qed.

Lemma properties_run l c w :
  heap w !! l = Some c ->
  ConversationService.properties (ConversationService.Object l) w
  = (Return (own_properties c), w).
Proof.
  intros H. unfold ConversationService.properties.
  now rewrite (bind_run _ _ _ _ _ (get_run _ _ _ H)).
Qed.

Lemma newDate_run w :
  newDate w = (Return (ticks w (reads w)), with_reads (S (reads w)) w).
Proof. reflexivity. Qed.

Lemma triple_updateContext_same ph l Pc F :
  framed l F -> (forall w, F w -> Conv ph l w) ->
  triple (at_ l Pc F)
         (ConversationService.updateContext ph (ConversationService.Object l))
         (fun r => at_ l (fun c' => exists c t, Pc c /\ c' = set_updatedAt t c) F).
Proof.
  intros HF HConv w [[c [Hl Hc]] Hw].
  unfold ConversationService.updateContext.
  rewrite (bind_run _ _ _ _ _ (getOrCreateContext_known _ _ _ (HConv _ Hw))).
  rewrite (bind_run _ _ _ _ _ (properties_run _ _ _ Hl)).
  rewrite (bind_run _ _ _ _ _ (get_run _ _ _ Hl)).
  cbn [own_properties p_state]. rewrite bool_decide_eq_false_2 by auto.
  rewrite (bind_run _ _ _ _ _ (eq_refl : ret tt w = (Return tt, w))).
  rewrite (bind_run _ _ _ _ _ (newDate_run w)).
  assert (heap (with_reads (S (reads w)) w) !! l = Some c) as Hl' by exact Hl.
  rewrite (bind_run _ _ _ _ _ (properties_run _ _ _ Hl')).
  rewrite (bind_run _ _ _ _ _ (modify_run _ _ _ _ Hl')).
  unfold bind, ret. cbn. eexists _, _. split; [reflexivity|].
  rewrite assign_own_properties. split.
  - eexists. cbn. rewrite lookup_insert_eq. split; [reflexivity|]. eauto.
  - apply (HF w); auto.
    + cbn. apply insert_id. exact (HConv _ Hw).
    + intros l' Hne. cbn. now rewrite lookup_insert_ne.
Qed.

(** [updateContext] handed a copy: the copy is merged into the stored
    object, after its state has been compared with the stored one. *)
Lemma triple_updateContext_copy ph l l2 Pc Pc2 :
  triple (at_ l Pc (WithCopy ph l l2 Pc2))
         (ConversationService.updateContext ph (ConversationService.Object l2))
         (fun r =>
            at_ l (fun c' => exists c c2 t,
                       Pc c /\ Pc2 c2
                       /\ c' = set_updatedAt t
                                 (assign (tracked (own_properties c2) c)
                                         (own_properties c2)))
                (WithCopy ph l l2 Pc2)).
Proof.
  intros w [[c [Hl Hc]] Hw]. pose proof Hw as (HConv & Hne & c2 & Hl2 & Hc2).
  unfold ConversationService.updateContext.
  rewrite (bind_run _ _ _ _ _ (getOrCreateContext_known _ _ _ HConv)).
  rewrite (bind_run _ _ _ _ _ (properties_run _ _ _ Hl2)).
  rewrite (bind_run _ _ _ _ _ (get_run _ _ _ Hl)).
  cbn [own_properties p_state].
  assert (exists w1,
    (if bool_decide (state c2 <> state c)
     then modify l (set_previousState (state c)) else ret tt) w = (Return tt, w1)
    /\ heap w1 = <[l := tracked (own_properties c2) c]> (heap w)
    /\ conversations w1 = conversations w) as (w1 & E1 & Hh1 & Hc1).
  { unfold tracked. change (p_state (own_properties c2)) with (Some (state c2)).
    cbv iota beta. case_bool_decide.
    - rewrite (modify_run _ _ _ _ Hl). eexists. split; [reflexivity|]. now cbn.
    - exists w. split; [reflexivity|]. split; [|reflexivity].
      symmetry. now apply insert_id. }
  rewrite (bind_run _ _ _ _ _ E1).
  rewrite (bind_run _ _ _ _ _ (newDate_run w1)).
  assert (heap (with_reads (S (reads w1)) w1) !! l2 = Some c2) as Hl2'
    by (cbn; now rewrite Hh1, lookup_insert_ne).
  assert (heap (with_reads (S (reads w1)) w1) !! l
          = Some (tracked (own_properties c2) c)) as Hl'
    by (cbn; now rewrite Hh1, lookup_insert_eq).
  rewrite (bind_run _ _ _ _ _ (properties_run _ _ _ Hl2')).
  rewrite (bind_run _ _ _ _ _ (modify_run _ _ _ _ Hl')).
  unfold bind, ret. cbn. eexists _, _. split; [reflexivity|]. split.
  - eexists. cbn. rewrite lookup_insert_eq. split; [reflexivity|].
    exists c, c2. eauto.
  - unfold WithCopy, Conv. cbn. rewrite Hc1, lookup_insert_eq.
    split; [reflexivity|]. split; [assumption|]. exists c2.
    split; [|assumption]. cbn. rewrite lookup_insert_ne by auto. exact Hl2'.
Qed.

Lemma triple_modify_exact l f c0 F :
  framed l F ->
  triple (at_ l (eq c0) F) (modify l f) (fun _ => at_ l (eq (f c0)) F).
Proof. intros HF. apply triple_modify; [assumption | now intros c <-]. Qed.

Lemma triple_modify_inv l f Pc F :
  framed l F -> (forall c, Pc c -> Pc (f c)) ->
  triple (at_ l Pc F) (modify l f) (fun _ => at_ l Pc F).
Proof. apply triple_modify. Qed.

Lemma triple_skip (P : World -> Prop) : triple P (ret tt) (fun _ => P).
Proof. now apply triple_ret. Qed.

(** From an object that satisfies [Pc] to the object it is. *)
Lemma triple_exact {A} l Pc F (m : M A) Q :
  (forall c0, Pc c0 -> triple (at_ l (eq c0) F) m Q) ->
  triple (at_ l Pc F) m Q.
Proof.
  intros H w [[c [Hl Hc]] Hw]. apply (H c Hc). split; [now exists c | assumption].
Qed.

(** ** Running a method step by step *)

Lemma set_state_same c : set_state (state c) c = c.
Proof. now destruct c. Qed.

Lemma with_heap_same l c w :
  heap w !! l = Some c -> with_heap (<[l := c]> (heap w)) w = w.
Proof. intros H. unfold with_heap. rewrite (insert_id _ _ _ H). now destruct w. Qed.

Lemma with_heap_again l c c' w :
  with_heap (<[l := c']> (heap (with_heap (<[l := c]> (heap w)) w)))
            (with_heap (<[l := c]> (heap w)) w)
  = with_heap (<[l := c']> (heap w)) w.
Proof. unfold with_heap. cbn. now rewrite insert_insert_eq. Qed.

Ltac run_with E := rewrite (bind_run _ _ _ _ _ E).

Ltac run_modify :=
  match goal with
  | |- context [bind (modify ?l ?f) _ ?w] =>
      let H := fresh "Hl" in
      eassert (heap w !! l = Some _) as H
        by (cbn; rewrite ?lookup_insert_eq; first [reflexivity | eassumption]);
      rewrite (bind_run _ _ _ _ _ (modify_run l f _ w H)); clear H
  end.

Ltac run_newDate :=
  match goal with
  | |- context [bind newDate _ ?w] => rewrite (bind_run _ _ _ _ _ (newDate_run w))
  end.

Lemma getOrCreateContext_again ph w l w0 :
  ConversationService.getOrCreateContext ph w = (Return l, w0) ->
  ConversationService.getOrCreateContext ph w0 = (Return l, w0).
Proof.
  unfold ConversationService.getOrCreateContext at 1.
  destruct (conversations w !! ph) as [l'|] eqn:Hc.
  - intros [= <- <-]. now apply getOrCreateContext_known.
  - rewrite !(bind_run _ _ _ _ _ (newDate_run _)).
    unfold bind, alloc. cbn. intros [= <- <-].
    apply getOrCreateContext_known. cbn. apply lookup_insert_eq.
Qed.

Lemma updateContext_same_run ph l c w :
  conversations w !! ph = Some l -> heap w !! l = Some c ->
  ConversationService.updateContext ph (ConversationService.Object l) w
  = (Return l,
     {| heap := <[l := set_updatedAt (ticks w (reads w)) c]> (heap w);
        conversations := conversations w;
        messageHistory := messageHistory w;
        ticks := ticks w;
        reads := S (reads w) |}).
Proof.
  intros Hc Hl. unfold ConversationService.updateContext.
  run_with (getOrCreateContext_known _ _ _ Hc).
  run_with (properties_run _ _ _ Hl).
  run_with (get_run _ _ _ Hl).
  cbn [own_properties p_state]. rewrite bool_decide_eq_false_2 by auto.
  run_with (eq_refl : ret tt w = (Return tt, w)).
  run_newDate.
  assert (heap (with_reads (S (reads w)) w) !! l = Some c) as Hl' by exact Hl.
  run_with (properties_run _ _ _ Hl').
  run_modify.
  unfold bind, ret. cbn. rewrite assign_own_properties.
  now rewrite (insert_id _ _ _ Hc).
Qed.

Ltac run_update :=
  match goal with
  | |- context [bind (ConversationService.updateContext ?ph
                        (ConversationService.Object ?l)) _ ?w] =>
      let Hc := fresh "Hc" in
      let Hl := fresh "Hl" in
      assert (conversations w !! ph = Some l) as Hc by (cbn; assumption);
      eassert (heap w !! l = Some _) as Hl
        by (cbn; rewrite ?lookup_insert_eq; first [reflexivity | eassumption]);
      rewrite (bind_run _ _ _ _ _ (updateContext_same_run ph l _ w Hc Hl));
      clear Hc Hl
  end.

Ltac run_get :=
  match goal with
  | |- context [bind (get ?l) _ ?w] =>
      let Hl := fresh "Hl" in
      eassert (heap w !! l = Some _) as Hl
        by (cbn; rewrite ?lookup_insert_eq; first [reflexivity | eassumption]);
      rewrite (bind_run _ _ _ _ _ (get_run l _ w Hl)); clear Hl
  end.

(** ** Keywords in a text *)

Lemma length_append (a b : string) :
  String.length (a ++ b) = (String.length a + String.length b)%nat.
Proof.
  induction a as [|x a IH]; unfold_append; [reflexivity | cbn; now rewrite IH].
Qed.

Lemma startsWith_prefix needle : forall hay,
  Js.startsWith needle hay = true <-> exists post, hay = needle ++ post.
Proof.
  induction needle as [|a n IH]; intros hay; cbn.
  - split; [intros _; now exists hay | reflexivity].
  - destruct hay as [|b h]; [split; [discriminate | intros [post H]; discriminate H]|].
    rewrite andb_true_iff, Ascii.eqb_eq, IH. split.
    + intros [-> [post ->]]. now exists post.
    + intros [post H]. unfold_append. injection H as -> ->. split; [reflexivity|].
      now exists post.
Qed.

Lemma includes_carries hay needle :
  Js.includes hay needle = true <-> carries hay needle.
Proof.
  induction hay as [|b h IH]; cbn; rewrite orb_true_iff, startsWith_prefix.
  - split.
    + intros [[post H] | H]; [|discriminate]. exists "", post. exact H.
    + intros [pre [post H]]. left. destruct pre; [|discriminate H]. now exists post.
  - rewrite IH. split.
    + intros [[post H] | [pre [post H]]].
      * exists "", post. exact H.
      * exists (String b pre), post. unfold_append. now rewrite H.
    + intros [pre [post H]]. destruct pre as [|x pre]; unfold_append.
      * left. now exists post.
      * right. injection H as -> ->. now exists pre, post.
Qed.

Lemma carries_within text part pre post :
  carries text part -> carries (pre ++ text ++ post) part.
Proof.
  intros [a [b ->]]. exists (pre ++ a), (b ++ post).
  now rewrite !append_assoc.
Qed.

(** [shouldEscalateToHuman] looks at the sentiment of the context only. *)
Lemma shouldEscalateToHuman_escalated c intent message :
  sentiment c = ir_sentiment intent ->
  shouldEscalateToHuman c message (Some (ir_intent intent)) = escalated intent message.
Proof.
  intros Hs. unfold shouldEscalateToHuman, escalated. rewrite Hs.
  destruct (bool_decide (ir_intent intent = "human_request")) eqn:E1.
  - apply bool_decide_eq_true_1 in E1. rewrite E1.
    now rewrite bool_decide_eq_true_2.
  - apply bool_decide_eq_false_1 in E1.
    rewrite bool_decide_eq_false_2 by congruence.
    destruct (bool_decide (ir_sentiment intent = Some "frustrated")); [reflexivity|].
    destruct (Js.includes_any (Js.toLowerCase message) escalationKeywords);
      [reflexivity|].
    cbn [orb]. match goal with |- (if ?b then _ else _) = _ => now destruct b end.
Qed.

(** ** Methods that throw *)

(** The error of the first statement is the error of the sequence. *)
Lemma raises_first {A B} (P : World -> Prop) (m : M A) (k : A -> M B) Q :
  raises P m Q -> raises P (bind m k) Q.
Proof.
  intros Hm w Hw. destruct (Hm w Hw) as (e & w' & E & H).
  exists e, w'. unfold bind. rewrite E. auto.
Qed.

(** So is, after a statement that returns, the error of the rest. *)
Lemma raises_then {A B} (P : World -> Prop) (m : M A) (Q : A -> World -> Prop)
    (k : A -> M B) R :
  triple P m Q -> (forall a, raises (Q a) (k a) R) -> raises P (bind m k) R.
Proof.
  intros Hm Hk w Hw. destruct (Hm w Hw) as (a & w1 & E1 & H1).
  destruct (Hk a w1 H1) as (e & w2 & E2 & H2).
  exists e, w2. unfold bind. rewrite E1. auto.
Qed.

Lemma raises_pure {A} (phi : Prop) (P : World -> Prop) (m : M A) Q :
  (phi -> raises P m Q) -> raises (fun w => phi /\ P w) m Q.
Proof. intros H w [Hphi Hw]. exact (H Hphi w Hw). Qed.

(** Reading an entity of an answer. *)
Lemma triple_entities_of intent property e (P : World -> Prop) :
  ir_entities intent = Some e ->
  triple P (entities_of intent property) (fun r w => r = e /\ P w).
Proof.
  intros He w Hw. exists e, w. unfold entities_of. rewrite He. now split.
Qed.

Lemma raises_entities_of intent property (P : World -> Prop) :
  ir_entities intent = None ->
  raises P (entities_of intent property)
         (fun error w => error = TypeError_reading property /\ P w).
Proof.
  intros He w Hw. eexists _, w. unfold entities_of. rewrite He. now split.
Qed.

(** ** Truthy strings *)

Lemma truthy_true (o : option string) :
  Js.truthy o = true <-> exists s, o = Some s /\ s <> "".
Proof.
  destruct o as [s|]; cbn.
  - rewrite negb_true_iff, String.eqb_neq. split.
    + intros H. now exists s.
    + now intros [s' [[= <-] H]].
  - split; [discriminate | now intros [s [H _]]].
Qed.

Lemma truthy_false (o : option string) :
  Js.truthy o = false <-> o = None \/ o = Some "".
Proof.
  destruct o as [s|]; cbn.
  - rewrite negb_false_iff, String.eqb_eq. split.
    + intros ->. now right.
    + now intros [H | [= ->]].
  - split; [now left | reflexivity].
Qed.

Lemma overwritten_truthy (given old : option string) :
  overwritten given old (if Js.truthy given then Some (default "" given) else old).
Proof.
  destruct (Js.truthy given) eqn:E.
  - apply truthy_true in E as (s & -> & Hs). split.
    + now intros s' [= <-] _.
    + intros [H | [= H]]; [discriminate | contradiction].
  - apply truthy_false in E as [-> | ->]; (split; [|reflexivity]).
    + discriminate.
    + intros s [= <-] H. contradiction.
Qed.

Lemma str_or_truthy (o : option string) fallback s :
  o = Some s -> s <> "" -> str_or o fallback = s.
Proof.
  intros -> Hs. unfold str_or. cbn.
  now rewrite (proj2 (String.eqb_neq _ _) Hs).
Qed.

(** ** What the entities of an answer change *)

Lemma classified_fields s e c :
  let c' := classified s e c in
  sentiment c' = s
  /\ device c' = (if Js.truthy (ent_device e)
                  then Some (default "" (ent_device e)) else device c)
  /\ plan c' = (if Js.truthy (plan_interest e)
                then Some (default "" (plan_interest e)) else plan c)
  /\ contentPreference c'
     = (if Js.truthy (content_preference e)
        then Some (default "" (content_preference e)) else contentPreference c)
  /\ macAddress c' = (if Js.truthy (mac_address e)
                      then Some (default "" (mac_address e)) else macAddress c)
  /\ deviceKey c' = (if Js.truthy (device_key e)
                     then Some (default "" (device_key e)) else deviceKey c)
  /\ paymentMethod c'
     = (if Js.truthy (payment_method e)
        then Some (default "" (payment_method e)) else paymentMethod c)
  /\ state c' = state c /\ previousState c' = previousState c
  /\ phone c' = phone c /\ wantsAdultContent c' = wantsAdultContent c
  /\ needsHuman c' = needsHuman c /\ followUpsSent c' = followUpsSent c
  /\ lastMessageAt c' = lastMessageAt c.
Proof.
  unfold classified.
  destruct (Js.truthy (ent_device e)), (Js.truthy (plan_interest e)),
    (Js.truthy (content_preference e)), (Js.truthy (mac_address e)),
    (Js.truthy (device_key e)), (Js.truthy (payment_method e));
    cbn; repeat split.
Qed.

(** A property that does not depend on what a message tells holds on. *)
Lemma classified_blind Pc s e c : message_blind Pc -> Pc c -> Pc (classified s e c).
Proof.
  intros HP Hc. unfold classified. cbv zeta.
  repeat match goal with
         | |- Pc (if ?b then _ else _) => destruct b
         | |- Pc (set_sentiment _ _) => apply HP
         | |- Pc (set_device _ _) => apply HP
         | |- Pc (set_plan _ _) => apply HP
         | |- Pc (set_contentPreference _ _) => apply HP
         | |- Pc (set_macAddress _ _) => apply HP
         | |- Pc (set_deviceKey _ _) => apply HP
         | |- Pc (set_paymentMethod _ _) => apply HP
         end; exact Hc.
Qed.

Lemma message_blind_core S P0 p : message_blind (core S P0 p).
Proof. intros c (H1 & H2 & H3). unfold core. cbn. repeat split; assumption. Qed.

(** An assignment under a condition. *)
Lemma cond_modify_run l (b : bool) f c w :
  heap w !! l = Some c ->
  (if b then modify l f else ret tt) w
  = (Return tt, with_heap (<[l := if b then f c else c]> (heap w)) w).
Proof.
  intros Hl. destruct b; [apply (modify_run _ _ _ _ Hl)|].
  unfold ret. now rewrite (with_heap_same _ _ _ Hl).
Qed.

Lemma heap_with_heap l c w : heap (with_heap (<[l := c]> (heap w)) w) !! l = Some c.
Proof. cbn. apply lookup_insert_eq. Qed.

Ltac run_cond :=
  match goal with
  | |- context [bind (if ?b then modify ?l ?f else ret tt) _ ?w] =>
      let H := fresh "Hl" in
      eassert (heap w !! l = Some _) as H
        by (first [apply heap_with_heap | eassumption]);
      rewrite (bind_run _ _ _ _ _ (cond_modify_run l b f _ w H)); clear H;
      rewrite ?with_heap_again
  end.

(** ** The state-machine revision, method by method *)

(** [updateContextFromIntent] on an answer that has entities, and on one
    that has none: the sentiment is stored before the entities are read. *)
Lemma updateContextFromIntent_run l intent message e c w :
  heap w !! l = Some c -> ir_entities intent = Some e ->
  AIService.updateContextFromIntent l intent message w
  = (Return tt, with_heap (<[l := classified (ir_sentiment intent) e c]> (heap w)) w).
Proof.
  intros Hl He. unfold AIService.updateContextFromIntent.
  run_with (modify_run _ (set_sentiment (ir_sentiment intent)) _ _ Hl).
  unfold entities_of. rewrite He.
  match goal with
  | |- bind (ret ?a) ?k ?w = _ => change (bind (ret a) k w) with (k a w)
  end.
  cbv beta.
  do 5 run_cond.
  match goal with
  | |- (if ?b then modify ?l ?f else ret tt) ?w = _ =>
      rewrite (cond_modify_run l b f _ w (heap_with_heap _ _ _))
  end.
  rewrite with_heap_again. reflexivity.
Qed.

Lemma updateContextFromIntent_throws l intent message c w :
  heap w !! l = Some c -> ir_entities intent = None ->
  AIService.updateContextFromIntent l intent message w
  = (Throw (TypeError_reading "device"),
     with_heap (<[l := set_sentiment (ir_sentiment intent) c]> (heap w)) w).
Proof.
  intros Hl He. unfold AIService.updateContextFromIntent.
  run_with (modify_run _ (set_sentiment (ir_sentiment intent)) _ _ Hl).
  unfold entities_of. rewrite He. reflexivity.
Qed.

Section StateMachine.

Variable prompts : Prompts.
Variable JSON_parse : string -> Outcome IntentResult.
Variable ph : string.
Variable l : loc.

Let F := Conv ph l.

Lemma triple_updateContextFromIntent intent message e c0 :
  ir_entities intent = Some e ->
  triple (at_ l (eq c0) F)
         (AIService.updateContextFromIntent l intent message)
         (fun _ => at_ l (eq (classified (ir_sentiment intent) e c0)) F).
Proof.
  intros He w [[c [Hl <-]] Hw]. eexists tt, _.
  split; [apply (updateContextFromIntent_run _ _ _ _ _ _ Hl He)|]. split.
  - eexists. split; [apply heap_with_heap | reflexivity].
  - apply (framed_Conv ph l w); auto.
    intros l' Hne. cbn. now rewrite lookup_insert_ne.
Qed.

Lemma raises_updateContextFromIntent intent message Pc :
  message_blind Pc -> ir_entities intent = None ->
  raises (at_ l Pc F)
         (AIService.updateContextFromIntent l intent message)
         (fun error w => error = TypeError_reading "device" /\ at_ l Pc F w).
Proof.
  intros HP He w [[c [Hl Hc]] Hw]. eexists _, _.
  split; [apply (updateContextFromIntent_throws _ _ _ _ _ Hl He)|].
  split; [reflexivity|]. split.
  - eexists. split; [apply heap_with_heap | now apply HP].
  - apply (framed_Conv ph l w); auto.
    intros l' Hne. cbn. now rewrite lookup_insert_ne.
Qed.

(** The same for what does not depend on the message. *)
Lemma triple_updateContextFromIntent_blind intent message e Pc :
  ir_entities intent = Some e -> message_blind Pc ->
  triple (at_ l Pc F)
         (AIService.updateContextFromIntent l intent message)
         (fun _ => at_ l (fun c => Pc c /\ sentiment c = ir_sentiment intent) F).
Proof.
  intros He HP. apply triple_exact. intros c0 Hc0.
  eapply triple_weaken;
    [apply (triple_updateContextFromIntent _ message _ c0 He)
    | intros w Hw; exact Hw |].
  intros [] w [[c [Hl <-]] Hw]. split; [|exact Hw].
  eexists. split; [exact Hl|]. split; [now apply classified_blind|].
  exact (proj1 (classified_fields _ _ _)).
Qed.

(** The turn up to the classification: the store hands out the object of
    the phone, the time of the message is kept, the message is recorded
    and classified. *)
Lemma triple_turn_classified {A} message intent_call intent
    (rest : loc -> IntentResult -> M A) c R :
  detectIntent JSON_parse true intent_call = Return intent ->
  (forall now, triple (at_ l (eq (set_lastMessageAt now c)) F) (rest l intent) R) ->
  triple (at_ l (eq c) F)
         (context <- ConversationService.getOrCreateContext ph ;;
          now <- newDate ;;
          modify context (set_lastMessageAt now) ;;
          ts <- newDate ;;
          ConversationService.addMessage ph (mkMessage user message ts None) ;;
          intent <- lift (detectIntent JSON_parse true intent_call) ;;
          rest context intent)
         R.
Proof.
  intros Hi Hrest. pose proof (framed_Conv ph l) as HF.
  eapply triple_bind; [apply triple_getOrCreateContext; auto|].
  intros context. apply triple_pure. intros ->.
  eapply triple_bind; [apply triple_newDate; assumption|]. intros now.
  eapply triple_bind; [apply triple_modify_exact; assumption|]. intros [].
  eapply triple_bind; [apply triple_newDate; assumption|]. intros ts.
  eapply triple_bind; [apply triple_addMessage; assumption|]. intros [].
  eapply triple_bind;
    [apply triple_lift with (a := intent)
       (Q := fun a w => a = intent /\ at_ l (eq (set_lastMessageAt now c)) F w);
     [exact Hi | intros w Hw; split; [reflexivity | exact Hw]]|].
  intros intent'. apply triple_pure. intros ->. apply Hrest.
Qed.

Lemma raises_turn_classified {A} message intent_call intent
    (rest : loc -> IntentResult -> M A) Pc R :
  detectIntent JSON_parse true intent_call = Return intent ->
  message_blind Pc ->
  raises (at_ l Pc F) (rest l intent) R ->
  raises (at_ l Pc F)
         (context <- ConversationService.getOrCreateContext ph ;;
          now <- newDate ;;
          modify context (set_lastMessageAt now) ;;
          ts <- newDate ;;
          ConversationService.addMessage ph (mkMessage user message ts None) ;;
          intent <- lift (detectIntent JSON_parse true intent_call) ;;
          rest context intent)
         R.
Proof.
  intros Hi HP Hrest. pose proof (framed_Conv ph l) as HF.
  eapply raises_then; [apply triple_getOrCreateContext; auto|].
  intros context. apply raises_pure. intros ->.
  eapply raises_then; [apply triple_newDate; assumption|]. intros now.
  eapply raises_then;
    [apply triple_modify_inv; [assumption | intros c Hc; now apply HP]|].
  intros [].
  eapply raises_then; [apply triple_newDate; assumption|]. intros ts.
  eapply raises_then; [apply triple_addMessage; assumption|]. intros [].
  eapply raises_then;
    [apply triple_lift with (a := intent)
       (Q := fun a w => a = intent /\ at_ l Pc F w);
     [exact Hi | intros w Hw; split; [reflexivity | exact Hw]]|].
  intros intent'. apply raises_pure. intros ->. exact Hrest.
Qed.

(** A turn on an answer without entities throws, and what does not depend
    on the message is as it was. *)
Lemma raises_turn_without_entities message intent_call reply_call intent Pc :
  detectIntent JSON_parse true intent_call = Return intent ->
  ir_entities intent = None ->
  message_blind Pc ->
  raises (at_ l Pc F)
         (AIService.handleIncomingMessage prompts JSON_parse true ph message
            intent_call reply_call)
         (fun error w => error = TypeError_reading "device" /\ at_ l Pc F w).
Proof.
  intros Hi He HP. unfold AIService.handleIncomingMessage. cbn [negb].
  apply (raises_turn_classified message intent_call intent
           (fun context intent =>
              AIService.updateContextFromIntent context intent message ;; _));
    [exact Hi | exact HP |].
  apply raises_first. now apply raises_updateContextFromIntent.
Qed.

Lemma triple_handleContentPreference intent message e c0 :
  ir_entities intent = Some e ->
  triple (at_ l (eq c0) F)
         (AIService.handleContentPreference l message intent)
         (fun r w =>
            r = AIService.reply_notify AIService.trial_setup_reply l trial_request
                  (createTrialNotification (trial_requested e message c0))
            /\ at_ l (eq (trial_requested e message c0)) F w).
Proof.
  intros He. pose proof (framed_Conv ph l) as HF.
  unfold AIService.handleContentPreference, trial_requested.
  eapply triple_bind; [apply (triple_entities_of _ _ _ _ He)|].
  intros e'. apply triple_pure. intros ->. cbv zeta.
  destruct (AIService.mentions_adult message);
    (eapply triple_bind;
     [first [apply triple_modify_exact; assumption | apply triple_skip]|];
     intros [];
     destruct (Js.truthy _);
     (eapply triple_bind; [apply triple_modify_exact; assumption|]; intros [];
      eapply triple_bind; [apply triple_modify_exact; assumption|]; intros [];
      apply triple_get_exact; apply triple_ret; intros w Hw; split;
      [reflexivity | exact Hw])).
Qed.

(** A turn of the state machine on a context that awaits the content
    preference, for a message that is not escalated and whose intent is
    neither [pricing] nor [technical_issue]. *)
Lemma triple_turn_content_preference message intent_call reply_call intent e c :
  detectIntent JSON_parse true intent_call = Return intent ->
  ir_entities intent = Some e ->
  escalated intent message = false ->
  ir_intent intent <> "pricing" ->
  ir_intent intent <> "technical_issue" ->
  state c = awaiting_content_pref ->
  triple (at_ l (eq c) F)
         (AIService.handleIncomingMessage prompts JSON_parse true ph message
            intent_call reply_call)
         (fun r w =>
            exists now t,
              let c1 := trial_requested e message
                          (classified (ir_sentiment intent) e
                             (set_lastMessageAt now c)) in
              r = AIService.reply_notify AIService.trial_setup_reply l trial_request
                    (createTrialNotification c1)
              /\ at_ l (eq (set_updatedAt t c1)) F w).
Proof.
  intros Hi He Hesc Hpricing Htech Hst.
  pose proof (framed_Conv ph l) as HF.
  unfold AIService.handleIncomingMessage. cbn [negb].
  apply (triple_turn_classified message intent_call intent
           (fun context intent =>
              AIService.updateContextFromIntent context intent message ;; _));
    [exact Hi|].
  intros now.
  eapply triple_bind; [apply (triple_updateContextFromIntent _ _ _ _ He)|].
  intros []. set (c0 := classified _ e _).
  pose proof (classified_fields (ir_sentiment intent) e (set_lastMessageAt now c))
    as (Hs & _ & _ & _ & _ & _ & _ & Hst0 & _).
  fold c0 in Hs, Hst0. cbn [state set_lastMessageAt] in Hst0.
  apply triple_get_exact.
  rewrite (shouldEscalateToHuman_escalated _ _ _ Hs), Hesc.
  eapply triple_bind.
  - unfold AIService.processMessage. apply triple_get_exact.
    rewrite Hst0, Hst.
    rewrite (proj2 (String.eqb_neq _ _) Hpricing).
    rewrite (proj2 (String.eqb_neq _ _) Htech).
    apply (triple_handleContentPreference _ _ _ _ He).
  - intros response. cbv beta. apply triple_pure. intros ->.
    eapply triple_bind; [apply triple_newDate; assumption|]. intros ts'.
    eapply triple_bind; [apply triple_addMessage; assumption|]. intros [].
    eapply triple_bind;
      [apply triple_updateContext_same; [assumption | auto]|].
    intros r. apply triple_ret. intros w [[c2 [Hl [c1 [t [<- ->]]]]] Hw].
    exists now, t. split; [reflexivity|].
    split; [|exact Hw]. eexists. split; [exact Hl | reflexivity].
Qed.

End StateMachine.

Lemma carries_here part post : carries (part ++ post) part.
Proof. exists "", post. reflexivity. Qed.

Lemma carries_end part : carries part part.
Proof. exists "", "". unfold_append. now rewrite append_nil_r. Qed.

Lemma carries_skip a text part : carries text part -> carries (a ++ text) part.
Proof.
  intros [pre [post ->]]. exists (a ++ pre), post. now rewrite append_assoc.
Qed.

(** The keywords of a list, found by [includes]. *)
Lemma includes_any_mentions text keywords :
  Js.includes_any text keywords = true <-> mentions text keywords.
Proof.
  unfold Js.includes_any, mentions. rewrite existsb_exists.
  split; intros [kw [Hin Hkw]]; exists kw; (split; [assumption|]);
    now apply includes_carries.
Qed.

Lemma mentions_adult_mentions message :
  AIService.mentions_adult message = true
  <-> mentions (Js.toLowerCase message) adultWords.
Proof.
  rewrite <- includes_any_mentions. unfold AIService.mentions_adult, adultWords.
  cbn [Js.includes_any existsb]. now rewrite orb_false_r, orb_assoc.
Qed.

(** [extractContentPreference] recognises a preference by its words. *)
Lemma extractContentPreference_recognised message p :
  extractContentPreference message = Some p
  <-> recognised_preference (Js.toLowerCase message) p.
Proof.
  unfold extractContentPreference. cbv zeta.
  set (lower := Js.toLowerCase message).
  assert (Js.includes lower "english" || Js.includes lower "uk"
          || Js.includes lower "irish" || Js.includes lower "ireland"
          = Js.includes_any lower englishWords) as ->
    by (cbn [englishWords Js.includes_any existsb];
        now rewrite orb_false_r, !orb_assoc).
  assert (Js.includes lower "europe" || Js.includes lower "european"
          = Js.includes_any lower europeWords) as ->
    by (cbn [europeWords Js.includes_any existsb]; now rewrite orb_false_r).
  assert (Js.includes lower "worldwide" || Js.includes lower "world"
          || Js.includes lower "everything" || Js.includes lower "all"
          = Js.includes_any lower worldwideWords) as ->
    by (cbn [worldwideWords Js.includes_any existsb];
        now rewrite orb_false_r, !orb_assoc).
  pose proof (includes_any_mentions lower englishWords) as H1.
  pose proof (includes_any_mentions lower europeWords) as H2.
  pose proof (includes_any_mentions lower worldwideWords) as H3.
  destruct (Js.includes_any lower englishWords).
  { assert (mentions lower englishWords) by now apply H1.
    destruct p; cbn; split; try discriminate; try tauto. }
  assert (~ mentions lower englishWords)
    by (intros H; apply H1 in H; discriminate).
  destruct (Js.includes_any lower europeWords).
  { assert (mentions lower europeWords) by now apply H2.
    destruct p; cbn; split; try discriminate; try tauto. }
  assert (~ mentions lower europeWords)
    by (intros H'; apply H2 in H'; discriminate).
  destruct (Js.includes_any lower worldwideWords).
  { assert (mentions lower worldwideWords) by now apply H3.
    destruct p; cbn; split; try discriminate; try tauto. }
  assert (~ mentions lower worldwideWords)
    by (intros H'; apply H3 in H'; discriminate).
  destruct p; cbn; split; try discriminate; tauto.
Qed.

(** ** C4: the turn that requests the trial *)

Lemma carries_labelled lit label value rest :
  lit = Js.take (String.length lit - String.length label) lit ++ label ->
  carries (lit ++ value ++ rest) (label ++ value).
Proof.
  intros E. exists (Js.take (String.length lit - String.length label) lit), rest.
  rewrite E at 1. now rewrite !append_assoc.
Qed.

Lemma preference_name_truthy p : Js.truthy (Some (preference_name p)) = true.
Proof. now destruct p. Qed.

(** The preference that [handleContentPreference] stores: the classifier's
    when it gave one, else the one the words of the message stand for,
    else [english]. *)
Lemma stored_preference (given : option string) message :
  let lower := Js.toLowerCase message in
  let found := str_else given (preference_name <$> extractContentPreference message) in
  let pref := if Js.truthy found then default "" found else preference_name english in
  pref <> ""
  /\ (forall s, given = Some s -> s <> "" -> pref = s)
  /\ (given = None \/ given = Some "" ->
      (forall p, recognised_preference lower p -> pref = preference_name p)
      /\ ((forall p, ~ recognised_preference lower p) -> pref = "english")).
Proof.
  intros lower found pref. subst pref found. unfold str_else.
  destruct (Js.truthy given) eqn:Eg.
  - rewrite Eg. apply truthy_true in Eg as (s & -> & Hs). cbn [default].
    split; [exact Hs|]. split; [now intros s' [= <-] _|].
    intros [H | [= H]]; [discriminate | contradiction].
  - assert (forall s, given = Some s -> s <> "" -> False) as Hno
      by (intros s -> Hs; cbn in Eg;
          rewrite (proj2 (String.eqb_neq _ _) Hs) in Eg; discriminate).
    destruct (extractContentPreference message) as [p|] eqn:Ep; cbn [fmap option_fmap option_map].
    + rewrite preference_name_truthy. cbn [default].
      split; [now destruct p|].
      split; [intros s Hs Hne; destruct (Hno s Hs Hne)|].
      intros _. split.
      * intros p' Hp'. apply extractContentPreference_recognised in Hp'.
        rewrite Ep in Hp'. now injection Hp' as <-.
      * intros Hnone. destruct (Hnone p).
        now apply extractContentPreference_recognised.
    + cbn [Js.truthy]. split; [discriminate|].
      split; [intros s Hs Hne; destruct (Hno s Hs Hne)|].
      intros _. split; [|reflexivity].
      intros p Hp. apply extractContentPreference_recognised in Hp.
      rewrite Ep in Hp. discriminate.
Qed.

(** A customer who was asked for the content preference says hello, and
    the classifier answers with the preference "null": that string is
    what the context then holds, and what the admin is told. When the
    answer of the classifier has no entities at all, the turn throws and
    the context still awaits the preference. *)
Lemma content_preference_not_recognised :
  let turn answer :=
    AIService.handleIncomingMessage sample_prompts sample_parse true
      "353870000000" "hello" (Return answer) (Return "ok") in
  let told := answer_json "other" (Some "null") in
  state <$> stored "353870000000" content_pref_world = Some awaiting_content_pref
  /\ detectIntent sample_parse true (Return told) = Return (preferring "other" "null")
  /\ escalated (preferring "other" "null") "hello" = false
  /\ extractContentPreference "hello" = None
  /\ state <$> stored "353870000000" (world_after (turn told) content_pref_world)
     = Some trial_pending
  /\ contentPreference <$> stored "353870000000"
                             (world_after (turn told) content_pref_world)
     = Some (Some "null")
  /\ detectIntent sample_parse true (Return (bare_json "other")) = Return (bare "other")
  /\ result_of (turn (bare_json "other")) content_pref_world
     = Throw "TypeError: Cannot read properties of undefined (reading 'device')"
  /\ state <$> stored "353870000000"
                 (world_after (turn (bare_json "other")) content_pref_world)
     = Some awaiting_content_pref.
Proof. vm_compute. repeat split. Qed.

(** C4 (amended). In the state-machine revision, a context that awaits the
    content preference receives a message that is not escalated and whose
    intent is neither [pricing] nor [technical_issue]. When the answer of
    the classifier has entities, the turn ends in [trial_pending]; the
    content preference is the one the classifier gave, whatever string
    that is, provided it is not empty; when the classifier gave none, it
    is the preference that the words of the message stand for (English
    before Europe before worldwide), and [english] when they stand for
    none. The adult flag is set when the message has one of the adult
    words and is what it was otherwise. The device, the MAC address and
    the device key are those of the classifier where it gave them and
    those of the context otherwise. The response carries one notification,
    a [trial_request], whose text is written from that context and
    carries, each after its label, the device, the MAC address and the
    device key that the context has, the content preference and the
    phone. When the answer of the classifier has no entities, the turn
    throws a [TypeError] and the context still awaits the content
    preference. *)
Theorem content_preference_turn_requests_trial
    (prompts : Prompts) (JSON_parse : string -> Outcome IntentResult)
    (ph message : string) (intent_call reply_call : Outcome string)
    (intent : IntentResult) (w : World) (l : loc) (c : CustomerContext) :
  conversations w !! ph = Some l ->
  heap w !! l = Some c ->
  state c = awaiting_content_pref ->
  detectIntent JSON_parse true intent_call = Return intent ->
  escalated intent message = false ->
  ir_intent intent <> "pricing" ->
  ir_intent intent <> "technical_issue" ->
  let turn := AIService.handleIncomingMessage prompts JSON_parse true ph message
                intent_call reply_call in
  let lower := Js.toLowerCase message in
  match ir_entities intent with
  | Some e =>
      exists response c1 t pref,
        result_of turn w = Return response
        /\ stored ph (world_after turn w) = Some (set_updatedAt t c1)
        /\ state c1 = trial_pending
        /\ contentPreference c1 = Some pref
        /\ (forall s, content_preference e = Some s -> s <> "" -> pref = s)
        /\ (content_preference e = None \/ content_preference e = Some "" ->
            (forall p, recognised_preference lower p -> pref = preference_name p)
            /\ ((forall p, ~ recognised_preference lower p) -> pref = "english"))
        /\ (mentions lower adultWords -> wantsAdultContent c1 = Some true)
        /\ (~ mentions lower adultWords -> wantsAdultContent c1 = wantsAdultContent c)
        /\ overwritten (ent_device e) (device c) (device c1)
        /\ overwritten (mac_address e) (macAddress c) (macAddress c1)
        /\ overwritten (device_key e) (deviceKey c) (deviceKey c1)
        /\ phone c1 = phone c
        /\ resp_message response = AIService.trial_setup_reply
        /\ shouldNotifyAdmin response = true
        /\ (exists text,
               adminNotification response = Some (mkNotification trial_request text)
               /\ text = createTrialNotification c1
               /\ (forall d, device c1 = Some d -> d <> "" ->
                             carries text ("Device: " ++ d))
               /\ (forall m, macAddress c1 = Some m -> m <> "" ->
                             carries text ("MAC Address: " ++ m))
               /\ (forall k, deviceKey c1 = Some k -> k <> "" ->
                             carries text ("Device Key: " ++ k))
               /\ carries text ("Content: " ++ pref)
               /\ carries text ("Customer WhatsApp: " ++ phone c))
  | None =>
      result_of turn w
      = Throw "TypeError: Cannot read properties of undefined (reading 'device')"
      /\ exists c', stored ph (world_after turn w) = Some c'
                    /\ state c' = awaiting_content_pref
                    /\ wantsAdultContent c' = wantsAdultContent c
  end.
Proof.
  intros Hconv Hl Hst Hi Hesc Hp Ht turn lower.
  destruct (ir_entities intent) as [e|] eqn:He.
  - destruct (triple_turn_content_preference prompts JSON_parse ph l message
                intent_call reply_call intent e c Hi He Hesc Hp Ht Hst w)
      as (response & w' & E & now & t & Hr & [[c' [Hl' <-]] Hw']).
    { split; [|exact Hconv]. now exists c. }
    cbv zeta in Hr, Hl'.
    set (c0 := classified (ir_sentiment intent) e (set_lastMessageAt now c)) in *.
    pose proof (classified_fields (ir_sentiment intent) e (set_lastMessageAt now c))
      as (_ & Hdev & _ & _ & Hmac & Hkey & _ & _ & _ & Hph & Hadult & _).
    fold c0 in Hdev, Hmac, Hkey, Hph, Hadult.
    cbn [device macAddress deviceKey phone wantsAdultContent set_lastMessageAt]
      in Hdev, Hmac, Hkey, Hph, Hadult.
    pose proof (stored_preference (content_preference e) message) as Hpref.
    cbv zeta in Hpref.
    set (found := str_else (content_preference e)
                    (preference_name <$> extractContentPreference message)) in *.
    set (pref := if Js.truthy found then default "" found else preference_name english)
      in *.
    destruct Hpref as (Hne & Hgiven & Hwords).
    set (c1 := trial_requested e message c0) in *.
    assert (contentPreference c1 = Some pref) as Hcp by reflexivity.
    assert (device c1 = device c0 /\ macAddress c1 = macAddress c0
            /\ deviceKey c1 = deviceKey c0 /\ phone c1 = phone c0) as (D1 & D2 & D3 & D4)
      by (subst c1; unfold trial_requested;
          destruct (AIService.mentions_adult message); cbn; auto).
    assert (wantsAdultContent c1
            = if AIService.mentions_adult message then Some true
              else wantsAdultContent c0) as Hflag
      by (subst c1; unfold trial_requested;
          destruct (AIService.mentions_adult message); reflexivity).
    exists response, c1, t, pref. unfold result_of, world_after. subst turn.
    rewrite E. cbn [fst snd].
    split; [reflexivity|].
    split; [unfold stored; rewrite Hw'; exact Hl'|].
    split; [reflexivity|]. split; [exact Hcp|].
    split; [exact Hgiven|]. split; [exact Hwords|].
    split.
    { intros Hm. apply mentions_adult_mentions in Hm. now rewrite Hflag, Hm. }
    split.
    { intros Hm. rewrite Hflag, Hadult.
      destruct (AIService.mentions_adult message) eqn:Ea; [|reflexivity].
      destruct Hm. now apply mentions_adult_mentions. }
    split; [rewrite D1, Hdev; apply overwritten_truthy|].
    split; [rewrite D2, Hmac; apply overwritten_truthy|].
    split; [rewrite D3, Hkey; apply overwritten_truthy|].
    split; [now rewrite D4|].
    rewrite Hr. split; [reflexivity|]. split; [reflexivity|].
    exists (createTrialNotification c1).
    split; [reflexivity|]. split; [reflexivity|].
    unfold createTrialNotification.
    split.
    { intros d Hd Hdne. rewrite (str_or_truthy _ _ _ Hd Hdne).
      apply carries_labelled. vm_compute. reflexivity. }
    split.
    { intros m Hm Hmne. rewrite (str_or_truthy _ _ _ Hm Hmne).
      do 2 apply carries_skip. apply carries_labelled. vm_compute. reflexivity. }
    split.
    { intros k Hk Hkne. rewrite (str_or_truthy _ _ _ Hk Hkne).
      do 4 apply carries_skip. apply carries_labelled. vm_compute. reflexivity. }
    split.
    { rewrite (str_or_truthy _ _ _ Hcp Hne).
      do 6 apply carries_skip. apply carries_labelled. vm_compute. reflexivity. }
    rewrite D4, Hph.
    do 10 apply carries_skip. apply carries_labelled. vm_compute. reflexivity.
  - destruct (raises_turn_without_entities prompts JSON_parse ph l message
                intent_call reply_call intent
                (fun c' => state c' = awaiting_content_pref
                           /\ wantsAdultContent c' = wantsAdultContent c)
                Hi He) with (w := w)
      as (error & w' & E & -> & [[c' [Hl' [H1 H2]]] Hw']).
    { intros c' [H1 H2]. cbn. repeat split; assumption. }
    { split; [|exact Hconv]. exists c. auto. }
    unfold result_of, world_after. subst turn. rewrite E. cbn [fst snd].
    split; [reflexivity|]. exists c'.
    split; [unfold stored; rewrite Hw'; exact Hl'|]. auto.
Qed.

Lemma worldwide_please_recognised :
  recognised_preference (Js.toLowerCase "worldwide please") worldwide.
Proof.
  apply extractContentPreference_recognised. vm_compute. reflexivity.
Qed.

Lemma content_preference_turn_requests_trial_witness :
  let turn := AIService.handleIncomingMessage sample_prompts sample_parse true
                "353870000000" "worldwide please"
                (Return (intent_json "other")) (Return "ok") in
  exists response c1 t,
    result_of turn content_pref_world = Return response
    /\ stored "353870000000" (world_after turn content_pref_world)
       = Some (set_updatedAt t c1)
    /\ state c1 = trial_pending
    /\ contentPreference c1 = Some "worldwide"
    /\ device c1 = Some "firestick"
    /\ macAddress c1 = Some "AA:BB:CC:DD:EE:FF"
    /\ (exists text,
           adminNotification response = Some (mkNotification trial_request text)
           /\ carries text "Device: firestick"
           /\ carries text "MAC Address: AA:BB:CC:DD:EE:FF"
           /\ carries text "Content: worldwide"
           /\ carries text "Customer WhatsApp: 353870000000").
Proof.
  intros turn.
  assert (conversations content_pref_world !! "353870000000" = Some 0%nat) as H1
    by (vm_compute; reflexivity).
  assert (heap content_pref_world !! 0%nat = Some content_pref_context) as H2
    by (vm_compute; reflexivity).
  assert (state content_pref_context = awaiting_content_pref) as H3
    by (vm_compute; reflexivity).
  assert (detectIntent sample_parse true (Return (intent_json "other"))
          = Return (labelled "other")) as H4 by (vm_compute; reflexivity).
  assert (escalated (labelled "other") "worldwide please" = false) as H5
    by (vm_compute; reflexivity).
  assert (ir_intent (labelled "other") <> "pricing") as H6 by discriminate.
  assert (ir_intent (labelled "other") <> "technical_issue") as H7 by discriminate.
  assert (device content_pref_context = Some "firestick") as H8
    by (vm_compute; reflexivity).
  assert (macAddress content_pref_context = Some "AA:BB:CC:DD:EE:FF") as H9
    by (vm_compute; reflexivity).
  assert (phone content_pref_context = "353870000000") as H10
    by (vm_compute; reflexivity).
  destruct (content_preference_turn_requests_trial sample_prompts sample_parse
              "353870000000" "worldwide please"
              (Return (intent_json "other")) (Return "ok")
              (labelled "other") content_pref_world 0%nat content_pref_context
              H1 H2 H3 H4 H5 H6 H7)
    as (response & c1 & t & pref & E & Hs & Hst & Hcp & _ & Hwords & _ & _
        & Hdev & Hmac & _ & _ & _ & _ & text & Hn & _ & Td & Tm & _ & Tc & Tp).
  destruct (Hwords (or_introl eq_refl)) as [Hw _].
  rewrite (Hw worldwide worldwide_please_recognised) in Hcp, Tc.
  destruct Hdev as [_ Hdev]. specialize (Hdev (or_introl eq_refl)).
  destruct Hmac as [_ Hmac]. specialize (Hmac (or_introl eq_refl)).
  rewrite H8 in Hdev. rewrite H9 in Hmac. rewrite H10 in Tp.
  exists response, c1, t.
  split; [exact E|]. split; [exact Hs|]. split; [exact Hst|].
  split; [exact Hcp|]. split; [exact Hdev|]. split; [exact Hmac|].
  exists text. split; [exact Hn|].
  split; [apply (Td _ Hdev); discriminate|].
  split; [apply (Tm _ Hmac); discriminate|].
  split; [exact Tc | exact Tp].
Defined.

(** ** The auto-advance revision, method by method *)

Ltac inv_modify :=
  apply triple_modify_inv;
  [first [eassumption | apply framed_Conv | apply framed_WithCopy]
  | let H := fresh in intros ? H; exact H].

Ltac stmt_inv :=
  lazymatch goal with
  | |- triple _ (ret tt) _ => apply triple_skip
  | |- triple _ (modify _ _) _ => inv_modify
  | |- triple _ (match ?x with _ => _ end) _ => destruct x; stmt_inv
  end.

Ltac seq_inv :=
  lazymatch goal with
  | |- triple _ (bind (get _) _) _ => apply triple_get_bind; intros ? ?; seq_inv
  | |- triple _ (bind (entities_of _ _) _) _ =>
      eapply triple_bind;
      [apply triple_entities_of; eassumption
      | intros ?; apply triple_pure; intros ->; seq_inv]
  | |- triple _ (bind _ _) _ => eapply triple_bind; [stmt_inv | intros []; seq_inv]
  | |- _ => stmt_inv
  end.

Lemma raises_get_bind {B} l Pc F (k : CustomerContext -> M B) R :
  (forall c, Pc c -> raises (at_ l Pc F) (k c) R) ->
  raises (at_ l Pc F) (bind (get l) k) R.
Proof.
  intros H w Hw. pose proof Hw as [[c [Hl Hc]] HF].
  destruct (H c Hc w Hw) as (e & w' & E & H').
  exists e, w'. unfold bind. rewrite (get_run _ _ _ Hl). auto.
Qed.

(** The statements up to the first read of the entities leave the
    assertion alone; that read throws. *)
Ltac seq_raises :=
  lazymatch goal with
  | |- raises _ (bind (entities_of _ _) _) _ =>
      apply raises_first; apply raises_entities_of; assumption
  | |- raises _ (bind (get _) _) _ => apply raises_get_bind; intros ? ?; seq_raises
  | |- raises _ (bind _ _) _ => eapply raises_then; [stmt_inv | intros []; seq_raises]
  end.

Section AutoAdvanceMethods.

Import AutoAdvance.

Variable JSON_parse : string -> Outcome IntentResult.
Variable detectLanguage : string -> Language.
Variable ph : string.
Variable l : loc.

(** [updateContextFromIntent] stores the sentiment and leaves the state,
    the previous state and the phone alone. *)
Lemma triple_updateContextFromIntent_rev intent message e S P0 p F :
  framed l F -> ir_entities intent = Some e ->
  triple (at_ l (core S P0 p) F)
         (updateContextFromIntent l intent message)
         (fun _ => at_ l (fun c => core S P0 p c
                                   /\ sentiment c = ir_sentiment intent) F).
Proof.
  intros HF He. unfold updateContextFromIntent.
  eapply triple_bind;
    [apply triple_modify with
       (Pc' := fun c => core S P0 p c /\ sentiment c = ir_sentiment intent);
     [assumption | intros ? Hc; split; [exact Hc | reflexivity]]|].
  intros []. seq_inv.
Qed.

(** On an answer without entities it throws, after it has stored the
    sentiment and what the message itself tells. *)
Lemma raises_updateContextFromIntent_rev intent message S P0 p F :
  framed l F -> ir_entities intent = None ->
  raises (at_ l (core S P0 p) F)
         (updateContextFromIntent l intent message)
         (fun error w => error = TypeError_reading "device"
                         /\ at_ l (core S P0 p) F w).
Proof.
  intros HF He. unfold updateContextFromIntent. seq_raises.
Qed.

(** [updateStateFromContext] leaves the states that are managed
    externally alone, and never touches the previous state. *)
Lemma triple_updateStateFromContext S P0 p F :
  framed l F ->
  triple (at_ l (core S P0 p) F)
         (updateStateFromContext l)
         (fun _ => at_ l (fun c => exists S', core S' P0 p c
                                              /\ (S ∈ managedExternally -> S' = S)) F).
Proof.
  intros HF. unfold updateStateFromContext.
  apply triple_get_bind. intros c (Hs & Hp & Hph).
  rewrite Hs. case_bool_decide as Hm.
  - apply triple_ret. intros w [[c' [Hl Hc']] Hw]. split; [|exact Hw].
    exists c'. split; [exact Hl|]. exists S. auto.
  - repeat match goal with
           | |- triple _ (if ?b then _ else _) _ => destruct b
           end;
      first
        [ apply triple_modify; [assumption|];
          intros c' (_ & Hp' & Hph'); eexists; split;
          [repeat split; [exact Hp' | exact Hph'] | intros; contradiction]
        | apply triple_ret; intros w [[c' [Hl Hc']] Hw]; split; [|exact Hw];
          exists c'; split; [exact Hl|]; exists S; auto ].
Qed.

(** [checkForAdminNotification] moves the state in the payment branch
    only, and never touches the previous state. *)
Lemma triple_checkForAdminNotification prevState intent message S P0 p F :
  framed l F ->
  triple (at_ l (core S P0 p) F)
         (checkForAdminNotification l prevState intent message)
         (fun _ =>
            at_ l (core (if payment_recorded intent message prevState S
                         then payment_pending else S) P0 p) F).
Proof.
  intros HF. unfold checkForAdminNotification, payment_recorded, confirms_payment.
  apply triple_get_bind. intros c Hc. rewrite (proj1 Hc).
  destruct (bool_decide (S = trial_pending) && bool_decide (prevState <> trial_pending)).
  - rewrite andb_false_r. apply triple_ret. auto.
  - rewrite andb_true_r.
    destruct (String.eqb (ir_intent intent) "payment" && isPaymentConfirmation message).
    + eapply triple_bind;
        [apply triple_modify with (Pc' := core payment_pending P0 p);
         [assumption | intros c' (_ & Hp' & Hph'); repeat split; assumption]|].
      intros [].
      eapply triple_bind; [inv_modify|]. intros [].
      apply triple_get_bind. intros c' Hc'.
      apply triple_ret. auto.
    + destruct (String.eqb (ir_intent intent) "technical_issue");
        apply triple_ret; auto.
Qed.

(** The escalation: the state is forced to [needs_human], and the store
    is handed its own object back. *)
Lemma triple_escalation (response : ChatbotResponse) S P0 p :
  triple (at_ l (core S P0 p) (Conv ph l))
         (modify l (set_needsHuman true) ;;
          modify l (set_state needs_human) ;;
          ConversationService.updateContext ph (ConversationService.Object l) ;;
          ret response)
         (fun r => at_ l (core needs_human P0 p) (Conv ph l)).
Proof.
  pose proof (framed_Conv ph l) as HF.
  eapply triple_bind; [inv_modify|]. intros [].
  eapply triple_bind;
    [apply triple_modify with (Pc' := core needs_human P0 p);
     [assumption | intros c (_ & Hp & Hph); repeat split; assumption]|].
  intros [].
  eapply triple_bind; [apply triple_updateContext_same; [assumption | auto]|].
  intros r. apply triple_ret.
  intros w [[c' [Hl [c [t [Hc ->]]]]] Hw]. split; [|exact Hw].
  eexists. split; [exact Hl | exact Hc].
Qed.

Lemma triple_ret_eq {A} (a : A) (P : World -> Prop) :
  triple P (ret a) (fun r w => r = a /\ P w).
Proof. apply triple_ret. auto. Qed.

(** [processMessage]: where the context of the response is, and in what
    states the stored object and that context are. *)
Lemma triple_processMessage_rev message intent reply_call S P0 p :
  triple (at_ l (core S P0 p) (Conv ph l))
         (processMessage true l message intent reply_call)
         (fun response w =>
            exists S1,
              (S ∈ managedExternally -> S1 = S)
              /\ let S2 := if payment_recorded intent message S S1
                           then payment_pending else S1 in
                 match reply_call with
                 | Return _ =>
                     resp_context response = l
                     /\ at_ l (core S2 P0 p) (Conv ph l) w
                 | Throw _ =>
                     at_ l (core S2 P0 p)
                         (WithCopy ph l (resp_context response) (core S1 P0 p)) w
                 end).
Proof.
  pose proof (framed_Conv ph l) as HF.
  unfold processMessage.
  apply triple_get_bind. intros c0 Hc0. rewrite (proj1 Hc0).
  eapply triple_bind; [apply triple_updateStateFromContext; assumption|].
  intros []. apply triple_exact. intros c1 (S1 & Hc1 & HS1).
  eapply triple_weaken with (P := at_ l (core S1 P0 p) (Conv ph l));
    [| intros w [[c [Hl <-]] Hw]; split; [now exists c1 | exact Hw]
     | intros a w Hw; exact Hw].
  unfold generateAIResponse. cbn [negb].
  destruct reply_call as [text|error].
  - eapply triple_bind; [apply triple_ret_eq|].
    intros response. apply triple_pure. intros ->.
    eapply triple_bind; [apply triple_checkForAdminNotification; assumption|].
    intros notification.
    destruct notification as [n|]; apply triple_ret;
      intros w Hw; exists S1; (split; [assumption|]); cbv zeta;
      (split; [reflexivity | exact Hw]).
  - eapply triple_bind with
      (Q := fun response =>
              at_ l (core S1 P0 p)
                  (WithCopy ph l (resp_context response) (core S1 P0 p))).
    + apply triple_get_bind. intros c Hc.
      eapply triple_bind; [apply triple_alloc|]. intros copy.
      apply triple_ret. intros w [Ho (Hconv & Hne & c2 & Hl2 & <-)].
      split; [exact Ho|]. split; [exact Hconv|]. split; [exact Hne|].
      exists (set_needsHuman true c). split; [exact Hl2 | exact Hc].
    + intros response.
      eapply triple_bind;
        [apply triple_checkForAdminNotification; apply framed_WithCopy|].
      intros notification.
      destruct notification as [n|]; apply triple_ret;
        intros w Hw; exists S1; (split; [assumption|]); exact Hw.
Qed.

(** What a turn that is not escalated leaves in the store, by the outcome
    of the request for the reply. *)
Lemma triple_processMessage_tail message intent reply_call S P0 p :
  triple (at_ l (core S P0 p) (Conv ph l))
         (response <- processMessage true l message intent reply_call ;;
          ts <- newDate ;;
          ConversationService.addMessage ph
            (mkMessage assistant (resp_message response) ts None) ;;
          ConversationService.updateContext ph
            (ConversationService.Object (resp_context response)) ;;
          ret response)
         (fun r w =>
            Conv ph l w
            /\ exists c S1,
                heap w !! l = Some c /\ phone c = p
                /\ (S ∈ managedExternally -> S1 = S)
                /\ after_reply reply_call S1
                     (if payment_recorded intent message S S1
                      then payment_pending else S1) P0 c).
Proof.
  pose proof (framed_Conv ph l) as HF.
  eapply triple_bind; [apply triple_processMessage_rev|].
  intros response. cbv beta.
  apply triple_exists. intros S1.
  apply triple_pure. intros HS1. cbv zeta.
  remember (if payment_recorded intent message S S1 then payment_pending else S1)
    as S2 eqn:ES2.
  destruct reply_call as [text|error].
  - apply triple_pure. intros Hctx. rewrite Hctx.
    eapply triple_bind; [apply triple_newDate; assumption|]. intros ts.
    eapply triple_bind; [apply triple_addMessage; assumption|]. intros [].
    eapply triple_bind; [apply triple_updateContext_same; [assumption | auto]|].
    intros r. apply triple_ret.
    intros w [[c' [Hl [c [t [(Hs & Hp & Hph) ->]]]]] Hw]. split; [exact Hw|].
    eexists _, S1. split; [exact Hl|]. rewrite <- ES2. repeat split; assumption.
  - pose proof (framed_WithCopy ph l (resp_context response) (core S1 P0 p)) as HF'.
    eapply triple_bind; [apply triple_newDate; assumption|]. intros ts.
    eapply triple_bind; [apply triple_addMessage; assumption|]. intros [].
    eapply triple_bind; [apply triple_updateContext_copy|].
    intros r. apply triple_ret.
    intros w [[c' [Hl (c & c2 & t & (Hs & Hp & Hph) & (Hs2 & Hp2 & Hph2) & ->)]] Hw].
    split; [exact (proj1 Hw)|].
    eexists _, S1. split; [exact Hl|]. rewrite <- ES2.
    split; [exact Hph2|]. split; [exact HS1|].
    split; [exact Hs2|]. cbn. rewrite Hp2. f_equal.
    unfold tracked. cbn [own_properties p_state]. rewrite Hs, Hs2.
    case_bool_decide; case_bool_decide; try congruence; cbn; congruence.
Qed.

Lemma detectIntent_detected JSON_parse' anthropic intent_call :
  detectIntent JSON_parse' anthropic intent_call
  = Return (detected JSON_parse' anthropic intent_call).
Proof.
  unfold detected, detectIntent.
  destruct anthropic; [|reflexivity]. cbn [negb].
  destruct intent_call as [content|e]; cbn; [|reflexivity].
  destruct (jsonMatch content) as [jsonText|]; cbn; [|reflexivity].
  now destruct (JSON_parse' jsonText).
Qed.

(** The turn up to the classification. *)
Lemma triple_turn_classified_rev {A} message intent_call
    (rest : loc -> IntentResult -> M A) S P0 p R :
  triple (at_ l (core S P0 p) (Conv ph l))
         (rest l (detected JSON_parse true intent_call)) R ->
  triple (at_ l (core S P0 p) (Conv ph l))
         (context <- ConversationService.getOrCreateContext ph ;;
          now <- newDate ;;
          modify context (set_lastMessageAt now) ;;
          c <- get context ;;
          (if negb (Js.present (language c)) then
             match detectLanguage message with
             | en => ret tt
             | detectedLang => modify context (set_language detectedLang)
             end
           else ret tt) ;;
          ts <- newDate ;;
          ConversationService.addMessage ph (mkMessage user message ts None) ;;
          intent <- lift (detectIntent JSON_parse true intent_call) ;;
          rest context intent)
         R.
Proof.
  intros Hrest. pose proof (framed_Conv ph l) as HF.
  set (intent := detected JSON_parse true intent_call) in *.
  eapply triple_bind; [apply triple_getOrCreateContext; auto|].
  intros context. apply triple_pure. intros ->.
  eapply triple_bind; [apply triple_newDate; assumption|]. intros now.
  eapply triple_bind; [inv_modify|]. intros [].
  apply triple_get_bind. intros c0 Hc0.
  eapply triple_bind; [stmt_inv|]. intros [].
  eapply triple_bind; [apply triple_newDate; assumption|]. intros ts.
  eapply triple_bind; [apply triple_addMessage; assumption|]. intros [].
  eapply triple_bind;
    [apply triple_lift with (a := intent)
       (Q := fun a w => a = intent /\ at_ l (core S P0 p) (Conv ph l) w);
     [apply detectIntent_detected | intros w Hw; split; [reflexivity | exact Hw]]|].
  intros intent'. apply triple_pure. intros ->. exact Hrest.
Qed.

Lemma raises_turn_classified_rev {A} message intent_call
    (rest : loc -> IntentResult -> M A) S P0 p R :
  raises (at_ l (core S P0 p) (Conv ph l))
         (rest l (detected JSON_parse true intent_call)) R ->
  raises (at_ l (core S P0 p) (Conv ph l))
         (context <- ConversationService.getOrCreateContext ph ;;
          now <- newDate ;;
          modify context (set_lastMessageAt now) ;;
          c <- get context ;;
          (if negb (Js.present (language c)) then
             match detectLanguage message with
             | en => ret tt
             | detectedLang => modify context (set_language detectedLang)
             end
           else ret tt) ;;
          ts <- newDate ;;
          ConversationService.addMessage ph (mkMessage user message ts None) ;;
          intent <- lift (detectIntent JSON_parse true intent_call) ;;
          rest context intent)
         R.
Proof.
  intros Hrest. pose proof (framed_Conv ph l) as HF.
  set (intent := detected JSON_parse true intent_call) in *.
  eapply raises_then; [apply triple_getOrCreateContext; auto|].
  intros context. apply raises_pure. intros ->.
  eapply raises_then; [apply triple_newDate; assumption|]. intros now.
  eapply raises_then; [inv_modify|]. intros [].
  apply raises_get_bind. intros c0 Hc0.
  eapply raises_then; [stmt_inv|]. intros [].
  eapply raises_then; [apply triple_newDate; assumption|]. intros ts.
  eapply raises_then; [apply triple_addMessage; assumption|]. intros [].
  eapply raises_then;
    [apply triple_lift with (a := intent)
       (Q := fun a w => a = intent /\ at_ l (core S P0 p) (Conv ph l) w);
     [apply detectIntent_detected | intros w Hw; split; [reflexivity | exact Hw]]|].
  intros intent'. apply raises_pure. intros ->. exact Hrest.
Qed.

(** A turn of the auto-advance revision on a phone that has its context
    at [l], when the answer of the classifier has entities. *)
Lemma triple_turn_rev message intent_call reply_call e S P0 p :
  ir_entities (detected JSON_parse true intent_call) = Some e ->
  triple (at_ l (core S P0 p) (Conv ph l))
         (handleIncomingMessage JSON_parse true detectLanguage ph message
            intent_call reply_call)
         (fun r w =>
            Conv ph l w
            /\ exists c,
                heap w !! l = Some c /\ phone c = p
                /\ after_turn (detected JSON_parse true intent_call) message
                               reply_call S P0 c).
Proof.
  intros He. pose proof (framed_Conv ph l) as HF.
  unfold handleIncomingMessage. cbn [negb].
  apply (triple_turn_classified_rev message intent_call
           (fun context intent => updateContextFromIntent context intent message ;; _)).
  set (intent := detected JSON_parse true intent_call) in *.
  eapply triple_bind;
    [apply (triple_updateContextFromIntent_rev _ _ e); assumption|]. intros [].
  apply triple_get_bind. intros c [Hcore Hs].
  rewrite (shouldEscalateToHuman_escalated _ _ _ Hs).
  eapply triple_weaken with (P := at_ l (core S P0 p) (Conv ph l));
    [| intros w [[c' [Hl [H1 _]]] Hw]; split; [now exists c' | exact Hw]
     | intros a w Hw; exact Hw].
  unfold after_turn. destruct (escalated intent message).
  - eapply triple_weaken; [apply triple_escalation | intros w Hw; exact Hw|].
    intros r w [[c' [Hl (Hs' & Hp' & Hph')]] Hw]. split; [exact Hw|].
    exists c'. auto.
  - eapply triple_weaken;
      [apply triple_processMessage_tail | intros w Hw; exact Hw|].
    intros r w (Hw & c' & S1 & Hl & Hph' & HS1 & Hafter).
    split; [exact Hw|]. exists c'. split; [exact Hl|]. split; [exact Hph'|].
    exists S1. auto.
Qed.

(** When the answer has no entities the turn throws, and the state, the
    previous state and the phone are what they were. *)
Lemma raises_turn_rev message intent_call reply_call S P0 p :
  ir_entities (detected JSON_parse true intent_call) = None ->
  raises (at_ l (core S P0 p) (Conv ph l))
         (handleIncomingMessage JSON_parse true detectLanguage ph message
            intent_call reply_call)
         (fun error w => error = TypeError_reading "device"
                         /\ at_ l (core S P0 p) (Conv ph l) w).
Proof.
  intros He. pose proof (framed_Conv ph l) as HF.
  unfold handleIncomingMessage. cbn [negb].
  apply (raises_turn_classified_rev message intent_call
           (fun context intent => updateContextFromIntent context intent message ;; _)).
  apply raises_first. now apply raises_updateContextFromIntent_rev.
Qed.

End AutoAdvanceMethods.

(** ** Dates: six years are seventy-two months *)

Lemma monthOfDay_range leap d : 0 <= JsDate.monthOfDay leap d <= 11.
Proof.
  unfold JsDate.monthOfDay.
  repeat match goal with |- context [if ?b then _ else _] => destruct b end; lia.
Qed.

Lemma MakeDay_years year month date k :
  JsDate.MakeDay (year + k) month date = JsDate.MakeDay year (month + 12 * k) date.
Proof.
  unfold JsDate.MakeDay.
  replace ((month + 12 * k) / 12) with (month / 12 + k)
    by (rewrite Z.mul_comm, Z.div_add by lia; reflexivity).
  replace ((month + 12 * k) mod 12) with (month mod 12)
    by (rewrite Z.mul_comm, Z.mod_add by lia; reflexivity).
  replace (year + k + month / 12) with (year + (month / 12 + k)) by lia.
  reflexivity.
Qed.

Lemma setFullYear_plus_months tza t k :
  JsDate.setFullYear tza t (JsDate.getFullYear tza t + k)
  = plus_months tza t (12 * k).
Proof.
  unfold plus_months, JsDate.setFullYear, JsDate.setMonth, JsDate.getFullYear,
    JsDate.getMonth.
  now rewrite MakeDay_years.
Qed.

(** ** Dates: the calendar behind [plus_months] *)

Lemma isLeapYear_cases y :
  (JsDate.isLeapYear y = true
   /\ ((y mod 4 = 0 /\ y mod 100 <> 0) \/ y mod 400 = 0))
  \/ (JsDate.isLeapYear y = false
      /\ (y mod 4 <> 0 \/ y mod 100 = 0) /\ y mod 400 <> 0).
Proof.
  unfold JsDate.isLeapYear.
  destruct (Z.eqb_spec (y mod 4) 0), (Z.eqb_spec (y mod 100) 0),
    (Z.eqb_spec (y mod 400) 0); cbn; intuition lia.
Qed.

Lemma DayFromYear_succ y :
  JsDate.DayFromYear (y + 1) = JsDate.DayFromYear y + JsDate.DaysInYear y.
Proof.
  unfold JsDate.DaysInYear.
  destruct (isLeapYear_cases y) as [[-> H] | [-> H]]; unfold JsDate.DayFromYear;
    Z.div_mod_to_equations; lia.
Qed.

Lemma DayFromYear_mono y1 y2 :
  y1 <= y2 -> JsDate.DayFromYear y1 <= JsDate.DayFromYear y2.
Proof. unfold JsDate.DayFromYear. intros H. Z.div_mod_to_equations. lia. Qed.

Lemma YearFromDay_spec d :
  JsDate.DayFromYear (JsDate.YearFromDay d) <= d
  < JsDate.DayFromYear (JsDate.YearFromDay d + 1).
Proof.
  unfold JsDate.YearFromDay.
  set (y := 1970 + 400 * d / 146097).
  assert (JsDate.DayFromYear (y - 1) <= d < JsDate.DayFromYear (y + 2)) as Hb
    by (subst y; unfold JsDate.DayFromYear; Z.div_mod_to_equations; lia).
  destruct (Z.ltb_spec d (JsDate.DayFromYear y)).
  - replace (y - 1 + 1) with y by lia. lia.
  - destruct (Z.leb_spec (JsDate.DayFromYear (y + 1)) d).
    + replace (y + 1 + 1) with (y + 2) by lia. lia.
    + lia.
Qed.

Lemma YearFromDay_unique y d :
  JsDate.DayFromYear y <= d < JsDate.DayFromYear (y + 1) ->
  JsDate.YearFromDay d = y.
Proof.
  intros H. pose proof (YearFromDay_spec d) as Hs.
  destruct (Z.lt_trichotomy (JsDate.YearFromDay d) y) as [Hlt | [-> | Hgt]].
  - pose proof (DayFromYear_mono (JsDate.YearFromDay d + 1) y). lia.
  - reflexivity.
  - pose proof (DayFromYear_mono (y + 1) (JsDate.YearFromDay d)). lia.
Qed.

Lemma month_cases m :
  0 <= m <= 11 ->
  m = 0 \/ m = 1 \/ m = 2 \/ m = 3 \/ m = 4 \/ m = 5 \/ m = 6 \/ m = 7
  \/ m = 8 \/ m = 9 \/ m = 10 \/ m = 11.
Proof. lia. Qed.

Ltac days_of_months :=
  repeat match goal with
    | |- context [JsDate.daysBeforeMonth ?l ?m] =>
        let v := eval vm_compute in (JsDate.daysBeforeMonth l m) in
        change (JsDate.daysBeforeMonth l m) with v
    | H : context [JsDate.daysBeforeMonth ?l ?m] |- _ =>
        let v := eval vm_compute in (JsDate.daysBeforeMonth l m) in
        change (JsDate.daysBeforeMonth l m) with v in H
    end.

Lemma monthOfDay_spec leap x :
  0 <= x < JsDate.daysBeforeMonth leap 12 ->
  JsDate.daysBeforeMonth leap (JsDate.monthOfDay leap x) <= x
  < JsDate.daysBeforeMonth leap (JsDate.monthOfDay leap x + 1).
Proof.
  unfold JsDate.monthOfDay. destruct leap; intros H;
    repeat match goal with
           | |- context [?a <? ?b] => destruct (Z.ltb_spec a b)
           end; days_of_months; lia.
Qed.

Lemma monthOfDay_unique leap m x :
  0 <= m <= 11 ->
  JsDate.daysBeforeMonth leap m <= x < JsDate.daysBeforeMonth leap (m + 1) ->
  JsDate.monthOfDay leap x = m.
Proof.
  intros Hm.
  destruct (month_cases m Hm) as [-> | [-> | [-> | [-> | [-> | [-> | [-> | [-> |
    [-> | [-> | [-> | ->]]]]]]]]]]];
    unfold JsDate.monthOfDay; destruct leap; intros H;
    repeat match goal with
           | |- context [?a <? ?b] => destruct (Z.ltb_spec a b)
           end; days_of_months; lia.
Qed.

Lemma DaysInMonth_range y m : 0 <= m <= 11 -> 28 <= JsDate.DaysInMonth y m <= 31.
Proof.
  intros Hm. unfold JsDate.DaysInMonth.
  destruct (month_cases m Hm) as [-> | [-> | [-> | [-> | [-> | [-> | [-> | [-> |
    [-> | [-> | [-> | ->]]]]]]]]]]];
    destruct (JsDate.isLeapYear y); days_of_months; lia.
Qed.

Lemma daysBeforeMonth_bounds leap m :
  0 <= m <= 11 ->
  0 <= JsDate.daysBeforeMonth leap m
  /\ JsDate.daysBeforeMonth leap (m + 1) <= JsDate.daysBeforeMonth leap 12.
Proof.
  intros Hm.
  destruct (month_cases m Hm) as [-> | [-> | [-> | [-> | [-> | [-> | [-> | [-> |
    [-> | [-> | [-> | ->]]]]]]]]]]];
    destruct leap; days_of_months; lia.
Qed.

Lemma daysBeforeMonth_12 y :
  JsDate.daysBeforeMonth (JsDate.isLeapYear y) 12 = JsDate.DaysInYear y.
Proof. unfold JsDate.DaysInYear. now destruct (JsDate.isLeapYear y). Qed.

Lemma msPerDay_pos : 0 < msPerDay.
Proof. reflexivity. Qed.

(** The date and the time of the day that a time value stands for. *)
Lemma DateFromTime_range t : 1 <= JsDate.DateFromTime t <= 31.
Proof.
  unfold JsDate.DateFromTime, JsDate.MonthFromTime, JsDate.InLeapYear,
    JsDate.DayWithinYear, JsDate.YearFromTime.
  set (d := JsDate.Day t). set (y := JsDate.YearFromDay d).
  pose proof (YearFromDay_spec d) as Hy. fold y in Hy.
  rewrite DayFromYear_succ, <- daysBeforeMonth_12 in Hy.
  set (x := d - JsDate.DayFromYear y) in *.
  pose proof (monthOfDay_spec (JsDate.isLeapYear y) x ltac:(lia)) as Hm.
  pose proof (monthOfDay_range (JsDate.isLeapYear y) x) as Hr.
  pose proof (DaysInMonth_range y _ Hr) as Hd. unfold JsDate.DaysInMonth in Hd.
  lia.
Qed.

(** The four calendar fields of the time value built from a year, a
    month, a date of that month and a time of the day. *)
Lemma fields_of_MakeDate y m dd tod :
  0 <= m <= 11 -> 1 <= dd <= JsDate.DaysInMonth y m -> 0 <= tod < msPerDay ->
  let t := JsDate.MakeDate
             (JsDate.DayFromYear y
              + JsDate.daysBeforeMonth (JsDate.isLeapYear y) m + dd - 1) tod in
  JsDate.YearFromTime t = y /\ JsDate.MonthFromTime t = m
  /\ JsDate.DateFromTime t = dd /\ JsDate.TimeWithinDay t = tod.
Proof.
  intros Hm Hd Ht t.
  pose proof (daysBeforeMonth_bounds (JsDate.isLeapYear y) m Hm) as [Hb0 Hb1].
  rewrite daysBeforeMonth_12 in Hb1. unfold JsDate.DaysInMonth in Hd.
  set (day := JsDate.DayFromYear y
              + JsDate.daysBeforeMonth (JsDate.isLeapYear y) m + dd - 1) in *.
  assert (JsDate.Day t = day) as HD.
  { unfold JsDate.Day, t, JsDate.MakeDate.
    rewrite Z.div_add_l by (pose proof msPerDay_pos; lia).
    rewrite Z.div_small by lia. lia. }
  assert (JsDate.YearFromTime t = y) as HY.
  { unfold JsDate.YearFromTime. rewrite HD. apply YearFromDay_unique.
    rewrite DayFromYear_succ. subst day. lia. }
  assert (JsDate.MonthFromTime t = m) as HM.
  { unfold JsDate.MonthFromTime, JsDate.InLeapYear, JsDate.DayWithinYear.
    rewrite HY, HD. apply monthOfDay_unique; [assumption|]. subst day. lia. }
  repeat split; [assumption | assumption | |].
  - unfold JsDate.DateFromTime, JsDate.InLeapYear, JsDate.DayWithinYear.
    rewrite HM, HY, HD. subst day. lia.
  - unfold JsDate.TimeWithinDay, t, JsDate.MakeDate.
    rewrite Z.add_comm, Z.mod_add by (pose proof msPerDay_pos; lia).
    apply Z.mod_small. assumption.
Qed.

(** [plus_months] by the calendar: from a day that every month has, the
    same day and time of the day, [k] months on. *)
Lemma plus_months_calendar tza t k :
  JsDate.getDate tza t <= 28 ->
  let t' := plus_months tza t k in
  JsDate.getFullYear tza t'
  = JsDate.getFullYear tza t + (JsDate.getMonth tza t + k) / 12
  /\ JsDate.getMonth tza t' = (JsDate.getMonth tza t + k) mod 12
  /\ JsDate.getDate tza t' = JsDate.getDate tza t
  /\ JsDate.TimeWithinDay (JsDate.LocalTime tza t')
     = JsDate.TimeWithinDay (JsDate.LocalTime tza t).
Proof.
  intros Hd t'. subst t'.
  unfold plus_months, JsDate.setMonth, JsDate.getFullYear, JsDate.getMonth,
    JsDate.getDate in *.
  set (lt := JsDate.LocalTime tza t) in *.
  unfold JsDate.LocalTime at 1 2 3 4, JsDate.UTC.
  rewrite Z.sub_add. unfold JsDate.MakeDay.
  set (mk := JsDate.MonthFromTime lt + k).
  assert (0 <= mk mod 12 <= 11) as Hm by (pose proof (Z.mod_pos_bound mk 12); lia).
  pose proof (DateFromTime_range lt) as Hr.
  pose proof (DaysInMonth_range (JsDate.YearFromTime lt + mk / 12) _ Hm) as Hx.
  apply fields_of_MakeDate; [assumption | lia |].
  apply Z.mod_pos_bound. exact msPerDay_pos.
Qed.

(** ** The admin operations, step by step *)

#[local] Opaque JsDate.setMonth JsDate.getMonth JsDate.setFullYear JsDate.getFullYear.

Lemma activateSubscription_run tza ph pl creds w0 l c0 :
  conversations w0 !! ph = Some l -> heap w0 !! l = Some c0 ->
  let subscribed := ticks w0 (reads w0) in
  let now := ticks w0 (S (reads w0)) in
  let updated := ticks w0 (S (S (reads w0))) in
  let c := subscribed_context tza pl creds subscribed now updated c0 in
  AutoAdvance.activateSubscription tza ph pl creds w0
  = (Return (AutoAdvance.reply (AutoAdvance.welcome_message pl c creds) l),
     {| heap := <[l := c]> (heap w0);
        conversations := conversations w0;
        messageHistory := messageHistory w0;
        ticks := ticks w0;
        reads := S (S (S (reads w0))) |}).
Proof.
  intros Hc Hl. cbv zeta. unfold AutoAdvance.activateSubscription.
  run_with (getOrCreateContext_known _ _ _ Hc).
  do 2 run_modify. run_newDate. do 3 run_modify. run_newDate. run_modify.
  run_update. run_get.
  unfold ret. cbn. rewrite !insert_insert_eq.
  unfold subscribed_context.
  destruct pl; cbn [plan_months]; try reflexivity.
  rewrite (setFullYear_plus_months tza (ticks w0 (S (reads w0))) 6).
  reflexivity.
Qed.

Lemma activateTrial_run ph creds w0 l c0 :
  conversations w0 !! ph = Some l -> heap w0 !! l = Some c0 ->
  let started := ticks w0 (reads w0) in
  let now := ticks w0 (S (reads w0)) in
  let updated := ticks w0 (S (S (reads w0))) in
  let c := trial_context creds started now updated c0 in
  AutoAdvance.activateTrial ph creds w0
  = (Return (AutoAdvance.reply
               (if bool_decide (device c = Some "tivimate")
                then AutoAdvance.tivimate_activation creds
                else AutoAdvance.app_activation) l),
     {| heap := <[l := c]> (heap w0);
        conversations := conversations w0;
        messageHistory := messageHistory w0;
        ticks := ticks w0;
        reads := S (S (S (reads w0))) |}).
Proof.
  intros Hc Hl. cbv zeta. unfold AutoAdvance.activateTrial.
  run_with (getOrCreateContext_known _ _ _ Hc).
  run_modify. run_newDate. run_modify. run_newDate. do 2 run_modify.
  run_update. run_get.
  unfold ret. cbn. rewrite !insert_insert_eq. reflexivity.
Qed.

(** An operation that starts by [getOrCreateContext] runs as if the
    context had been there. *)
Lemma bind_getOrCreateContext {B} ph (k : loc -> M B) w l w0 :
  ConversationService.getOrCreateContext ph w = (Return l, w0) ->
  bind (ConversationService.getOrCreateContext ph) k w
  = bind (ConversationService.getOrCreateContext ph) k w0.
Proof.
  intros H. rewrite (bind_run _ _ _ _ _ H).
  now rewrite (bind_run _ _ _ _ _ (getOrCreateContext_again _ _ _ _ H)).
Qed.

(** ** C5: the activation of a subscription *)

(** C5. [activateSubscription] returns, and the context of the phone,
    created if need be, is then in [active_subscriber], with the plan, the
    reading of the clock as [subscribedAt], the payment-pending flag
    cleared, the credentials with the stream URL derived from them, and
    [expiresAt] the next reading of the clock moved on by the months of
    the plan: 1 for monthly, 14 for yearly, 28 for two years, 36 for three
    years, and for lifetime six years, which is 72 months. Read from a day
    of the month that is at most the 28th, the expiry has the same day of
    the month and time of the day, that many months on in the calendar. *)
Theorem activateSubscription_sets_expiry
    (LocalTZA : Z) (ph : string) (pl : PlanType)
    (creds : AutoAdvance.LoginDetails) (w : World) :
  well_formed w ->
  exists l c0 w0 response w' c,
    ConversationService.getOrCreateContext ph w = (Return l, w0)
    /\ heap w0 !! l = Some c0
    /\ AutoAdvance.activateSubscription LocalTZA ph pl creds w = (Return response, w')
    /\ resp_context response = l
    /\ stored ph w' = Some c
    /\ state c = active_subscriber
    /\ plan c = Some (plan_name pl)
    /\ subscribedAt c = Some (ticks w (reads w0))
    /\ paymentPending c = Some false
    /\ credentials c
       = Some {| username := AutoAdvance.login_username creds;
                 password := AutoAdvance.login_password creds;
                 url := AutoAdvance.login_url creds;
                 m3uUrl := Some (AutoAdvance.login_url creds
                                 ++ "/get.php?username="
                                 ++ AutoAdvance.login_username creds
                                 ++ "&password=" ++ AutoAdvance.login_password creds
                                 ++ "&type=m3u_plus&output=ts") |}
    /\ (let now := ticks w (S (reads w0)) in
        expiresAt c = Some (plus_months LocalTZA now (plan_months pl))
        /\ expiresAt c
           = Some match pl with
                  | monthly => plus_months LocalTZA now 1
                  | yearly => plus_months LocalTZA now 14
                  | plan_2years => plus_months LocalTZA now 28
                  | plan_3years => plus_months LocalTZA now 36
                  | lifetime =>
                      JsDate.setFullYear LocalTZA now
                        (JsDate.getFullYear LocalTZA now + 6)
                  end
        /\ (JsDate.getDate LocalTZA now <= 28 ->
            forall e, expiresAt c = Some e ->
            JsDate.getFullYear LocalTZA e
            = JsDate.getFullYear LocalTZA now
              + (JsDate.getMonth LocalTZA now + plan_months pl) / 12
            /\ JsDate.getMonth LocalTZA e
               = (JsDate.getMonth LocalTZA now + plan_months pl) mod 12
            /\ JsDate.getDate LocalTZA e = JsDate.getDate LocalTZA now
            /\ JsDate.TimeWithinDay (JsDate.LocalTime LocalTZA e)
               = JsDate.TimeWithinDay (JsDate.LocalTime LocalTZA now))).
Proof.
  intros Hwf.
  destruct (getOrCreateContext_spec ph w Hwf)
    as (l & c0 & w0 & Hg & Hc & Hl & Hwf0 & Ht & Hr & _ & _).
  exists l, c0, w0.
  assert (AutoAdvance.activateSubscription LocalTZA ph pl creds w
          = AutoAdvance.activateSubscription LocalTZA ph pl creds w0) as E
    by (unfold AutoAdvance.activateSubscription;
        apply (bind_getOrCreateContext _ _ _ _ _ Hg)).
  rewrite E, (activateSubscription_run _ _ _ _ _ _ _ Hc Hl), Ht.
  eexists _, _, _. split; [assumption|]. split; [assumption|].
  split; [reflexivity|]. split; [reflexivity|].
  split; [unfold stored; cbn; rewrite Hc; cbn; now rewrite lookup_insert_eq|].
  do 5 (split; [reflexivity|]). cbn zeta. split; [reflexivity|]. split.
  - cbn. destruct pl; try reflexivity.
    now rewrite (setFullYear_plus_months LocalTZA _ 6).
  - intros Hd e He. cbn in He. injection He as <-.
    apply plus_months_calendar. exact Hd.
Qed.

Lemma well_formed_fresh_world : well_formed fresh_world.
Proof. intros ph l H. cbn in H. rewrite lookup_empty in H. discriminate H. Qed.

Lemma activateSubscription_sets_expiry_witness :
  exists c,
    stored "353870000000"
      (world_after (AutoAdvance.activateSubscription 0 "353870000000" yearly
                      (AutoAdvance.mkLogin "joe" "secret" "http://tv.example"))
                   fresh_world)
    = Some c
    /\ state c = active_subscriber
    /\ plan c = Some "yearly"
    /\ (JsDate.getFullYear 0 <$> expiresAt c) = Some 2025
    /\ (JsDate.getMonth 0 <$> expiresAt c) = Some 0
    /\ (JsDate.getDate 0 <$> expiresAt c) = Some 14.
Proof.
  destruct (activateSubscription_sets_expiry 0 "353870000000" yearly
              (AutoAdvance.mkLogin "joe" "secret" "http://tv.example")
              fresh_world)
    as (l & c0 & w0 & response & w' & c & Hg & _ & E & _ & Hs & Hst & Hp & _
        & _ & _ & He & _).
  - intros ph l H. vm_compute in H. discriminate H.
  - exists c. unfold world_after. rewrite E.
    split; [exact Hs|]. split; [exact Hst|]. split; [exact Hp|].
    apply (f_equal (fun p => reads (snd p))) in Hg.
    change (reads (snd (Return l, w0))) with (reads w0) in Hg.
    rewrite <- Hg in He. rewrite He.
    repeat split; vm_compute; reflexivity.
Defined.

(** ** C10: who assigns the previous state *)

(** A turn of the auto-advance revision in a well-formed world: it
    returns, and what it leaves in the store for the phone. *)
Lemma turn_rev_after JSON_parse detectLanguage ph message intent_call reply_call w :
  well_formed w ->
  let intent := detected JSON_parse true intent_call in
  let turn := AutoAdvance.handleIncomingMessage JSON_parse true detectLanguage ph
                message intent_call reply_call in
  exists l c0 w0 c,
    ConversationService.getOrCreateContext ph w = (Return l, w0)
    /\ heap w0 !! l = Some c0
    /\ stored ph w ≫= previousState = previousState c0
    /\ (forall c', stored ph w = Some c' -> c0 = c')
    /\ turn w = turn w0
    /\ stored ph (world_after turn w) = Some c
    /\ phone c = phone c0
    /\ match ir_entities intent with
       | Some _ =>
           (exists response, result_of turn w = Return response)
           /\ after_turn intent message reply_call (state c0) (previousState c0) c
       | None =>
           result_of turn w = Throw (TypeError_reading "device")
           /\ state c = state c0 /\ previousState c = previousState c0
       end.
Proof.
  intros Hwf intent turn.
  destruct (getOrCreateContext_spec ph w Hwf)
    as (l & c0 & w0 & Hg & Hc & Hl & Hwf0 & Ht & Hr & Hprev & Hsame).
  exists l, c0, w0.
  assert (turn w = turn w0) as E
    by (subst turn; unfold AutoAdvance.handleIncomingMessage; cbn [negb];
        apply (bind_getOrCreateContext _ _ _ _ _ Hg)).
  assert (at_ l (core (state c0) (previousState c0) (phone c0)) (Conv ph l) w0) as Hpre
    by (split; [|exact Hc]; exists c0; repeat split; auto).
  unfold result_of, world_after. rewrite E.
  destruct (ir_entities intent) as [e|] eqn:He.
  - destruct (triple_turn_rev JSON_parse detectLanguage ph l message intent_call
                reply_call e (state c0) (previousState c0) (phone c0) He w0 Hpre)
      as (response & w' & E' & Hconv & c & Hl' & Hph & Hafter).
    exists c. subst turn. rewrite E'. cbn [fst snd].
    split; [exact Hg|]. split; [exact Hl|]. split; [exact Hprev|].
    split; [intros c' Hc'; now destruct (Hsame c' Hc')|].
    split; [reflexivity|].
    split; [unfold stored; rewrite Hconv; exact Hl'|].
    split; [exact Hph|]. split; [now exists response | exact Hafter].
  - destruct (raises_turn_rev JSON_parse detectLanguage ph l message intent_call
                reply_call (state c0) (previousState c0) (phone c0) He w0 Hpre)
      as (error & w' & E' & -> & [[c [Hl' (H1 & H2 & H3)]] Hconv]).
    exists c. subst turn. rewrite E'. cbn [fst snd].
    split; [exact Hg|]. split; [exact Hl|]. split; [exact Hprev|].
    split; [intros c' Hc'; now destruct (Hsame c' Hc')|].
    split; [reflexivity|].
    split; [unfold stored; rewrite Hconv; exact Hl'|].
    split; [exact H3|]. auto.
Qed.

(** C10, as stated, fails: the very first message of a customer, "I just
    paid", classified as a payment, leaves [payment_pending] as the
    previous state when the request for the reply fails. The response then
    carries a copy of the context, taken before the payment branch moved
    the stored state, and the store compares the state of the copy with
    the stored one. *)
Lemma previousState_assigned_after_failed_reply :
  let turn :=
    AutoAdvance.handleIncomingMessage sample_parse true sample_language
      "353870000000" "I just paid"
      (Return (intent_json "payment")) (Throw "overloaded") in
  stored "353870000000" fresh_world = None
  /\ detectIntent sample_parse true (Return (intent_json "payment"))
     = Return (labelled "payment")
  /\ previousState <$> stored "353870000000" (world_after turn fresh_world)
     = Some (Some payment_pending)
  /\ state <$> stored "353870000000" (world_after turn fresh_world)
     = Some awaiting_device.
Proof. repeat split; vm_compute; reflexivity. Qed.

(** C10, amended. The admin activations never assign the previous state,
    and neither does the handling of an inbound message when the answer of
    the classifier has no entities (the turn then throws), when the
    message is escalated, when the request for the reply succeeds, or when
    the message does not confirm a payment: in all these cases the
    previous state of the phone is after the operation what it was before,
    absent for a phone that had no context. In the remaining case, a
    payment confirmation that is not escalated and whose request for the
    reply fails, the response carries a copy of the context taken before
    the payment branch, and the state ends as the copy has it. The
    previous state is then what it was when the context had one. When it
    had none, it becomes [payment_pending] if the payment branch moved the
    state, which it does unless the turn has just brought the context to
    [trial_pending] or the state was [payment_pending] already; otherwise
    it stays absent. *)
Theorem previousState_kept
    (JSON_parse : string -> Outcome IntentResult)
    (detectLanguage : string -> Language) (LocalTZA : Z)
    (ph message : string) (intent_call reply_call : Outcome string)
    (pl : PlanType) (creds : AutoAdvance.LoginDetails) (w : World) :
  well_formed w ->
  let before := stored ph w ≫= previousState in
  let intent := detected JSON_parse true intent_call in
  let turn := AutoAdvance.handleIncomingMessage JSON_parse true detectLanguage
                ph message intent_call reply_call in
  stored ph (world_after (AutoAdvance.activateTrial ph creds) w) ≫= previousState
  = before
  /\ stored ph (world_after (AutoAdvance.activateSubscription LocalTZA ph pl creds) w)
       ≫= previousState
     = before
  /\ (ir_entities intent = None
      \/ escalated intent message = true
      \/ returned reply_call = true
      \/ confirms_payment intent message = false ->
      stored ph (world_after turn w) ≫= previousState = before)
  /\ (ir_entities intent <> None ->
      escalated intent message = false ->
      returned reply_call = false ->
      confirms_payment intent message = true ->
      exists l c0 w0 c,
        ConversationService.getOrCreateContext ph w = (Return l, w0)
        /\ heap w0 !! l = Some c0
        /\ (forall c', stored ph w = Some c' -> c0 = c')
        /\ stored ph (world_after turn w) = Some c
        /\ previousState c
           = match before with
             | Some previous => Some previous
             | None =>
                 if bool_decide (state c = payment_pending)
                    || bool_decide (state c = trial_pending)
                       && bool_decide (state c0 <> trial_pending)
                 then None
                 else Some payment_pending
             end).
Proof.
  intros Hwf before intent turn. subst before.
  destruct (getOrCreateContext_spec ph w Hwf)
    as (l & c0 & w0 & Hg & Hc & Hl & Hwf0 & Ht & Hr & Hprev & Hsame).
  split; [|split; [|split]].
  - unfold world_after, AutoAdvance.activateTrial.
    rewrite (bind_getOrCreateContext _ _ _ _ _ Hg).
    fold (AutoAdvance.activateTrial ph creds).
    rewrite (activateTrial_run _ _ _ _ _ Hc Hl), Hprev.
    unfold stored. cbn. rewrite Hc. cbn. now rewrite lookup_insert_eq.
  - unfold world_after, AutoAdvance.activateSubscription.
    rewrite (bind_getOrCreateContext _ _ _ _ _ Hg).
    fold (AutoAdvance.activateSubscription LocalTZA ph pl creds).
    rewrite (activateSubscription_run _ _ _ _ _ _ _ Hc Hl), Hprev.
    unfold stored. cbn. rewrite Hc. cbn. now rewrite lookup_insert_eq.
  - intros Hcase.
    destruct (turn_rev_after JSON_parse detectLanguage ph message intent_call
                reply_call w Hwf)
      as (l' & c0' & w0' & c & Hg' & Hl' & Hprev' & _ & _ & Hs & _ & Hafter).
    fold intent turn in Hs, Hafter. rewrite Hs, Hprev'. cbn.
    destruct (ir_entities intent) as [e|] eqn:He; [|exact (proj2 (proj2 Hafter))].
    destruct Hafter as [_ Hafter].
    unfold after_turn in Hafter.
    destruct (escalated intent message) eqn:Hesc; [exact (proj2 Hafter)|].
    destruct Hafter as (S1 & HS1 & Hafter).
    destruct Hcase as [Hcase | [Hcase | [Hcase | Hcase]]]; try discriminate.
    + destruct reply_call; [exact (proj2 Hafter) | discriminate].
    + unfold payment_recorded in Hafter. rewrite Hcase in Hafter.
      cbn [andb] in Hafter.
      destruct reply_call; [exact (proj2 Hafter)|].
      destruct Hafter as [_ ->]. rewrite bool_decide_eq_true_2 by reflexivity.
      apply over_opt_same.
  - intros He Hesc Hret Hpay.
    destruct (turn_rev_after JSON_parse detectLanguage ph message intent_call
                reply_call w Hwf)
      as (l' & c0' & w0' & c & Hg' & Hl' & Hprev' & Hsame' & _ & Hs & _ & Hafter).
    fold intent turn in Hs, Hafter.
    exists l', c0', w0', c.
    split; [exact Hg'|]. split; [exact Hl'|]. split; [exact Hsame'|].
    split; [exact Hs|].
    destruct (ir_entities intent) as [e|]; [|contradiction].
    destruct Hafter as [_ Hafter].
    unfold after_turn in Hafter. rewrite Hesc in Hafter.
    destruct Hafter as (S1 & HS1 & Hafter).
    destruct reply_call as [text|error]; [discriminate|].
    destruct Hafter as [Hst ->]. rewrite Hprev', Hst.
    unfold payment_recorded. rewrite Hpay. cbn [andb].
    destruct (previousState c0'); [reflexivity|]. cbn [over_opt].
    destruct (bool_decide (S1 = trial_pending) && bool_decide (state c0' <> trial_pending));
      cbn [negb].
    + rewrite bool_decide_eq_true_2 by reflexivity. now rewrite orb_true_r.
    + rewrite orb_false_r. destruct (decide (S1 = payment_pending)) as [E|E].
      * rewrite !bool_decide_eq_true_2 by auto. reflexivity.
      * rewrite !bool_decide_eq_false_2 by auto. reflexivity.
Qed.

Lemma previousState_kept_witness :
  stored "353870000000"
    (world_after
       (AutoAdvance.handleIncomingMessage sample_parse true sample_language
          "353870000000" "I just paid"
          (Return (intent_json "payment")) (Return "Thanks, checking."))
       fresh_world)
    ≫= previousState
  = stored "353870000000" fresh_world ≫= previousState.
Proof.
  apply (previousState_kept sample_parse sample_language 0
           "353870000000" "I just paid"
           (Return (intent_json "payment")) (Return "Thanks, checking.")
           monthly (AutoAdvance.mkLogin "joe" "secret" "http://tv.example")
           fresh_world).
  - intros ph l H. vm_compute in H. discriminate H.
  - right. right. left. reflexivity.
Defined.

(** ** C1: leaving [needs_human] *)

Section NeedsHuman.

Variable prompts : Prompts.
Variable JSON_parse : string -> Outcome IntentResult.
Variable ph : string.
Variable l : loc.

(** [processMessage] of the state machine on an escalated context: where
    the context of the response is, and the state of the stored object. *)
Lemma triple_processMessage_needs_human message intent reply_call P0 p :
  triple (at_ l (core needs_human P0 p) (Conv ph l))
         (AIService.processMessage prompts true l message intent reply_call)
         (fun response w =>
            (resp_context response = l
             /\ at_ l (core (if String.eqb (ir_intent intent) "pricing"
                             then awaiting_payment else needs_human) P0 p)
                    (Conv ph l) w)
            \/ (String.eqb (ir_intent intent) "pricing" = false
                /\ at_ l (core needs_human P0 p)
                       (WithCopy ph l (resp_context response)
                          (core needs_human P0 p)) w)).
Proof.
  pose proof (framed_Conv ph l) as HF.
  unfold AIService.processMessage.
  apply triple_get_bind. intros c (Hs & Hp & Hph). rewrite Hs.
  destruct (String.eqb (ir_intent intent) "pricing") eqn:Hpricing.
  - unfold AIService.handlePricingRequest.
    apply triple_get_bind. intros c' Hc'.
    eapply triple_bind;
      [apply triple_modify with (Pc' := core awaiting_payment P0 p);
       [assumption | intros c'' (_ & Hp'' & Hph''); repeat split; assumption]|].
    intros []. apply triple_ret. intros w Hw. left. split; [reflexivity | exact Hw].
  - destruct (String.eqb (ir_intent intent) "technical_issue").
    + unfold AIService.handleTechnicalIssue.
      apply triple_get_bind. intros c' Hc'.
      apply triple_ret. intros w Hw. left. split; [reflexivity | exact Hw].
    + unfold AIService.generateAIResponse. cbn [negb].
      destruct reply_call as [text|error].
      * apply triple_ret. intros w Hw. left. split; [reflexivity | exact Hw].
      * apply triple_get_bind. intros c' Hc'.
        eapply triple_bind; [apply triple_alloc|]. intros copy.
        apply triple_ret. intros w [Ho (Hconv & Hne & c2 & Hl2 & <-)].
        right. split; [reflexivity|]. split; [exact Ho|].
        split; [exact Hconv|]. split; [exact Hne|].
        exists (set_needsHuman true c'). split; [exact Hl2 | exact Hc'].
Qed.

Lemma triple_or {A} (P1 P2 : World -> Prop) (m : M A) Q :
  triple P1 m Q -> triple P2 m Q -> triple (fun w => P1 w \/ P2 w) m Q.
Proof. intros H1 H2 w [Hw | Hw]; [exact (H1 w Hw) | exact (H2 w Hw)]. Qed.

(** A turn of the state machine on an escalated context, when the answer
    of the classifier has entities. *)
Lemma triple_turn_needs_human message intent_call reply_call e P0 p :
  ir_entities (detected JSON_parse true intent_call) = Some e ->
  triple (at_ l (core needs_human P0 p) (Conv ph l))
         (AIService.handleIncomingMessage prompts JSON_parse true ph message
            intent_call reply_call)
         (fun r w =>
            Conv ph l w
            /\ exists c,
                heap w !! l = Some c
                /\ core (if negb (escalated (detected JSON_parse true intent_call) message)
                            && String.eqb
                                 (ir_intent (detected JSON_parse true intent_call))
                                 "pricing"
                         then awaiting_payment else needs_human) P0 p c).
Proof.
  intros He. pose proof (framed_Conv ph l) as HF.
  set (intent := detected JSON_parse true intent_call) in *.
  unfold AIService.handleIncomingMessage. cbn [negb].
  eapply triple_bind; [apply triple_getOrCreateContext; auto|].
  intros context. apply triple_pure. intros ->.
  eapply triple_bind; [apply triple_newDate; assumption|]. intros now.
  eapply triple_bind; [inv_modify|]. intros [].
  eapply triple_bind; [apply triple_newDate; assumption|]. intros ts.
  eapply triple_bind; [apply triple_addMessage; assumption|]. intros [].
  eapply triple_bind;
    [apply triple_lift with (a := intent)
       (Q := fun a w => a = intent /\ at_ l (core needs_human P0 p) (Conv ph l) w);
     [apply detectIntent_detected | intros w Hw; split; [reflexivity | exact Hw]]|].
  intros intent'. apply triple_pure. intros ->.
  eapply triple_bind;
    [apply (triple_updateContextFromIntent_blind ph l _ _ e _ He),
       message_blind_core|].
  intros [].
  apply triple_get_bind. intros c [Hcore Hs].
  rewrite (shouldEscalateToHuman_escalated _ _ _ Hs).
  eapply triple_weaken with (P := at_ l (core needs_human P0 p) (Conv ph l));
    [| intros w [[c' [Hl [H1 _]]] Hw]; split; [now exists c' | exact Hw]
     | intros a w Hw; exact Hw].
  destruct (escalated intent message); cbn [negb andb].
  - eapply triple_weaken; [apply triple_escalation | intros w Hw; exact Hw|].
    intros r w [[c' [Hl Hc']] Hw]. split; [exact Hw|]. exists c'. auto.
  - eapply triple_bind; [apply triple_processMessage_needs_human|].
    intros response.
    cbv beta. apply triple_or.
    + apply triple_pure. intros Hctx. rewrite Hctx.
      eapply triple_bind; [apply triple_newDate; assumption|]. intros ts'.
      eapply triple_bind; [apply triple_addMessage; assumption|]. intros [].
      eapply triple_bind; [apply triple_updateContext_same; [assumption | auto]|].
      intros r. apply triple_ret.
      intros w [[c' [Hl [c0 [t [Hc0 ->]]]]] Hw]. split; [exact Hw|].
      eexists. split; [exact Hl | exact Hc0].
    + apply triple_pure. intros Hpricing. rewrite Hpricing.
      pose proof (framed_WithCopy ph l (resp_context response)
                    (core needs_human P0 p)) as HF'.
      eapply triple_bind; [apply triple_newDate; assumption|]. intros ts'.
      eapply triple_bind; [apply triple_addMessage; assumption|]. intros [].
      eapply triple_bind; [apply triple_updateContext_copy|].
      intros r. apply triple_ret.
      intros w [[c' [Hl (c0 & c2 & t & (Hs0 & Hp0 & Hph0) & (Hs2 & Hp2 & Hph2) & ->)]] Hw].
      split; [exact (proj1 Hw)|].
      eexists. split; [exact Hl|].
      split; [exact Hs2|]. split; [|exact Hph2].
      cbn. rewrite Hp2. unfold tracked. cbn [own_properties p_state].
      rewrite Hs0, Hs2, bool_decide_eq_false_2 by auto.
      rewrite Hp0. apply over_opt_same.
Qed.

End NeedsHuman.

(** C1, as stated, fails in both revisions. In the state-machine revision
    an escalated customer who then asks for the price is moved to
    [awaiting_payment], because the pricing intent is handled regardless
    of the state. In the auto-advance revision an escalated customer who
    then writes "I just paid" is moved to [payment_pending] by the payment
    branch of [checkForAdminNotification]. *)
Lemma needs_human_left_on_pricing :
  let asks :=
    AIService.handleIncomingMessage sample_prompts sample_parse true
      "353870000000" "how much is it" (Return (intent_json "pricing")) (Return "ok") in
  let pays :=
    AutoAdvance.handleIncomingMessage sample_parse true sample_language
      "353870000000" "I just paid" (Return (intent_json "payment")) (Return "ok") in
  state <$> stored "353870000000" escalated_world = Some needs_human
  /\ detectIntent sample_parse true (Return (intent_json "pricing"))
     = Return (labelled "pricing")
  /\ state <$> stored "353870000000" (world_after asks escalated_world)
     = Some awaiting_payment
  /\ state <$> stored "353870000000" escalated_world_rev = Some needs_human
  /\ detectIntent sample_parse true (Return (intent_json "payment"))
     = Return (labelled "payment")
  /\ state <$> stored "353870000000" (world_after pays escalated_world_rev)
     = Some payment_pending.
Proof. repeat split; vm_compute; reflexivity. Qed.

(** C1, amended. Once a context is in [needs_human], a further message
    leaves it there except in one case per revision. In the state-machine
    revision the exception is a message that is not escalated and whose
    intent is [pricing], which that revision handles regardless of the
    state and which moves the state to [awaiting_payment]; the handler of
    [technical_issue] and the free-form reply do not move the state. In
    the auto-advance revision the exception is a message that is not
    escalated and confirms a payment, when the request for the reply
    succeeds: the payment branch moves the state to [payment_pending]; the
    auto-advance of the state leaves [needs_human] alone. In both
    revisions a turn on an answer of the classifier that has no entities
    throws and leaves the state alone. The admin activations move the
    state, to [trial_active] and to [active_subscriber]. *)
Theorem needs_human_stays
    (prompts : Prompts) (JSON_parse : string -> Outcome IntentResult)
    (detectLanguage : string -> Language) (LocalTZA : Z)
    (ph message : string) (intent_call reply_call : Outcome string)
    (pl : PlanType) (creds : AutoAdvance.LoginDetails)
    (w : World) (c : CustomerContext) :
  well_formed w ->
  stored ph w = Some c ->
  state c = needs_human ->
  let intent := detected JSON_parse true intent_call in
  let handled := Js.present (ir_entities intent) && negb (escalated intent message) in
  let turn := AIService.handleIncomingMessage prompts JSON_parse true ph message
                intent_call reply_call in
  let turn_rev := AutoAdvance.handleIncomingMessage JSON_parse true detectLanguage
                    ph message intent_call reply_call in
  state <$> stored ph (world_after turn w)
  = Some (if handled && String.eqb (ir_intent intent) "pricing"
          then awaiting_payment else needs_human)
  /\ state <$> stored ph (world_after turn_rev w)
     = Some (if handled && confirms_payment intent message && returned reply_call
             then payment_pending else needs_human)
  /\ (ir_entities intent = None ->
      result_of turn w
      = Throw "TypeError: Cannot read properties of undefined (reading 'device')"
      /\ result_of turn_rev w
         = Throw "TypeError: Cannot read properties of undefined (reading 'device')")
  /\ state <$> stored ph (world_after (AutoAdvance.activateTrial ph creds) w)
     = Some trial_active
  /\ state <$> stored ph
                 (world_after (AutoAdvance.activateSubscription LocalTZA ph pl creds) w)
     = Some active_subscriber.
Proof.
  intros Hwf Hst Hs intent handled turn turn_rev.
  assert (exists l, conversations w !! ph = Some l /\ heap w !! l = Some c)
    as (l & Hc & Hl).
  { unfold stored in Hst. destruct (conversations w !! ph) as [l|]; [|discriminate].
    exists l. auto. }
  assert (at_ l (core needs_human (previousState c) (phone c)) (Conv ph l) w) as Hpre
    by (split; [|exact Hc]; exists c; repeat split; auto).
  destruct (turn_rev_after JSON_parse detectLanguage ph message intent_call
              reply_call w Hwf)
    as (l' & c0 & w0 & c' & Hg & Hl0 & _ & Hsame & _ & Hs' & _ & Hafter).
  fold intent turn_rev in Hs', Hafter.
  rewrite (Hsame c Hst), Hs in Hafter.
  assert (match ir_entities intent with
          | Some _ => True
          | None => result_of turn w = Throw (TypeError_reading "device")
          end
          /\ state <$> stored ph (world_after turn w)
             = Some (if handled && String.eqb (ir_intent intent) "pricing"
                     then awaiting_payment else needs_human)) as [Hthrow Hturn].
  { subst handled. destruct (ir_entities intent) as [e|] eqn:He; cbn [Js.present andb].
    - split; [exact I|].
      destruct (triple_turn_needs_human prompts JSON_parse ph l message intent_call
                  reply_call e (previousState c) (phone c) He w Hpre)
        as (response & w' & E & Hconv & c1 & Hl' & Hs1 & _).
      unfold world_after. subst turn. rewrite E. cbn [snd]. unfold stored.
      rewrite Hconv. cbn. rewrite Hl'. cbn. now rewrite Hs1.
    - destruct (raises_turn_without_entities prompts JSON_parse ph l message
                  intent_call reply_call intent
                  (core needs_human (previousState c) (phone c))
                  (detectIntent_detected _ _ _) He (message_blind_core _ _ _) w Hpre)
        as (error & w' & E & -> & [[c1 [Hl' (Hs1 & _)]] Hconv]).
      unfold result_of, world_after. subst turn. rewrite E. cbn [fst snd].
      split; [reflexivity|]. unfold stored.
      rewrite Hconv. cbn. rewrite Hl'. cbn. now rewrite Hs1. }
  split; [exact Hturn|].
  split; [|split; [|split]].
  - rewrite Hs'. cbn. f_equal. subst handled.
    destruct (ir_entities intent) as [e|]; cbn [Js.present andb];
      [|exact (proj1 (proj2 Hafter))].
    destruct Hafter as [_ Hafter]. unfold after_turn in Hafter.
    destruct (escalated intent message); [exact (proj1 Hafter)|].
    destruct Hafter as (S1 & HS1 & Hafter). cbn [negb].
    assert (S1 = needs_human) as -> by (apply HS1; unfold AutoAdvance.managedExternally;
                                       repeat constructor).
    unfold payment_recorded in Hafter.
    rewrite (bool_decide_eq_false_2 (needs_human = trial_pending)) in Hafter
      by discriminate.
    cbn [andb negb] in Hafter. rewrite andb_true_r in Hafter.
    destruct reply_call; cbn [returned]; destruct Hafter as [-> _];
      rewrite ?andb_true_r, ?andb_false_r; reflexivity.
  - intros He. rewrite He in Hthrow, Hafter. split; [exact Hthrow|].
    exact (proj1 Hafter).
  - unfold world_after.
    rewrite (activateTrial_run _ _ _ _ _ Hc Hl).
    unfold stored. cbn. rewrite Hc. cbn. now rewrite lookup_insert_eq.
  - unfold world_after.
    rewrite (activateSubscription_run _ _ _ _ _ _ _ Hc Hl).
    unfold stored. cbn. rewrite Hc. cbn. now rewrite lookup_insert_eq.
Qed.

Lemma well_formed_one ph l (w : World) :
  conversations w = {[ph := l]} -> is_Some (heap w !! l) -> well_formed w.
Proof.
  intros Hc Hl ph' l' H. rewrite Hc in H.
  apply lookup_singleton_Some in H as [_ <-]. exact Hl.
Qed.

Lemma needs_human_stays_witness :
  state <$> stored "353870000000"
              (world_after
                 (AIService.handleIncomingMessage sample_prompts sample_parse true
                    "353870000000" "thanks"
                    (Return (intent_json "other")) (Return "You are welcome."))
                 escalated_world)
  = Some needs_human.
Proof.
  assert (well_formed escalated_world) as Hwf.
  { apply (well_formed_one "353870000000" 0%nat).
    - vm_compute. reflexivity.
    - vm_compute. eauto. }
  assert (stored "353870000000" escalated_world = Some escalated_context) as Hst
    by (vm_compute; reflexivity).
  assert (state escalated_context = needs_human) as Hs by (vm_compute; reflexivity).
  destruct (needs_human_stays sample_prompts sample_parse sample_language 0
              "353870000000" "thanks"
              (Return (intent_json "other")) (Return "You are welcome.")
              monthly (AutoAdvance.mkLogin "joe" "secret" "http://tv.example")
              escalated_world escalated_context Hwf Hst Hs) as [H _].
  rewrite H. vm_compute. reflexivity.
Defined.

(** * Further properties of the code *)

(** ** The message history *)

Lemma history_of_addMessage ph message w :
  history_of ph (world_after (ConversationService.addMessage ph message) w)
  = (let h := (history_of ph w ++ [message])%list in
     if 50 <? Z.of_nat (length h) then tail h else h).
Proof.
  unfold world_after, ConversationService.addMessage, history_of. cbn.
  now rewrite lookup_insert_eq.
Qed.

(** X1. [addMessage] appends the message as the newest of the history of
    the phone and, once the history holds fifty messages, drops the oldest
    one: no history ever grows beyond fifty messages. Nothing else in the
    store changes. *)
Theorem addMessage_keeps_last_fifty
    (ph : string) (message : ConversationMessage) (w : World) :
  history_bounded w ->
  let w' := world_after (ConversationService.addMessage ph message) w in
  let h := history_of ph w in
  result_of (ConversationService.addMessage ph message) w = Return tt
  /\ history_bounded w'
  /\ history_of ph w'
     = (if decide (length h < 50)%nat then h ++ [message]
        else tail h ++ [message])%list
  /\ last (history_of ph w') = Some message
  /\ (forall ph', ph' <> ph -> messageHistory w' !! ph' = messageHistory w !! ph')
  /\ heap w' = heap w /\ conversations w' = conversations w /\ reads w' = reads w.
Proof.
  intros Hb w' h.
  assert (length h <= 50)%nat as Hh.
  { unfold h, history_of. destruct (messageHistory w !! ph) as [h0|] eqn:E; cbn.
    - exact (Hb _ _ E).
    - lia. }
  assert (history_of ph w'
          = (if decide (length h < 50)%nat then h ++ [message]
             else tail h ++ [message])%list) as Hnew.
  { unfold w'. rewrite history_of_addMessage. fold h. cbv zeta.
    rewrite length_app. cbn [length].
    destruct (decide (length h < 50)%nat) as [Hlt|Hge].
    - destruct (Z.ltb_spec 50 (Z.of_nat (length h + 1))); [lia | reflexivity].
    - destruct (Z.ltb_spec 50 (Z.of_nat (length h + 1))); [|lia].
      destruct h; [cbn in *; lia | reflexivity]. }
  split; [reflexivity|]. split; [|split; [exact Hnew|split; [|split]]].
  - intros ph' h' H'. unfold w', world_after, ConversationService.addMessage in H'.
    cbn in H'. destruct (decide (ph = ph')) as [<-|Hne].
    + assert (history_of ph w' = h') as <-
        by (unfold w', world_after, ConversationService.addMessage, history_of;
            cbn; now rewrite H').
      rewrite Hnew. destruct (decide (length h < 50)%nat).
      * rewrite length_app. cbn. lia.
      * rewrite length_app. cbn. destruct h; cbn in *; lia.
    + rewrite lookup_insert_ne in H' by assumption. exact (Hb _ _ H').
  - rewrite Hnew. destruct (decide (length h < 50)%nat); apply last_snoc.
  - intros ph' Hne. unfold w', world_after, ConversationService.addMessage. cbn.
    now rewrite lookup_insert_ne.
  - repeat split.
Qed.

Lemma history_bounded_fresh_world : history_bounded fresh_world.
Proof. intros ph h H. cbn in H. rewrite lookup_empty in H. discriminate H. Qed.

Lemma addMessage_keeps_last_fifty_witness :
  history_of "353870000000"
    (world_after (ConversationService.addMessage "353870000000"
                    (mkMessage user "hi" 0 None)) fresh_world)
  = [mkMessage user "hi" 0 None].
Proof.
  destruct (addMessage_keeps_last_fifty "353870000000" (mkMessage user "hi" 0 None)
              fresh_world history_bounded_fresh_world)
    as (_ & _ & E & _).
  rewrite E. reflexivity.
Defined.

(** X2. [getHistory] changes nothing and returns the newest messages of
    the phone, oldest first: the last [limit] of them, all of them when
    there are fewer or when the limit is 0 ([slice(-0)]), none for a phone
    without history. Right after [addMessage], and for a limit of at
    least one, the message added is the last one returned. *)
Theorem getHistory_returns_newest (ph : string) (limit : nat) (w : World) :
  exists h,
    ConversationService.getHistory ph limit w = (Return h, w)
    /\ h `suffix_of` history_of ph w
    /\ length h = (if decide (limit = 0)%nat then length (history_of ph w)
                   else Nat.min limit (length (history_of ph w)))
    /\ (messageHistory w !! ph = None -> h = [])
    /\ forall message,
         exists h',
           result_of (ConversationService.getHistory ph (S limit))
                     (world_after (ConversationService.addMessage ph message) w)
           = Return h'
           /\ last h' = Some message.
Proof.
  unfold ConversationService.getHistory. fold (history_of ph w).
  eexists. split; [reflexivity|].
  split; [destruct limit; [reflexivity | apply suffix_drop]|].
  split; [destruct limit; cbn [decide]; [reflexivity|];
          rewrite decide_False by lia; rewrite length_drop; lia|].
  split.
  - intros E. unfold history_of. rewrite E. cbn. now destruct limit.
  - intros message. unfold result_of. cbn [fst].
    fold (history_of ph (world_after (ConversationService.addMessage ph message) w)).
    eexists. split; [reflexivity|].
    set (h := history_of ph (world_after _ w)).
    assert (exists h0, h = (h0 ++ [message])%list) as [h0 E].
    { unfold h. rewrite history_of_addMessage. cbv zeta.
      destruct (history_of ph w) as [|m0 r]; [exists []; reflexivity|].
      destruct (50 <? _); [exists r | exists (m0 :: r)]; reflexivity. }
    rewrite E, length_app. cbn [length].
    replace (length h0 + 1 - S limit)%nat with (length h0 - limit)%nat by lia.
    rewrite drop_app_le by lia. apply last_snoc.
Qed.

Lemma getHistory_returns_newest_witness :
  result_of (ConversationService.getHistory "353870000000" 10) fresh_world = Return [].
Proof.
  destruct (getHistory_returns_newest "353870000000" 10 fresh_world)
    as (h & E & _ & _ & Hnone & _).
  unfold result_of. rewrite E. cbn. f_equal. apply Hnone. reflexivity.
Defined.

(** ** The contexts of the store *)

(** X3. [getOrCreateContext] returns the context of the phone and creates
    it only when the store has none: a new context is in state [new] with
    no follow-up sent, stamped with two readings of the clock. Asking
    again returns the same object and changes nothing, [hasContext] then
    answers true, and neither the contexts of the other phones nor the
    histories are touched. *)
Theorem getOrCreateContext_creates_once (ph : string) (w : World) :
  well_formed w ->
  exists l c w0,
    ConversationService.getOrCreateContext ph w = (Return l, w0)
    /\ stored ph w0 = Some c
    /\ ConversationService.hasContext ph w0 = (Return true, w0)
    /\ ConversationService.getOrCreateContext ph w0 = (Return l, w0)
    /\ match stored ph w with
       | Some c' => c = c' /\ w0 = w
       | None =>
           c = newContext ph (ticks w (reads w)) (ticks w (S (reads w)))
           /\ ConversationService.hasContext ph w = (Return false, w)
           /\ reads w0 = S (S (reads w))
       end
    /\ (forall ph', ph' <> ph -> stored ph' w0 = stored ph' w)
    /\ messageHistory w0 = messageHistory w
    /\ well_formed w0.
Proof.
  intros Hwf. destruct (conversations w !! ph) as [l|] eqn:Hc.
  - destruct (Hwf _ _ Hc) as [c Hl]. exists l, c, w.
    assert (stored ph w = Some c) as Hs by (unfold stored; rewrite Hc; exact Hl).
    rewrite (getOrCreateContext_known _ _ _ Hc), Hs.
    unfold ConversationService.hasContext. rewrite Hc.
    rewrite bool_decide_eq_true_2 by eauto. repeat split; auto.
  - pose proof (getOrCreateContext_new _ _ Hc) as E. cbv zeta in E.
    eexists _, _, _. split; [exact E|].
    assert (stored ph w = None) as Hs by (unfold stored; now rewrite Hc).
    rewrite Hs. unfold ConversationService.hasContext. cbn.
    rewrite Hc, !lookup_insert_eq.
    split; [unfold stored; cbn; rewrite lookup_insert_eq; cbn;
            now rewrite lookup_insert_eq|].
    split; [now rewrite bool_decide_eq_true_2 by eauto|].
    split; [apply getOrCreateContext_known; cbn; apply lookup_insert_eq|].
    split; [split; [reflexivity|]; split;
            [now rewrite bool_decide_eq_false_2 by (intros [? ?]; discriminate)
            | reflexivity]|].
    split; [|split; [reflexivity|]].
    + intros ph' Hne. unfold stored. cbn. rewrite lookup_insert_ne by auto.
      destruct (conversations w !! ph') as [l'|] eqn:Hc'; [cbn | reflexivity].
      rewrite lookup_insert_ne; [reflexivity|].
      intros <-. destruct (Hwf _ _ Hc') as [c' Hl'].
      rewrite fresh_unused in Hl'. discriminate.
    + destruct (getOrCreateContext_spec ph w Hwf)
        as (l' & c' & w0' & E' & _ & _ & Hwf0 & _).
      rewrite E in E'. now injection E' as _ <-.
Qed.

Lemma getOrCreateContext_creates_once_witness :
  exists c,
    stored "353870000000"
      (world_after (ConversationService.getOrCreateContext "353870000000") fresh_world)
    = Some c
    /\ c = newContext "353870000000" 1700000000000 1700000001000.
Proof.
  destruct (getOrCreateContext_creates_once "353870000000" fresh_world
              well_formed_fresh_world)
    as (l & c & w0 & E & Hs & _ & _ & Hnew & _).
  exists c. unfold world_after. rewrite E. split; [exact Hs|].
  change (stored "353870000000" fresh_world) with (@None CustomerContext) in Hnew.
  exact (proj1 Hnew).
Defined.

(** ** The follow-up computation *)

Lemma trialFollowUp_some now c f :
  trialFollowUp now c = Some f ->
  state c = trial_active
  /\ exists start, trialStartedAt c = Some start
                   /\ now - start < 23 * msPerHour /\ followUpsSent c <= 1
                   /\ now < sendAt f
                   /\ (sendAt f = start + 18 * msPerHour
                       \/ sendAt f = start + 23 * msPerHour).
Proof.
  unfold trialFollowUp. destruct (trialStartedAt c) as [start|]; [|discriminate].
  case_bool_decide as Hs; [|discriminate].
  destruct (Z.ltb_spec (now - start) (18 * msPerHour));
    destruct (Z.eqb_spec (followUpsSent c) 0); cbn [andb];
    destruct (Z.ltb_spec (now - start) (23 * msPerHour));
    destruct (Z.leb_spec (followUpsSent c) 1); cbn [andb];
    intros E; first [discriminate E | injection E as E; subst f]; (split; [assumption|]); exists start; cbn [sendAt];
    unfold msPerHour in *; repeat split; auto; lia.
Qed.

Lemma ghosterFollowUp_some now c f :
  ghosterFollowUp now c = Some f ->
  state c = awaiting_mac
  /\ exists lastMsg, lastMessageAt c = Some lastMsg
                     /\ 4 * msPerHour <= now - lastMsg
                     /\ 0 <= followUpsSent c <= 1 /\ sendAt f = now.
Proof.
  unfold ghosterFollowUp. destruct (lastMessageAt c) as [lastMsg|]; [|discriminate].
  case_bool_decide as Hs; [|discriminate].
  destruct (Z.leb_spec (4 * msPerHour) (now - lastMsg));
    destruct (Z.eqb_spec (followUpsSent c) 0); cbn [andb];
    destruct (Z.leb_spec (24 * msPerHour) (now - lastMsg));
    destruct (Z.eqb_spec (followUpsSent c) 1); cbn [andb];
    intros E; first [discriminate E | injection E as E; subst f]; (split; [assumption|]); exists lastMsg; cbn [sendAt];
    unfold msPerHour in *; repeat split; auto; lia.
Qed.

Lemma postTrialFollowUp_some now c f :
  postTrialFollowUp now c = Some f ->
  state c = trial_expired
  /\ exists expiry, trialExpiresAt c = Some expiry
                    /\ 1 * msPerDay <= now - expiry
                    /\ followUpsSent c <= 4 /\ sendAt f = now.
Proof.
  unfold postTrialFollowUp. destruct (trialExpiresAt c) as [expiry|]; [|discriminate].
  case_bool_decide as Hs; [|discriminate].
  destruct (Z.leb_spec (1 * msPerDay) (now - expiry));
    destruct (Z.leb_spec (followUpsSent c) 2); cbn [andb];
    [intros E; first [discriminate E | injection E as E; subst f]; (split; [assumption|]); exists expiry; cbn [sendAt];
     repeat split; auto; lia | | |];
    (destruct (Z.leb_spec (3 * msPerDay) (now - expiry));
     destruct (Z.leb_spec (followUpsSent c) 3); cbn [andb];
     [intros E; first [discriminate E | injection E as E; subst f]; (split; [assumption|]); exists expiry; cbn [sendAt];
      unfold msPerDay in *; repeat split; auto; lia | | |]);
    (destruct (Z.leb_spec (7 * msPerDay) (now - expiry));
     destruct (Z.leb_spec (followUpsSent c) 4); cbn [andb];
     [intros E; first [discriminate E | injection E as E; subst f]; (split; [assumption|]); exists expiry; cbn [sendAt];
      unfold msPerDay in *; repeat split; auto; lia | | |]);
    discriminate.
Qed.

Lemma calculateFollowUpTime_some now c f :
  calculateFollowUpTime now c = Some f ->
  trialFollowUp now c = Some f \/ ghosterFollowUp now c = Some f
  \/ postTrialFollowUp now c = Some f.
Proof.
  unfold calculateFollowUpTime.
  destruct (trialFollowUp now c); [auto|].
  destruct (ghosterFollowUp now c); auto.
Qed.

(** The three groups of rules, by what they require of the context. *)
Lemma calculateFollowUpTime_requires now c f :
  calculateFollowUpTime now c = Some f ->
  (state c = trial_active
   /\ exists start, trialStartedAt c = Some start
                    /\ now - start < 23 * msPerHour /\ followUpsSent c <= 1
                    /\ now < sendAt f
                    /\ (sendAt f = start + 18 * msPerHour
                        \/ sendAt f = start + 23 * msPerHour))
  \/ (state c = awaiting_mac
      /\ exists lastMsg, lastMessageAt c = Some lastMsg
                         /\ 4 * msPerHour <= now - lastMsg
                         /\ 0 <= followUpsSent c <= 1 /\ sendAt f = now)
  \/ (state c = trial_expired
      /\ exists expiry, trialExpiresAt c = Some expiry
                        /\ 1 * msPerDay <= now - expiry
                        /\ followUpsSent c <= 4 /\ sendAt f = now).
Proof.
  intros H. destruct (calculateFollowUpTime_some _ _ _ H) as [E | [E | E]].
  - left. now apply trialFollowUp_some.
  - right. left. now apply ghosterFollowUp_some.
  - right. right. now apply postTrialFollowUp_some.
Qed.

Ltac same_date :=
  match goal with
  | H1 : ?t = Some ?a, H2 : ?t = Some ?b |- _ =>
      let E := fresh in
      assert (b = a) as E by congruence; rewrite E in *; clear E
  end.

Ltac nothing_due :=
  match goal with
  | |- calculateFollowUpTime ?now ?c = None =>
      let E := fresh "E" in
      let f := fresh "f" in
      destruct (calculateFollowUpTime now c) as [f|] eqn:E; [exfalso|reflexivity];
      destruct (calculateFollowUpTime_requires _ _ _ E)
        as [(? & ? & ? & ? & ? & ? & ?)
           | [(? & ? & ? & ? & ? & ?) | (? & ? & ? & ? & ? & ?)]]
  end.

(** X4. [calculateFollowUpTime] has nothing to send: outside the three
    states [trial_active], [awaiting_mac] and [trial_expired]; once five
    follow-ups were sent, whatever the state; once two were sent, during a
    trial and while waiting for the MAC address; from the 23rd hour of a
    trial on; before four hours of silence in [awaiting_mac]; and before
    a day has passed since the trial expired. *)
Theorem calculateFollowUpTime_nothing_due (now : Date) (c : CustomerContext) :
  (state c ∉ [trial_active; awaiting_mac; trial_expired] ->
   calculateFollowUpTime now c = None)
  /\ (5 <= followUpsSent c -> calculateFollowUpTime now c = None)
  /\ (2 <= followUpsSent c -> state c = trial_active \/ state c = awaiting_mac ->
      calculateFollowUpTime now c = None)
  /\ (forall start,
         state c = trial_active -> trialStartedAt c = Some start ->
         23 * msPerHour <= now - start -> calculateFollowUpTime now c = None)
  /\ (forall lastMsg,
         state c = awaiting_mac -> lastMessageAt c = Some lastMsg ->
         now - lastMsg < 4 * msPerHour -> calculateFollowUpTime now c = None)
  /\ (forall expiry,
         state c = trial_expired -> trialExpiresAt c = Some expiry ->
         now - expiry < 1 * msPerDay -> calculateFollowUpTime now c = None).
Proof.
  repeat split.
  - intros Hs. nothing_due; apply Hs;
      match goal with H : state c = _ |- _ => rewrite H end;
      apply list_elem_of_In; cbn; tauto.
  - intros H5. nothing_due; lia.
  - intros H2 [Hs | Hs]; nothing_due; first [lia | congruence].
  - intros start Hs Ht Hlate. nothing_due; try congruence.
    same_date. lia.
  - intros lastMsg Hs Ht Hearly. nothing_due; try congruence.
    same_date. lia.
  - intros expiry Hs Ht Hearly. nothing_due; try congruence.
    same_date. lia.
Qed.

Lemma calculateFollowUpTime_nothing_due_witness :
  calculateFollowUpTime 0 (set_state active_subscriber (trial_started 0)) = None
  /\ calculateFollowUpTime (23 * msPerHour) (trial_started 0) = None.
Proof.
  destruct (calculateFollowUpTime_nothing_due
              0 (set_state active_subscriber (trial_started 0))) as (H1 & _).
  destruct (calculateFollowUpTime_nothing_due (23 * msPerHour) (trial_started 0))
    as (_ & _ & _ & H4 & _).
  split.
  - apply H1. intros H. apply list_elem_of_In in H. cbn in H. intuition discriminate.
  - apply (H4 0); [reflexivity | reflexivity | unfold msPerHour; lia].
Defined.

(** X5. After a trial has expired the follow-ups form a ladder that the
    count of follow-ups sent climbs: up to two sent, [day1_followup] from
    one day after the expiry; exactly three sent, [day3_followup] from
    three days; exactly four sent, [day7_final] from seven days; nothing
    otherwise. Whatever is computed outside a running trial is due at
    once: its time is the reading of the clock itself. *)
Theorem calculateFollowUpTime_after_expiry
    (now expiry : Date) (c : CustomerContext) :
  state c = trial_expired -> trialExpiresAt c = Some expiry ->
  calculateFollowUpTime now c
  = (if (followUpsSent c <=? 2) && (1 * msPerDay <=? now - expiry)
     then Some (mkFollowUp "day1_followup" now)
     else if (followUpsSent c =? 3) && (3 * msPerDay <=? now - expiry)
     then Some (mkFollowUp "day3_followup" now)
     else if (followUpsSent c =? 4) && (7 * msPerDay <=? now - expiry)
     then Some (mkFollowUp "day7_final" now)
     else None)
  /\ forall c' f, state c' <> trial_active ->
                  calculateFollowUpTime now c' = Some f -> sendAt f = now.
Proof.
  intros Hs He. split.
  - assert (trialFollowUp now c = None) as E1
      by (destruct (trialFollowUp now c) eqn:E; [|reflexivity];
          apply trialFollowUp_some in E; destruct E; congruence).
    assert (ghosterFollowUp now c = None) as E2
      by (destruct (ghosterFollowUp now c) eqn:E; [|reflexivity];
          apply ghosterFollowUp_some in E; destruct E; congruence).
    unfold calculateFollowUpTime. rewrite E1, E2. clear E1 E2.
    unfold postTrialFollowUp. rewrite He, bool_decide_eq_true_2 by assumption.
    cbv zeta. unfold msPerDay.
    destruct (Z.leb_spec (followUpsSent c) 2);
      destruct (Z.leb_spec (1 * (1000 * 60 * 60 * 24)) (now - expiry)); cbn [andb];
      try reflexivity;
      destruct (Z.leb_spec (3 * (1000 * 60 * 60 * 24)) (now - expiry));
      destruct (Z.leb_spec (followUpsSent c) 3);
      destruct (Z.eqb_spec (followUpsSent c) 3); cbn [andb];
      try reflexivity; try lia;
      destruct (Z.leb_spec (7 * (1000 * 60 * 60 * 24)) (now - expiry));
      destruct (Z.leb_spec (followUpsSent c) 4);
      destruct (Z.eqb_spec (followUpsSent c) 4); cbn [andb];
      try reflexivity; lia.
  - intros c' f Hs' E.
    destruct (calculateFollowUpTime_requires _ _ _ E)
      as [(? & _) | [(_ & ? & _ & _ & _ & ?) | (_ & ? & _ & _ & _ & ?)]];
      [contradiction | assumption | assumption].
Qed.

Lemma calculateFollowUpTime_after_expiry_witness :
  calculateFollowUpTime (3 * msPerDay)
    (set_trialExpiresAt 0 ghosted_lead)
  = Some (mkFollowUp "day3_followup" (3 * msPerDay)).
Proof.
  destruct (calculateFollowUpTime_after_expiry (3 * msPerDay) 0
              (set_trialExpiresAt 0 ghosted_lead) eq_refl eq_refl) as [E _].
  rewrite E. reflexivity.
Defined.

(** ** The follow-up scan *)

Lemma needsFollowUp_run l c w :
  heap w !! l = Some c ->
  exists w',
    needsFollowUp l w
    = (Return (follow_up_due (ticks w (reads w)) (ticks w (S (reads w))) c), w')
    /\ heap w' = heap w /\ conversations w' = conversations w
    /\ messageHistory w' = messageHistory w /\ ticks w' = ticks w
    /\ (reads w < reads w')%nat.
Proof.
  intros Hl. unfold needsFollowUp, follow_up_due.
  rewrite (bind_run _ _ _ _ _ (newDate_run w)).
  assert (heap (with_reads (S (reads w)) w) !! l = Some c) as Hl' by exact Hl.
  rewrite (bind_run _ _ _ _ _ (get_run _ _ _ Hl')).
  destruct (calculateFollowUpTime (ticks w (reads w)) c) as [f|].
  - rewrite (bind_run _ _ _ _ _ (newDate_run _)).
    eexists. split; [reflexivity|]. cbn. repeat split; lia.
  - eexists. split; [reflexivity|]. cbn. repeat split; lia.
Qed.

(** The loop of the scan, over any list of objects of the heap. *)
Lemma collectFollowUps_run contexts : forall results w,
  (forall l, In l contexts -> is_Some (heap w !! l)) ->
  exists kept w',
    collectFollowUps contexts results w = (Return (results ++ kept)%list, w')
    /\ heap w' = heap w /\ conversations w' = conversations w
    /\ messageHistory w' = messageHistory w /\ ticks w' = ticks w
    /\ (reads w <= reads w')%nat
    /\ (forall l, In l kept ->
          In l contexts
          /\ exists c n, heap w !! l = Some c /\ (reads w <= n)%nat
                         /\ follow_up_due (ticks w n) (ticks w (S n)) c = true)
    /\ (forall t, clock_stands t w ->
          kept = List.filter
                   (fun l => match heap w !! l with
                             | Some c => follow_up_due t t c
                             | None => false
                             end) contexts).
Proof.
  induction contexts as [|l rest IH]; intros results w Hin.
  - exists [], w. cbn. rewrite app_nil_r. repeat split; auto; contradiction.
  - destruct (Hin l (or_introl eq_refl)) as [c Hl].
    destruct (needsFollowUp_run _ _ _ Hl) as (w1 & E1 & Hh1 & Hc1 & Hm1 & Ht1 & Hr1).
    cbn [collectFollowUps]. rewrite (bind_run _ _ _ _ _ E1).
    set (due := follow_up_due (ticks w (reads w)) (ticks w (S (reads w))) c) in *.
    destruct (IH (if due then results ++ [l] else results)%list w1)
      as (kept & w' & E & Hh & Hc & Hm & Ht & Hr & Hsound & Hexact).
    { intros l' Hl'. rewrite Hh1. apply Hin. now right. }
    exists (if due then l :: kept else kept), w'.
    split; [rewrite E; f_equal; f_equal; destruct due;
            [now rewrite <- app_assoc | reflexivity]|].
    split; [congruence|]. split; [congruence|]. split; [congruence|].
    split; [congruence|]. split; [lia|]. split.
    + intros l' Hl'.
      assert (l' = l /\ due = true \/ In l' kept) as [[-> Hdue] | Hk]
        by (destruct due; [destruct Hl'; auto | auto]).
      * split; [now left|]. exists c, (reads w). auto.
      * destruct (Hsound l' Hk) as (Hin' & c' & n & Hl'' & Hn & Hd).
        split; [now right|]. exists c', n. rewrite <- Hh1, <- Ht1.
        repeat split; auto. lia.
    + intros t Hstand. cbn [List.filter]. rewrite Hl.
      assert (due = follow_up_due t t c) as <-
        by (unfold due; now rewrite !Hstand by lia).
      rewrite (Hexact t) by (intros n Hn; rewrite Ht1; apply Hstand; lia).
      rewrite Hh1. now destruct due.
Qed.

(** X6. [getTrialsNeedingFollowUp] changes nothing in the store and
    returns only stored contexts whose follow-up, computed at one reading
    of the clock, is due at the next one. Under a clock that stands still
    it returns exactly the stored contexts whose follow-up is due, and
    never a running trial: the follow-ups of a trial are computed for the
    18th and the 23rd hour only before that hour has come. *)
Theorem getTrialsNeedingFollowUp_due (w : World) :
  well_formed w ->
  exists kept w',
    getTrialsNeedingFollowUp w = (Return kept, w')
    /\ heap w' = heap w /\ conversations w' = conversations w
    /\ messageHistory w' = messageHistory w
    /\ (forall l, l ∈ kept ->
          exists ph c n,
            conversations w !! ph = Some l /\ heap w !! l = Some c
            /\ (reads w <= n)%nat
            /\ follow_up_due (ticks w n) (ticks w (S n)) c = true)
    /\ (forall t, clock_stands t w ->
          (forall l, l ∈ kept <->
                     exists ph c, conversations w !! ph = Some l
                                  /\ heap w !! l = Some c
                                  /\ follow_up_due t t c = true)
          /\ (forall l c, l ∈ kept -> heap w !! l = Some c ->
                          state c <> trial_active)).
Proof.
  intros Hwf. unfold getTrialsNeedingFollowUp.
  assert (forall l, In l (map snd (map_to_list (conversations w)))
                    <-> exists ph, conversations w !! ph = Some l) as Hkeys.
  { intros l. rewrite in_map_iff. split.
    - intros [[ph l'] [<- Hin]]. exists ph.
      now apply elem_of_map_to_list, list_elem_of_In.
    - intros [ph Hph]. exists (ph, l). split; [reflexivity|].
      now apply list_elem_of_In, elem_of_map_to_list. }
  destruct (collectFollowUps_run (map snd (map_to_list (conversations w))) [] w)
    as (kept & w' & E & Hh & Hc & Hm & Ht & Hr & Hsound & Hexact).
  { intros l Hl. apply Hkeys in Hl as [ph Hph]. exact (Hwf _ _ Hph). }
  exists kept, w'. split; [exact E|]. split; [exact Hh|]. split; [exact Hc|].
  split; [exact Hm|].
  assert (forall t, clock_stands t w ->
            forall l, l ∈ kept <->
                      exists ph c, conversations w !! ph = Some l
                                   /\ heap w !! l = Some c
                                   /\ follow_up_due t t c = true) as Hiff.
  { intros t Hstand l. rewrite (Hexact t Hstand), list_elem_of_In, filter_In, Hkeys.
    split.
    - intros [[ph Hph] Hdue]. destruct (heap w !! l) as [c|]; [|discriminate].
      exists ph, c. auto.
    - intros (ph & c & Hph & -> & Hdue). eauto. }
  split.
  - intros l Hl. apply list_elem_of_In in Hl.
    destruct (Hsound l Hl) as (Hin & c & n & Hl' & Hn & Hdue).
    apply Hkeys in Hin as [ph Hph]. exists ph, c, n. auto.
  - intros t Hstand. split; [exact (Hiff t Hstand)|].
    intros l c Hl Hc' Hs. apply (Hiff t Hstand) in Hl as (ph & c' & _ & Hc'' & Hdue).
    assert (c' = c) as -> by congruence.
    unfold follow_up_due in Hdue.
    destruct (calculateFollowUpTime t c) as [f|] eqn:Ef; [|discriminate].
    apply Z.leb_le in Hdue.
    destruct (calculateFollowUpTime_requires _ _ _ Ef)
      as [(_ & start & _ & _ & _ & Hlate & _) | [(Hs' & _) | (Hs' & _)]];
      [lia | congruence | congruence].
Qed.

Lemma well_formed_frozen_trial_world : well_formed frozen_trial_world.
Proof.
  intros ph l H.
  change (conversations frozen_trial_world)
    with ({[ "353870000000" := 0%nat ]} : gmap string loc) in H.
  apply lookup_singleton_Some in H as [_ <-].
  change (heap frozen_trial_world)
    with ({[ 0%nat := trial_started 0 ]} : gmap loc CustomerContext).
  rewrite lookup_singleton_eq. eauto.
Qed.

Lemma getTrialsNeedingFollowUp_due_witness :
  result_of getTrialsNeedingFollowUp frozen_trial_world = Return [].
Proof.
  destruct (getTrialsNeedingFollowUp_due frozen_trial_world
              well_formed_frozen_trial_world)
    as (kept & w' & E & _ & _ & _ & _ & Hstand).
  unfold result_of. rewrite E. cbn [fst]. f_equal.
  destruct (Hstand (2 * msPerHour)) as [Hiff Hnot]; [intros n _; reflexivity|].
  destruct kept as [|l rest]; [reflexivity|]. exfalso.
  assert (l ∈ l :: rest) as Hl by apply list_elem_of_here.
  pose proof (proj1 (Hiff l) Hl) as (ph & c & Hph & Hc & _).
  apply (Hnot l c Hl Hc).
  change (conversations frozen_trial_world)
    with ({[ "353870000000" := 0%nat ]} : gmap string loc) in Hph.
  apply lookup_singleton_Some in Hph as [_ <-].
  change (heap frozen_trial_world)
    with ({[ 0%nat := trial_started 0 ]} : gmap loc CustomerContext) in Hc.
  rewrite lookup_singleton_eq in Hc. now injection Hc as <-.
Defined.

(** ** Keywords and patterns in the raw text *)

Lemma map_chars_append f (a b : string) :
  Js.map_chars f (a ++ b) = Js.map_chars f a ++ Js.map_chars f b.
Proof.
  induction a as [|x a IH]; unfold_append; cbn; [reflexivity | now rewrite IH].
Qed.

Lemma lower_upper_char a : Js.lower_char (Js.upper_char a) = Js.lower_char a.
Proof. destruct a as [[] [] [] [] [] [] [] []]; reflexivity. Qed.

Lemma upper_upper_char a : Js.upper_char (Js.upper_char a) = Js.upper_char a.
Proof. destruct a as [[] [] [] [] [] [] [] []]; reflexivity. Qed.

Lemma hex_upper_char a : Regex.hex (Js.upper_char a) = Regex.hex a.
Proof. destruct a as [[] [] [] [] [] [] [] []]; reflexivity. Qed.

Lemma sep_upper_char a : Regex.sep (Js.upper_char a) = Regex.sep a.
Proof. destruct a as [[] [] [] [] [] [] [] []]; reflexivity. Qed.

Lemma toLowerCase_toUpperCase s :
  Js.toLowerCase (Js.toUpperCase s) = Js.toLowerCase s.
Proof.
  unfold Js.toLowerCase, Js.toUpperCase.
  induction s as [|a s IH]; cbn; [reflexivity | now rewrite lower_upper_char, IH].
Qed.

Lemma toUpperCase_idempotent s :
  Js.toUpperCase (Js.toUpperCase s) = Js.toUpperCase s.
Proof.
  unfold Js.toUpperCase.
  induction s as [|a s IH]; cbn; [reflexivity | now rewrite upper_upper_char, IH].
Qed.

(** A keyword found in a text is found in every text around it. *)
Lemma includes_any_within text keywords pre post :
  Js.includes_any (Js.toLowerCase text) keywords = true ->
  Js.includes_any (Js.toLowerCase (pre ++ text ++ post)) keywords = true.
Proof.
  unfold Js.includes_any. rewrite !existsb_exists.
  intros [kw [Hin Hkw]]. exists kw. split; [assumption|].
  apply includes_carries. unfold Js.toLowerCase. rewrite !map_chars_append.
  apply carries_within. now apply includes_carries.
Qed.

Lemma includes_within text keyword pre post :
  Js.includes (Js.toLowerCase text) keyword = true ->
  Js.includes (Js.toLowerCase (pre ++ text ++ post)) keyword = true.
Proof.
  rewrite !includes_carries. unfold Js.toLowerCase. rewrite !map_chars_append.
  apply carries_within.
Qed.

(** The classes of the MAC patterns do not tell the cases apart. *)
Lemma Matches_toUpperCase pat m :
  Forall (fun cls : Regex.charclass => forall a, cls (Js.upper_char a) = cls a) pat ->
  Regex.Matches pat m -> Regex.Matches pat (Js.toUpperCase m).
Proof.
  intros Hpat H. induction H as [|cls pat a m Ha Hm IH]; [constructor|].
  apply Forall_cons in Hpat as [Hcls Hpat].
  unfold Js.toUpperCase. cbn. constructor; [now rewrite Hcls | now apply IH].
Qed.

Lemma macPatterns_caseless :
  Forall (fun cls : Regex.charclass => forall a, cls (Js.upper_char a) = cls a)
         mac_separated
  /\ Forall (fun cls : Regex.charclass => forall a, cls (Js.upper_char a) = cls a)
            mac_bare.
Proof.
  split; repeat constructor; first [apply hex_upper_char | apply sep_upper_char].
Qed.

Lemma search_whole pat m : Regex.Matches pat m -> Regex.search pat m = Some m.
Proof.
  intros H. pose proof (match_here_complete pat m "" H) as E.
  rewrite append_nil_r in E. destruct m; cbn; now rewrite E.
Qed.

Lemma search_too_short pat s :
  (String.length s < length pat)%nat -> Regex.search pat s = None.
Proof.
  intros Hlen. apply search_no_match. intros pre m [post ->] HM.
  apply Matches_length in HM. rewrite !length_append in Hlen. lia.
Qed.

(** X7. What [extractMacAddress] returns is in normal form: it is in upper
    case, it has the 17 characters of the separated form or the 12 of the
    bare one, and extracting from it again gives it back. A message
    shorter than twelve characters holds no MAC address. *)
Theorem extractMacAddress_normal_form (message : string) :
  (forall r, extractMacAddress message = Some r ->
             extractMacAddress r = Some r
             /\ Js.toUpperCase r = r
             /\ (String.length r = 17 \/ String.length r = 12)%nat)
  /\ ((String.length message < 12)%nat -> extractMacAddress message = None).
Proof.
  destruct macPatterns_caseless as [Hsep Hbare].
  unfold extractMacAddress, macPatterns. cbn [first_pattern_match]. split.
  - intros r.
    destruct (Regex.search mac_separated message) as [m|] eqn:E1.
    + intros [= <-]. apply search_sound in E1 as (_ & _ & HM & _).
      pose proof (Matches_toUpperCase _ _ Hsep HM) as HU.
      rewrite (search_whole _ _ HU), toUpperCase_idempotent.
      repeat split. left. exact (Matches_length _ _ HU).
    + destruct (Regex.search mac_bare message) as [m|] eqn:E2; [|discriminate].
      intros [= <-]. apply search_sound in E2 as (_ & _ & HM & _).
      pose proof (Matches_toUpperCase _ _ Hbare HM) as HU.
      pose proof (Matches_length _ _ HU) as Hlen.
      rewrite search_too_short by (rewrite Hlen; cbn; lia).
      rewrite (search_whole _ _ HU), toUpperCase_idempotent.
      repeat split. right. exact Hlen.
  - intros Hlen.
    rewrite (search_too_short mac_separated) by (cbn; lia).
    now rewrite (search_too_short mac_bare) by (cbn; lia).
Qed.

Lemma extractMacAddress_normal_form_witness :
  extractMacAddress "my mac is aa-bb-cc-dd-ee-ff ok" = Some "AA-BB-CC-DD-EE-FF"
  /\ extractMacAddress "AA-BB-CC-DD-EE-FF" = Some "AA-BB-CC-DD-EE-FF"
  /\ extractMacAddress "a1b2c3" = None.
Proof.
  split; [reflexivity|]. split.
  - apply (extractMacAddress_normal_form "my mac is aa-bb-cc-dd-ee-ff ok").
    reflexivity.
  - apply (extractMacAddress_normal_form "a1b2c3"). cbn. lia.
Defined.

(** X8. The keyword tests look for their keywords anywhere in the message
    and in any letter case. A message that holds an escalation keyword is
    escalated whatever the context and the intent, also when it is
    written in capitals or sits inside a longer message; likewise a
    payment keyword makes a payment confirmation, a message that mentions
    "fire" or "amazon" names the Fire Stick whatever other device it
    mentions, and one that mentions "english", "uk", "irish" or "ireland"
    asks for the English content whatever else it mentions. *)
Theorem keywords_found_anywhere (text pre post : string) :
  (Js.includes_any (Js.toLowerCase text) escalationKeywords = true ->
   forall c intent,
     shouldEscalateToHuman c (pre ++ text ++ post) intent = true
     /\ shouldEscalateToHuman c (pre ++ Js.toUpperCase text ++ post) intent = true)
  /\ (isPaymentConfirmation text = true ->
      isPaymentConfirmation (pre ++ text ++ post) = true
      /\ isPaymentConfirmation (pre ++ Js.toUpperCase text ++ post) = true)
  /\ (Js.includes_any (Js.toLowerCase text) ["fire"; "amazon"] = true ->
      extractDeviceType (pre ++ text ++ post) = Some firestick
      /\ extractDeviceType (pre ++ Js.toUpperCase text ++ post) = Some firestick)
  /\ (Js.includes_any (Js.toLowerCase text) ["english"; "uk"; "irish"; "ireland"]
      = true ->
      extractContentPreference (pre ++ text ++ post) = Some english
      /\ extractContentPreference (pre ++ Js.toUpperCase text ++ post) = Some english).
Proof.
  assert (forall keywords,
             Js.includes_any (Js.toLowerCase text) keywords = true ->
             Js.includes_any (Js.toLowerCase (pre ++ text ++ post)) keywords = true
             /\ Js.includes_any
                  (Js.toLowerCase (pre ++ Js.toUpperCase text ++ post)) keywords
                = true) as Hany.
  { intros keywords H. split; [now apply includes_any_within|].
    apply includes_any_within. now rewrite toLowerCase_toUpperCase. }
  split; [|split; [|split]].
  - intros H c intent. destruct (Hany _ H) as [H1 H2].
    unfold shouldEscalateToHuman. rewrite H1, H2.
    destruct (bool_decide (intent = Some "human_request")),
      (bool_decide (sentiment c = Some "frustrated")); auto.
  - unfold isPaymentConfirmation. apply Hany.
  - intros H. destruct (Hany _ H) as [H1 H2]. unfold extractDeviceType.
    cbn [Js.includes_any existsb] in H1, H2. rewrite orb_false_r in H1, H2.
    apply orb_true_iff in H1, H2.
    split.
    + destruct H1 as [-> | E]; [reflexivity|]. rewrite E, !orb_true_r. reflexivity.
    + destruct H2 as [-> | E]; [reflexivity|]. rewrite E, !orb_true_r. reflexivity.
  - intros H. destruct (Hany _ H) as [H1 H2]. unfold extractContentPreference.
    cbn [Js.includes_any existsb] in H1, H2. rewrite orb_false_r in H1, H2.
    split; [rewrite <- !orb_assoc, H1 | rewrite <- !orb_assoc, H2]; reflexivity.
Qed.

Lemma keywords_found_anywhere_witness :
  shouldEscalateToHuman ghosted_lead "I WANT A REFUND NOW" (Some "other") = true
  /\ isPaymentConfirmation "ok, JUST PAID it" = true.
Proof.
  destruct (keywords_found_anywhere "refund" "I WANT A " " NOW") as (H1 & _).
  destruct (keywords_found_anywhere "just paid" "ok, " " it") as (_ & H2 & _).
  split.
  - exact (proj2 (H1 eq_refl ghosted_lead (Some "other"))).
  - exact (proj2 (H2 eq_refl)).
Defined.

(** ** The auto-advance of the state *)

(** The state that the collected fields amount to. *)
Lemma updateStateFromContext_run l c w :
  heap w !! l = Some c ->
  let identified := Js.truthy (macAddress c) || Js.truthy (deviceKey c) in
  let S :=
    if bool_decide (state c ∈ AutoAdvance.managedExternally) then state c
    else if Js.truthy (device c) && identified && Js.truthy (contentPreference c)
    then trial_pending
    else if Js.truthy (device c) && identified then awaiting_content_pref
    else if Js.truthy (device c) then awaiting_mac
    else if bool_decide (state c = new) then awaiting_device
    else state c in
  AutoAdvance.updateStateFromContext l w
  = (Return tt, with_heap (<[l := set_state S c]> (heap w)) w).
Proof.
  intros Hl identified S. subst identified S.
  unfold AutoAdvance.updateStateFromContext.
  rewrite (bind_run _ _ _ _ _ (get_run _ _ _ Hl)).
  repeat match goal with
    | |- context [if ?b then _ else _] =>
        lazymatch b with
        | context [if _ then _ else _] => fail
        | _ => destruct b
        end
    end;
    first [ apply (modify_run _ _ _ _ Hl)
          | unfold ret; now rewrite set_state_same, (with_heap_same _ _ _ Hl) ].
Qed.

(** X9. [updateStateFromContext] never throws on a stored context, changes
    nothing but the state, and is idempotent: run again it changes
    nothing. It leaves the six states that are managed elsewhere alone. In
    any other state a context with a device is put in [trial_pending] when
    it has a MAC address or a device key and a content preference, in
    [awaiting_content_pref] when it has a MAC address or a device key only,
    and in [awaiting_mac] otherwise; without a device only [new] moves, to
    [awaiting_device]. *)
Theorem updateStateFromContext_settles (l : loc) (c : CustomerContext) (w : World) :
  heap w !! l = Some c ->
  exists S w1,
    AutoAdvance.updateStateFromContext l w = (Return tt, w1)
    /\ w1 = with_heap (<[l := set_state S c]> (heap w)) w
    /\ AutoAdvance.updateStateFromContext l w1 = (Return tt, w1)
    /\ (state c ∈ AutoAdvance.managedExternally -> S = state c)
    /\ (state c ∉ AutoAdvance.managedExternally ->
        let identified := Js.truthy (macAddress c) || Js.truthy (deviceKey c) in
        if Js.truthy (device c)
        then S = (if identified
                  then if Js.truthy (contentPreference c)
                       then trial_pending else awaiting_content_pref
                  else awaiting_mac)
        else S = (if bool_decide (state c = new) then awaiting_device else state c)).
Proof.
  intros Hl. pose proof (updateStateFromContext_run l c w Hl) as E. cbv zeta in E.
  eexists _, _. split; [exact E|]. split; [reflexivity|].
  set (S := if bool_decide (state c ∈ AutoAdvance.managedExternally) then _ else _) in *.
  split.
  - assert (heap (with_heap (<[l := set_state S c]> (heap w)) w) !! l
            = Some (set_state S c)) as Hl1 by (cbn; apply lookup_insert_eq).
    rewrite (updateStateFromContext_run _ _ _ Hl1). cbv zeta.
    rewrite with_heap_again. do 2 f_equal. f_equal.
    cbn [state device macAddress deviceKey contentPreference set_state].
    subst S. destruct c as [? ? ? st ? dev mac key pref ? ? ? ? ? ? ? ? ? ? ? ? ? ? ? ? ? ?].
    cbn [state device macAddress deviceKey contentPreference set_state].
    destruct st, (Js.truthy dev), (Js.truthy mac), (Js.truthy key), (Js.truthy pref);
      reflexivity.
  - subst S. split.
    + intros Hm. now rewrite bool_decide_eq_true_2.
    + intros Hm. rewrite bool_decide_eq_false_2 by assumption. cbv zeta.
      destruct (Js.truthy (device c)); cbn [andb];
        destruct (Js.truthy (macAddress c) || Js.truthy (deviceKey c));
        cbn [andb]; reflexivity.
Qed.

Lemma updateStateFromContext_settles_witness :
  state <$> (heap (world_after (AutoAdvance.updateStateFromContext 0%nat)
                               frozen_trial_world) !! 0%nat)
  = Some trial_active.
Proof.
  destruct (updateStateFromContext_settles 0%nat (trial_started 0) frozen_trial_world)
    as (S & w1 & E & -> & _ & Hm & _); [reflexivity|].
  unfold world_after. rewrite E. cbn [snd with_heap heap].
  rewrite lookup_insert_eq. cbn. f_equal. apply Hm.
  apply list_elem_of_In. cbn. tauto.
Defined.

(** ** What a message adds to a context *)

Lemma keeps_collected_refl c : keeps_collected c c.
Proof. unfold keeps_collected, untouched. repeat split; auto. Qed.

Lemma keeps_collected_trans c0 c1 c2 :
  keeps_collected c0 c1 -> keeps_collected c1 c2 -> keeps_collected c0 c2.
Proof.
  unfold keeps_collected, untouched.
  intros (Hd & Hm & Hk & Hp & Hpl & Hpm & Ha & Hu)
         (Hd' & Hm' & Hk' & Hp' & Hpl' & Hpm' & Ha' & Hu').
  split; [intros H; rewrite <- (Hd H); apply Hd'; now rewrite (Hd H)|].
  split; [intros H; rewrite <- (Hm H); apply Hm'; now rewrite (Hm H)|].
  split; [intros H; rewrite <- (Hk H); apply Hk'; now rewrite (Hk H)|].
  split; [intros H; rewrite <- (Hp H); apply Hp'; now rewrite (Hp H)|].
  split; [intros H; rewrite <- (Hpl H); apply Hpl'; now rewrite (Hpl H)|].
  split; [intros H; rewrite <- (Hpm H); apply Hpm'; now rewrite (Hpm H)|].
  split; [auto | now rewrite Hu'].
Qed.

Lemma framed_elsewhere_as l w : framed l (elsewhere_as l w).
Proof.
  intros w1 w2 [Hc Hh] Hc' Hh'. split; [congruence|].
  intros l' Hne. now rewrite Hh', Hh.
Qed.

Ltac guard_facts :=
  repeat match goal with
    | G : (_ && _) = true |- _ => apply andb_true_iff in G as [? ?]
    | G : negb _ = true |- _ => apply negb_true_iff in G
    end.

(** An assignment that the guards in the context allow keeps what was
    collected. *)
Ltac keeps_step :=
  guard_facts; unfold keeps_collected, untouched; cbn;
  repeat split; try reflexivity; intros;
  try assumption;
  exfalso;
  match goal with
  | G : Js.present ?o = false, H : ?o = Some _ |- _ => rewrite H in G; discriminate G
  | G : Js.truthy ?o = false, H : Js.truthy ?o = true |- _ => congruence
  end.

Ltac collect_leaf :=
  lazymatch goal with
  | Hc0 : keeps_collected ?c ?c0, Hs : sentiment ?c0 = _
    |- triple (at_ _ (eq ?c0) _) (ret tt) _ =>
      apply triple_ret; intros ? [[? [? <-]] ?];
      split; [eexists; split; [eassumption | split; [exact Hc0 | exact Hs]]
             | assumption]
  | Hc0 : keeps_collected ?c ?c0, Hs : sentiment ?c0 = _
    |- triple (at_ _ (eq ?c0) _) (modify _ _) _ =>
      apply triple_modify;
      [first [assumption | apply framed_elsewhere_as]
      | intros ? <-; split;
        [eapply keeps_collected_trans; [exact Hc0 | keeps_step] | exact Hs]]
  end.

Ltac collect_stmt :=
  lazymatch goal with
  | |- triple _ (if ?g then _ else _) _ =>
      let G := fresh "G" in destruct g eqn:G; collect_stmt
  | |- triple _ (match ?x with Some _ => _ | None => _ end) _ =>
      let E := fresh "E" in destruct x eqn:E; collect_stmt
  | |- _ => collect_leaf
  end.

Ltac collect_bind :=
  lazymatch goal with
  | Hc0 : keeps_collected ?c ?c0, Hs : sentiment ?c0 = ?s
    |- triple (at_ ?l (eq ?c0) ?F) (bind _ _) _ =>
      eapply triple_bind with
        (Q := fun _ => at_ l (fun c' => keeps_collected c c' /\ sentiment c' = s) F)
  | Hc0 : keeps_collected ?c ?c0, Hs : sentiment ?c0 = ?s
    |- raises (at_ ?l (eq ?c0) ?F) (bind _ _) _ =>
      eapply raises_then with
        (Q := fun _ => at_ l (fun c' => keeps_collected c c' /\ sentiment c' = s) F)
  end.

Lemma raises_exact {A} l Pc F (m : M A) Q :
  (forall c0, Pc c0 -> raises (at_ l (eq c0) F) m Q) ->
  raises (at_ l Pc F) m Q.
Proof.
  intros H w [[c [Hl Hc]] Hw]. apply (H c Hc). split; [now exists c | assumption].
Qed.

Lemma raises_get_exact {B} l c0 F (k : CustomerContext -> M B) R :
  raises (at_ l (eq c0) F) (k c0) R ->
  raises (at_ l (eq c0) F) (bind (get l) k) R.
Proof. intros H. apply raises_get_bind. now intros c <-. Qed.

(** Statement by statement: on an answer that has entities to the end, on
    one that has none to the read that throws. *)
Ltac collect_seq :=
  lazymatch goal with
  | |- triple _ (bind (entities_of _ _) _) _ =>
      eapply triple_bind;
      [apply triple_entities_of; eassumption
      | intros ?; apply triple_pure; intros ->; collect_seq]
  | |- raises _ (bind (entities_of _ _) _) _ =>
      apply raises_first; apply raises_entities_of; assumption
  | |- triple _ (bind (get _) _) _ =>
      let c0 := fresh "c0" in
      let Hc0 := fresh "Hc0" in
      let Hs := fresh "Hs" in
      cbv beta; apply triple_exact; intros c0 Hc0; cbv beta in Hc0;
      destruct Hc0 as [Hc0 Hs]; apply triple_get_exact;
      lazymatch goal with
      | |- triple _ (bind _ _) _ =>
          collect_bind; [collect_stmt | intros []; collect_seq]
      | |- _ => collect_stmt
      end
  | |- raises _ (bind (get _) _) _ =>
      let c0 := fresh "c0" in
      let Hc0 := fresh "Hc0" in
      let Hs := fresh "Hs" in
      cbv beta; apply raises_exact; intros c0 Hc0; cbv beta in Hc0;
      destruct Hc0 as [Hc0 Hs]; apply raises_get_exact;
      collect_bind; [collect_stmt | intros []; collect_seq]
  | |- triple _ (bind _ _) _ =>
      let c0 := fresh "c0" in
      let Hc0 := fresh "Hc0" in
      let Hs := fresh "Hs" in
      cbv beta; apply triple_exact; intros c0 Hc0; cbv beta in Hc0;
      destruct Hc0 as [Hc0 Hs];
      collect_bind; [collect_stmt | intros []; collect_seq]
  | |- raises _ (bind _ _) _ =>
      let c0 := fresh "c0" in
      let Hc0 := fresh "Hc0" in
      let Hs := fresh "Hs" in
      cbv beta; apply raises_exact; intros c0 Hc0; cbv beta in Hc0;
      destruct Hc0 as [Hc0 Hs];
      collect_bind; [collect_stmt | intros []; collect_seq]
  end.

(** The extraction, as a triple: from the context [c] to one that keeps
    what [c] had collected and holds the sentiment of the intent. *)
Lemma triple_updateContextFromIntent_collects l intent message e c F :
  framed l F -> ir_entities intent = Some e ->
  triple (at_ l (eq c) F)
    (AutoAdvance.updateContextFromIntent l intent message)
    (fun _ => at_ l (fun c' => keeps_collected c c'
                               /\ sentiment c' = ir_sentiment intent) F).
Proof.
  intros HF He. unfold AutoAdvance.updateContextFromIntent.
  eapply triple_bind;
    [apply triple_modify with
       (Pc' := fun c' => keeps_collected c c'
                         /\ sentiment c' = ir_sentiment intent);
     [assumption
     | intros ? <-; split; [|reflexivity];
       unfold keeps_collected, untouched; cbn; repeat split; auto]|].
  intros []. collect_seq.
Qed.

(** The same on an answer without entities, up to the read that throws. *)
Lemma raises_updateContextFromIntent_collects l intent message c F :
  framed l F -> ir_entities intent = None ->
  raises (at_ l (eq c) F)
    (AutoAdvance.updateContextFromIntent l intent message)
    (fun error w =>
       error = TypeError_reading "device"
       /\ at_ l (fun c' => keeps_collected c c'
                           /\ sentiment c' = ir_sentiment intent) F w).
Proof.
  intros HF He. unfold AutoAdvance.updateContextFromIntent.
  eapply raises_then;
    [apply triple_modify with
       (Pc' := fun c' => keeps_collected c c'
                         /\ sentiment c' = ir_sentiment intent);
     [assumption
     | intros ? <-; split; [|reflexivity];
       unfold keeps_collected, untouched; cbn; repeat split; auto]|].
  intros []. collect_seq.
Qed.

(** X10. In the auto-advance revision [updateContextFromIntent], run on a
    stored context, returns when the answer of the classifier has
    entities and throws a [TypeError] when it has none, at the first read
    of an entity. Either way it has by then stored the sentiment of the
    answer, and it only fills in what is missing: a device, a MAC
    address, a device key, a content preference, a plan or a payment
    method that the context already holds is kept whatever the message
    and the classifier say, the adult flag is never taken back, and the
    state, the dates, the credentials, the counters and the flags are not
    assigned. The other objects of the store are left alone. *)
Theorem updateContextFromIntent_fills_gaps
    (l : loc) (intent : IntentResult) (message : string)
    (c : CustomerContext) (w : World) :
  heap w !! l = Some c ->
  exists w' c',
    AutoAdvance.updateContextFromIntent l intent message w
    = (match ir_entities intent with
       | Some _ => Return tt
       | None => Throw "TypeError: Cannot read properties of undefined (reading 'device')"
       end, w')
    /\ heap w' !! l = Some c'
    /\ sentiment c' = ir_sentiment intent
    /\ keeps_collected c c'
    /\ elsewhere_as l w w'.
Proof.
  intros Hl.
  assert (at_ l (eq c) (elsewhere_as l w) w) as Hpre
    by (split; [now exists c | split; [reflexivity | auto]]).
  destruct (ir_entities intent) as [e|] eqn:He.
  - destruct (triple_updateContextFromIntent_collects l intent message e c
                (elsewhere_as l w) (framed_elsewhere_as l w) He w Hpre)
      as ([] & w' & E & [c' [Hl' [Hk Hs]]] & Hw).
    exists w', c'. auto.
  - destruct (raises_updateContextFromIntent_collects l intent message c
                (elsewhere_as l w) (framed_elsewhere_as l w) He w Hpre)
      as (error & w' & E & -> & [c' [Hl' [Hk Hs]]] & Hw).
    exists w', c'. auto.
Qed.

Lemma updateContextFromIntent_fills_gaps_witness :
  exists c',
    heap (world_after
            (AutoAdvance.updateContextFromIntent 0%nat (labelled "other")
               "my box, mac 00:1A:2B:3C:4D:5E")
            frozen_trial_world) !! 0%nat = Some c'
    /\ sentiment c' = Some "neutral"
    /\ state c' = trial_active /\ trialStartedAt c' = Some 0.
Proof.
  destruct (updateContextFromIntent_fills_gaps 0%nat (labelled "other")
              "my box, mac 00:1A:2B:3C:4D:5E" (trial_started 0) frozen_trial_world)
    as (w' & c' & E & Hl & Hs & (_ & _ & _ & _ & _ & _ & _ & Hu) & _);
    [reflexivity|].
  exists c'. unfold world_after. rewrite E. split; [exact Hl|].
  split; [exact Hs|].
  unfold untouched in Hu. now injection Hu as _ _ _ -> _ _ -> _.
Defined.

(** ** What a turn leaves in the history and in the response *)

Lemma quiet_ret {A} (a : A) : quiet (ret a).
Proof. intros w r w' [= _ <-]. reflexivity. Qed.

Lemma quiet_throw {A} e : quiet (@throw A e).
Proof. intros w r w' [= _ <-]. reflexivity. Qed.

Lemma quiet_lift {A} (c : Outcome A) : quiet (lift c).
Proof. intros w r w' [= _ <-]. reflexivity. Qed.

Lemma quiet_newDate : quiet newDate.
Proof. intros w r w' [= _ <-]. reflexivity. Qed.

Lemma quiet_get l : quiet (get l).
Proof. intros w r w'. unfold get. destruct (heap w !! l); now intros [= _ <-]. Qed.

Lemma quiet_modify l f : quiet (modify l f).
Proof. intros w r w'. unfold modify. destruct (heap w !! l); now intros [= _ <-]. Qed.

Lemma quiet_alloc c : quiet (alloc c).
Proof. intros w r w' [= _ <-]. reflexivity. Qed.

Lemma quiet_bind {A B} (m : M A) (k : A -> M B) :
  quiet m -> (forall a, quiet (k a)) -> quiet (bind m k).
Proof.
  intros Hm Hk w r w'. unfold bind. destruct (m w) as [[a|e] w1] eqn:E.
  - intros H. rewrite (Hk a _ _ _ H). exact (Hm _ _ _ E).
  - intros [= _ <-]. exact (Hm _ _ _ E).
Qed.

Ltac quiet_tac :=
  repeat first
    [ apply quiet_ret | apply quiet_throw | apply quiet_lift | apply quiet_newDate
    | apply quiet_get | apply quiet_modify | apply quiet_alloc
    | assumption
    | apply quiet_bind; [|intros ?]
    | match goal with
      | |- quiet (if ?b then _ else _) => destruct b
      | |- quiet (match ?x with _ => _ end) => destruct x
      end ].

Lemma quiet_getOrCreateContext ph : quiet (ConversationService.getOrCreateContext ph).
Proof.
  intros w r w'. unfold ConversationService.getOrCreateContext.
  destruct (conversations w !! ph); [now intros [= _ <-]|].
  intros H. revert w r w' H.
  change (quiet (created <- newDate ;; updated <- newDate ;;
                 context <- alloc (newContext ph created updated) ;;
                 (fun w' => (Return context,
                             with_conversations (<[ph := context]> (conversations w'))
                               w')))).
  quiet_tac. intros w r w' [= _ <-]. reflexivity.
Qed.

Lemma quiet_updateContext ph updates :
  quiet (ConversationService.updateContext ph updates).
Proof.
  unfold ConversationService.updateContext, ConversationService.properties.
  pose proof (quiet_getOrCreateContext ph).
  quiet_tac; intros w r w' [= _ <-]; reflexivity.
Qed.

Lemma quiet_entities_of intent property : quiet (entities_of intent property).
Proof.
  intros w r w'. unfold entities_of.
  destruct (ir_entities intent); now intros [= _ <-].
Qed.

Lemma quiet_updateContextFromIntent l intent message :
  quiet (AutoAdvance.updateContextFromIntent l intent message).
Proof.
  unfold AutoAdvance.updateContextFromIntent.
  pose proof (quiet_entities_of intent "device"). quiet_tac.
Qed.

Lemma quiet_processMessage l message intent call :
  quiet (AutoAdvance.processMessage true l message intent call).
Proof.
  unfold AutoAdvance.processMessage, AutoAdvance.updateStateFromContext,
    AutoAdvance.generateAIResponse, AutoAdvance.checkForAdminNotification.
  cbn [negb]. quiet_tac.
Qed.

(** A sequence that returns: its first part returned. *)
Lemma bind_Return_inv {A B} (m : M A) (k : A -> M B) w b w' :
  bind m k w = (Return b, w') ->
  exists a w1, m w = (Return a, w1) /\ k a w1 = (Return b, w').
Proof.
  unfold bind. destruct (m w) as [[a|e] w1]; [eauto | discriminate].
Qed.

Lemma get_Return_inv l w c w' :
  get l w = (Return c, w') -> heap w !! l = Some c /\ w' = w.
Proof. unfold get. destruct (heap w !! l); [now intros [= -> <-] | discriminate]. Qed.

Lemma modify_Return_inv l f w w' :
  modify l f w = (Return tt, w') -> is_Some (heap w !! l).
Proof. unfold modify. destruct (heap w !! l); [eauto | discriminate]. Qed.

(** One step of a run that returned, when the step is quiet: the rest of
    the run, and the histories as they were. *)
Ltac quiet_step H a w1 Hm :=
  let E := fresh "E" in
  apply bind_Return_inv in H as (a & w1 & E & H);
  match type of E with
  | ?m ?w = _ =>
      assert (messageHistory w1 = messageHistory w) as Hm
        by (refine ((_ : quiet m) _ _ _ E);
            first [apply quiet_getOrCreateContext | apply quiet_updateContext
                  | apply quiet_updateContextFromIntent | apply quiet_processMessage
                  | quiet_tac])
  end.

(** When [updateContextFromIntent] returned, the answer had entities and
    the context holds its sentiment. *)
Lemma updateContextFromIntent_sentiment l intent message w w' :
  AutoAdvance.updateContextFromIntent l intent message w = (Return tt, w') ->
  is_Some (ir_entities intent)
  /\ exists c', heap w' !! l = Some c' /\ sentiment c' = ir_sentiment intent.
Proof.
  intros E. pose proof E as E0. unfold AutoAdvance.updateContextFromIntent in E0.
  apply bind_Return_inv in E0 as ([] & w1 & Em & _).
  apply modify_Return_inv in Em as [c Hc].
  assert (at_ l (eq c) (fun _ => True) w) as Hpre
    by (split; [now exists c | exact I]).
  destruct (ir_entities intent) as [e|] eqn:He.
  - destruct (triple_updateContextFromIntent_collects l intent message e c
                (fun _ => True) (fun _ _ _ _ _ => I) He w Hpre)
      as ([] & w'' & E' & [c' [Hl' [_ Hs]]] & _).
    rewrite E in E'. injection E' as <-. eauto.
  - destruct (raises_updateContextFromIntent_collects l intent message c
                (fun _ => True) (fun _ _ _ _ _ => I) He w Hpre)
      as (error & w'' & E' & _).
    rewrite E in E'. discriminate E'.
Qed.

(** The response of [processMessage], by the outcome of the request for
    the reply. *)
Lemma processMessage_response l message intent reply_call w r w' :
  AutoAdvance.processMessage true l message intent reply_call w = (Return r, w') ->
  resp_intent r = None
  /\ match reply_call with
     | Return text => resp_message r = text
     | Throw _ =>
         resp_message r = AutoAdvance.ai_error_reply
         /\ shouldNotifyAdmin r = true /\ is_Some (adminNotification r)
     end.
Proof.
  unfold AutoAdvance.processMessage. intros H.
  apply bind_Return_inv in H as (c & w1 & _ & H).
  apply bind_Return_inv in H as ([] & w2 & _ & H).
  apply bind_Return_inv in H as (r0 & w3 & Eg & H).
  apply bind_Return_inv in H as (n & w4 & _ & H).
  assert (resp_intent r0 = None
          /\ match reply_call with
             | Return text => resp_message r0 = text
             | Throw _ =>
                 resp_message r0 = AutoAdvance.ai_error_reply
                 /\ shouldNotifyAdmin r0 = true /\ is_Some (adminNotification r0)
             end) as Hr0.
  { unfold AutoAdvance.generateAIResponse in Eg. cbn [negb] in Eg.
    destruct reply_call as [text|e].
    - injection Eg as <- _. split; reflexivity.
    - apply bind_Return_inv in Eg as (c' & w5 & _ & Eg).
      apply bind_Return_inv in Eg as (copy & w6 & _ & Eg).
      injection Eg as <- _. cbn. repeat split; eauto. }
  destruct n as [n|]; injection H as <- _; [|exact Hr0].
  destruct Hr0 as [H1 H2]. split; [exact H1|].
  destruct reply_call; cbn; [exact H2|]. destruct H2 as (? & _ & _). eauto.
Qed.

Lemma history_of_insert ph h w m :
  messageHistory w = <[ph := h]> m -> history_of ph w = h.
Proof. intros E. unfold history_of. now rewrite E, lookup_insert_eq. Qed.

(** A turn of the auto-advance revision that returned: what it wrote to
    the histories and what it answers. *)
Lemma turn_rev_inv JSON_parse detectLanguage ph message intent_call reply_call
    w response w' :
  AutoAdvance.handleIncomingMessage JSON_parse true detectLanguage ph message
    intent_call reply_call w = (Return response, w') ->
  let intent := detected JSON_parse true intent_call in
  exists l ts1,
    (forall ph', ph' <> ph -> messageHistory w' !! ph' = messageHistory w !! ph')
    /\ if escalated intent message then
         history_of ph w' = pushed (history_of ph w) (mkMessage user message ts1 None)
         /\ response
            = {| resp_message := AutoAdvance.escalation_reply; resp_context := l;
                 shouldNotifyAdmin := true;
                 adminNotification :=
                   Some (mkNotification escalation
                           (AutoAdvance.escalation_message ph intent message));
                 resp_intent := Some intent |}
       else
         exists ts2,
           history_of ph w'
           = pushed (pushed (history_of ph w) (mkMessage user message ts1 None))
                    (mkMessage assistant (resp_message response) ts2 None)
           /\ resp_intent response = None
           /\ match reply_call with
              | Return text => resp_message response = text
              | Throw _ =>
                  resp_message response = AutoAdvance.ai_error_reply
                  /\ shouldNotifyAdmin response = true
                  /\ is_Some (adminNotification response)
              end.
Proof.
  intros H intent. unfold AutoAdvance.handleIncomingMessage in H. cbn [negb] in H.
  quiet_step H l w1 Hm1. quiet_step H now w2 Hm2. quiet_step H u3 w3 Hm3.
  quiet_step H c4 w4 Hm4. quiet_step H u5 w5 Hm5. quiet_step H ts1 w6 Hm6.
  exists l, ts1.
  unfold bind at 1, ConversationService.addMessage at 1 in H.
  fold (history_of ph w6) in H.
  fold (pushed (history_of ph w6) (mkMessage user message ts1 None)) in H.
  assert (history_of ph w6 = history_of ph w) as Hh6
    by (unfold history_of; congruence).
  rewrite Hh6 in H.
  set (said := pushed (history_of ph w) (mkMessage user message ts1 None)) in *.
  set (w7 := with_messageHistory (<[ph := said]> (messageHistory w6)) w6) in H.
  assert (messageHistory w7 = <[ph := said]> (messageHistory w)) as Hm7
    by (unfold w7; cbn; congruence).
  clearbody w7. clear E E0 E1 E2 E3 E4.
  rewrite detectIntent_detected in H. fold intent in H.
  rewrite (bind_run (lift (Return intent)) _ w7 intent w7 eq_refl) in H.
  quiet_step H u8 w8 Hm8. destruct u8.
  destruct (updateContextFromIntent_sentiment _ _ _ _ _ E) as (_ & c' & Hl8 & Hs).
  rewrite (bind_run _ _ _ _ _ (get_run _ _ _ Hl8)) in H.
  rewrite (shouldEscalateToHuman_escalated _ _ _ Hs) in H.
  destruct (escalated intent message).
  - quiet_step H u9 w9 Hm9. quiet_step H u10 w10 Hm10. quiet_step H r11 w11 Hm11.
    injection H as <- <-.
    assert (messageHistory w11 = <[ph := said]> (messageHistory w)) as Hfin
      by congruence.
    split; [intros ph' Hne; now rewrite Hfin, lookup_insert_ne|].
    split; [exact (history_of_insert _ _ _ _ Hfin) | reflexivity].
  - quiet_step H r9 w9 Hm9. destruct (processMessage_response _ _ _ _ _ _ _ E0) as [Hi Hr].
    quiet_step H ts2 w10 Hm10.
    unfold bind at 1, ConversationService.addMessage at 1 in H.
    fold (history_of ph w10) in H.
    fold (pushed (history_of ph w10) (mkMessage assistant (resp_message r9) ts2 None))
      in H.
    assert (history_of ph w10 = said) as Hh10
      by (apply (history_of_insert _ _ _ (messageHistory w)); congruence).
    rewrite Hh10 in H.
    set (w11 := with_messageHistory _ w10) in H.
    assert (messageHistory w11
            = <[ph := pushed said (mkMessage assistant (resp_message r9) ts2 None)]>
                (messageHistory w)) as Hm11
      by (unfold w11; cbn; rewrite Hm10, Hm9, Hm8, Hm7; apply insert_insert_eq).
    clearbody w11.
    quiet_step H r12 w12 Hm12. injection H as <- <-.
    assert (messageHistory w12
            = <[ph := pushed said (mkMessage assistant (resp_message r9) ts2 None)]>
                (messageHistory w)) as Hfin by congruence.
    split; [intros ph' Hne; now rewrite Hfin, lookup_insert_ne|].
    exists ts2. split; [exact (history_of_insert _ _ _ _ Hfin)|]. auto.
Qed.


(** X11. Without an API key, [handleIncomingMessage] throws at once, in
    both revisions, and leaves the store as it was: no context, no history
    entry. With a key, the auto-advance revision throws a [TypeError] when
    the answer of the classifier has no entities, and returns a response
    otherwise: an escalated message is answered by the hand-over text with
    an escalation notification and the intent; any other message is
    answered by the reply of the hosted model, and when the request for
    that reply fails, by the apology, with the admin notified. *)
Theorem handleIncomingMessage_answers
    (prompts : Prompts) (JSON_parse : string -> Outcome IntentResult)
    (detectLanguage : string -> Language)
    (ph message : string) (intent_call reply_call : Outcome string) (w : World) :
  AutoAdvance.handleIncomingMessage JSON_parse false detectLanguage ph message
    intent_call reply_call w = (Throw "AI service not configured", w)
  /\ AIService.handleIncomingMessage prompts JSON_parse false ph message
       intent_call reply_call w = (Throw "AI service not configured", w)
  /\ (well_formed w ->
      let intent := detected JSON_parse true intent_call in
      let turn := AutoAdvance.handleIncomingMessage JSON_parse true detectLanguage
                    ph message intent_call reply_call in
      match ir_entities intent with
      | None =>
          result_of turn w
          = Throw "TypeError: Cannot read properties of undefined (reading 'device')"
      | Some _ =>
          exists response w',
            turn w = (Return response, w')
            /\ if escalated intent message then
                 resp_message response = AutoAdvance.escalation_reply
                 /\ shouldNotifyAdmin response = true
                 /\ adminNotification response
                    = Some (mkNotification escalation
                              (AutoAdvance.escalation_message ph intent message))
                 /\ resp_intent response = Some intent
               else
                 resp_intent response = None
                 /\ match reply_call with
                    | Return text => resp_message response = text
                    | Throw _ =>
                        resp_message response = AutoAdvance.ai_error_reply
                        /\ shouldNotifyAdmin response = true
                        /\ is_Some (adminNotification response)
                    end
      end).
Proof.
  split; [reflexivity|]. split; [reflexivity|].
  intros Hwf intent turn.
  destruct (turn_rev_after JSON_parse detectLanguage ph message intent_call
              reply_call w Hwf)
    as (l & c0 & w0 & c & _ & _ & _ & _ & _ & _ & _ & H).
  fold intent turn in H.
  destruct (ir_entities intent) as [e|]; [|exact (proj1 H)].
  destruct H as [[response E] _]. unfold result_of in E.
  destruct (turn w) as [r w'] eqn:E'. cbn [fst] in E. subst r.
  exists response, w'. split; [reflexivity|].
  destruct (turn_rev_inv _ _ _ _ _ _ _ _ _ E') as (l' & ts1 & _ & H).
  fold intent in H. destruct (escalated intent message).
  - destruct H as [_ ->]. repeat split.
  - destruct H as (ts2 & _ & Hi & Hr). auto.
Qed.

Lemma handleIncomingMessage_answers_witness :
  exists response,
    result_of (AutoAdvance.handleIncomingMessage sample_parse true sample_language
                 "353870000000" "hello" (Return (intent_json "other"))
                 (Throw "overloaded")) fresh_world
    = Return response
    /\ shouldNotifyAdmin response = true.
Proof.
  destruct (handleIncomingMessage_answers sample_prompts sample_parse
              sample_language "353870000000" "hello"
              (Return (intent_json "other")) (Throw "overloaded") fresh_world)
    as (_ & _ & H).
  specialize (H well_formed_fresh_world). cbv zeta in H.
  assert (detected sample_parse true (Return (intent_json "other"))
          = labelled "other") as Hi by (vm_compute; reflexivity).
  rewrite Hi in H. cbn [ir_entities labelled] in H.
  destruct H as (response & w' & E & Hr).
  exists response. unfold result_of. rewrite E. split; [reflexivity|].
  assert (escalated (labelled "other") "hello" = false) as Hesc
    by (vm_compute; reflexivity).
  rewrite Hesc in Hr. exact (proj1 (proj2 (proj2 Hr))).
Defined.



(** ** The activation of a trial *)

(** X13. [activateTrial] never throws on a well-formed store: the context
    of the phone, created if need be, is then in [trial_active], its trial
    starts at one reading of the clock and expires twenty-four hours after
    the next one, and it holds the credentials with the stream URL derived
    from them. The reply is the TiviMate text for a TiviMate device and
    the app text otherwise, and notifies nobody. The count of follow-ups
    is not reset: with none sent, the follow-up computed during the first
    eighteen hours is [trial_18h] at the 18th hour; with two or more sent
    before the activation, the trial gets no follow-up at all. *)
Theorem activateTrial_starts_trial
    (ph : string) (creds : AutoAdvance.LoginDetails) (w : World) :
  well_formed w ->
  exists l c0 w0 response w' c,
    ConversationService.getOrCreateContext ph w = (Return l, w0)
    /\ heap w0 !! l = Some c0
    /\ AutoAdvance.activateTrial ph creds w = (Return response, w')
    /\ stored ph w' = Some c
    /\ state c = trial_active
    /\ trialStartedAt c = Some (ticks w (reads w0))
    /\ trialExpiresAt c = Some (ticks w (S (reads w0)) + 24 * msPerHour)
    /\ credentials c = Some (AutoAdvance.with_m3uUrl creds)
    /\ followUpsSent c = followUpsSent c0
    /\ previousState c = previousState c0
    /\ resp_message response
       = (if bool_decide (device c0 = Some "tivimate")
          then AutoAdvance.tivimate_activation creds else AutoAdvance.app_activation)
    /\ shouldNotifyAdmin response = false
    /\ (forall now,
           followUpsSent c0 = 0 -> now - ticks w (reads w0) < 18 * msPerHour ->
           calculateFollowUpTime now c
           = Some (mkFollowUp "trial_18h" (ticks w (reads w0) + 18 * msPerHour)))
    /\ (forall now, 2 <= followUpsSent c0 -> calculateFollowUpTime now c = None).
Proof.
  intros Hwf.
  destruct (getOrCreateContext_spec ph w Hwf)
    as (l & c0 & w0 & Hg & Hc & Hl & Hwf0 & Ht & Hr & _ & _).
  exists l, c0, w0.
  assert (AutoAdvance.activateTrial ph creds w = AutoAdvance.activateTrial ph creds w0)
    as E by (unfold AutoAdvance.activateTrial;
             apply (bind_getOrCreateContext _ _ _ _ _ Hg)).
  rewrite E, (activateTrial_run _ _ _ _ _ Hc Hl), Ht.
  eexists _, _, _. split; [assumption|]. split; [assumption|].
  split; [reflexivity|].
  split; [unfold stored; cbn; rewrite Hc; cbn; now rewrite lookup_insert_eq|].
  unfold trial_context, msPerHour. cbn.
  do 8 (split; [reflexivity|]). split.
  - intros now H0 Hearly.
    unfold calculateFollowUpTime, trialFollowUp, msPerHour. cbn.
    rewrite H0.
    destruct (Z.ltb_spec (now - ticks w (reads w0)) (18 * (1000 * 60 * 60)));
      [reflexivity | lia].
  - intros now H2.
    match goal with
    | |- calculateFollowUpTime now ?c = None =>
        destruct (calculateFollowUpTime now c) as [f|] eqn:Ef; [exfalso|reflexivity];
        destruct (calculateFollowUpTime_requires _ _ _ Ef)
          as [(_ & start & _ & _ & Hsent & _) | [(Hs & _) | (Hs & _)]];
        cbn in *; first [lia | discriminate]
    end.
Qed.

Lemma activateTrial_starts_trial_witness :
  exists c,
    stored "353870000000"
      (world_after (AutoAdvance.activateTrial "353870000000"
                      (AutoAdvance.mkLogin "joe" "secret" "http://tv.example"))
                   fresh_world)
    = Some c
    /\ state c = trial_active
    /\ followUpsSent c = 0.
Proof.
  destruct (activateTrial_starts_trial "353870000000"
              (AutoAdvance.mkLogin "joe" "secret" "http://tv.example")
              fresh_world well_formed_fresh_world)
    as (l & c0 & w0 & response & w' & c & Hg & Hl & E & Hs & Hst & _ & _ & _ & Hf & _).
  exists c. unfold world_after. rewrite E. split; [exact Hs|]. split; [exact Hst|].
  rewrite Hf.
  assert (stored "353870000000" w0 = Some c0) as Hs0.
  { destruct (getOrCreateContext_spec "353870000000" fresh_world
                well_formed_fresh_world)
      as (l' & c0' & w0' & Hg' & Hc' & Hl' & _).
    rewrite Hg in Hg'. injection Hg' as <- <-.
    unfold stored. rewrite Hc'. cbn. congruence. }
  apply (f_equal (fun p => stored "353870000000" (snd p))) in Hg.
  cbn [snd] in Hg. rewrite Hs0 in Hg.
  assert (stored "353870000000"
            (snd (ConversationService.getOrCreateContext "353870000000" fresh_world))
          = Some (newContext "353870000000" 1700000000000 1700000001000)) as Hn
    by (vm_compute; reflexivity).
  rewrite Hn in Hg. now injection Hg as <-.
Defined.

(** ** The request for the reply *)

Section RequestProperties.

Import AutoAdvance.

#[local] Arguments String.concat : simpl never.

Lemma runs_snoc pre m :
  exists rs cs, runs (pre ++ [m])%list
                = (rs ++ [(chat_role m, cs ++ [chat_content m])])%list.
Proof.
  induction pre as [|a pre (rs & cs & IH)].
  - exists [], []. reflexivity.
  - cbn [app runs]. rewrite IH. destruct rs as [|[r1 cs1] rs]; cbn [app].
    + case_bool_decide as Ha.
      * exists [], (chat_content a :: cs). reflexivity.
      * exists [(chat_role a, [chat_content a])], cs. reflexivity.
    + case_bool_decide as Ha.
      * exists ((r1, chat_content a :: cs1) :: rs), cs. reflexivity.
      * exists ((chat_role a, [chat_content a]) :: (r1, cs1) :: rs), cs. reflexivity.
Qed.

Lemma concat_snoc sep (cs : list string) x :
  exists before, String.concat sep (cs ++ [x]) = before ++ x.
Proof.
  induction cs as [|c cs [before IH]].
  - exists "". reflexivity.
  - destruct cs as [|c' cs].
    + exists (c ++ sep). cbn. now rewrite append_assoc.
    + cbn [app] in *. exists (c ++ sep ++ before).
      change (String.concat sep (c :: c' :: (cs ++ [x])%list))
        with (c ++ sep ++ String.concat sep (c' :: (cs ++ [x])%list)).
      now rewrite IH, !append_assoc.
Qed.

Lemma ensureAlternatingRoles_merged msgs :
  ensureAlternatingRoles msgs
  = match map merged_run (runs msgs) with
    | first :: rest =>
        if bool_decide (chat_role first = Assistant) then rest else first :: rest
    | [] => []
    end.
Proof.
  unfold ensureAlternatingRoles. destruct msgs as [|m rest]; [reflexivity|].
  rewrite fold_merge_runs.
  destruct (map merged_run (runs (m :: rest))) as [|first others]; [reflexivity|].
  destruct (chat_role first); reflexivity.
Qed.

(** A list that ends with a user turn, made to alternate. *)
Lemma ensureAlternatingRoles_ends_with_user pre u :
  chat_role u = User ->
  let result := ensureAlternatingRoles (pre ++ [u])%list in
  (exists first rest, result = first :: rest /\ chat_role first = User)
  /\ alternating result
  /\ exists init before,
       result = (init ++ [mkChat User (before ++ chat_content u)])%list.
Proof.
  intros Hu result. subst result. rewrite ensureAlternatingRoles_merged.
  pose proof (merged_alternating (pre ++ [u])%list) as Halt.
  destruct (runs_snoc pre u) as (rs & cs & E). rewrite Hu in E.
  destruct (concat_snoc Js.nl cs (chat_content u)) as [before Eb].
  set (lastm := mkChat User (before ++ chat_content u)).
  assert (map merged_run (runs (pre ++ [u])%list)
          = (map merged_run rs ++ [lastm])%list) as Hm.
  { rewrite E, map_app. cbn [map]. do 2 f_equal.
    unfold merged_run, lastm. cbn [fst snd]. now rewrite Eb. }
  rewrite Hm in *. clear Hm E.
  destruct (map merged_run rs) as [|first others]; cbn [app] in *.
  - rewrite bool_decide_eq_false_2 by discriminate.
    split; [exists lastm, []; auto|]. split; [exact Halt|].
    exists [], before. reflexivity.
  - case_bool_decide as Hf.
    + split; [|split; [eapply alternating_tail; exact Halt
                      | exists others, before; reflexivity]].
      destruct others as [|second others]; cbn [app] in *.
      * exists lastm, []. auto.
      * exists second, (others ++ [lastm])%list. split; [reflexivity|].
        specialize (Halt 0%nat first second eq_refl eq_refl).
        destruct (chat_role second); congruence.
    + split; [|split; [exact Halt | exists (first :: others), before; reflexivity]].
      eexists _, _. split; [reflexivity|].
      destruct (chat_role first); congruence.
Qed.

Variable sanitizeString : string -> string.

(** X14. The request that [generateAIResponse] sends to the hosted model
    is never empty, begins with a user turn, alternates between user and
    assistant turns, and ends with a user turn whose content ends with
    the customer's message, whatever the provider returned and whatever
    the history holds. When the provider is not configured, fails or
    returns no text message, the request is built from the history kept
    in memory, system messages left out; with no history at all it is the
    customer's message alone. [getRecentMessages] never throws. *)
Theorem requestMessages_well_formed
    (watiConfigured : bool) (watiCall : Outcome WatiReply)
    (history : list ConversationMessage) (message : string) :
  let request := requestMessages sanitizeString watiConfigured watiCall history message in
  (exists first rest, request = first :: rest /\ chat_role first = User)
  /\ alternating request
  /\ (exists init before,
         request = (init ++ [mkChat User (before ++ sanitizeString message)])%list)
  /\ (getRecentMessages watiConfigured watiCall = [] ->
      request
      = requestMessages sanitizeString false watiCall history message
      /\ (omap (chatMessage_of sanitizeString) history = [] ->
          request = [mkChat User (sanitizeString message)]))
  /\ (watiConfigured = false \/ watiCall = Return NotOk
      \/ (exists e, watiCall = Throw e) ->
      getRecentMessages watiConfigured watiCall = []).
Proof.
  intros request.
  assert (exists pre, request
                      = ensureAlternatingRoles
                          (pre ++ [mkChat User (sanitizeString message)])%list)
    as [pre Hreq].
  { unfold request, requestMessages. cbv zeta.
    match goal with
    | |- context [last ?msgs] => generalize msgs
    end.
    intros msgs. destruct (last msgs) as [lastMsg|] eqn:El; [|now exists msgs].
    destruct (bool_decide_reflect (chat_role lastMsg <> User)) as [Hr|Hr];
      cbn [orb]; [now exists msgs|].
    destruct (String.eqb_spec (chat_content lastMsg) (sanitizeString message))
      as [Hc|Hc]; cbn [negb]; [|now exists msgs].
    destruct msgs as [|m0 msgs0 _] using rev_ind; [discriminate|].
    rewrite last_snoc in El. injection El as ->.
    exists msgs0. do 2 f_equal. destruct lastMsg as [r c]. cbn in *.
    destruct r; [now subst | exfalso; apply Hr; discriminate]. }
  destruct (ensureAlternatingRoles_ends_with_user pre
              (mkChat User (sanitizeString message)) eq_refl)
    as (Hfirst & Halt & Hlast).
  rewrite <- Hreq in Hfirst, Halt, Hlast.
  split; [exact Hfirst|]. split; [exact Halt|]. split; [exact Hlast|]. split.
  - intros Hnone. unfold request, requestMessages. rewrite Hnone. cbn [length].
    split; [now destruct watiConfigured|].
    intros Hh. destruct watiConfigured; cbn; rewrite Hh; reflexivity.
  - intros [-> | [-> | [e ->]]]; unfold getRecentMessages;
      [reflexivity | now destruct watiConfigured | now destruct watiConfigured].
Qed.

End RequestProperties.

Lemma requestMessages_well_formed_witness :
  requestMessages (fun s => s) true (Throw "timeout") [] "hello"
  = [AutoAdvance.mkChat AutoAdvance.User "hello"].
Proof.
  destruct (requestMessages_well_formed (fun s => s) true (Throw "timeout") [] "hello")
    as (_ & _ & _ & H & _).
  apply H; reflexivity.
Defined.

(** ** The notifications to the admin *)

Lemma carries_trans a b c : carries a b -> carries b c -> carries a c.
Proof.
  intros [pre [post ->]] [pre' [post' ->]].
  exists (pre ++ pre'), (post' ++ post). now rewrite !append_assoc.
Qed.

Lemma carries_concat sep (lines : list string) x :
  In x lines -> carries (String.concat sep lines) x.
Proof.
  induction lines as [|y lines IH]; [contradiction|].
  intros [-> | Hin].
  - destruct lines as [|z lines]; [apply carries_end | apply carries_here].
  - destruct lines as [|z lines]; [contradiction|].
    change (String.concat sep (y :: z :: lines))
      with (y ++ sep ++ String.concat sep (z :: lines)).
    apply carries_skip, carries_skip, IH, Hin.
Qed.

Lemma carries_tail label value : carries (label ++ value) value.
Proof. exists label, "". now rewrite append_nil_r. Qed.

(** X15. [sendAdminNotification] never throws, and what it answers is
    whether the service is configured, an admin phone and a configured
    channel provider: when the request to the provider fails or is
    refused, [sendMessage] swallows the failure and the notification
    still counts as sent. The text sent always names the phone of the
    customer, 'N/A' when there is none. For a payment, a technical issue
    and an escalation it carries the message that the engine wrote; for a
    trial request it is written from the context alone and the message of
    the engine is not used. *)
Theorem sendAdminNotification_reports
    (adminPhone : string) (watiConfigured : bool) (cleanNumber : string -> string)
    (notification : AdminNotification) (context : option CustomerContext)
    (call : Outcome NotificationService.SendReply) :
  let text := NotificationService.adminMessage notification context in
  NotificationService.sendAdminNotification adminPhone watiConfigured cleanNumber
    notification context call
  = negb (String.eqb adminPhone "") && watiConfigured
  /\ (call = Return NotificationService.SendNotOk \/ (exists e, call = Throw e) ->
      NotificationService.sendMessage watiConfigured cleanNumber adminPhone text call
      = None)
  /\ carries text (NotificationService.phone_or_NA context)
  /\ (notif_type notification <> trial_request ->
      carries text (notif_message notification))
  /\ (notif_type notification = trial_request ->
      forall message,
        NotificationService.adminMessage (mkNotification trial_request message) context
        = text).
Proof.
  intros text. split; [|split; [|split; [|split]]].
  - unfold NotificationService.sendAdminNotification, NotificationService.isConfigured.
    cbn [Js.truthy].
    now destruct (negb (String.eqb adminPhone "") && watiConfigured).
  - unfold NotificationService.sendMessage.
    intros [-> | [e ->]]; now destruct watiConfigured.
  - unfold text, NotificationService.adminMessage.
    destruct (notif_type notification);
      (eapply carries_trans; [|apply carries_tail]);
      apply carries_concat; cbn; auto.
  - intros Ht. unfold text, NotificationService.adminMessage.
    destruct (notif_type notification) eqn:E; [contradiction | | |].
    + apply carries_concat.
      unfold NotificationService.formatPaymentReceived.
      rewrite !in_app_iff. do 2 right. cbn. auto.
    + apply carries_concat. cbn. auto 10.
    + eapply carries_trans; [|apply carries_tail]. apply carries_concat.
      rewrite !in_app_iff. do 2 right. cbn. auto.
  - intros Ht message. unfold text, NotificationService.adminMessage.
    rewrite Ht. reflexivity.
Qed.

Lemma sendAdminNotification_reports_witness :
  NotificationService.sendAdminNotification "353861111111" true (fun s => s)
    (mkNotification escalation "Requested human") (Some ghosted_lead)
    (Throw "ECONNRESET")
  = true
  /\ carries
       (NotificationService.adminMessage
          (mkNotification escalation "Requested human") (Some ghosted_lead))
       "Requested human".
Proof.
  destruct (sendAdminNotification_reports "353861111111" true (fun s => s)
              (mkNotification escalation "Requested human") (Some ghosted_lead)
              (Throw "ECONNRESET"))
    as (E & _ & _ & Hm & _).
  split; [exact E | apply Hm; discriminate].
Defined.

(** ** The text of a follow-up *)

Lemma string_drop_append (a b : string) : string_drop (String.length a) (a ++ b) = b.
Proof. induction a as [|x a IH]; unfold_append; [reflexivity | exact IH]. Qed.

Lemma startsWith_refl_append (a b : string) : Js.startsWith a (a ++ b) = true.
Proof. apply startsWith_prefix. now exists b. Qed.

(** The first occurrence: nothing of the text before it starts one. *)
Lemma replace_first_here x pattern replacement : forall pre post,
  Js.includes pre (String x "") = false ->
  replace_first (String x pattern) replacement (pre ++ String x pattern ++ post)
  = pre ++ replacement ++ post.
Proof.
  induction pre as [|a pre IH]; intros post Hno.
  - rewrite append_nil_l.
    destruct (String x pattern ++ post) as [|b s] eqn:E; [discriminate E|].
    cbn [replace_first]. rewrite <- E.
    now rewrite startsWith_refl_append, string_drop_append.
  - cbn [Js.includes] in Hno. apply orb_false_iff in Hno as [Ha Hno].
    cbn [Js.startsWith] in Ha. rewrite andb_true_r in Ha.
    change (replace_first (String x pattern) replacement
              (String a (pre ++ String x pattern ++ post))
            = String a (pre ++ replacement ++ post)).
    cbn [replace_first Js.startsWith]. rewrite Ha. cbn [andb].
    now rewrite (IH post Hno).
Qed.

Lemma replace_first_absent pattern replacement : forall s,
  Js.includes s pattern = false -> replace_first pattern replacement s = s.
Proof.
  induction s as [|a s IH]; cbn [Js.includes replace_first]; intros H;
    apply orb_false_iff in H as [-> H]; [reflexivity|].
  now rewrite (IH H).
Qed.

(** X16. [getFollowUpMessage] answers the template of the type: as it is
    when the context has no plan or the template has no [{plan}]
    placeholder, and, for each of the five plans of the union, with the
    first placeholder replaced by the display name of the plan. A type
    without template gives the empty text, except for the names that
    every object inherits: for these the lookup finds a value that is no
    text, which is returned as if it were the message, or makes the call
    throw when the context has a plan. Every type that
    [calculateFollowUpTime] computes is one of seven names. *)
Theorem getFollowUpMessage_fills_plan
    (prompts : Prompts) (inherited : string -> bool)
    (type : string) (context : CustomerContext) :
  (forall template,
      FOLLOW_UP_TEMPLATES prompts type = Some template ->
      (Js.truthy (plan context) = false \/ Js.includes template "{plan}" = false ->
       getFollowUpMessage prompts inherited type context
       = Return (MessageText template))
      /\ (forall (p : PlanType) pre post,
             plan context = Some (plan_name p) ->
             template = pre ++ "{plan}" ++ post ->
             Js.includes pre "{" = false ->
             getFollowUpMessage prompts inherited type context
             = Return (MessageText (pre ++ formatPlanName p ++ post))))
  /\ (FOLLOW_UP_TEMPLATES prompts type = None ->
      getFollowUpMessage prompts inherited type context
      = if inherited type
        then if Js.truthy (plan context)
             then Throw "TypeError: message.replace is not a function"
             else Return NotAText
        else Return (MessageText ""))
  /\ (forall now c f,
         calculateFollowUpTime now c = Some f -> followup_type f ∈ followUpTypes).
Proof.
  split; [|split].
  - intros template Ht. unfold getFollowUpMessage, lookupTemplate. rewrite Ht. split.
    + intros Hcase. destruct (String.eqb_spec template "") as [->|_]; [reflexivity|].
      destruct (Js.truthy (plan context)) eqn:Hp; [|reflexivity].
      destruct Hcase as [Hp' | Hno]; [discriminate|].
      now rewrite (replace_first_absent _ _ _ Hno).
    + intros p pre post Hp -> Hno. rewrite Hp.
      assert (Js.truthy (Some (plan_name p)) = true) as -> by now destruct p.
      cbn [default].
      destruct (String.eqb_spec (pre ++ "{plan}" ++ post) "") as [E|_].
      * destruct pre; discriminate E.
      * now rewrite (replace_first_here "{"%char "plan}" _ pre post Hno).
  - intros Ht. unfold getFollowUpMessage, lookupTemplate. rewrite Ht.
    destruct (inherited type); reflexivity.
  - intros now c f H. unfold followUpTypes.
    destruct (calculateFollowUpTime_some _ _ _ H) as [E | [E | E]];
      [unfold trialFollowUp in E | unfold ghosterFollowUp in E
      | unfold postTrialFollowUp in E];
      repeat match type of E with
        | match ?o with Some _ => _ | None => _ end = _ =>
            destruct o; [|discriminate E]
        | (if ?b then _ else _) = _ => destruct b
        end;
      try discriminate E; injection E as <-; apply list_elem_of_In; cbn; tauto.
Qed.

Lemma getFollowUpMessage_fills_plan_witness :
  getFollowUpMessage
    {| DEVICE_SETUP_INSTRUCTIONS := fun _ => "";
       PAYMENT_TEMPLATES_revolut := ""; PAYMENT_TEMPLATES_paypal := "";
       PAYMENT_TEMPLATES_both := "";
       FOLLOW_UP_TEMPLATES := fun type =>
         if String.eqb type "review_request_immediate"
         then Some "Your {plan} is now active." else None |}
    (fun _ => false) "review_request_immediate"
    (set_plan yearly ghosted_lead)
  = Return (MessageText "Your Yearly Plan is now active.").
Proof.
  match goal with
  | |- getFollowUpMessage ?prompts ?inh ?type ?c = _ =>
      destruct (getFollowUpMessage_fills_plan prompts inh type c) as [H _];
      destruct (H "Your {plan} is now active." eq_refl) as [_ H']
  end.
  apply (H' yearly "Your " " is now active."); reflexivity.
Defined.

(** ** The notification of a turn of the auto-advance revision *)




Lemma one_customer_heap c : heap (one_customer c) !! 0%nat = Some c.
Proof. apply lookup_singleton_eq. Qed.

Lemma one_customer_stored c : stored (phone c) (one_customer c) = Some c.
Proof.
  unfold stored.
  change (conversations (one_customer c)) with ({[ phone c := 0%nat ]} : gmap string loc).
  rewrite lookup_singleton_eq. apply one_customer_heap.
Qed.


(** ** The price list, in the state-machine revision *)

Section PricingTurn.

Variable prompts : Prompts.
Variable JSON_parse : string -> Outcome IntentResult.
Variable ph : string.
Variable l : loc.

(** A turn whose message is classified as a question about the price and
    is not escalated, when the answer of the classifier has entities. *)
Lemma triple_turn_pricing message intent_call reply_call intent e c :
  detectIntent JSON_parse true intent_call = Return intent ->
  ir_entities intent = Some e ->
  ir_intent intent = "pricing" ->
  escalated intent message = false ->
  triple (at_ l (eq c) (Conv ph l))
         (AIService.handleIncomingMessage prompts JSON_parse true ph message
            intent_call reply_call)
         (fun r w =>
            exists now t,
              let c1 := set_state awaiting_payment
                          (classified (ir_sentiment intent) e
                             (set_lastMessageAt now c)) in
              r = AIService.reply (getPricingMessage (plan c1)) l
              /\ at_ l (eq (set_updatedAt t c1)) (Conv ph l) w).
Proof.
  intros Hi He Hpricing Hesc.
  pose proof (framed_Conv ph l) as HF.
  unfold AIService.handleIncomingMessage. cbn [negb].
  apply (triple_turn_classified JSON_parse ph l message intent_call intent
           (fun context intent =>
              AIService.updateContextFromIntent context intent message ;; _));
    [exact Hi|].
  intros now.
  eapply triple_bind; [apply (triple_updateContextFromIntent ph l _ _ _ _ He)|].
  intros []. set (c0 := classified _ e _).
  pose proof (classified_fields (ir_sentiment intent) e (set_lastMessageAt now c))
    as (Hs & _).
  fold c0 in Hs.
  apply triple_get_exact.
  rewrite (shouldEscalateToHuman_escalated _ _ _ Hs), Hesc.
  eapply triple_bind
    with (Q := fun r w =>
                 r = AIService.reply (getPricingMessage (plan c0)) l
                 /\ at_ l (eq (set_state awaiting_payment c0)) (Conv ph l) w).
  - unfold AIService.processMessage. apply triple_get_exact.
    rewrite Hpricing. change (String.eqb "pricing" "pricing") with true. cbv iota.
    unfold AIService.handlePricingRequest.
    apply triple_get_exact.
    eapply triple_bind; [apply triple_modify_exact; assumption|].
    intros []. apply triple_ret. intros w Hw. split; [reflexivity | exact Hw].
  - intros response. apply triple_pure. intros ->.
    cbn [AIService.reply resp_message resp_context].
    eapply triple_bind; [apply triple_newDate; assumption|]. intros ts'.
    eapply triple_bind; [apply triple_addMessage; assumption|]. intros [].
    eapply triple_bind; [apply triple_updateContext_same; [assumption | auto]|].
    intros r. apply triple_ret.
    intros w [[c' [Hl [c1 [t [<- ->]]]]] Hw].
    exists now, t. split; [reflexivity|]. split; [|exact Hw].
    eexists. split; [exact Hl | reflexivity].
Qed.

End PricingTurn.

(** X18. In the state-machine revision a message that is classified as a
    question about the price, and is not escalated, is answered with the
    price list and puts the context in [awaiting_payment] whatever state
    it was in: a lead in the funnel, but also a customer whose payment is
    being verified or an active subscriber. This is so when the answer of
    the classifier has entities; when it has none, the turn throws and
    the state is what it was. The previous state is not recorded. The
    plan is the one the classifier found in the message, whatever string
    that is, or else the plan the context had; the price list recommends
    the lifetime plan when that plan is the yearly one. *)
Theorem pricing_turn_awaits_payment
    (prompts : Prompts) (JSON_parse : string -> Outcome IntentResult)
    (ph message : string) (intent_call reply_call : Outcome string)
    (w : World) (c : CustomerContext) :
  stored ph w = Some c ->
  let intent := detected JSON_parse true intent_call in
  let turn := AIService.handleIncomingMessage prompts JSON_parse true ph message
                intent_call reply_call in
  ir_intent intent = "pricing" ->
  escalated intent message = false ->
  match ir_entities intent with
  | Some e =>
      exists l w' c',
        conversations w !! ph = Some l
        /\ turn w = (Return (AIService.reply (getPricingMessage (plan c')) l), w')
        /\ stored ph w' = Some c'
        /\ state c' = awaiting_payment
        /\ previousState c' = previousState c
        /\ overwritten (plan_interest e) (plan c) (plan c')
  | None =>
      result_of turn w
      = Throw "TypeError: Cannot read properties of undefined (reading 'device')"
      /\ state <$> stored ph (world_after turn w) = Some (state c)
  end.
Proof.
  intros Hst intent turn Hpricing Hesc.
  assert (exists l, conversations w !! ph = Some l /\ heap w !! l = Some c)
    as (l & Hc & Hl).
  { unfold stored in Hst. destruct (conversations w !! ph) as [l|]; [|discriminate].
    exists l. auto. }
  destruct (ir_entities intent) as [e|] eqn:He.
  - destruct (triple_turn_pricing prompts JSON_parse ph l message intent_call
                reply_call intent e c (detectIntent_detected _ _ _) He Hpricing Hesc w)
      as (r & w' & E & now & t & -> & [[c' [Hl' <-]] Hconv]).
    { split; [|exact Hc]. now exists c. }
    pose proof (classified_fields (ir_sentiment intent) e (set_lastMessageAt now c))
      as (_ & _ & Hplan & _ & _ & _ & _ & _ & Hprev & _).
    cbn [plan previousState set_lastMessageAt] in Hplan, Hprev.
    exists l, w',
      (set_updatedAt t
         (set_state awaiting_payment
            (classified (ir_sentiment intent) e (set_lastMessageAt now c)))).
    split; [exact Hc|]. split; [exact E|].
    split; [unfold stored; rewrite Hconv; exact Hl'|].
    split; [reflexivity|]. split; [exact Hprev|].
    cbn [plan set_updatedAt set_state]. rewrite Hplan. apply overwritten_truthy.
  - destruct (raises_turn_without_entities prompts JSON_parse ph l message
                intent_call reply_call intent (fun c' => state c' = state c)
                (detectIntent_detected _ _ _) He) with (w := w)
      as (error & w' & E & -> & [[c' [Hl' Hs']] Hconv]).
    { intros c' Hc'. cbn. repeat split; intros; exact Hc'. }
    { split; [|exact Hc]. now exists c. }
    unfold result_of, world_after. subst turn. rewrite E. cbn [fst snd].
    split; [reflexivity|]. unfold stored. rewrite Hconv. cbn. rewrite Hl'. cbn.
    now rewrite Hs'.
Qed.

Lemma pricing_turn_awaits_payment_witness :
  state subscriber = active_subscriber
  /\ state <$> stored "353870000000"
                 (world_after
                    (AIService.handleIncomingMessage sample_prompts sample_parse true
                       "353870000000" "how much is it"
                       (Return (intent_json "pricing")) (Return "ok"))
                    (one_customer subscriber))
     = Some awaiting_payment.
Proof.
  split; [reflexivity|].
  pose proof (pricing_turn_awaits_payment sample_prompts sample_parse "353870000000"
                "how much is it" (Return (intent_json "pricing")) (Return "ok")
                (one_customer subscriber) subscriber (one_customer_stored subscriber))
    as H.
  cbv zeta in H.
  assert (detected sample_parse true (Return (intent_json "pricing"))
          = labelled "pricing") as Hi by (vm_compute; reflexivity).
  rewrite Hi in H. cbn [ir_entities ir_intent labelled] in H.
  destruct H as (l & w' & c' & _ & E & Hst & Hs & _);
    [reflexivity | vm_compute; reflexivity |].
  unfold world_after. rewrite E. cbn [snd]. rewrite Hst. cbn. now rewrite Hs.
Defined.

(** ** The payment flow of the state-machine revision *)

(** The plan that [handlePaymentFlow] reads in a message, in the order of
    its tests. *)
Lemma handlePaymentFlow_plan_run l (lower : string) c w :
  heap w !! l = Some c ->
  let picked :=
    if Js.includes lower "lifetime" then Some lifetime
    else if Js.includes lower "2 year" || Js.includes lower "two year"
    then Some plan_2years
    else if Js.includes lower "3 year" || Js.includes lower "three year"
    then Some plan_3years
    else if Js.includes lower "year" then Some yearly
    else if Js.includes lower "month" then Some monthly
    else None in
  (if Js.includes lower "lifetime" then modify l (set_plan lifetime)
   else if Js.includes lower "2 year" || Js.includes lower "two year"
   then modify l (set_plan plan_2years)
   else if Js.includes lower "3 year" || Js.includes lower "three year"
   then modify l (set_plan plan_3years)
   else if Js.includes lower "year" then modify l (set_plan yearly)
   else if Js.includes lower "month" then modify l (set_plan monthly)
   else ret tt) w
  = (Return tt,
     with_heap (<[l := match picked with Some p => set_plan p c | None => c end]>
                  (heap w)) w).
Proof.
  intros Hl. cbv zeta.
  repeat match goal with
    | |- context [if ?b then _ else _] =>
        lazymatch b with
        | context [if _ then _ else _] => fail
        | _ => destruct b
        end
    end;
    first [ apply (modify_run _ _ _ _ Hl)
          | unfold ret; now rewrite (with_heap_same _ _ _ Hl) ].
Qed.

Lemma includes_longer lower part kw :
  carries part kw -> Js.includes lower kw = false -> Js.includes lower part = false.
Proof.
  intros Hk Hn. destruct (Js.includes lower part) eqn:E; [|reflexivity].
  apply includes_carries in E.
  pose proof (proj2 (includes_carries lower kw) (carries_trans _ _ _ E Hk)). congruence.
Qed.

(** X19. In the states [trial_expired] and [awaiting_payment] of the
    state-machine revision (the intent being neither [pricing] nor
    [technical_issue]) a message that names a payment method is answered
    with the instructions for that method and nothing but the method is
    stored: a plan or a payment confirmation in the same message is not
    taken up and the admin is not notified; Revolut, bank and IBAN come
    before PayPal. A message that names no method never changes the
    method; "lifetime" in it selects the lifetime plan whatever else it
    says, any mention of "year" selects one of the plans of a year or
    more, and without "lifetime", "year" and "month" the plan is kept. If
    it then reads as a payment confirmation the context goes to
    [payment_pending] and the admin gets the payment notification written
    from the context with the plan just selected; if not, the state is
    kept and the reply asks for the payment method. The keywords are
    looked for as everywhere in this development: in the message with its
    ASCII letters put in lower case. The plan that the context holds is
    assumed to be none of the names that every object inherits, for which
    [formatPlanName] returns no string. *)
Theorem payment_flow_method_first (prompts : Prompts) (l : loc) (message : string)
    (intent : IntentResult) (call : Outcome string) (c : CustomerContext)
    (w : World) :
  heap w !! l = Some c ->
  plain (plan c) ->
  state c = trial_expired \/ state c = awaiting_payment ->
  ir_intent intent <> "pricing" ->
  ir_intent intent <> "technical_issue" ->
  let names kw := Js.includes (Js.toLowerCase message) kw in
  exists r c',
    AIService.processMessage prompts true l message intent call w
    = (Return r, with_heap (<[l := c']> (heap w)) w)
    /\ if names "revolut" || names "bank" || names "iban"
       then c' = set_paymentMethod revolut c
            /\ r = AIService.reply (getPaymentInstructions prompts (Some revolut)) l
       else if names "paypal"
       then c' = set_paymentMethod paypal c
            /\ r = AIService.reply (getPaymentInstructions prompts (Some paypal)) l
       else paymentMethod c' = paymentMethod c
            /\ (names "lifetime" = true -> plan c' = Some "lifetime")
            /\ (names "year" = true ->
                plan c' ∈ [Some "lifetime"; Some "2years"; Some "3years"; Some "yearly"])
            /\ (names "lifetime" = false -> names "year" = false ->
                names "month" = false -> plan c' = plan c)
            /\ if isPaymentConfirmation message
               then state c' = payment_pending
                    /\ paymentPending c' = Some true
                    /\ r = AIService.reply_notify AIService.payment_check_reply l
                             payment_received (createPaymentNotification c')
               else state c' = state c
                    /\ paymentPending c' = paymentPending c
                    /\ r = AIService.reply (AIService.payment_options_reply c') l.
Proof.
  intros Hl _ Hs Hp Ht names.
  assert (AIService.processMessage prompts true l message intent call w
          = AIService.handlePaymentFlow prompts l message intent w) as ->.
  { unfold AIService.processMessage.
    rewrite (bind_run _ _ _ _ _ (get_run _ _ _ Hl)).
    apply String.eqb_neq in Hp, Ht. rewrite Hp, Ht.
    now destruct Hs as [-> | ->]. }
  unfold AIService.handlePaymentFlow. fold (names "revolut") (names "bank")
    (names "iban") (names "paypal").
  destruct (names "revolut" || names "bank" || names "iban").
  { rewrite (bind_run _ _ _ _ _ (modify_run _ _ _ _ Hl)).
    eexists _, _. split; [reflexivity|]. split; reflexivity. }
  destruct (names "paypal").
  { rewrite (bind_run _ _ _ _ _ (modify_run _ _ _ _ Hl)).
    eexists _, _. split; [reflexivity|]. split; reflexivity. }
  pose proof (handlePaymentFlow_plan_run l (Js.toLowerCase message) c w Hl) as Epl.
  cbv zeta in Epl. rewrite (bind_run _ _ _ _ _ Epl). clear Epl.
  fold (names "lifetime") (names "2 year") (names "two year") (names "3 year")
    (names "three year") (names "year") (names "month").
  set (picked := if names "lifetime" then Some lifetime else _).
  set (c1 := match picked with Some p => set_plan p c | None => c end).
  assert (paymentMethod c1 = paymentMethod c /\ state c1 = state c
          /\ paymentPending c1 = paymentPending c
          /\ plan c1 = match picked with
                       | Some p => Some (plan_name p)
                       | None => plan c
                       end) as (Hm1 & Hs1 & Hpp1 & Hpl1)
    by (subst c1; destruct picked; repeat split).
  assert ((names "lifetime" = true -> plan c1 = Some "lifetime")
          /\ (names "year" = true ->
              plan c1 ∈ [Some "lifetime"; Some "2years"; Some "3years"; Some "yearly"])
          /\ (names "lifetime" = false -> names "year" = false ->
              names "month" = false -> plan c1 = plan c)) as Hplan.
  { rewrite Hpl1. subst picked. repeat split.
    - intros ->. reflexivity.
    - intros ->. apply list_elem_of_In.
      destruct (names "lifetime"), (names "2 year" || names "two year"),
        (names "3 year" || names "three year"); cbn; tauto.
    - intros -> Hy ->.
      assert (names "2 year" = false) as ->
        by (apply (includes_longer _ _ "year"); [now exists "2 ", "" | exact Hy]).
      assert (names "two year" = false) as ->
        by (apply (includes_longer _ _ "year"); [now exists "two ", "" | exact Hy]).
      assert (names "3 year" = false) as ->
        by (apply (includes_longer _ _ "year"); [now exists "3 ", "" | exact Hy]).
      assert (names "three year" = false) as ->
        by (apply (includes_longer _ _ "year"); [now exists "three ", "" | exact Hy]).
      rewrite Hy. reflexivity. }
  clearbody c1. clear picked Hpl1.
  set (w1 := with_heap (<[l := c1]> (heap w)) w).
  assert (heap w1 !! l = Some c1) as Hl1 by (cbn; apply lookup_insert_eq).
  destruct (isPaymentConfirmation message).
  - rewrite (bind_run _ _ _ _ _ (modify_run _ _ _ _ Hl1)). subst w1.
    rewrite with_heap_again.
    set (w2 := with_heap _ w).
    assert (heap w2 !! l = Some (set_state payment_pending c1)) as Hl2
      by (cbn; apply lookup_insert_eq).
    rewrite (bind_run _ _ _ _ _ (modify_run _ _ _ _ Hl2)). subst w2.
    rewrite with_heap_again.
    set (w3 := with_heap _ w).
    assert (heap w3 !! l = Some (set_paymentPending true (set_state payment_pending c1)))
      as Hl3 by (cbn; apply lookup_insert_eq).
    rewrite (bind_run _ _ _ _ _ (get_run _ _ _ Hl3)). subst w3.
    eexists _, _. split; [reflexivity|].
    split; [exact Hm1|]. split; [exact (proj1 Hplan)|].
    split; [exact (proj1 (proj2 Hplan))|]. split; [exact (proj2 (proj2 Hplan))|].
    repeat split.
  - rewrite (bind_run _ _ _ _ _ (get_run _ _ _ Hl1)). subst w1.
    eexists _, _. split; [reflexivity|].
    split; [exact Hm1|]. split; [exact (proj1 Hplan)|].
    split; [exact (proj1 (proj2 Hplan))|]. split; [exact (proj2 (proj2 Hplan))|].
    repeat split; assumption.
Qed.

Lemma payment_flow_method_first_witness :
  isPaymentConfirmation "I sent it by bank transfer" = true
  /\ AIService.processMessage sample_prompts true 0%nat "I sent it by bank transfer"
       (labelled "payment") (Return "ok") (one_customer payer)
     = (Return (AIService.reply (getPaymentInstructions sample_prompts (Some revolut))
                  0%nat),
        with_heap (<[0%nat := set_paymentMethod revolut payer]> (heap (one_customer payer)))
                  (one_customer payer)).
Proof.
  split; [vm_compute; reflexivity|].
  destruct (payment_flow_method_first sample_prompts 0%nat "I sent it by bank transfer"
              (labelled "payment") (Return "ok") payer (one_customer payer)
              (one_customer_heap payer))
    as (r & c' & E & H);
    [intros s [= <-]; vm_compute; intuition discriminate
    | right; reflexivity | discriminate | discriminate |].
  cbv zeta in H.
  match type of H with
  | if ?b then _ else _ =>
      let v := eval vm_compute in b in change b with v in H
  end.
  destruct H as [-> ->]. exact E.
Defined.

(** ** The collection of the MAC address in the state-machine revision *)

(** What [extractMacAddress] finds is not the empty string. *)
Lemma extractMacAddress_truthy message m :
  extractMacAddress message = Some m -> Js.truthy (Some m) = true.
Proof.
  destruct macPatterns_caseless as [Hsep Hbare].
  unfold extractMacAddress, macPatterns. cbn [first_pattern_match].
  intros H.
  assert (String.length m = 17 \/ String.length m = 12)%nat as Hlen.
  { destruct (Regex.search mac_separated message) as [m1|] eqn:E1.
    - injection H as <-. apply search_sound in E1 as (_ & _ & HM & _).
      left. exact (Matches_length _ _ (Matches_toUpperCase _ _ Hsep HM)).
    - destruct (Regex.search mac_bare message) as [m2|] eqn:E2; [|discriminate].
      injection H as <-. apply search_sound in E2 as (_ & _ & HM & _).
      right. exact (Matches_length _ _ (Matches_toUpperCase _ _ Hbare HM)). }
  destruct m; [cbn in Hlen; lia | reflexivity].
Qed.

Lemma extractMacAddress_short message :
  (String.length message < 12)%nat -> extractMacAddress message = None.
Proof.
  intros Hlen. unfold extractMacAddress, macPatterns. cbn [first_pattern_match].
  rewrite (search_too_short mac_separated) by (cbn; lia).
  now rewrite (search_too_short mac_bare) by (cbn; lia).
Qed.

Lemma bind_ret_run {A B} (a : A) (k : A -> M B) w : bind (ret a) k w = k a w.
Proof. reflexivity. Qed.

(** X20. While it waits for the MAC address (the intent being neither
    [pricing] nor [technical_issue]) the state machine first reads the
    MAC address of the classifier, which throws a [TypeError] and changes
    nothing when the answer has no entities. Otherwise it never notifies
    the admin and handles a message as follows. A mention of TiviMate sets the
    device to TiviMate and moves on to the content preference without
    storing a MAC address, whatever else the message holds. Otherwise the
    context moves on with a MAC address stored: the non-empty one the
    classifier found, or else the one [extractMacAddress] finds, in its
    normal form, or else, when the message is longer than ten characters
    or holds a colon or six hexadecimal digits in a row, the message
    itself, word for word. Only a message with none of these gets the help
    text and leaves the context as it is. The length is the number of
    characters of the embedding, the length of the source for a message
    of ASCII characters. *)
Theorem mac_collection_takes_the_message (prompts : Prompts) (l : loc)
    (message : string) (intent : IntentResult) (call : Outcome string)
    (c : CustomerContext) (w : World) :
  heap w !! l = Some c ->
  state c = awaiting_mac ->
  ir_intent intent <> "pricing" ->
  ir_intent intent <> "technical_issue" ->
  let lower := Js.toLowerCase message in
  let stores m := set_state awaiting_content_pref (set_macAddress m c) in
  match ir_entities intent with
  | None =>
      AIService.processMessage prompts true l message intent call w
      = (Throw "TypeError: Cannot read properties of undefined (reading 'mac_address')", w)
  | Some e =>
  let given := mac_address e in
  exists r c',
    AIService.processMessage prompts true l message intent call w
    = (Return r, with_heap (<[l := c']> (heap w)) w)
    /\ shouldNotifyAdmin r = false
    /\ resp_context r = l
    /\ if Js.includes lower "tivimate" || Js.includes lower "tivi mate"
       then c' = set_state awaiting_content_pref (set_device "tivimate" c)
            /\ resp_message r = AIService.tivimate_reply
       else (forall m, given = Some m -> m <> "" -> c' = stores m)
            /\ (Js.truthy given = false ->
                forall m, extractMacAddress message = Some m -> c' = stores m)
            /\ (Js.truthy given = false -> extractMacAddress message = None ->
                (10 < String.length message)%nat
                \/ Js.includes message ":" = true
                \/ is_Some (Regex.search (repeat Regex.hex 6) message) ->
                c' = stores message
                /\ resp_message r = AIService.device_details_reply)
            /\ (Js.truthy given = false ->
                (String.length message <= 10)%nat ->
                Js.includes message ":" = false ->
                Regex.search (repeat Regex.hex 6) message = None ->
                c' = c /\ resp_message r = AIService.mac_help)
  end.
Proof.
  intros Hl Hs Hp Ht lower stores.
  assert (AIService.processMessage prompts true l message intent call w
          = AIService.handleMacCollection l message intent w) as ->.
  { unfold AIService.processMessage.
    rewrite (bind_run _ _ _ _ _ (get_run _ _ _ Hl)).
    apply String.eqb_neq in Hp, Ht. now rewrite Hp, Ht, Hs. }
  unfold AIService.handleMacCollection, entities_of.
  destruct (ir_entities intent) as [e|]; [|reflexivity].
  rewrite bind_ret_run. cbv zeta. subst lower. unfold str_else.
  destruct (Js.includes (Js.toLowerCase message) "tivimate"
            || Js.includes (Js.toLowerCase message) "tivi mate").
  { rewrite (bind_run _ _ _ _ _ (modify_run _ _ _ _ Hl)).
    set (w1 := with_heap _ w).
    assert (heap w1 !! l = Some (set_device "tivimate" c)) as Hl1
      by (cbn; apply lookup_insert_eq).
    rewrite (bind_run _ _ _ _ _ (modify_run _ _ _ _ Hl1)). subst w1.
    rewrite with_heap_again.
    eexists _, _. split; [reflexivity|]. repeat split. }
  assert (forall m, heap w !! l = Some c ->
            (modify l (set_macAddress m) ;;
             modify l (set_state awaiting_content_pref) ;;
             ret (AIService.reply AIService.device_details_reply l)) w
            = (Return (AIService.reply AIService.device_details_reply l),
               with_heap (<[l := stores m]> (heap w)) w)) as Hrun.
  { intros m _. rewrite (bind_run _ _ _ _ _ (modify_run _ _ _ _ Hl)).
    set (w1 := with_heap _ w).
    assert (heap w1 !! l = Some (set_macAddress m c)) as Hl1
      by (cbn; apply lookup_insert_eq).
    rewrite (bind_run _ _ _ _ _ (modify_run _ _ _ _ Hl1)). subst w1.
    now rewrite with_heap_again. }
  destruct (Js.truthy (mac_address e)) eqn:Eg; rewrite ?Eg.
  - (* the classifier found one *)
    cbn [orb]. rewrite (Hrun _ Hl).
    destruct (mac_address e) as [m0|] eqn:Egiven;
      [|discriminate Eg]. cbn [default].
    eexists _, _. do 3 (split; [reflexivity|]).
    split; [now intros m [= ->] _|].
    split; [discriminate|]. split; discriminate.
  - assert (forall m, mac_address e = Some m -> m <> "" -> False)
      as Hnone.
    { intros m Hm Hne. rewrite Hm in Eg. cbn in Eg.
      apply negb_false_iff, String.eqb_eq in Eg. contradiction. }
    destruct (extractMacAddress message) as [m1|] eqn:Ex.
    + (* found in the message *)
      rewrite (extractMacAddress_truthy _ _ Ex). cbn [orb default].
      rewrite (Hrun _ Hl).
      eexists _, _. do 3 (split; [reflexivity|]).
      split; [intros m Hm Hne; destruct (Hnone m Hm Hne)|].
      split; [now intros _ m [= ->]|].
      split; [intros _ [=]|].
      intros _ Hlen _ _. exfalso.
      rewrite extractMacAddress_short in Ex by lia. discriminate Ex.
    + cbn [Js.truthy orb].
      destruct ((10 <? Z.of_nat (String.length message))
                || Js.includes message ":"
                || Js.present (Regex.search (repeat Regex.hex 6) message)) eqn:Eacc.
      * rewrite (Hrun _ Hl).
        eexists _, _. do 3 (split; [reflexivity|]).
        split; [intros m Hm Hne; destruct (Hnone m Hm Hne)|].
        split; [intros _ m [=]|].
        split; [intros _ _ _; split; reflexivity|].
        intros _ Hlen Hcolon Hhex. exfalso. rewrite !orb_true_iff in Eacc.
        destruct Eacc as [[Hl' | Hc'] | Hh'].
        -- apply Z.ltb_lt in Hl'. lia.
        -- congruence.
        -- rewrite Hhex in Hh'. discriminate Hh'.
      * rewrite !orb_false_iff in Eacc. destruct Eacc as [[Hlen Hcolon] Hhex].
        apply Z.ltb_ge in Hlen.
        exists (AIService.reply AIService.mac_help l), c.
        split; [unfold ret; now rewrite (with_heap_same _ _ _ Hl)|].
        do 2 (split; [reflexivity|]).
        split; [intros m Hm Hne; destruct (Hnone m Hm Hne)|].
        split; [intros _ m [=]|].
        split; [|intros _ _ _ _; split; reflexivity].
        intros _ _ [H | [H | [x H]]]; exfalso; [lia | congruence |].
        rewrite H in Hhex. discriminate Hhex.
Qed.

Lemma mac_collection_takes_the_message_witness :
  exists r,
    AIService.processMessage sample_prompts true 0%nat "I dont know"
      (labelled "other") (Return "ok") (one_customer mac_asked)
    = (Return r,
       with_heap (<[0%nat := set_state awaiting_content_pref
                               (set_macAddress "I dont know" mac_asked)]>
                    (heap (one_customer mac_asked)))
                 (one_customer mac_asked)).
Proof.
  destruct (mac_collection_takes_the_message sample_prompts 0%nat "I dont know"
              (labelled "other") (Return "ok") mac_asked (one_customer mac_asked)
              (one_customer_heap mac_asked))
    as (r & c' & E & _ & _ & H); [reflexivity | discriminate | discriminate |].
  cbv zeta in H.
  match type of H with
  | if ?b then _ else _ =>
      let v := eval vm_compute in b in change b with v in H
  end.
  destruct H as (_ & _ & H & _).
  destruct H as [-> _]; [reflexivity | reflexivity | left; cbn; lia |].
  exists r. exact E.
Defined.

(** ** The states in which the state machine waits *)

(** X21. In the state-machine revision a message classified as a technical
    issue, in whatever state, and any message that is not a question about
    the price in the states [trial_pending], [payment_pending],
    [active_subscriber], [churned] and [needs_human], leaves the stored
    context exactly as it is. A technical issue is answered with the
    questionnaire and reported to the admin with the customer's words.
    While a payment is pending every message, whatever it says, is
    answered with the same holding text and reported to the admin as a
    receipt. In the other states the reply is the one of the hosted
    model, without notification; when that request fails, the apology
    with the error reported as an escalation. *)
Theorem waiting_states_hold (prompts : Prompts) (l : loc) (message : string)
    (intent : IntentResult) (call : Outcome string) (c : CustomerContext)
    (w : World) :
  heap w !! l = Some c ->
  ir_intent intent <> "pricing" ->
  ir_intent intent = "technical_issue"
  \/ state c ∈ [trial_pending; payment_pending; active_subscriber; churned; needs_human] ->
  exists r w',
    AIService.processMessage prompts true l message intent call w = (Return r, w')
    /\ heap w' !! l = Some c
    /\ conversations w' = conversations w
    /\ messageHistory w' = messageHistory w
    /\ (ir_intent intent = "technical_issue" ->
        w' = w
        /\ r = AIService.reply_notify AIService.technical_reply l technical_issue
                 (AIService.technical_message c message))
    /\ (ir_intent intent <> "technical_issue" ->
        if bool_decide (state c = payment_pending)
        then w' = w
             /\ r = AIService.reply_notify AIService.payment_hold_reply l
                      payment_received (AIService.receipt_message c message)
        else match call with
             | Return text => w' = w /\ r = AIService.reply text l
             | Throw error =>
                 resp_message r = AIService.ai_error_reply
                 /\ resp_context r <> l
                 /\ adminNotification r
                    = Some (mkNotification escalation
                              (AIService.ai_error_message c error message))
             end).
Proof.
  intros Hl Hp Hcase.
  unfold AIService.processMessage.
  rewrite (bind_run _ _ _ _ _ (get_run _ _ _ Hl)).
  apply String.eqb_neq in Hp. rewrite Hp.
  destruct (String.eqb (ir_intent intent) "technical_issue") eqn:Ht.
  - apply String.eqb_eq in Ht.
    unfold AIService.handleTechnicalIssue.
    rewrite (bind_run _ _ _ _ _ (get_run _ _ _ Hl)).
    eexists _, _. split; [reflexivity|]. do 3 (split; [assumption || reflexivity|]).
    split; [intros _; split; reflexivity | intros H; contradiction].
  - apply String.eqb_neq in Ht.
    destruct Hcase as [Hcase | Hcase]; [contradiction|].
    assert (exists r w',
              AIService.generateAIResponse true l message call w = (Return r, w')
              /\ heap w' !! l = Some c
              /\ conversations w' = conversations w
              /\ messageHistory w' = messageHistory w
              /\ match call with
                 | Return text => w' = w /\ r = AIService.reply text l
                 | Throw error =>
                     resp_message r = AIService.ai_error_reply
                     /\ resp_context r <> l
                     /\ adminNotification r
                        = Some (mkNotification escalation
                                  (AIService.ai_error_message c error message))
                 end) as (r & w' & Eg & Hl' & Hc' & Hh' & Hr).
    { unfold AIService.generateAIResponse. cbn [negb].
      destruct call as [text|error].
      - eexists _, _. split; [reflexivity|]. repeat split; assumption.
      - rewrite (bind_run _ _ _ _ _ (get_run _ _ _ Hl)).
        assert (fresh (dom (heap w)) <> l) as Hne
          by (intros E; pose proof (fresh_unused w) as Hf; rewrite E in Hf; congruence).
        eexists _, _. split; [reflexivity|]. cbn.
        split; [now rewrite lookup_insert_ne|]. repeat split. exact Hne. }
    apply list_elem_of_In in Hcase. cbn in Hcase.
    destruct Hcase as [Hs | [Hs | [Hs | [Hs | [Hs | []]]]]]; rewrite <- Hs.
    + exists r, w'. split; [exact Eg|]. do 3 (split; [assumption|]).
      split; [intros; contradiction | intros _; exact Hr].
    + unfold AIService.handlePaymentPending.
      rewrite (bind_run _ _ _ _ _ (get_run _ _ _ Hl)).
      eexists _, _. split; [reflexivity|]. do 3 (split; [assumption || reflexivity|]).
      split; [intros; contradiction | intros _; cbn; split; reflexivity].
    + unfold AIService.handleActiveSubscriber.
      apply String.eqb_neq in Ht. rewrite Ht.
      exists r, w'. split; [exact Eg|]. do 3 (split; [assumption|]).
      split; [intros H; apply String.eqb_neq in Ht; contradiction | intros _; exact Hr].
    + exists r, w'. split; [exact Eg|]. do 3 (split; [assumption|]).
      split; [intros; contradiction | intros _; exact Hr].
    + exists r, w'. split; [exact Eg|]. do 3 (split; [assumption|]).
      split; [intros; contradiction | intros _; exact Hr].
Qed.

Lemma waiting_states_hold_witness :
  exists r w',
    AIService.processMessage sample_prompts true 0%nat "is it ready?"
      (labelled "other") (Return "ok")
      (one_customer (set_state payment_pending payer)) = (Return r, w')
    /\ notif_type <$> adminNotification r = Some payment_received.
Proof.
  destruct (waiting_states_hold sample_prompts 0%nat "is it ready?"
              (labelled "other") (Return "ok") (set_state payment_pending payer)
              (one_customer (set_state payment_pending payer))
              (one_customer_heap _))
    as (r & w' & E & _ & _ & _ & _ & H).
  - discriminate.
  - right. apply list_elem_of_In. cbn. tauto.
  - destruct H as [_ ->]; [discriminate|].
    eexists _, _. split; [exact E | reflexivity].
Defined.
